(* ===== verification/_CoqProject ===== *)
-Q . S2P
Prelude.v
GoStrings.v
GoNum.v
GoMaps.v
GoTime.v
Sha256.v
Model.v
Chain.v
SyncDiff.v
LsRemote.v
Sqlc.v
StoreSpec.v
SqliteStore.v
SqliteTx.v
SqliteSpec.v
Lock.v
SyncRemote.v
SyncCorrect.v
SyncProps.v
StoreProps.v
Testutil.v
Mysqlc.v
MysqlStore.v
MysqlTx.v
MysqlSpec.v
MysqlProps.v
MysqlLease.v
Cache.v
CacheProps.v
CacheRaces.v
Handlers.v
HandlersProps.v
Consolidate.v
ConsolidateProps.v
SeedMerge.v
SeedProps.v
Seed.v
Scheduler.v
SeedWrite.v
Config.v
GoHttp.v
Auth.v
AuthProps.v
Migrate.v
MigrateProps.v
GoUrl.v
GitUrl.v
GitUrlProps.v
GoJson.v
GoJsonProps.v
SeedClient.v
GoFlag.v
OapiWire.v
Server.v
ServerProps.v
OapiEnums.v
Overlap.v
OverlapProps.v
Ops.v
Daemon.v
DaemonProps.v
GitServer.v
Ctl.v
WireProps.v
CtlProps.v
Cli.v
EndToEnd.v
SeedEndToEnd.v
