(* ===== verification/Prelude.v ===== *)
(** * git-tainted: a verification library

    git-tainted watches the tags of git remotes.  A server lists the tags of every
    registered remote with [git ls-remote], keeps a projection of them, appends one
    hash-chained ledger row per change, and marks a tag as tainted, for good, when
    its object id moved.  GET /v1/verify answers whether a tag at a commit can be
    trusted; a command line tool asks several servers and consolidates their
    verdicts; a control tool administers one server; a fresh server can bootstrap
    from its peers under a quorum.

    ** The parts, their models and how they meet

    - Data and errors (internal/model): Model.v.  Go strings with a closed set of
      values stay strings, pointers to optional values are [option]s, [int64] is
      [Z] with [wrap64] where arithmetic can leave the range.  Nil and empty slices
      are not distinguished.  An [error] is its sentinel; its text is dropped, except
      where a response carries it.
    - Standard library: GoStrings.v (strings, strconv, hex), GoNum.v (ParseInt),
      GoMaps.v (maps ranged over in an unspecified order, sort.Strings), GoTime.v
      (durations on IEEE floats, RFC 3339), GoHttp.v (requests, headers, the routing of
      ServeMux), GoUrl.v (url.Parse, query values, loopback hosts), GoJson.v (the trees of
      encoding/json, printed and parsed; struct fields found without regard to case;
      GoJsonProps.v, the round trip),
      GoFlag.v (FlagSet), Sha256.v (SHA-256, executable, tested on the vectors of the
      standard).
    - The ledger's encoding and hash (internal/store/chain.go): Chain.v, with
      [replay], the check an auditor runs.
    - The classification of one tag (internal/sync/diff.go, format.go): SyncDiff.v.
    - The listing (internal/git/lsremote.go, runner.go): LsRemote.v; the subprocess
      is a parameter.  Url validation (internal/git/url.go): GitUrl.v, GitUrlProps.v.
    - Persistence.  StoreSpec.v is the seam (internal/model/store.go): classes [Store] and
      [Tx], an abstract state [Abs] and what each method promises on it ([StoreSpec],
      [TxSpec]).  Two implementations keep the promise:
      SQLite: Sqlc.v is the database, one operation per generated statement of
      internal/store/sqlite/sqlc with the constraints of db/migrations-sqlite;
      SqliteStore.v and SqliteTx.v are store.go, convert.go and tx.go on it;
      SqliteSpec.v is the refinement ([db_abs], [db_ok]), StoreProps.v what follows.
      MySQL: Mysqlc.v, MysqlStore.v, MysqlTx.v, MysqlSpec.v likewise for
      internal/store/mysql, on the same tables with a server ([srv]) that compares texts by a
      collation, draws ids and refuses what a column does not hold; MysqlProps.v,
      MysqlLease.v.
    - Migrations (internal/store/migrate.go): Migrate.v, MigrateProps.v.
    - The cache in front of a store (internal/store/cache/cache.go): Cache.v, programs of
      atomic actions on the caches, the generations and the inner store, so that requests
      interleave; CacheProps.v, CacheRaces.v.
    - The lease (internal/lock/dblease.go): Lock.v, over the seam.
    - The sync of one remote (internal/sync/remote.go): SyncRemote.v, over the seam
      and with the listing as a parameter; SyncCorrect.v proves what it does
      against the promise of the seam; SyncProps.v states it for SQLite.
    - The polling loop (internal/sync/scheduler.go): Scheduler.v, a transition
      system.
    - The HTTP API: Handlers.v is internal/api/handlers.go over the seam; OapiWire.v the JSON
      of oapi/server.gen.go; Server.v the way of a request from its bytes through body limit,
      authentication gate, router, parameter binding and handler to the bytes of the response
      (server.go and the glue of server.gen.go); HandlersProps.v, ServerProps.v; OapiEnums.v
      the enumerations of the API and what the answers carry of them.
    - Authentication (internal/auth): Auth.v, AuthProps.v; bcrypt, the JWT and the JWKS
      libraries are parameters.
    - Configuration (internal/config): Config.v, from the GT_ variables to a checked record.
    - Requests and syncs that overlap: Overlap.v takes the handlers that write, Verify and
      SyncRemote apart at their calls on the store and lets any number of them take turns;
      left alone, each is what Handlers.v and SyncRemote.v say ([sync_alone],
      [patch_alone], [create_alone], [delete_alone], [ack_alone], [verify_alone]);
      OverlapProps.v.
    - Probes, collectors, version, logger and flags: Ops.v.
    - The server process (cmd/git-taintedd/main.go): Daemon.v boots the parts above into one
      handler, one scheduler and one store, and steps through serving and shutting down;
      DaemonProps.v.
    - The command line tool (cmd/git-tainted/main.go): Consolidate.v (the verdict over several
      answers), Cli.v (arguments, environment, git, requests, output); ConsolidateProps.v;
      EndToEnd.v joins the tool to the server.
    - The control tool (cmd/git-tainted-ctl): Ctl.v; CtlProps.v; WireProps.v joins its JSON
      to the server's.
    - Seeding from peers (internal/seed): SeedMerge.v is merge.go, Seed.v is seed.go and the
      pagination of client.go, SeedClient.v the HTTP client; SeedProps.v (the merge),
      SeedWrite.v (the write); SeedEndToEnd.v joins the seeder to the server of a peer.
    - The helpers of the tests (internal/testutil): Testutil.v, the auditor
      [AssertChainIntact] with its own copy of the encoding, the fixture and the clock of
      store.go and fakeclock.go; GitServer.v, the repositories of gitserver.go as the git
      commands that make them.

    State is passed explicitly.  [SE S E A] is a computation on a state [S] that may
    fail with an [E]; a failing computation leaves the state alone, as a rolled back
    transaction or a failed statement does.  Every reading of the clock is an
    argument ([Readings] for a sync); so is every answer of git and of HTTP, and the
    order in which Go ranges over a map ([range], any permutation) or goroutines
    finish.

    ** What the theorems show

    - Tamper evidence: [canonical_row_injective] (the encoding is injective),
      [ledger_tamper_evident] (two ledgers with one head agree, or SHA-256
      collides), [append_observation_correct], [audit_replay] (what the store
      returns replays to the head it advertises); [assert_chain_intact_exact] (what the
      verdict of the auditor of the tests means, on any tables), [audit_detects_tampering]
      (altered tables that pass record what they recorded before, or SHA-256 collides) and
      [audit_misses_rewound_chain].
    - The sync: [sync_remote_success] (the whole effect of a successful sync),
      [sync_remote_invariant] (every outcome keeps chains, spine and taints),
      [sync_detects_moved_tag], [resync_quiet], [classify_tag_exact],
      [sync_ls_failure], [failed_remote_not_due]; [lease_exclusive];
      [scheduler_bounded].
    - Overlap: [overlap_keeps_evidence] (any interleaving of requests and syncs, failures and
      deaths included, keeps ledgers and taints, as long as no sync is overtaken on its own
      remote and no PATCH straddles one), and what is lost otherwise:
      [expired_lease_loses_taint], [stale_length_breaks_chain], [patch_rewinds_chain];
      [unreadable_store_not_tracked].
    - The listing and its urls: [ls_remote_roundtrip], [parse_ls_remote_well_formed];
      [url_accepted_safe] (an accepted url passes no option to git),
      [url_normal_form], [url_normal_form_collides]; [run_names_flag].
    - The stores: [ref_roundtrip], [prune_retention], [ack_annotates], [taint_event_repeat];
      on MySQL [mysql_sync_success] and [mysql_lease_mutex] (two workers never hold one
      lease, whatever the interleaving of their statements), and [mysql_taint_laundered],
      [mysql_case_false_event], [mysql_page_bounds], [mysql_due_bounds],
      [mysql_lease_shared_name] where MySQL differs from the promise.
    - Migrations: [sqlite_migrations_resume], [mysql_migrations_resume] (whenever the process
      dies, the next starts finish the schema a single run gives), [migrations_twin_skipped].
    - The cache: [cache_read_after_write] (a read that starts after a write returned sees it,
      under any interleaving), and the races [cache_remote_stale], [cache_taint_hidden].
    - The API: [verify_verdict], and end to end [moved_tag_reported_forever];
      [wire_roundtrip]; [answers_in_enums] (every answer keeps to the enumerations of the
      API); [match_glob_correct], [parse_id_canonical], [forced_sync_cooldown];
      [patch_unknown_status], [failed_sync_looks_fresh], [patch_rewinds_chain] and
      [tag_pages_skip] show behaviour that is not what the code means to do.
    - Access: [control_gated] (no control operation without a principal),
      [anonymous_rejected], [apikey_exact], [basic_exact], [jwks_policy].
    - Configuration: [config_load_bounds], [config_roundtrip], [seed_quorum_unreachable].
    - The process: [service_keeps_evidence] (through any requests, syncs, failures and the
      shutdown, ledgers stay and a tainted tag is answered as such), [shutdown_drains],
      [forced_sync_not_drained], [host_allowlist_ignored].
    - The tool: [ok_verdict_meaning] and [tampering_wins] (the four modes),
      [verdict_order_independent], [inconclusive_tie_unstable], [strict_exit_code],
      [single_server_exit], [json_ignores_strict], [fan_out_order],
      [resolve_servers_spec]; with the server, [cli_end_to_end] and
      [cli_quorum_end_to_end] (exit code 0 means that the stores say so).
    - The control tool: [ctl_one_request].
    - The repositories of the tests: [fixture_hermetic] (they do not depend on the
      configuration of the machine), [commit_recorded], [lightweight_tag_is_commit];
      [parents_ignored].
    - Seeding: [merge_backed_by_quorum], [merge_order_independent],
      [one_peer_reaches_quorum]; [seed_write_correct]; the bootstrap end to end,
      [seed_reads_server] (what is fetched from a peer that runs this program is what its
      store holds) and [seed_restores_deleted].

    ** Bounds and fuel

    Functions are total by structural recursion.  Fuel is used where the program loops on a
    measure, and each bound is shown to be enough: the JSON parser takes twice the length of
    the text and one ([parse_total]); the duration parser the length of the text; the
    pagination of the seed client is the program's own GT_SEED_MAX_PAGES; a migration run
    The auditor's loop is given more fuel than the tables have rows, and then ends
    ([assert_chain_intact_exact]).
    Hypotheses on sizes are and five per file on SQLite, and one and those of the scripts on
    MySQL ([sqlite_migrations_resume], [mysql_migrations_resume]).
    Hypotheses on sizes are [int64_ok]-style ranges of timestamps and lengths below
    2^63 of encoded fields, and fewer than 2^64 increments of a generation of the cache; each
    theorem that has one has a witness.  Ids of SQLite come from unbounded counters, where the
    engine stops at 2^63 - 1.

    ** Abstractions

    - MySQL: an id that a rolled back or refused insert consumed is skipped by a draw of the
      server; a statement outside a transaction is atomic.
    - The cache: eviction by size or age is an event of its own, which may happen at any time,
      and the reverse index of refs is learnt by events.
    - Text: case mapping and white space are those of ASCII.  IPv6 literals, in brackets or
      not, are parameters of the url functions.
    - Requests: the binding of parameters is that of github.com/oapi-codegen/runtime, a
      parameter, of which [query_once] states what EndToEnd.v relies on; headers of responses
      are left out; CONNECT, the target [*], and what the router does when no operation matches
      ([mux_default]) are not followed; a body over the limit is a body that cannot be parsed;
      a struct field given more than once in one JSON object takes the last value, without
      reusing the elements of the first.
    - The process: in Daemon.v a request and a sync are one step each; Overlap.v is the finer
      view, in which every call on the store is a step, on the SQLite store, whose connection
      serialises them.  The metrics listener and log lines are left out.
    - git, HTTP exchanges, files and the clock are parameters; what git answers may change
      while the process runs ([net] in Daemon.v).

    ** What is not modelled

    The plumbing of the generated query packages (db.go, querier.go), the generated parts of
    server.gen.go that have no behaviour of their own (the embedded copy of the
    specification, interface declarations), the semaphore of the seeder ([withSlot], which
    only bounds how many exchanges run at once), and internal/model/clock.go and ids.go
    (interfaces and names).  What a modelled file leaves out besides is named in its opening
    comment, such as the closing of databases and the usage texts of the control tool. *)

(** Shared vocabulary of the library: results, transaction bodies, machine integers,
    bytes, automation and generic lemmas. *)
From stdpp Require Export base gmap strings list sorting numbers option.
From Stdlib Require Export ZArith Lia Strings.Byte Strings.Ascii.

(** * Shared vocabulary *)

Declare Scope go_scope.
Delimit Scope go_scope with go.
#[local] Open Scope Z_scope.
#[global] Arguments String.append !_ _ / : simpl nomatch.

(** ** Results: Go's [(T, error)] pairs *)

Inductive result (E A : Type) : Type :=
  | Ok (a : A)
  | Err (e : E).
Arguments Ok {E A} a.
Arguments Err {E A} e.

#[global] Instance result_ret {E} : MRet (result E) := λ A a, Ok a.
#[global] Instance result_bind {E} : MBind (result E) := λ A B f m,
  match m with
  | Ok a => f a
  | Err e => Err e
  end.
#[global] Instance result_fmap {E} : FMap (result E) := λ A B f m,
  match m with
  | Ok a => Ok (f a)
  | Err e => Err e
  end.

Definition is_ok {E A} (r : result E A) : bool :=
  match r with
  | Ok _ => true
  | Err _ => false
  end.

(** ** State and error together: a transaction body

    An [Err] drops the state, which is what a rolled back transaction does. *)

Definition SE (S E A : Type) : Type := S → result E (A * S).

#[global] Instance SE_ret {S E} : MRet (SE S E) := λ A a s, Ok (a, s).
#[global] Instance SE_bind {S E} : MBind (SE S E) := λ A B f m s,
  match m s with
  | Ok (a, s') => f a s'
  | Err e => Err e
  end.

Definition throw {S E A} (e : E) : SE S E A := λ _, Err e.
Definition get_state {S E} : SE S E S := λ s, Ok (s, s).
Definition put_state {S E} (s : S) : SE S E () := λ _, Ok ((), s).
Definition lift {S E A} (r : result E A) : SE S E A := λ s,
  match r with
  | Ok a => Ok (a, s)
  | Err e => Err e
  end.

(** A loop over a slice whose body may fail. *)
Fixpoint for_each {S E A} (l : list A) (body : A → SE S E ()) : SE S E () :=
  match l with
  | [] => mret ()
  | x :: l => body x ≫= λ _, for_each l body
  end.

(** ** Machine integers

    Go's [int64] is a [Z] in [[-2^63, 2^63)]; arithmetic that can leave the
    interval is written with [wrap64]. *)

Definition int64_ok (z : Z) : Prop := -2^63 ≤ z < 2^63.
Definition wrap64 (z : Z) : Z := (z + 2^63) mod 2^64 - 2^63.
Definition int32 (z : Z) : Z := (z + 2^31) mod 2^32 - 2^31.
Definition uint64 (z : Z) : Z := z mod 2^64.

(** Go's [int64] addition and subtraction. *)
Notation "a +w b" := (wrap64 (a + b)) (at level 50, left associativity) : go_scope.
Notation "a -w b" := (wrap64 (a - b)) (at level 50, left associativity) : go_scope.

#[global] Instance int64_ok_dec z : Decision (int64_ok z) := _.

(** ** Bytes *)

Abbreviation bytes := (list byte).

#[global] Instance byte_eq_dec : EqDecision byte := Byte.byte_eq_dec.

Definition byte_of_Z (z : Z) : byte :=
  match Byte.of_N (Z.to_N (z mod 256)) with
  | Some b => b
  | None => x00
  end.
Definition Z_of_byte (b : byte) : Z := Z.of_N (Byte.to_N b).

(** The bytes of a Go string, [[]byte(s)]. *)
Fixpoint bytes_of_string (s : string) : bytes :=
  match s with
  | EmptyString => []
  | String c s => Ascii.byte_of_ascii c :: bytes_of_string s
  end.

(** [string(b)]. *)
Fixpoint string_of_bytes (b : bytes) : string :=
  match b with
  | [] => EmptyString
  | x :: b => String (Ascii.ascii_of_byte x) (string_of_bytes b)
  end.

(** * Automation *)

Create HintDb git_tainted.
Create Rewrite HintDb git_tainted_rw.

(** Split every [match] and [if] the goal or the hypotheses are stuck on. *)
Ltac split_match :=
  repeat match goal with
  | H : context [match ?x with _ => _ end] |- _ => destruct x eqn:?
  | |- context [match ?x with _ => _ end] => destruct x eqn:?
  end.

(** Take apart a successful monadic computation in a hypothesis. *)
Ltac inv_ok := unfold mret, SE_ret, result_ret in *; simplify_eq/=.

(** * Lemmas on results and transaction bodies *)

Lemma result_bind_ok {E A B} (m : result E A) (f : A → result E B) b :
  m ≫= f = Ok b ↔ ∃ a, m = Ok a ∧ f a = Ok b.
Proof. split; [destruct m; cbn; [eauto|done]|by intros (? & -> & ?)]. Qed.

Lemma SE_bind_ok {S E A B} (m : SE S E A) (f : A → SE S E B) s r :
  (m ≫= f) s = Ok r ↔ ∃ a s', m s = Ok (a, s') ∧ f a s' = Ok r.
Proof.
  unfold mbind, SE_bind. split; [|by intros (? & ? & -> & ?)].
  destruct (m s) as [[a s']|e]; [eauto|done].
Qed.

Lemma SE_bind_err {S E A B} (m : SE S E A) (f : A → SE S E B) s e :
  (m ≫= f) s = Err e ↔ m s = Err e ∨ ∃ a s', m s = Ok (a, s') ∧ f a s' = Err e.
Proof.
  unfold mbind, SE_bind. split; [|by intros [->|(? & ? & -> & ?)]].
  destruct (m s) as [[a s']|e']; intros H; [by eauto|left; congruence].
Qed.

(** A predicate every iteration keeps is kept by the loop. *)
Lemma for_each_invariant {S E A} (P : S → Prop) (l : list A) (body : A → SE S E ()) s r s' :
  (∀ x s s', x ∈ l → P s → body x s = Ok ((), s') → P s') →
  P s → for_each l body s = Ok (r, s') → P s'.
Proof.
  revert s. induction l as [|x l IH]; intros s Hbody HP Hrun; cbn in Hrun.
  - by inv_ok.
  - apply SE_bind_ok in Hrun as ([] & s1 & H1 & H2).
    eapply (IH s1); [|eapply Hbody; [left | exact HP | exact H1]|exact H2].
    intros y ?? Hy. apply Hbody. by right.
Qed.

(** * Lemmas on machine integers *)

Lemma wrap64_id z : int64_ok z → wrap64 z = z.
Proof. unfold int64_ok, wrap64. intros. rewrite Z.mod_small; lia. Qed.

Lemma wrap64_range z : int64_ok (wrap64 z).
Proof.
  unfold int64_ok, wrap64.
  pose proof (Z.mod_pos_bound (z + 2^63) (2^64) ltac:(lia)). lia.
Qed.

Lemma uint64_inj a b : int64_ok a → int64_ok b → uint64 a = uint64 b → a = b.
Proof.
  unfold int64_ok, uint64. intros Ha Hb Hab.
  assert (∀ z, -2^63 ≤ z < 2^63 → z = if bool_decide (z mod 2^64 < 2^63) then z mod 2^64 else z mod 2^64 - 2^64) as Hz.
  { intros z Hz. destruct (decide (0 ≤ z)).
    - rewrite Z.mod_small by lia. case_bool_decide; lia.
    - assert (z mod 2^64 = z + 2^64) as ->.
      { rewrite <- (Z.mod_small (z + 2^64) (2^64)) by lia.
        by rewrite <- Z.add_mod_idemp_r, Z.mod_same, Z.add_0_r by lia. }
      case_bool_decide; lia. }
  rewrite (Hz a), (Hz b) by lia. by rewrite Hab.
Qed.

#[export] Hint Resolve wrap64_range : git_tainted.

(** * Lemmas on bytes *)

Lemma Z_of_byte_range b : 0 ≤ Z_of_byte b < 256.
Proof.
  unfold Z_of_byte. pose proof (Byte.to_N_bounded b). lia.
Qed.

Lemma Z_of_byte_of_Z z : Z_of_byte (byte_of_Z z) = z mod 256.
Proof.
  unfold Z_of_byte, byte_of_Z.
  pose proof (Z.mod_pos_bound z 256 ltac:(lia)).
  destruct (Byte.of_N (Z.to_N (z mod 256))) as [b|] eqn:E.
  - apply Byte.to_of_N in E. rewrite E. lia.
  - apply Byte.of_N_None_iff in E. lia.
Qed.

Lemma byte_of_Z_of_byte b : byte_of_Z (Z_of_byte b) = b.
Proof.
  unfold byte_of_Z, Z_of_byte.
  pose proof (Byte.to_N_bounded b).
  rewrite Z.mod_small, N2Z.id, Byte.of_to_N by lia. done.
Qed.

Lemma bytes_of_string_inj s1 s2 : bytes_of_string s1 = bytes_of_string s2 → s1 = s2.
Proof.
  revert s2. induction s1 as [|c s1 IH]; intros [|c' s2]; cbn; intros H; try done.
  injection H as Hc H. apply IH in H as ->. f_equal.
  rewrite <- (Ascii.ascii_of_byte_of_ascii c), <- (Ascii.ascii_of_byte_of_ascii c'). by rewrite Hc.
Qed.

Lemma length_bytes_of_string s : length (bytes_of_string s) = String.length s.
Proof. induction s; cbn; congruence. Qed.

Lemma bytes_of_string_of_bytes b : bytes_of_string (string_of_bytes b) = b.
Proof. induction b as [|x b IH]; cbn; [done|]. by rewrite Ascii.byte_of_ascii_of_byte, IH. Qed.

Lemma string_of_bytes_of_string s : string_of_bytes (bytes_of_string s) = s.
Proof. induction s as [|c s IH]; cbn; [done|]. by rewrite Ascii.ascii_of_byte_of_ascii, IH. Qed.

#[export] Hint Rewrite bytes_of_string_of_bytes string_of_bytes_of_string : git_tainted_rw.

(** * Lemmas on lists *)

(** Two lists with a common split point are equal part by part. *)
Lemma app_inj_length {A} (a1 a2 b1 b2 : list A) :
  length a1 = length a2 → a1 ++ b1 = a2 ++ b2 → a1 = a2 ∧ b1 = b2.
Proof. intros. by apply app_inj_1. Qed.
