(* ===== verification/GoStrings.v ===== *)
(** The parts of Go's [strings], [strconv] and [encoding/hex] the program uses,
    as executable functions on [string] (a Go string is a sequence of bytes, and
    so is Stdlib's).  Case mapping and white space are those of ASCII: a byte
    above 0x7f is left alone.  A Go index that is -1 when nothing is found is
    [None] here; [index_int] gives the integer back where the source compares it. *)
From stdpp Require Export pretty.
From S2P Require Import Prelude.
#[local] Open Scope Z_scope.

(** * Definitions *)

(** [len(s)], [s[:n]] and [s[n:]]. *)
Definition len (s : string) : Z := Z.of_nat (String.length s).

Fixpoint stake (n : nat) (s : string) : string :=
  match n, s with
  | S n, String c s => String c (stake n s)
  | _, _ => ""
  end.

Fixpoint sdrop (n : nat) (s : string) : string :=
  match n, s with
  | S n, String _ s => sdrop n s
  | S _, EmptyString => ""
  | O, _ => s
  end.

Definition HasPrefix (s p : string) : bool := String.prefix p s.

Definition HasSuffix (s p : string) : bool :=
  (String.length p <=? String.length s)%nat
  && String.eqb (sdrop (String.length s - String.length p) s) p.

Definition TrimSuffix (s p : string) : string :=
  if HasSuffix s p then stake (String.length s - String.length p) s else s.

Fixpoint Index (s sub : string) : option nat :=
  if HasPrefix s sub then Some O
  else match s with
       | EmptyString => None
       | String _ s' => S <$> Index s' sub
       end.

Definition Contains (s sub : string) : bool :=
  match Index s sub with
  | Some _ => true
  | None => false
  end.

Fixpoint IndexFunc (p : ascii → bool) (s : string) : option nat :=
  match s with
  | EmptyString => None
  | String c s' => if p c then Some O else S <$> IndexFunc p s'
  end.

Definition IndexByte (s : string) (c : ascii) : option nat := IndexFunc (Ascii.eqb c) s.

Definition index_int (i : option nat) : Z :=
  match i with
  | Some n => Z.of_nat n
  | None => -1
  end.

(** [strings.Split] on a one-byte separator: never empty. *)
Fixpoint Split (s : string) (c : ascii) : list string :=
  match s with
  | EmptyString => [""]
  | String a s' =>
      if Ascii.eqb a c then "" :: Split s' c
      else match Split s' c with
           | p :: ps => String a p :: ps
           | [] => [String a ""]
           end
  end.

(** [strings.FieldsFunc]: the maximal runs of bytes that are not separators. *)
Fixpoint fields_go (sep : ascii → bool) (s : string) (cur : string) : list string :=
  let flush := if String.eqb cur "" then [] else [cur] in
  match s with
  | EmptyString => flush
  | String a s' =>
      if sep a then flush ++ fields_go sep s' ""
      else fields_go sep s' (cur +:+ String a "")
  end.
Definition FieldsFunc (s : string) (sep : ascii → bool) : list string := fields_go sep s "".

Fixpoint trim_left (p : ascii → bool) (s : string) : string :=
  match s with
  | EmptyString => ""
  | String a s' => if p a then trim_left p s' else s
  end.

Fixpoint trim_right (p : ascii → bool) (s : string) : string :=
  match s with
  | EmptyString => ""
  | String a s' =>
      let t := trim_right p s' in
      if p a && String.eqb t "" then "" else String a t
  end.

Definition TrimRight (s : string) (c : ascii) : string := trim_right (Ascii.eqb c) s.

Definition is_space (c : ascii) : bool :=
  let n := nat_of_ascii c in
  (n =? 32)%nat || ((9 <=? n) && (n <=? 13))%nat.

Definition TrimSpace (s : string) : string := trim_right is_space (trim_left is_space s).

Definition lower_ascii (c : ascii) : ascii :=
  let n := nat_of_ascii c in
  if ((65 <=? n) && (n <=? 90))%nat then ascii_of_nat (n + 32) else c.

Fixpoint ToLower (s : string) : string :=
  match s with
  | EmptyString => ""
  | String c s' => String (lower_ascii c) (ToLower s')
  end.

Definition upper_ascii (c : ascii) : ascii :=
  let n := nat_of_ascii c in
  if ((97 <=? n) && (n <=? 122))%nat then ascii_of_nat (n - 32) else c.

Fixpoint ToUpper (s : string) : string :=
  match s with
  | EmptyString => ""
  | String c s' => String (upper_ascii c) (ToUpper s')
  end.

(** The line feed that ends a printed line. *)
Definition nl : string := String "010" "".

Definition EqualFold (a b : string) : bool := String.eqb (ToLower a) (ToLower b).

Fixpoint Join (l : list string) (sep : string) : string :=
  match l with
  | [] => ""
  | [x] => x
  | x :: l => x +:+ sep +:+ Join l sep
  end.

(** Byte-wise order on strings, Go's [<]. *)
Definition string_lt (a b : string) : bool :=
  match String.compare a b with
  | Lt => true
  | _ => false
  end.

Fixpoint string_forall (p : ascii → bool) (s : string) : bool :=
  match s with
  | EmptyString => true
  | String c s' => p c && string_forall p s'
  end.

(** [strconv.FormatInt(z, 10)]. *)
Definition FormatInt (z : Z) : string := pretty z.

(** [encoding/hex]. *)
Definition hex_digit (n : N) : ascii :=
  ascii_of_N (if (n <? 10)%N then 48 + n else 87 + n).

Fixpoint EncodeToString (b : bytes) : string :=
  match b with
  | [] => ""
  | x :: b =>
      String (hex_digit (Byte.to_N x / 16)) (String (hex_digit (Byte.to_N x mod 16)) (EncodeToString b))
  end.

Definition from_hex_char (c : ascii) : option N :=
  let n := N_of_ascii c in
  if ((48 <=? n) && (n <=? 57))%N then Some (n - 48)%N
  else if ((97 <=? n) && (n <=? 102))%N then Some (n - 87)%N
  else if ((65 <=? n) && (n <=? 70))%N then Some (n - 55)%N
  else None.

(** [hex.DecodeString]: [None] on a byte that is no hex digit or an odd length. *)
Fixpoint DecodeString (s : string) : option bytes :=
  match s with
  | EmptyString => Some []
  | String a (String b s') =>
      h ← from_hex_char a; l ← from_hex_char b; rest ← DecodeString s';
      Some (byte_of_Z (Z.of_N (h * 16 + l)) :: rest)
  | String _ EmptyString => None
  end.

(** * Lemmas *)

Lemma prefix_cons a p b s :
  String.prefix (String a p) (String b s) = if ascii_dec a b then String.prefix p s else false.
Proof. reflexivity. Qed.

Lemma prefix_spec p s : String.prefix p s = true ↔ ∃ t, s = p +:+ t.
Proof.
  revert s. induction p as [|a p IH]; intros s.
  - split; [by exists s|]. by destruct s.
  - destruct s as [|b s]; [split; [done|by intros [? [=]]]|].
    rewrite prefix_cons. destruct (ascii_dec a b) as [->|Hab].
    + rewrite IH. split; intros [t Ht]; exists t; [by rewrite Ht|by injection Ht].
    + split; [done|]. intros [t Ht]. by injection Ht.
Qed.

Lemma append_length (a b : string) : String.length (a +:+ b) = (String.length a + String.length b)%nat.
Proof. induction a; cbn; congruence. Qed.

Lemma sdrop_append (a b : string) : sdrop (String.length a) (a +:+ b) = b.
Proof. induction a; cbn; auto. Qed.

Lemma stake_append (a b : string) : stake (String.length a) (a +:+ b) = a.
Proof. induction a; cbn; congruence. Qed.

Lemma stake_sdrop n s : stake n s +:+ sdrop n s = s.
Proof. revert s. induction n; intros [|c s]; cbn; congruence. Qed.

Lemma sdrop_app_le n a b : (n ≤ String.length a)%nat → sdrop n (a +:+ b) = sdrop n a +:+ b.
Proof. revert a. induction n; intros [|c a]; cbn; intros; try done; try lia. apply IHn. lia. Qed.

Lemma append_nil_r (s : string) : s +:+ "" = s.
Proof. induction s; cbn; congruence. Qed.

Lemma append_assoc (a b c : string) : a +:+ (b +:+ c) = (a +:+ b) +:+ c.
Proof. induction a; cbn; congruence. Qed.

Lemma length_stake n s : (n ≤ String.length s)%nat → String.length (stake n s) = n.
Proof.
  revert s. induction n; intros [|c s]; cbn; intros; try lia. rewrite IHn; lia.
Qed.

Lemma append_inj_r (a b c : string) : a +:+ c = b +:+ c → a = b.
Proof.
  revert b. induction a as [|x a IH]; intros [|y b] H; try done.
  - apply (f_equal String.length) in H. cbn in H. rewrite append_length in H. lia.
  - apply (f_equal String.length) in H. cbn in H. rewrite append_length in H. lia.
  - cbn in H. injection H as -> H. f_equal. eauto.
Qed.

Lemma append_inj_l (a b c : string) : a +:+ b = a +:+ c → b = c.
Proof. induction a; cbn; [done|]. intros [=]. auto. Qed.

Lemma HasSuffix_spec s p : HasSuffix s p = true ↔ ∃ t, s = t +:+ p.
Proof.
  unfold HasSuffix. rewrite andb_true_iff, Nat.leb_le, String.eqb_eq. split.
  - intros [Hl Hd]. exists (stake (String.length s - String.length p) s).
    rewrite <- Hd at 2. by rewrite stake_sdrop.
  - intros [t ->]. rewrite append_length. split; [lia|].
    replace (String.length t + String.length p - String.length p)%nat with (String.length t) by lia.
    apply sdrop_append.
Qed.

Lemma TrimSuffix_append t p : TrimSuffix (t +:+ p) p = t.
Proof.
  unfold TrimSuffix.
  assert (HasSuffix (t +:+ p) p = true) as -> by (apply HasSuffix_spec; eauto).
  rewrite append_length.
  replace (String.length t + String.length p - String.length p)%nat with (String.length t) by lia.
  apply stake_append.
Qed.

Lemma HasPrefix_spec s p : HasPrefix s p = true ↔ ∃ t, s = p +:+ t.
Proof. apply prefix_spec. Qed.
Lemma HasPrefix_append p s : HasPrefix (p +:+ s) p = true.
Proof. apply HasPrefix_spec. eauto. Qed.

(** [Index] finds the leftmost occurrence. *)
Lemma Index_Some s sub i :
  Index s sub = Some i →
  ∃ pre post, s = pre +:+ sub +:+ post ∧ String.length pre = i ∧
    sdrop (i + String.length sub) s = post.
Proof.
  revert i. induction s as [|c s IH]; intros i; cbn [Index].
  - destruct (HasPrefix "" sub) eqn:E; [|done].
    intros [= <-]. apply HasPrefix_spec in E as [t Ht].
    exists "", t. split; [done|]. split; [done|]. destruct sub; [by destruct t|done].
  - destruct (HasPrefix (String c s) sub) eqn:E.
    + intros [= <-]. apply HasPrefix_spec in E as [t Ht]. rewrite Ht.
      exists "", t. repeat split. cbn. apply sdrop_append.
    + destruct (Index s sub) as [j|] eqn:Ej; [|done]. intros [= <-].
      destruct (IH j eq_refl) as (pre & post & Hs & Hlen & Hd).
      exists (String c pre), post. rewrite Hs at 1. cbn. rewrite Hlen. done.
Qed.

(** ... and any occurrence starts at or after the one [Index] reports. *)
Lemma Index_leftmost s sub pre post :
  s = pre +:+ sub +:+ post → ∃ i, Index s sub = Some i ∧ (i ≤ String.length pre)%nat.
Proof.
  revert pre. induction s as [|c s IH]; intros pre Hs.
  - destruct pre; [|done]. destruct sub; [|done].
    exists O. cbn. split; [done|lia].
  - cbn [Index]. destruct (HasPrefix (String c s) sub) eqn:E.
    { exists O. split; [done|lia]. }
    destruct pre as [|c' pre].
    + exfalso. cbn in Hs. rewrite Hs in E.
      assert (HasPrefix (sub +:+ post) sub = true) by (apply HasPrefix_spec; eauto).
      congruence.
    + cbn in Hs. injection Hs as -> Hs. destruct (IH pre Hs) as (i & -> & Hi).
      exists (S i). split; [done|cbn; lia].
Qed.

Lemma Contains_spec s sub : Contains s sub = true ↔ ∃ pre post, s = pre +:+ sub +:+ post.
Proof.
  unfold Contains. split.
  - destruct (Index s sub) eqn:E; [|done]. intros _.
    destruct (Index_Some _ _ _ E) as (pre & post & ? & _). eauto.
  - intros (pre & post & H). by destruct (Index_leftmost _ _ _ _ H) as (i & -> & _).
Qed.

Lemma IndexFunc_Some p s i :
  IndexFunc p s = Some i →
  ∃ pre c post, s = pre +:+ String c post ∧ String.length pre = i ∧ p c = true ∧
    string_forall (λ c, negb (p c)) pre = true.
Proof.
  revert i. induction s as [|a s IH]; intros i; cbn; [done|].
  destruct (p a) eqn:Ea.
  - intros [= <-]. exists "", a, s. done.
  - destruct (IndexFunc p s) as [j|]; [|done]. intros [= <-].
    destruct (IH j eq_refl) as (pre & c & post & -> & <- & Hc & Hpre).
    exists (String a pre), c, post. cbn. rewrite Ea. done.
Qed.

Lemma IndexFunc_None p s : IndexFunc p s = None ↔ string_forall (λ c, negb (p c)) s = true.
Proof.
  induction s as [|a s IH]; cbn; [done|]. destruct (p a); [done|].
  cbn. rewrite <- IH. by destruct (IndexFunc p s).
Qed.

Lemma IndexFunc_append p pre c post :
  string_forall (λ c, negb (p c)) pre = true → p c = true →
  IndexFunc p (pre +:+ String c post) = Some (String.length pre).
Proof.
  intros Hpre Hc. induction pre as [|a pre IH]; cbn in *; [by rewrite Hc|].
  apply andb_true_iff in Hpre as [Ha Hpre]. apply negb_true_iff in Ha. rewrite Ha.
  by rewrite IH.
Qed.

Lemma string_forall_append p a b :
  string_forall p (a +:+ b) = string_forall p a && string_forall p b.
Proof. induction a; cbn; [done|]. by rewrite IHa, andb_assoc. Qed.

Lemma string_forall_impl (p q : ascii → bool) s : (∀ c, p c = true → q c = true) → string_forall p s = true → string_forall q s = true.
Proof.
  intros Himp. induction s as [|c s IH]; cbn; [done|]. intros [Hc Hs]%andb_true_iff. by rewrite Himp, IH.
Qed.

(** Checks on every byte. *)
Lemma all_chars (p : ascii → bool) : forallb p (ascii_of_N <$> (N.of_nat <$> seq 0 256)) = true → ∀ c, p c = true.
Proof.
  intros H c. rewrite forallb_forall in H. apply H. apply list_elem_of_In, list_elem_of_fmap.
  exists (N_of_ascii c). split; [by rewrite ascii_N_embedding|]. apply list_elem_of_fmap. exists (N.to_nat (N_of_ascii c)).
  pose proof (N_ascii_bounded c). split; [lia|]. apply elem_of_seq. lia.
Qed.

(** Splitting and joining on the separator are inverse. *)
Lemma Split_ne s c : Split s c ≠ [].
Proof. destruct s as [|a s]; cbn; [done|]. destruct (Ascii.eqb a c); [done|]. by destruct (Split s c). Qed.

Lemma Join_cons x l sep : l ≠ [] → Join (x :: l) sep = x +:+ sep +:+ Join l sep.
Proof. by destruct l. Qed.

Lemma Join_Split s c : Join (Split s c) (String c "") = s.
Proof.
  induction s as [|a s IH]; [done|]. cbn [Split].
  destruct (Ascii.eqb_spec a c) as [->|].
  - rewrite Join_cons by apply Split_ne. cbn. by rewrite IH.
  - pose proof (Split_ne s c). destruct (Split s c) as [|p ps]; [done|].
    rewrite <- IH. by destruct ps.
Qed.

Lemma Split_no_sep s c x : x ∈ Split s c → string_forall (λ a, negb (Ascii.eqb a c)) x = true.
Proof.
  revert x. induction s as [|a s IH]; cbn; intros x.
  - intros ->%list_elem_of_singleton. done.
  - destruct (Ascii.eqb a c) eqn:E.
    + intros [->|Hx]%elem_of_cons; [done|]. auto.
    + destruct (Split s c) as [|p ps]; intros [->|Hx]%elem_of_cons.
      * cbn. by rewrite E.
      * by apply elem_of_nil in Hx.
      * cbn. rewrite E. cbn. apply IH. left.
      * apply IH. by right.
Qed.

(** Hexadecimal round trips. *)
Lemma from_hex_char_digit n : (n < 16)%N → from_hex_char (hex_digit n) = Some n.
Proof.
  intros Hn.
  assert (n ∈ [0;1;2;3;4;5;6;7;8;9;10;11;12;13;14;15]%N) as H by (rewrite !elem_of_cons; lia).
  rewrite !elem_of_cons in H. destruct_or?; subst; try done. by apply elem_of_nil in H.
Qed.

Lemma DecodeString_Encode b : DecodeString (EncodeToString b) = Some b.
Proof.
  induction b as [|x b IH]; [done|]. cbn [EncodeToString DecodeString].
  pose proof (Byte.to_N_bounded x).
  rewrite !from_hex_char_digit; cbn [mbind option_bind].
  - rewrite IH. cbn. do 2 f_equal.
    replace (Byte.to_N x / 16 * 16 + Byte.to_N x mod 16)%N with (Byte.to_N x)
      by (pose proof (N.div_mod' (Byte.to_N x) 16); lia).
    apply byte_of_Z_of_byte.
  - apply N.Div0.div_lt_upper_bound; lia.
  - apply N.mod_lt. lia.
Qed.

Lemma EncodeToString_inj b1 b2 : EncodeToString b1 = EncodeToString b2 → b1 = b2.
Proof. intros H. apply (f_equal DecodeString) in H. rewrite !DecodeString_Encode in H. congruence. Qed.

Lemma length_EncodeToString b : String.length (EncodeToString b) = (2 * length b)%nat.
Proof. induction b; cbn in *; lia. Qed.

(** Decimal rendering is injective. *)
Lemma FormatInt_inj a b : FormatInt a = FormatInt b → a = b.
Proof. apply (inj _). Qed.

(** A decimal holds no bar. *)
Lemma pretty_N_go_bar x s :
  string_forall (λ c, negb (Ascii.eqb c "|")) s = true → string_forall (λ c, negb (Ascii.eqb c "|")) (pretty_N_go x s) = true.
Proof.
  revert s. induction (N.lt_wf_0 x) as [x _ IH]. intros s Hs. destruct (decide (0 < x)%N) as [Hx|Hx].
  - rewrite pretty_N_go_step by done. apply IH; [by apply N.div_lt|]. cbn. rewrite Hs, andb_true_r.
    assert (x mod 10 < 10)%N as Hm by (by apply N.mod_lt). unfold pretty_N_char. by repeat case_match.
  - assert (x = 0%N) as -> by lia. by rewrite pretty_N_go_0.
Qed.

Lemma FormatInt_bar z : string_forall (λ c, negb (Ascii.eqb c "|")) (FormatInt z) = true.
Proof.
  destruct z as [|x|x]; [done| |].
  - change (FormatInt (Z.pos x)) with (pretty_N_go (N.pos x) ""). by apply pretty_N_go_bar.
  - change (FormatInt (Z.neg x)) with ("-" +:+ pretty_N_go (N.pos x) ""). cbn. by apply pretty_N_go_bar.
Qed.

(** Texts without a bar before a bar split in one way. *)
Lemma bar_split a b x y :
  string_forall (λ c, negb (Ascii.eqb c "|")) a = true → string_forall (λ c, negb (Ascii.eqb c "|")) b = true →
  a +:+ "|" +:+ x = b +:+ "|" +:+ y → a = b ∧ x = y.
Proof.
  revert b. induction a as [|c a IH]; intros [|c' b]; cbn; intros Ha Hb H.
  - by injection H as <-.
  - injection H as <- _. by rewrite andb_false_l in Hb.
  - injection H as -> _. by rewrite andb_false_l in Ha.
  - injection H as -> H. apply andb_true_iff in Ha as [_ Ha], Hb as [_ Hb]. destruct (IH b Ha Hb H) as [-> ->]. done.
Qed.

Lemma FormatInt_split a b x y : FormatInt a +:+ "|" +:+ x = FormatInt b +:+ "|" +:+ y → a = b ∧ x = y.
Proof. intros [E ->]%bar_split; [|apply FormatInt_bar..]. split; [by apply FormatInt_inj|done]. Qed.

#[export] Hint Resolve Split_ne : git_tainted.
#[export] Hint Rewrite append_length sdrop_append stake_append append_nil_r length_EncodeToString
  : git_tainted_rw.
