(* ===== verification/GoNum.v ===== *)
(** The part of Go's strconv that reads numbers: [ParseInt] with base 10 and 64 bits. *)
From S2P Require Import Prelude GoStrings.
#[local] Open Scope Z_scope.

(** The value of decimal digits, most significant first. *)
Fixpoint parse_dec (s : string) (acc : Z) : option Z :=
  match s with
  | EmptyString => Some acc
  | String ch s =>
      let n := Z.of_N (N_of_ascii ch) in
      if (n <? 48) || (57 <? n) then None else parse_dec s (acc * 10 + (n - 48))
  end.

(** [strconv.ParseInt(s, 10, 64)]; the two kinds of error are not told apart. *)
Definition ParseInt (s : string) : option Z :=
  let '(neg, digits) :=
    match s with
    | String "+" s => (false, s)
    | String "-" s => (true, s)
    | _ => (false, s)
    end in
  if String.eqb digits "" then None
  else
    n ← parse_dec digits 0;
    if neg then (if 2^63 <? n then None else Some (- n)) else (if 2^63 <=? n then None else Some n).

(** * Lemmas *)

Lemma parse_dec_char n s acc : (n < 10)%N → parse_dec (String (pretty_N_char n) s) acc = parse_dec s (acc * 10 + Z.of_N n).
Proof.
  intros Hn. assert (n ∈ [0;1;2;3;4;5;6;7;8;9]%N) as H by (rewrite !elem_of_cons; lia).
  rewrite !elem_of_cons in H. destruct_or?; subst; try done. by apply elem_of_nil in H.
Qed.

Lemma parse_dec_pretty_go x s : parse_dec (pretty_N_go x s) 0 = parse_dec s (Z.of_N x).
Proof.
  revert s. induction (N.lt_wf_0 x) as [x _ IH]. intros s. destruct (decide (0 < x)%N) as [Hx|Hx].
  - rewrite pretty_N_go_step by done. rewrite IH by by apply N.div_lt. rewrite parse_dec_char by by apply N.mod_lt.
    f_equal. pose proof (N.div_mod' x 10). lia.
  - assert (x = 0%N) as -> by lia. by rewrite pretty_N_go_0.
Qed.

Lemma pretty_N_go_ne x s : (0 < x)%N → pretty_N_go x s ≠ "".
Proof.
  revert s. induction (N.lt_wf_0 x) as [x _ IH]. intros s Hx. rewrite pretty_N_go_step by done.
  destruct (decide (x / 10 = 0)%N) as [->|Hd]; [|apply IH; [by apply N.div_lt|by apply N.neq_0_lt_0]].
  by rewrite pretty_N_go_0.
Qed.

(** A decimal does not start with a sign. *)
Lemma pretty_N_go_head x s : (0 < x)%N → ∃ n t, (n < 10)%N ∧ pretty_N_go x s = String (pretty_N_char n) t.
Proof.
  revert s. induction (N.lt_wf_0 x) as [x _ IH]. intros s Hx. rewrite pretty_N_go_step by done.
  destruct (decide (x / 10 = 0)%N) as [->|Hd]; [|by apply IH; [by apply N.div_lt|by apply N.neq_0_lt_0]].
  rewrite pretty_N_go_0. eexists _, _. split; [|done]. by apply N.mod_lt.
Qed.

Lemma pretty_N_char_sign n : (n < 10)%N → pretty_N_char n ≠ "+"%char ∧ pretty_N_char n ≠ "-"%char.
Proof. intros _. unfold pretty_N_char. repeat case_match; done. Qed.

Lemma ParseInt_FormatInt z : int64_ok z → ParseInt (FormatInt z) = Some z.
Proof.
  intros Hz. unfold int64_ok in Hz. destruct z as [|x|x]; [done| |].
  - change (FormatInt (Z.pos x)) with (pretty_N_go (N.pos x) "").
    destruct (pretty_N_go_head (N.pos x) "") as (n & t & Hn & E); [lia|].
    assert (ParseInt (String (pretty_N_char n) t) = (m ← parse_dec (String (pretty_N_char n) t) 0; if 2^63 <=? m then None else Some m)) as H.
    { unfold ParseInt. destruct (pretty_N_char_sign n Hn). by repeat (case_match; simplify_eq/=). }
    rewrite E, H, <- E, parse_dec_pretty_go. cbn -[Z.pow]. destruct (Z.leb_spec (2^63) (Z.pos x)); [lia|done].
  - change (FormatInt (Z.neg x)) with (String "-" (pretty_N_go (N.pos x) "")). unfold ParseInt.
    destruct (String.eqb_spec (pretty_N_go (N.pos x) "") "") as [E|_]; [by apply pretty_N_go_ne in E; [|lia]|].
    rewrite parse_dec_pretty_go. cbn -[Z.pow]. destruct (Z.ltb_spec (2^63) (Z.pos x)); [lia|done].
Qed.

Lemma ParseInt_range s z : ParseInt s = Some z → int64_ok z.
Proof.
  unfold ParseInt. intros H. assert (∀ d acc m, 0 ≤ acc → parse_dec d acc = Some m → 0 ≤ m) as Hpos.
  { clear. induction d as [|c d IH]; cbn; intros acc m Ha; [by intros [= <-]|].
    destruct (Z.ltb_spec (Z.of_N (N_of_ascii c)) 48); [done|]. cbn. destruct (57 <? _); [done|]. apply IH. lia. }
  assert (∀ (neg : bool) d, (if String.eqb d "" then None
    else n ← parse_dec d 0; if neg then (if 2^63 <? n then None else Some (- n)) else (if 2^63 <=? n then None else Some n)) = Some z → int64_ok z) as Hall.
  { intros neg d. destruct (String.eqb d ""); [done|]. destruct (parse_dec d 0) as [m|] eqn:E; [|done]. apply Hpos in E; [|done].
    cbn -[Z.pow]. unfold int64_ok. destruct neg.
    - destruct (Z.ltb_spec (2^63) m); [done|]. intros [= <-]. lia.
    - destruct (Z.leb_spec (2^63) m); [done|]. intros [= <-]. lia. }
  revert H. match goal with |- (let '(_, _) := ?e in _) = _ → _ => destruct e as [neg d] end. apply Hall.
Qed.
