(* ===== verification/GoMaps.v ===== *)
(** Go maps as [gmap]s: counting loops, ranging in an unspecified order, and
    [sort.Strings].

    Go ranges over a map in an order it does not specify, possibly another one at
    each loop.  A function that ranges takes [range], where [range i m] is the
    order of its i-th loop; [range_ok] is all that may be assumed of it. *)
From S2P Require Import Prelude GoStrings.
#[local] Open Scope Z_scope.

(** * Definitions *)

Definition Range (A : Type) : Type := nat → gmap string A → list (string * A).

(** Every binding is visited once. *)
Definition range_ok {A} (range : Range A) : Prop := ∀ i m, range i m ≡ₚ map_to_list m.

(** [sort.Strings]. *)
Definition sort_Strings (l : list string) : list string := merge_sort String.le l.

(** [counts[k]++] for the keys of a loop. *)
Definition counts_of (keys : list string) : gmap string Z :=
  foldl (λ m k, <[k := default 0 (m !! k) + 1]> m) ∅ keys.

Definition occurrences (k : string) (keys : list string) : nat := length (List.filter (String.eqb k) keys).

(** * Lemmas *)

Lemma elem_of_filter_bool {A} (p : A → bool) (l : list A) x : x ∈ List.filter p l ↔ x ∈ l ∧ p x = true.
Proof. rewrite !list_elem_of_In. apply List.filter_In. Qed.

Lemma filter_nil_iff {A} (p : A → bool) (l : list A) : List.filter p l = [] ↔ ∀ x, x ∈ l → p x = false.
Proof.
  split.
  - intros H x Hx. destruct (p x) eqn:E; [|done].
    assert (x ∈ List.filter p l) as Hin by (by apply elem_of_filter_bool). rewrite H in Hin. set_solver.
  - intros H. destruct (List.filter p l) as [|x t] eqn:E; [done|].
    assert (x ∈ List.filter p l) as [Hx Hp]%elem_of_filter_bool by (rewrite E; left).
    rewrite (H x Hx) in Hp. done.
Qed.

Lemma filter_length_bool {A} (p : A → bool) (l : list A) : (length (List.filter p l) ≤ length l)%nat.
Proof. apply List.filter_length_le. Qed.

(** [List.find] does not depend on the order when at most one element fits. *)
Lemma find_perm {A} (p : A → bool) (l l' : list A) :
  l ≡ₚ l' → (∀ x y, x ∈ l → y ∈ l → p x = true → p y = true → x = y) → List.find p l = List.find p l'.
Proof.
  intros HP Hu. destruct (List.find p l) as [x|] eqn:E1, (List.find p l') as [y|] eqn:E2; try done.
  - apply List.find_some in E1 as [H1 P1], E2 as [H2 P2]. f_equal.
    rewrite <- list_elem_of_In in H1, H2. apply Hu; try done. by rewrite HP.
  - apply List.find_some in E1 as [H1 P1]. rewrite <- list_elem_of_In, HP, list_elem_of_In in H1.
    by rewrite (List.find_none _ _ E2 _ H1) in P1.
  - apply List.find_some in E2 as [H1 P1]. rewrite <- list_elem_of_In, <- HP, list_elem_of_In in H1.
    by rewrite (List.find_none _ _ E1 _ H1) in P1.
Qed.

Lemma sort_Strings_perm l l' : l ≡ₚ l' → sort_Strings l = sort_Strings l'.
Proof.
  intros HP. unfold sort_Strings. apply (StronglySorted_unique String.le).
  - apply (StronglySorted_merge_sort _).
  - apply (StronglySorted_merge_sort _).
  - by rewrite !merge_sort_Permutation.
Qed.

Lemma elem_of_sort_Strings x l : x ∈ sort_Strings l ↔ x ∈ l.
Proof. unfold sort_Strings. by rewrite merge_sort_Permutation. Qed.

Lemma range_perm {A} (range range' : Range A) i m : range_ok range → range_ok range' → range i m ≡ₚ range' i m.
Proof. intros H1 H2. by rewrite (H1 i m), (H2 i m). Qed.

Lemma elem_of_range {A} (range : Range A) i m k (v : A) : range_ok range → (k, v) ∈ range i m ↔ m !! k = Some v.
Proof. intros Hr. by rewrite (Hr i m), elem_of_map_to_list. Qed.

Lemma counts_of_lookup keys k :
  counts_of keys !! k = if (occurrences k keys =? 0)%nat then None else Some (Z.of_nat (occurrences k keys)).
Proof.
  unfold occurrences. induction keys as [|x l IH] using rev_ind; [done|].
  unfold counts_of in *. rewrite foldl_snoc, List.filter_app, length_app. cbn [List.filter].
  destruct (String.eqb_spec k x) as [<-|Hs].
  - rewrite lookup_insert_eq, IH. cbn [length].
    destruct (length (List.filter _ l)) as [|n]; cbn -[Z.of_nat]; [done|]. f_equal. lia.
  - rewrite lookup_insert_ne by done. by rewrite IH, Nat.add_0_r.
Qed.

Lemma counts_of_Some keys k n :
  counts_of keys !! k = Some n ↔ n = Z.of_nat (occurrences k keys) ∧ 0 < n.
Proof.
  rewrite counts_of_lookup. destruct (Nat.eqb_spec (occurrences k keys) 0); split; try naive_solver lia.
Qed.

Lemma occurrences_elem k keys : (0 < occurrences k keys)%nat ↔ k ∈ keys.
Proof.
  unfold occurrences. destruct (List.filter (String.eqb k) keys) as [|x t] eqn:E; cbn.
  - split; [lia|]. intros Hk. pose proof (proj1 (filter_nil_iff _ _) E k Hk) as Hf. by rewrite String.eqb_refl in Hf.
  - split; [|lia]. intros _. assert (x ∈ List.filter (String.eqb k) keys) as [Hx Hk]%elem_of_filter_bool by (rewrite E; left).
    by apply String.eqb_eq in Hk as ->.
Qed.
