(* ===== verification/GoTime.v ===== *)
(** The parts of Go's [time] package the command line tool prints with.

    A [time.Duration] is an [int64] of nanoseconds.  [Duration.Hours] and its
    siblings return a [float64]; they are computed here with Stdlib's executable
    specification of IEEE 754 binary64, so that the truncation [int(d.Hours())]
    is the one the program performs, rounding included. *)
From Stdlib Require Import SpecFloat.
From S2P Require Import Prelude GoStrings.
#[local] Open Scope Z_scope.

(** * float64 *)

Definition prec64 : Z := 53.
Definition emax64 : Z := 1024.
Definition float64_of_int (z : Z) : spec_float := binary_normalize prec64 emax64 z 0 false.
Definition float64_add : spec_float → spec_float → spec_float := SFadd prec64 emax64.
Definition float64_div : spec_float → spec_float → spec_float := SFdiv prec64 emax64.

(** [int(f)] for a finite [f]: truncation toward zero. *)
Definition int_of_float64 (f : spec_float) : Z :=
  match f with
  | S754_finite s m e =>
      let a := if 0 <=? e then Z.pos m * 2 ^ e else Z.pos m / 2 ^ (- e) in
      if s then - a else a
  | _ => 0
  end.

(** * Durations *)

Definition Second : Z := 1000000000.
Definition Minute : Z := 60 * Second.
Definition Hour : Z := 60 * Minute.

(** [Duration.Hours], [.Minutes] and [.Seconds] share this shape. *)
Definition in_units (unit d : Z) : spec_float :=
  float64_add (float64_of_int (Z.quot d unit)) (float64_div (float64_of_int (Z.rem d unit)) (float64_of_int unit)).
Definition Hours (d : Z) : spec_float := in_units Hour d.
Definition Minutes (d : Z) : spec_float := in_units Minute d.
Definition Seconds (d : Z) : spec_float := in_units Second d.

(** [time.Time.Sub] saturates at the ends of the [Duration] range. *)
Definition sub_saturating (a b : Z) : Z := Z.max (- 2 ^ 63) (Z.min (2 ^ 63 - 1) (a - b)).

(** * Calendar: [time.Unix(0, ns).UTC().Format(time.RFC3339)]

    Days are counted from 0000-03-01 of the proleptic Gregorian calendar. *)

Definition civil_of_days (days : Z) : Z * Z * Z :=
  let z := days + 719468 in
  let era := z / 146097 in
  let doe := z mod 146097 in
  let yoe := (doe - doe / 1460 + doe / 36524 - doe / 146096) / 365 in
  let doy := doe - (365 * yoe + yoe / 4 - yoe / 100) in
  let mp := (5 * doy + 2) / 153 in
  let d := doy - (153 * mp + 2) / 5 + 1 in
  let m := if mp <? 10 then mp + 3 else mp - 9 in
  let y := yoe + era * 400 + (if m <=? 2 then 1 else 0) in
  (y, m, d).

Fixpoint zeros (n : nat) : string :=
  match n with
  | O => ""
  | S n => String "0" (zeros n)
  end.
Definition pad (width : nat) (z : Z) : string :=
  let s := FormatInt z in zeros (width - String.length s) +:+ s.

Definition FormatRFC3339 (ns : Z) : string :=
  let secs := ns / Second in
  let '(y, m, d) := civil_of_days (secs / 86400) in
  let sod := secs mod 86400 in
  pad 4 y +:+ "-" +:+ pad 2 m +:+ "-" +:+ pad 2 d +:+ "T" +:+
  pad 2 (sod / 3600) +:+ ":" +:+ pad 2 (sod / 60 mod 60) +:+ ":" +:+ pad 2 (sod mod 60) +:+ "Z".

(** * Lemmas *)

Lemma sub_saturating_range a b : int64_ok (sub_saturating a b).
Proof. unfold int64_ok, sub_saturating. lia. Qed.

Example rfc3339_epoch : FormatRFC3339 0 = "1970-01-01T00:00:00Z".
Proof. vm_compute. reflexivity. Qed.
Example rfc3339_leap : FormatRFC3339 1709210096000000007 = "2024-02-29T12:34:56Z".
Proof. vm_compute. reflexivity. Qed.
Example rfc3339_before_epoch : FormatRFC3339 (-1) = "1969-12-31T23:59:59Z".
Proof. vm_compute. reflexivity. Qed.
Example hours_truncates : int_of_float64 (Hours (3 * Hour + 59 * Minute)) = 3.
Proof. vm_compute. reflexivity. Qed.

#[export] Hint Resolve sub_saturating_range : git_tainted.
