(* ===== verification/Sha256.v ===== *)
(** Go's [crypto/sha256], executable: padding, message schedule and compression
    over 32-bit words held in [Z].  The chain theorems use only that a digest has
    32 bytes; being executable lets witnesses run on real digests. *)
From S2P Require Import Prelude.
#[local] Open Scope Z_scope.

Definition mask32 : Z := 4294967295.
Definition add32 (a b : Z) : Z := Z.land (a + b) mask32.
Definition rotr (n x : Z) : Z := Z.lor (Z.shiftr x n) (Z.land (Z.shiftl x (32 - n)) mask32).

Definition bsig0 (x : Z) : Z := Z.lxor (rotr 2 x) (Z.lxor (rotr 13 x) (rotr 22 x)).
Definition bsig1 (x : Z) : Z := Z.lxor (rotr 6 x) (Z.lxor (rotr 11 x) (rotr 25 x)).
Definition ssig0 (x : Z) : Z := Z.lxor (rotr 7 x) (Z.lxor (rotr 18 x) (Z.shiftr x 3)).
Definition ssig1 (x : Z) : Z := Z.lxor (rotr 17 x) (Z.lxor (rotr 19 x) (Z.shiftr x 10)).
Definition ch (x y z : Z) : Z := Z.lxor (Z.land x y) (Z.land (mask32 - x) z).
Definition maj (x y z : Z) : Z := Z.lxor (Z.land x y) (Z.lxor (Z.land x z) (Z.land y z)).

Definition round_k : list Z :=
  [1116352408; 1899447441; 3049323471; 3921009573; 961987163; 1508970993; 2453635748; 2870763221;
   3624381080; 310598401; 607225278; 1426881987; 1925078388; 2162078206; 2614888103; 3248222580;
   3835390401; 4022224774; 264347078; 604807628; 770255983; 1249150122; 1555081692; 1996064986;
   2554220882; 2821834349; 2952996808; 3210313671; 3336571891; 3584528711; 113926993; 338241895;
   666307205; 773529912; 1294757372; 1396182291; 1695183700; 1986661051; 2177026350; 2456956037;
   2730485921; 2820302411; 3259730800; 3345764771; 3516065817; 3600352804; 4094571909; 275423344;
   430227734; 506948616; 659060556; 883997877; 958139571; 1322822218; 1537002063; 1747873779;
   1955562222; 2024104815; 2227730452; 2361852424; 2428436474; 2756734187; 3204031479; 3329325298].

Definition hash_state : Type := Z * Z * Z * Z * Z * Z * Z * Z.

Definition init_state : hash_state :=
  (1779033703, 3144134277, 1013904242, 2773480762, 1359893119, 2600822924, 528734635, 1541459225).

(** The schedule, newest word first. *)
Fixpoint schedule (n : nat) (w : list Z) : list Z :=
  match n with
  | O => w
  | S n =>
      let at_ i := nth i w 0 in
      schedule n (add32 (add32 (ssig1 (at_ 1%nat)) (at_ 6%nat)) (add32 (ssig0 (at_ 14%nat)) (at_ 15%nat)) :: w)
  end.

Definition round (st : hash_state) (kw : Z * Z) : hash_state :=
  let '(a, b, c, d, e, f, g, h) := st in
  let t1 := add32 (add32 h (bsig1 e)) (add32 (ch e f g) (add32 kw.1 kw.2)) in
  let t2 := add32 (bsig0 a) (maj a b c) in
  (add32 t1 t2, a, b, c, add32 d t1, e, f, g).

Definition add_state (x y : hash_state) : hash_state :=
  let '(a, b, c, d, e, f, g, h) := x in
  let '(a', b', c', d', e', f', g', h') := y in
  (add32 a a', add32 b b', add32 c c', add32 d d', add32 e e', add32 f f', add32 g g', add32 h h').

Definition compress (st : hash_state) (block : list Z) : hash_state :=
  let w := rev (schedule 48 (rev block)) in
  add_state st (fold_left round (combine round_k w) st).

(** Big-endian words of a byte string. *)
Fixpoint words (b : bytes) : list Z :=
  match b with
  | b0 :: b1 :: b2 :: b3 :: rest =>
      (Z_of_byte b0 * 16777216 + Z_of_byte b1 * 65536 + Z_of_byte b2 * 256 + Z_of_byte b3) :: words rest
  | _ => []
  end.

Fixpoint be_bytes (n : nat) (z : Z) : bytes :=
  match n with
  | O => []
  | S n => be_bytes n (z / 256) ++ [byte_of_Z z]
  end.

Definition pad (b : bytes) : bytes :=
  let l := length b in
  b ++ [x80] ++ replicate ((119 - l mod 64) mod 64)%nat x00 ++ be_bytes 8 (8 * Z.of_nat l).

Fixpoint blocks (fuel : nat) (st : hash_state) (w : list Z) : hash_state :=
  match fuel with
  | O => st
  | S fuel =>
      match w with
      | [] => st
      | _ => blocks fuel (compress st (take 16 w)) (drop 16 w)
      end
  end.

(** [sha256.Sum256(b)]; a message of [n] padded words has [n/16] blocks, so [n]
    rounds of [blocks] are enough. *)
Definition Sum256 (b : bytes) : bytes :=
  let w := words (pad b) in
  let '(a, b, c, d, e, f, g, h) := blocks (length w) init_state w in
  be_bytes 4 a ++ be_bytes 4 b ++ be_bytes 4 c ++ be_bytes 4 d ++
  be_bytes 4 e ++ be_bytes 4 f ++ be_bytes 4 g ++ be_bytes 4 h.

(** * Lemmas *)

Lemma length_be_bytes n z : length (be_bytes n z) = n.
Proof. revert z. induction n; intros z; cbn; [done|]. rewrite length_app, IHn. cbn. lia. Qed.

Lemma length_Sum256 b : length (Sum256 b) = 32%nat.
Proof.
  unfold Sum256. destruct (blocks _ _ _) as [[[[[[[? ?] ?] ?] ?] ?] ?] ?].
  rewrite !length_app, !length_be_bytes. reflexivity.
Qed.

(** [be_bytes n] is injective on [0, 256^n). *)
Lemma be_bytes_inj n a b :
  0 ≤ a < 256 ^ Z.of_nat n → 0 ≤ b < 256 ^ Z.of_nat n → be_bytes n a = be_bytes n b → a = b.
Proof.
  revert a b. induction n as [|n IH]; intros a b Ha Hb; cbn [be_bytes].
  - change (256 ^ Z.of_nat 0) with 1 in *. lia.
  - rewrite Nat2Z.inj_succ, Z.pow_succ_r in Ha, Hb by lia.
    intros [Hq Hr]%app_inj_length; [|by rewrite !length_be_bytes].
    injection Hr as Hr. apply (f_equal Z_of_byte) in Hr. rewrite !Z_of_byte_of_Z in Hr.
    apply IH in Hq.
    + rewrite (Z.div_mod a 256), (Z.div_mod b 256) by lia. congruence.
    + split; [apply Z.div_pos; lia|apply Z.div_lt_upper_bound; lia].
    + split; [apply Z.div_pos; lia|apply Z.div_lt_upper_bound; lia].
Qed.

(** The digest of the FIPS 180-4 one-block test message. *)
Example Sum256_abc :
  Sum256 (bytes_of_string "abc") =
  [xba;x78;x16;xbf;x8f;x01;xcf;xea;x41;x41;x40;xde;x5d;xae;x22;x23;
   xb0;x03;x61;xa3;x96;x17;x7a;x9c;xb4;x10;xff;x61;xf2;x00;x15;xad].
Proof. vm_compute. reflexivity. Qed.

#[global] Opaque Sum256.
