(* ===== verification/Model.v ===== *)
(** [internal/model]: object ids and hash algorithms (oid.go), the string enums
    (enums.go, cred.go, domain.go), the domain structs (domain.go, git.go,
    lock.go) and the sentinel errors (errors.go).  The Go string types stay
    strings, so an unknown value is representable as it is in the program;
    pointers to optional fields are [option]s. *)
From S2P Require Import Prelude GoStrings.
#[local] Open Scope Z_scope.

(** * errors.go *)

(** The sentinels the callers branch on with [errors.Is]; a wrapped error keeps
    its sentinel and its message is abstracted away.  [ErrNoRows] is
    [sql.ErrNoRows]; [ErrSQL] is any other failure of a statement (a violated
    constraint, a driver error); [ErrOther] is an error with no sentinel. *)
Inductive error : Type :=
  | ErrNotFound
  | ErrConflict
  | ErrChainCAS
  | ErrLeaseHeld
  | ErrLeaseLost
  | ErrBadURL
  | ErrBadOID
  | ErrNoRefs
  | ErrNoRows
  | ErrSQL
  | ErrOther (what : string).

#[global] Instance error_eq_dec : EqDecision error.
Proof. solve_decision. Defined.

Abbreviation res := (result error).

(** * oid.go *)

Abbreviation HashAlgo := string.
Definition SHA1 : HashAlgo := "sha1".
Definition SHA256 : HashAlgo := "sha256".

Definition RawLen (h : HashAlgo) : nat :=
  if String.eqb h SHA1 then 20%nat else if String.eqb h SHA256 then 32%nat else 0%nat.

Definition HexLen (h : HashAlgo) : nat := (RawLen h * 2)%nat.

Definition HashAlgo_Valid (h : HashAlgo) : bool := String.eqb h SHA1 || String.eqb h SHA256.

Record OID : Type := mkOID { Raw : bytes; Algo : HashAlgo }.

#[global] Instance OID_eq_dec : EqDecision OID.
Proof. solve_decision. Defined.

(** [OID{}] *)
Definition zeroOID : OID := mkOID [] "".

Definition Hex (o : OID) : string := EncodeToString (Raw o).

Definition IsZero (o : OID) : bool := match Raw o with [] => true | _ => false end.

(** [subtle.ConstantTimeCompare(a, b) == 1]: 0 at once on a length mismatch, else
    the bytes are xor-ed together and the accumulated difference is compared to 0. *)
Definition subtleConstEq (a b : bytes) : bool :=
  if (length a =? length b)%nat then
    Z.eqb (fold_left (λ acc p, Z.lor acc (Z.lxor (Z_of_byte p.1) (Z_of_byte p.2))) (combine a b) 0) 0
  else false.

Definition OID_Equal (o other : OID) : bool :=
  String.eqb (Algo o) (Algo other) && subtleConstEq (Raw o) (Raw other).

Definition lower_hex_byte (c : ascii) : bool :=
  let n := nat_of_ascii c in
  negb (((n <? 48) || (57 <? n)) && ((n <? 97) || (102 <? n)))%nat.

Definition ParseOID (hexStr : string) (algo : HashAlgo) : res OID :=
  if negb (HashAlgo_Valid algo) || negb (String.length hexStr =? HexLen algo)%nat then Err ErrBadOID
  else match IndexFunc (λ c, negb (lower_hex_byte c)) hexStr with
       | Some _ => Err ErrBadOID
       | None =>
           match DecodeString hexStr with
           | None => Err ErrBadOID
           | Some raw => Ok (mkOID raw algo)
           end
       end.

(** [None] is a panic. *)
Definition MustParseOID (hexStr : string) (algo : HashAlgo) : option OID :=
  match ParseOID hexStr algo with
  | Ok o => Some o
  | Err _ => None
  end.

Definition AlgoForRawLen (n : nat) : HashAlgo :=
  match n with
  | 20%nat => SHA1
  | 32%nat => SHA256
  | _ => ""
  end.

Definition OIDFromRaw (raw : bytes) : OID := mkOID raw (AlgoForRawLen (length raw)).

(** * enums.go, cred.go *)

Abbreviation TaintReason := string.
Definition TaintTagOIDChanged : TaintReason := "tag_oid_changed".
Definition TaintTagDeletedRecreated : TaintReason := "tag_deleted_recreated".

Definition TaintReason_Valid (r : TaintReason) : bool :=
  String.eqb r TaintTagOIDChanged || String.eqb r TaintTagDeletedRecreated.

Abbreviation ObservationEventType := string.
Definition EventTagCreated : ObservationEventType := "tag_created".
Definition EventTagOIDChanged : ObservationEventType := "tag_oid_changed".
Definition EventTagDeleted : ObservationEventType := "tag_deleted".
Definition EventTagRecreated : ObservationEventType := "tag_recreated".

Definition EventType_Valid (e : ObservationEventType) : bool :=
  String.eqb e EventTagCreated || String.eqb e EventTagOIDChanged
  || String.eqb e EventTagDeleted || String.eqb e EventTagRecreated.

Abbreviation VerifyStatus := string.
Definition StatusOK : VerifyStatus := "ok".
Definition StatusTainted : VerifyStatus := "tainted".
Definition StatusMismatch : VerifyStatus := "mismatch".
Definition StatusDoesntExist : VerifyStatus := "doesnt_exist".
Definition StatusNotTracked : VerifyStatus := "not_tracked".

Abbreviation Confidence := string.
Definition ConfAuthoritative : Confidence := "authoritative".
Definition ConfStale : Confidence := "stale".

Abbreviation Transport := string.
Definition TransportHTTPS : Transport := "https".
Definition TransportSSH : Transport := "ssh".

(** * domain.go *)

Abbreviation RemoteStatus := string.
Definition RemoteActive : RemoteStatus := "active".
Definition RemoteDegraded : RemoteStatus := "degraded".
Definition RemotePaused : RemoteStatus := "paused".

Abbreviation SyncStatus := string.
Definition SyncOk : SyncStatus := "ok".
Definition SyncPartial : SyncStatus := "partial".
Definition SyncFailed : SyncStatus := "failed".

Abbreviation SyncTrigger := string.
Definition TriggerRegister : SyncTrigger := "register".
Definition TriggerScheduled : SyncTrigger := "scheduled".
Definition TriggerManual : SyncTrigger := "manual".

Record Remote : Type := mkRemote {
  rm_ID : Z;
  rm_URL : string;
  rm_NormalizedURL : string;
  rm_Transport : Transport;
  rm_SyncInterval : Z;
  rm_StalenessBudget : Z;
  rm_TaintAnyTagDeletion : bool;
  rm_HashAlgo : option HashAlgo;
  rm_Status : RemoteStatus;
  rm_LastOkNS : Z;
  rm_LastErr : string;
  rm_ConsecutiveFailures : Z;
  rm_ChainHeadHash : bytes;
  rm_ChainLen : Z;
  rm_RemovedAtNS : option Z;
  rm_CreatedAtNS : Z;
  rm_UpdatedAtNS : Z;
}.

Record Ref : Type := mkRef {
  rf_ID : Z;
  rf_RemoteID : Z;
  rf_TagName : string;
  rf_CurrentOID : OID;
  rf_CurrentPeeledOID : OID;
  rf_IsAnnotatedTag : bool;
  rf_FirstOID : OID;
  rf_FirstSeenNS : Z;
  rf_LastSeenNS : Z;
  rf_LastChangedNS : Z;
  rf_Deleted : bool;
  rf_Tainted : bool;
  rf_TaintFirstNS : option Z;
  rf_ObservationCount : Z;
}.

Record ObservationProof : Type := mkProof {
  pf_RemoteID : Z;
  pf_Seq : Z;
  pf_RowHash : bytes;
}.

Record Observation : Type := mkObservation {
  ob_ID : Z;
  ob_RemoteID : Z;
  ob_RefID : Z;
  ob_SyncID : Z;
  ob_Seq : Z;
  ob_EventType : ObservationEventType;
  ob_PrevOID : OID;
  ob_NewOID : OID;
  ob_PrevPeeledOID : OID;
  ob_NewPeeledOID : OID;
  ob_ObservedAtNS : Z;
  ob_PrevHash : bytes;
  ob_RowHash : bytes;
  ob_CanonicalMeta : string;
}.

Record TaintEvent : Type := mkTaintEvent {
  te_ID : Z;
  te_RemoteID : Z;
  te_RefID : Z;
  te_Reason : TaintReason;
  te_ObservationID : option Z;
  te_FromOID : OID;
  te_ToOID : OID;
  te_DetectedAtNS : Z;
  te_AckedAtNS : option Z;
  te_AckedBy : string;
  te_AckNote : string;
  te_Detail : string;
}.

Record Sync : Type := mkSync {
  sy_ID : Z;
  sy_RemoteID : Z;
  sy_Trigger : SyncTrigger;
  sy_StartedNS : Z;
  sy_FinishedNS : Z;
  sy_Status : SyncStatus;
  sy_TagsSeen : Z;
  sy_TagsChanged : Z;
  sy_Error : string;
  sy_ChainHeadBefore : bytes;
  sy_ChainHeadAfter : bytes;
}.

(** * git.go, lock.go *)

Record LsRemoteRef : Type := mkLsRef {
  ls_Name : string;
  ls_OID : OID;
  ls_PeeledOID : OID;
  ls_IsAnnotatedTag : bool;
}.

Record Lease : Type := mkLease {
  le_RemoteID : Z;
  le_Holder : string;
  le_AcquiredAtNS : Z;
  le_ExpiresAtNS : Z;
  le_ChainHeadAtLease : bytes;
}.

(** [make([]byte, 32)]: the genesis chain head. *)
Definition genesis_head : bytes := replicate 32 x00.

(** * Lemmas *)

(** An id that [ParseOID] or a store read can produce: a known algorithm whose
    width is that of the raw bytes. *)
Definition oid_wf (o : OID) : Prop :=
  HashAlgo_Valid (Algo o) = true ∧ length (Raw o) = RawLen (Algo o).

#[global] Instance oid_wf_dec o : Decision (oid_wf o) := _.

(** Ids a column can hold and give back. *)
Definition storable (o : OID) : Prop := o = zeroOID ∨ oid_wf o.
#[global] Instance storable_dec o : Decision (storable o) := _.

Lemma HashAlgo_Valid_cases h : HashAlgo_Valid h = true ↔ h = SHA1 ∨ h = SHA256.
Proof. unfold HashAlgo_Valid. by rewrite orb_true_iff, !String.eqb_eq. Qed.

Lemma AlgoForRawLen_RawLen h : HashAlgo_Valid h = true → AlgoForRawLen (RawLen h) = h.
Proof. by intros [->| ->]%HashAlgo_Valid_cases. Qed.

(** Width determines the algorithm, so a raw id read back is labelled as written. *)
Lemma OIDFromRaw_Raw o : oid_wf o → OIDFromRaw (Raw o) = o.
Proof.
  destruct o as [raw algo]. intros [Hv Hl]. unfold OIDFromRaw. cbn in *.
  by rewrite Hl, AlgoForRawLen_RawLen.
Qed.

Lemma oid_wf_not_zero o : oid_wf o → IsZero o = false.
Proof.
  destruct o as [raw algo]. intros [Hv Hl]. unfold IsZero. cbn in *.
  apply HashAlgo_Valid_cases in Hv as [->| ->]; by destruct raw.
Qed.

Lemma IsZero_true o : IsZero o = true ↔ Raw o = [].
Proof. unfold IsZero. by destruct (Raw o). Qed.

Lemma lxor_byte_nonneg a b : 0 ≤ Z.lxor (Z_of_byte a) (Z_of_byte b).
Proof.
  pose proof (Z_of_byte_range a). pose proof (Z_of_byte_range b).
  rewrite Z.lxor_nonneg. lia.
Qed.

Lemma subtle_fold_zero l acc :
  0 ≤ acc →
  fold_left (λ acc (p : byte * byte), Z.lor acc (Z.lxor (Z_of_byte p.1) (Z_of_byte p.2))) l acc = 0 ↔
  acc = 0 ∧ Forall (λ p, p.1 = p.2) l.
Proof.
  revert acc. induction l as [|[a b] l IH]; intros acc Hacc; cbn.
  - split; [by intros ->|by intros [-> _]].
  - pose proof (lxor_byte_nonneg a b).
    rewrite IH, Forall_cons by (by apply Z.lor_nonneg). cbn.
    rewrite Z.lor_eq_0_iff, Z.lxor_eq_0_iff. split; [intros [[? Hab] ?]|intros [? [-> ?]]]; [|done].
    split; [done|]. split; [|done].
    rewrite <- (byte_of_Z_of_byte a), <- (byte_of_Z_of_byte b). by rewrite Hab.
Qed.

(** The constant-time compare decides equality. *)
Lemma subtleConstEq_spec a b : subtleConstEq a b = true ↔ a = b.
Proof.
  unfold subtleConstEq. split.
  - destruct (Nat.eqb_spec (length a) (length b)) as [Hl|]; [|done].
    rewrite Z.eqb_eq, subtle_fold_zero by done. intros [_ Hall].
    revert b Hl Hall. induction a as [|x a IH]; intros [|y b]; cbn; try done.
    intros Hl Hall. apply Forall_cons in Hall as [? ?]. cbn in *. subst. f_equal. auto.
  - intros ->. rewrite Nat.eqb_refl, Z.eqb_eq, subtle_fold_zero by done. split; [done|].
    induction b; cbn; constructor; auto.
Qed.

Lemma OID_Equal_spec a b : OID_Equal a b = true ↔ a = b.
Proof.
  destruct a as [r1 a1], b as [r2 a2]. unfold OID_Equal. cbn.
  rewrite andb_true_iff, String.eqb_eq, subtleConstEq_spec. split; [by intros [-> ->]|by intros [= -> ->]].
Qed.

Lemma OID_Equal_refl a : OID_Equal a a = true.
Proof. by apply OID_Equal_spec. Qed.

Lemma OID_Equal_sym a b : OID_Equal a b = OID_Equal b a.
Proof.
  destruct (OID_Equal b a) eqn:E.
  - apply OID_Equal_spec in E as ->. apply OID_Equal_refl.
  - apply not_true_iff_false. intros H%OID_Equal_spec. subst. by rewrite OID_Equal_refl in E.
Qed.

Lemma OID_Equal_false a b : OID_Equal a b = false ↔ a ≠ b.
Proof. by rewrite <- not_true_iff_false, OID_Equal_spec. Qed.

(** A lower-case hex digit decodes to the nibble that prints it. *)
Lemma lower_hex_byte_digit c :
  lower_hex_byte c = true → ∃ n, (n < 16)%N ∧ from_hex_char c = Some n ∧ hex_digit n = c.
Proof.
  destruct c as [[] [] [] [] [] [] [] []]; intros H; vm_compute in H; try discriminate H;
    (eexists; split; [|split; [vm_compute; reflexivity|reflexivity]]; done).
Qed.

Lemma byte_of_nibbles h l :
  (h < 16)%N → (l < 16)%N →
  Byte.to_N (byte_of_Z (Z.of_N (h * 16 + l))) = (h * 16 + l)%N.
Proof.
  intros Hh Hl. pose proof (Z_of_byte_of_Z (Z.of_N (h * 16 + l))) as H.
  rewrite Z.mod_small in H by lia. unfold Z_of_byte in H. lia.
Qed.

(** On lower-case hex of even length, decoding succeeds and encoding undoes it. *)
Lemma DecodeString_lower n s :
  String.length s = (n * 2)%nat → string_forall lower_hex_byte s = true →
  ∃ raw, DecodeString s = Some raw ∧ length raw = n ∧ EncodeToString raw = s.
Proof.
  revert s. induction n as [|n IH]; intros s Hlen Hall.
  - destruct s; [|done]. by exists [].
  - destruct s as [|a [|b s]]; cbn in Hlen; try lia. cbn in Hall.
    apply andb_true_iff in Hall as [Ha Hall]. apply andb_true_iff in Hall as [Hb Hall].
    destruct (IH s) as (raw & Hd & Hl & He); [lia|done|].
    destruct (lower_hex_byte_digit a Ha) as (h & Hh & Hfa & Hda).
    destruct (lower_hex_byte_digit b Hb) as (l & Hl' & Hfb & Hdb).
    exists (byte_of_Z (Z.of_N (h * 16 + l)) :: raw).
    cbn [DecodeString EncodeToString length]. rewrite Hfa, Hfb. cbn [mbind option_bind].
    rewrite Hd. cbn. split; [done|]. split; [lia|].
    rewrite byte_of_nibbles by done.
    rewrite N.div_add_l, N.div_small, N.add_0_r by lia.
    rewrite N.add_comm, N.Div0.mod_add, N.mod_small by lia. by rewrite Hda, Hdb, He.
Qed.

Lemma lower_hex_digit n : (n < 16)%N → lower_hex_byte (hex_digit n) = true.
Proof.
  intros Hn.
  assert (n ∈ [0;1;2;3;4;5;6;7;8;9;10;11;12;13;14;15]%N) as H by (rewrite !elem_of_cons; lia).
  rewrite !elem_of_cons in H. destruct_or?; subst; try done. by apply elem_of_nil in H.
Qed.

Lemma EncodeToString_lower b : string_forall lower_hex_byte (EncodeToString b) = true.
Proof.
  induction b as [|x b IH]; [done|]. cbn [EncodeToString string_forall].
  pose proof (Byte.to_N_bounded x).
  rewrite !lower_hex_digit, IH; [done|apply N.mod_lt; lia|apply N.Div0.div_lt_upper_bound; lia].
Qed.

(** What [ParseOID] accepts, and what it returns. *)
Lemma ParseOID_ok s h o :
  ParseOID s h = Ok o ↔
  HashAlgo_Valid h = true ∧ String.length s = HexLen h ∧ string_forall lower_hex_byte s = true ∧
  Algo o = h ∧ Hex o = s ∧ length (Raw o) = RawLen h.
Proof.
  assert (Hneg : string_forall (λ c, negb (negb (lower_hex_byte c))) s = string_forall lower_hex_byte s).
  { induction s; cbn; [done|]. by rewrite negb_involutive, IHs. }
  unfold ParseOID. destruct (HashAlgo_Valid h) eqn:Hv; cbn [negb orb]; [|naive_solver].
  destruct (Nat.eqb_spec (String.length s) (HexLen h)) as [Hl|]; cbn [negb]; [|naive_solver].
  destruct (IndexFunc _ s) eqn:Hi.
  - split; [done|]. intros (_ & _ & Hall & _).
    rewrite <- Hneg, <- IndexFunc_None in Hall. congruence.
  - apply IndexFunc_None in Hi. rewrite Hneg in Hi.
    destruct (DecodeString_lower (RawLen h) s) as (raw & Hd & Hlr & He); [done|done|].
    rewrite Hd. split.
    + intros [= <-]. done.
    + intros (_ & _ & _ & Ha & Hh & _). f_equal. destruct o as [r a]. cbn in *. subst a.
      f_equal. apply EncodeToString_inj. by rewrite He.
Qed.

Lemma ParseOID_wf s h o : ParseOID s h = Ok o → oid_wf o.
Proof.
  intros (Hv & _ & _ & Ha & _ & Hr)%ParseOID_ok. split; by rewrite Ha.
Qed.

#[export] Hint Resolve OID_Equal_refl ParseOID_wf : git_tainted.
