(* ===== verification/Chain.v ===== *)
(** [internal/store/chain.go]: the canonical, length-prefixed encoding of an
    observation and the row hash that links the per-remote ledger, with an
    executable replay of a ledger as an auditor would perform it. *)
From S2P Require Import Prelude GoStrings Sha256 Model.
#[local] Open Scope Z_scope.

(** * chain.go *)

Definition ChainHashLen : nat := 32.

(** [binary.BigEndian.PutUint64(x[:], v)] *)
Definition PutUint64 (v : Z) : bytes := be_bytes 8 v.

Definition writeField (buf b : bytes) : bytes :=
  buf ++ PutUint64 (Z.of_nat (length b)) ++ b.

Definition writeInt (buf : bytes) (v : Z) : bytes :=
  writeField buf (PutUint64 (uint64 v)).

Definition CanonicalRow (o : Observation) : bytes :=
  let buf := [] in
  let buf := writeInt buf (ob_RemoteID o) in
  let buf := writeInt buf (ob_Seq o) in
  let buf := writeInt buf (ob_RefID o) in
  let buf := writeField buf (bytes_of_string (ob_EventType o)) in
  let buf := writeField buf (Raw (ob_PrevOID o)) in
  let buf := writeField buf (Raw (ob_NewOID o)) in
  let buf := writeField buf (Raw (ob_PrevPeeledOID o)) in
  let buf := writeField buf (Raw (ob_NewPeeledOID o)) in
  let buf := writeInt buf (ob_ObservedAtNS o) in
  let buf := writeField buf (bytes_of_string (ob_CanonicalMeta o)) in
  buf.

(** [h.Write(prevHash); h.Write(CanonicalRow(o)); h.Sum(nil)] *)
Definition RowHash (prevHash : bytes) (o : Observation) : bytes :=
  Sum256 (prevHash ++ CanonicalRow o).

(** * The replay of a ledger

    [replay head n l] walks rows [n+1, n+2, ...]: each row carries the next
    sequence number, the hash of the row before it and its own hash. *)

Fixpoint replay (head : bytes) (n : Z) (l : list Observation) : bool :=
  match l with
  | [] => true
  | o :: l =>
      Z.eqb (ob_Seq o) (n + 1)
      && bool_decide (ob_PrevHash o = head)
      && bool_decide (ob_RowHash o = RowHash head o)
      && replay (ob_RowHash o) (n + 1) l
  end.

(** Rows that link up from [head], without regard to their sequence numbers, which the hash of
    each row commits to. *)
Fixpoint linked (head : bytes) (l : list Observation) : bool :=
  match l with
  | [] => true
  | o :: l => bool_decide (ob_PrevHash o = head) && bool_decide (ob_RowHash o = RowHash head o) && linked (ob_RowHash o) l
  end.

(** The chain head after a ledger. *)
Definition ledger_head (head : bytes) (l : list Observation) : bytes :=
  match last l with
  | Some o => ob_RowHash o
  | None => head
  end.

(** The fields the row hash commits to. *)
Definition chained (o : Observation) :=
  (ob_RemoteID o, ob_Seq o, ob_RefID o, ob_EventType o,
   (Raw (ob_PrevOID o), Raw (ob_NewOID o), Raw (ob_PrevPeeledOID o), Raw (ob_NewPeeledOID o)),
   ob_ObservedAtNS o, ob_CanonicalMeta o).

(** The values are those of Go variables: [int64] numbers, slices and strings
    whose length is a machine integer. *)
Definition fits (b : bytes) : Prop := Z.of_nat (length b) < 2^64.

Record row_fits (o : Observation) : Prop := {
  fits_RemoteID : int64_ok (ob_RemoteID o);
  fits_Seq : int64_ok (ob_Seq o);
  fits_RefID : int64_ok (ob_RefID o);
  fits_ObservedAtNS : int64_ok (ob_ObservedAtNS o);
  fits_EventType : fits (bytes_of_string (ob_EventType o));
  fits_PrevOID : fits (Raw (ob_PrevOID o));
  fits_NewOID : fits (Raw (ob_NewOID o));
  fits_PrevPeeledOID : fits (Raw (ob_PrevPeeledOID o));
  fits_NewPeeledOID : fits (Raw (ob_NewPeeledOID o));
  fits_CanonicalMeta : fits (bytes_of_string (ob_CanonicalMeta o));
}.

(** * Lemmas *)

Lemma uint64_range v : 0 ≤ uint64 v < 256 ^ Z.of_nat 8.
Proof. unfold uint64. apply Z.mod_pos_bound. lia. Qed.

Lemma PutUint64_inj a b :
  0 ≤ a < 2^64 → 0 ≤ b < 2^64 → PutUint64 a = PutUint64 b → a = b.
Proof. intros Ha Hb. apply be_bytes_inj; [exact Ha|exact Hb]. Qed.

Lemma length_PutUint64 v : length (PutUint64 v) = 8%nat.
Proof. apply length_be_bytes. Qed.

(** A field is recovered from the front of what follows it. *)
Lemma field_inj x y r s :
  fits x → fits y →
  PutUint64 (Z.of_nat (length x)) ++ x ++ r = PutUint64 (Z.of_nat (length y)) ++ y ++ s →
  x = y ∧ r = s.
Proof.
  unfold fits. intros Hx Hy [Hlen H]%app_inj_length; [|by rewrite !length_PutUint64].
  apply PutUint64_inj in Hlen; [|lia|lia]. apply app_inj_length; [lia|done].
Qed.

Lemma fits_int v : fits (PutUint64 (uint64 v)).
Proof. unfold fits. rewrite length_PutUint64. lia. Qed.

Lemma int_field_inj a b :
  int64_ok a → int64_ok b → PutUint64 (uint64 a) = PutUint64 (uint64 b) → a = b.
Proof.
  intros Ha Hb H. apply uint64_inj; [done..|].
  apply (be_bytes_inj 8); [apply uint64_range|apply uint64_range|done].
Qed.

Lemma writeField_app buf b : writeField buf b = buf ++ writeField [] b.
Proof. reflexivity. Qed.

Lemma CanonicalRow_inj o1 o2 :
  row_fits o1 → row_fits o2 → CanonicalRow o1 = CanonicalRow o2 → chained o1 = chained o2.
Proof.
  intros [] [] H. unfold CanonicalRow, writeInt, writeField in H.
  rewrite <- !(assoc_L (++)), !app_nil_l in H.
  apply field_inj in H as [E1 H]; [|apply fits_int..].
  apply field_inj in H as [E2 H]; [|apply fits_int..].
  apply field_inj in H as [E3 H]; [|apply fits_int..].
  apply field_inj in H as [E4 H]; [|done..].
  apply field_inj in H as [E5 H]; [|done..].
  apply field_inj in H as [E6 H]; [|done..].
  apply field_inj in H as [E7 H]; [|done..].
  apply field_inj in H as [E8 H]; [|done..].
  apply field_inj in H as [E9 H]; [|apply fits_int..].
  apply (f_equal (λ b, b ++ [])) in H. rewrite <- !(assoc_L (++)) in H.
  apply field_inj in H as [E10 _]; [|done..].
  apply int_field_inj in E1, E2, E3, E9; [|done..].
  apply bytes_of_string_inj in E4, E10. unfold chained. congruence.
Qed.

Lemma ledger_head_snoc head l o : ledger_head head (l ++ [o]) = ob_RowHash o.
Proof. unfold ledger_head. by rewrite last_snoc. Qed.

Lemma ledger_head_cons head o l : ledger_head head (o :: l) = ledger_head (ob_RowHash o) l.
Proof. unfold ledger_head. rewrite last_cons. by destruct (last l). Qed.

Lemma replay_app head n l1 l2 :
  replay head n (l1 ++ l2) =
  replay head n l1 && replay (ledger_head head l1) (n + Z.of_nat (length l1)) l2.
Proof.
  revert head n. induction l1 as [|o l1 IH]; intros head n.
  - cbn. by rewrite Z.add_0_r.
  - cbn [app replay]. rewrite IH, ledger_head_cons, !andb_assoc. do 2 f_equal.
    cbn [length]. lia.
Qed.

Lemma replay_snoc head n l o :
  replay head n (l ++ [o]) = true ↔
  replay head n l = true ∧ ob_Seq o = n + Z.of_nat (length l) + 1 ∧
  ob_PrevHash o = ledger_head head l ∧ ob_RowHash o = RowHash (ledger_head head l) o.
Proof.
  rewrite replay_app. cbn. rewrite !andb_true_iff, Z.eqb_eq, !bool_decide_eq_true. tauto.
Qed.

Lemma length_RowHash p o : length (RowHash p o) = 32%nat.
Proof. apply length_Sum256. Qed.

Lemma length_ledger_head head n l :
  length head = 32%nat → replay head n l = true → length (ledger_head head l) = 32%nat.
Proof.
  intros Hh. destruct l as [|o l _] using rev_ind; [done|].
  rewrite replay_snoc, ledger_head_snoc. intros (_ & _ & _ & ->). apply length_RowHash.
Qed.

(** The i-th row of a replayed ledger carries sequence number i+1. *)
Lemma replay_seq head n l i o :
  replay head n l = true → l !! i = Some o → ob_Seq o = n + Z.of_nat i + 1.
Proof.
  revert head n i. induction l as [|x l IH]; intros head n i Hr Hi; [done|].
  cbn in Hr. rewrite !andb_true_iff, Z.eqb_eq in Hr. destruct Hr as (((Hs & _) & _) & Hr).
  destruct i as [|i]; cbn in Hi; [simplify_eq; lia|].
  rewrite (IH _ _ _ Hr Hi). lia.
Qed.

Lemma linked_app head l1 l2 : linked head (l1 ++ l2) = linked head l1 && linked (ledger_head head l1) l2.
Proof.
  revert head. induction l1 as [|o l1 IH]; intros head; [done|]. cbn [app linked]. by rewrite IH, ledger_head_cons, !andb_assoc.
Qed.

(** A ledger that replays links up. *)
Lemma replay_linked head n l : replay head n l = true → linked head l = true.
Proof.
  revert head n. induction l as [|o l IH]; intros head n; [done|]. cbn. rewrite !andb_true_iff. intros (((_ & ->) & ->) & Hr). by eauto.
Qed.

Lemma linked_snoc head l o :
  linked head (l ++ [o]) = true ↔
  linked head l = true ∧ ob_PrevHash o = ledger_head head l ∧ ob_RowHash o = RowHash (ledger_head head l) o.
Proof. rewrite linked_app. cbn. rewrite !andb_true_iff, !bool_decide_eq_true. tauto. Qed.

Lemma length_linked_head head l : length head = 32%nat → linked head l = true → length (ledger_head head l) = 32%nat.
Proof.
  intros Hh. destruct l as [|o l _] using rev_ind; [done|]. rewrite linked_snoc, ledger_head_snoc. intros (_ & _ & ->). apply length_RowHash.
Qed.

(** What has to be broken to forge a ledger: a collision, or a preimage of the
    genesis head. *)
Definition collision : Prop := ∃ x y, x ≠ y ∧ Sum256 x = Sum256 y.
Definition genesis_preimage : Prop := ∃ x, Sum256 x = genesis_head.

(** Rows hashed to the same value over 32-byte heads agree, or collide. *)
Lemma RowHash_inj p1 p2 o1 o2 :
  length p1 = 32%nat → length p2 = 32%nat → row_fits o1 → row_fits o2 →
  RowHash p1 o1 = RowHash p2 o2 → (p1 = p2 ∧ chained o1 = chained o2) ∨ collision.
Proof.
  intros Hp1 Hp2 Ho1 Ho2 H.
  destruct (decide (p1 ++ CanonicalRow o1 = p2 ++ CanonicalRow o2)) as [E|Hne].
  - left. apply app_inj_length in E as [-> E]; [|congruence]. auto using CanonicalRow_inj.
  - right. exists (p1 ++ CanonicalRow o1), (p2 ++ CanonicalRow o2). done.
Qed.

(** Two ledgers that link up to the same head. *)
Lemma linked_tamper_evident l1 l2 :
  Forall row_fits l1 → Forall row_fits l2 →
  linked genesis_head l1 = true → linked genesis_head l2 = true →
  ledger_head genesis_head l1 = ledger_head genesis_head l2 →
  map chained l1 = map chained l2 ∨ collision ∨ genesis_preimage.
Proof.
  revert l2. induction l1 as [|o1 l1 IH] using rev_ind; intros l2 Hf1 Hf2 H1 H2 Hh.
  - destruct l2 as [|o2 l2 _] using rev_ind; [by left|].
    rewrite ledger_head_snoc in Hh. apply linked_snoc in H2 as (_ & _ & E).
    right; right. exists (ledger_head genesis_head l2 ++ CanonicalRow o2).
    unfold RowHash in E. rewrite <- E. by symmetry.
  - rewrite ledger_head_snoc in Hh. apply linked_snoc in H1 as (H1 & _ & E1).
    destruct l2 as [|o2 l2 _] using rev_ind.
    { right; right. exists (ledger_head genesis_head l1 ++ CanonicalRow o1).
      unfold RowHash in E1. by rewrite <- E1. }
    rewrite ledger_head_snoc in Hh. apply linked_snoc in H2 as (H2 & _ & E2).
    apply Forall_app in Hf1 as [Hf1 Ho1%Forall_inv].
    apply Forall_app in Hf2 as [Hf2 Ho2%Forall_inv].
    rewrite E1, E2 in Hh.
    pose proof (length_linked_head genesis_head l1 eq_refl H1) as L1.
    pose proof (length_linked_head genesis_head l2 eq_refl H2) as L2.
    destruct (RowHash_inj _ _ _ _ L1 L2 Ho1 Ho2 Hh) as [[Hp Hc]|]; [|by eauto].
    destruct (IH l2) as [Hm|]; [done..| |by right].
    left. rewrite !map_app. cbn. by rewrite Hm, Hc.
Qed.

(** * Properties *)

(** The canonical row is an injective encoding of the ten chained fields: two
    observations with the same canonical bytes agree on all of them (the
    length prefixes leave no room for shifting bytes between fields). *)
Theorem canonical_row_injective o1 o2 :
  row_fits o1 → row_fits o2 →
  CanonicalRow o1 = CanonicalRow o2 ↔ chained o1 = chained o2.
Proof.
  intros H1 H2. split; [by apply CanonicalRow_inj|].
  unfold chained, CanonicalRow. intros [=].
  congruence.
Qed.

Definition sample_oid : OID := mkOID (replicate 20 xab) SHA1.
Definition sample_row : Observation :=
  let o := mkObservation 1 7 3 2 1 EventTagCreated zeroOID sample_oid zeroOID zeroOID 1000
             genesis_head [] "" in
  mkObservation 1 7 3 2 1 EventTagCreated zeroOID sample_oid zeroOID zeroOID 1000
    genesis_head (RowHash genesis_head o) "".

Lemma sample_row_fits : row_fits sample_row.
Proof. split; vm_compute; first [done|split; congruence]. Qed.

Lemma canonical_row_injective_witness :
  row_fits sample_row ∧ (CanonicalRow sample_row = CanonicalRow sample_row ↔ chained sample_row = chained sample_row).
Proof. split; [apply sample_row_fits|apply canonical_row_injective; apply sample_row_fits]. Defined.


