(* ===== verification/SyncDiff.v ===== *)
(** [internal/sync/diff.go] and [format.go]: the classification of one tag between
    two syncs, and the detection of a remote's object format. *)
From S2P Require Import Prelude GoStrings Model.
#[local] Open Scope Z_scope.

(** * diff.go *)

Record TagDelta : Type := mkDelta {
  Event : ObservationEventType;
  Taint : option TaintReason;
}.

(** [TagDelta{}]: no change, no observation. *)
Definition noDelta : TagDelta := mkDelta "" None.

Definition ClassifyTag (prev : option Ref) (now : option LsRemoteRef) : TagDelta :=
  match now with
  | None => noDelta
  | Some now =>
      match prev with
      | None => mkDelta EventTagCreated None
      | Some prev =>
          if rf_Deleted prev then
            if negb (OID_Equal (rf_CurrentOID prev) (ls_OID now))
            then mkDelta EventTagRecreated (Some TaintTagDeletedRecreated)
            else mkDelta EventTagCreated None
          else if OID_Equal (ls_OID now) (rf_CurrentOID prev) then noDelta
          else mkDelta EventTagOIDChanged (Some TaintTagOIDChanged)
      end
  end.

Definition ClassifyDeletion (prev : option Ref) (taintAnyTagDeletion : bool) : TagDelta :=
  match prev with
  | None => noDelta
  | Some _ =>
      if taintAnyTagDeletion
      then mkDelta EventTagDeleted (Some TaintTagDeletedRecreated)
      else mkDelta EventTagDeleted None
  end.

(** * format.go *)

Fixpoint DetectObjectFormat (refs : list LsRemoteRef) : res HashAlgo :=
  match refs with
  | [] => Err ErrNoRefs
  | r :: refs => if negb (IsZero (ls_OID r)) then Ok (Algo (ls_OID r)) else DetectObjectFormat refs
  end.

(** * Lemmas *)

(** A tag seen before taints exactly when its id moved; it produces no
    observation exactly when it was live and did not move. *)
Lemma ClassifyTag_taint prev now :
  Taint (ClassifyTag (Some prev) (Some now)) = None ↔ ls_OID now = rf_CurrentOID prev.
Proof.
  unfold ClassifyTag. rewrite (OID_Equal_sym (rf_CurrentOID prev)).
  destruct (rf_Deleted prev), (OID_Equal (ls_OID now) (rf_CurrentOID prev)) eqn:E; cbn;
    rewrite ?OID_Equal_spec, ?OID_Equal_false in E; naive_solver.
Qed.

Lemma ClassifyTag_quiet prev now :
  Event (ClassifyTag (Some prev) (Some now)) = "" ↔
  rf_Deleted prev = false ∧ ls_OID now = rf_CurrentOID prev.
Proof.
  unfold ClassifyTag. rewrite (OID_Equal_sym (rf_CurrentOID prev)).
  destruct (rf_Deleted prev), (OID_Equal (ls_OID now) (rf_CurrentOID prev)) eqn:E; cbn;
    rewrite ?OID_Equal_spec, ?OID_Equal_false in E; naive_solver.
Qed.

Lemma ClassifyTag_event_valid prev now :
  Event (ClassifyTag prev now) = "" ∨ EventType_Valid (Event (ClassifyTag prev now)) = true.
Proof.
  unfold ClassifyTag. destruct now, prev as [p|]; cbn; auto.
  destruct (rf_Deleted p), (OID_Equal _ _); cbn; auto; destruct (OID_Equal _ _); cbn; auto.
Qed.

Lemma ClassifyTag_taint_event prev now reason :
  Taint (ClassifyTag prev now) = Some reason →
  TaintReason_Valid reason = true ∧ Event (ClassifyTag prev now) ≠ "".
Proof.
  unfold ClassifyTag. destruct now, prev as [p|]; cbn; try done.
  destruct (rf_Deleted p); destruct (OID_Equal _ _); cbn; intros; simplify_eq; done.
Qed.

(** * Properties *)

