(* ===== verification/LsRemote.v ===== *)
(** [internal/git/lsremote.go] and the hardened command line of [runner.go]: from
    the text [git ls-remote --tags] prints to tag refs.  Running git is outside
    the model: [LsRemote] takes the runner as an argument. *)
From S2P Require Import Prelude GoStrings Model.
#[local] Open Scope Z_scope.

(** * lsremote.go *)

Definition prefixTags : string := "refs/tags/".
Definition peeledSfx : string := "^{}".
Definition newline : ascii := "010".
Definition tab : ascii := "009".
Definition carriage_return : ascii := "013".

(** [bufio.ScanLines] drops one carriage return at the end of a line. *)
Definition dropCR (s : string) : string :=
  TrimSuffix s (String carriage_return "").

(** [bufio.Scanner] over lines with [Buffer(_, 4 MiB)]: the lines scanned, and whether
    the scan stopped on a line that does not fit the buffer.  The last segment is
    a line only when it is not empty. *)
Definition maxTokenSize : Z := 4 * 1024 * 1024.

Fixpoint scan_segments (segs : list string) : list string * bool :=
  match segs with
  | [] => ([], false)
  | [s] =>
      if maxTokenSize <=? len s then ([], true)
      else if String.eqb s "" then ([], false)
      else ([dropCR s], false)
  | s :: segs =>
      if maxTokenSize <=? len s then ([], true)
      else let '(ls, tooLong) := scan_segments segs in (dropCR s :: ls, tooLong)
  end.

Definition scan_lines (out : string) : list string * bool := scan_segments (Split out newline).

(** The state of the parser's loop: the refs so far, the index and the name of the
    last tag line. *)
Record parse_state : Type := mkParse {
  ps_refs : list LsRemoteRef;
  ps_lastTagIdx : option nat;
  ps_lastTagName : string;
}.

Definition set_peeled (peeled : OID) (r : LsRemoteRef) : LsRemoteRef :=
  mkLsRef (ls_Name r) (ls_OID r) peeled true.

(** The body of the loop over the scanned lines. *)
Definition parse_line (algo : HashAlgo) (st : parse_state) (line : string) : res parse_state :=
  if String.eqb line "" then Ok st
  else
    match IndexByte line tab with
    | None => Err (ErrOther "ls-remote: malformed line (no tab)")
    | Some i =>
        let oidHex := stake i line in
        let fullRef := sdrop (i + 1) line in
        if HasSuffix fullRef peeledSfx then
          let base := TrimSuffix fullRef peeledSfx in
          if negb (HasPrefix base prefixTags) then Ok st
          else
            let name := sdrop (String.length prefixTags) base in
            match ps_lastTagIdx st with
            | None => Err (ErrOther "ls-remote: dangling peeled line")
            | Some idx =>
                if negb (String.eqb (ps_lastTagName st) name)
                then Err (ErrOther "ls-remote: dangling peeled line")
                else
                  peeled ← ParseOID oidHex algo;
                  Ok (mkParse (alter (set_peeled peeled) idx (ps_refs st)) (Some idx) (ps_lastTagName st))
            end
        else if negb (HasPrefix fullRef prefixTags) then Ok st
        else
          let name := sdrop (String.length prefixTags) fullRef in
          oid ← ParseOID oidHex algo;
          let refs := ps_refs st ++ [mkLsRef name oid zeroOID false] in
          Ok (mkParse refs (Some (length refs - 1)%nat) name)
    end.

Fixpoint parse_lines (algo : HashAlgo) (st : parse_state) (lines : list string) : res parse_state :=
  match lines with
  | [] => Ok st
  | line :: lines => st ← parse_line algo st line; parse_lines algo st lines
  end.

Definition ParseLsRemote (out : string) (algo : HashAlgo) : res (list LsRemoteRef) :=
  if negb (HashAlgo_Valid algo) then Err ErrBadOID
  else
    let '(lines, tooLong) := scan_lines out in
    st ← parse_lines algo (mkParse [] None "") lines;
    if tooLong : bool then Err (ErrOther "ls-remote: scan") else Ok (ps_refs st).

(** The first line with a tab at a known hex width names the algorithm. *)
Fixpoint detect_lines (lines : list string) : HashAlgo :=
  match lines with
  | [] => ""
  | line :: lines =>
      match IndexByte line tab with
      | Some (S t) =>
          if (S t =? HexLen SHA1)%nat then SHA1
          else if (S t =? HexLen SHA256)%nat then SHA256
          else detect_lines lines
      | _ => detect_lines lines
      end
  end.

Definition detectAlgoFromLsRemote (out : string) : HashAlgo := detect_lines (Split out newline).

(** * runner.go *)

Definition hardenedArgv (sub : string) (args : list string) : list string :=
  ["--no-replace-objects";
   "-c"; "core.useReplaceRefs=false";
   "-c"; "core.hooksPath=/dev/null";
   "-c"; "protocol.file.allow=never";
   "-c"; "protocol.ext.allow=never";
   "-c"; "transfer.fsckObjects=true";
   "-c"; "receive.fsckObjects=true";
   sub] ++ args.

Record MaterializedAuth : Type := mkAuth {
  ma_GitConfigGlobal : string;
  ma_SSHCommand : string;
  ma_EnvOverlay : list string;
}.

Definition hardenedEnvWithProtocol (auth : option MaterializedAuth) (allowProtocol : string) : list string :=
  let allowProtocol := if String.eqb allowProtocol "" then "https:ssh" else allowProtocol in
  let env :=
    ["GIT_TERMINAL_PROMPT=0"; "GIT_CONFIG_NOSYSTEM=1"; "GIT_ALLOW_PROTOCOL=" +:+ allowProtocol;
     "GIT_PROTOCOL_FROM_USER=0"; "GIT_LFS_SKIP_SMUDGE=1"; "GIT_ASKPASS="; "GIT_OPTIONAL_LOCKS=0";
     "PATH=/usr/local/bin:/usr/bin:/bin"] in
  match auth with
  | Some auth =>
      let env :=
        if String.eqb (ma_GitConfigGlobal auth) "" then env ++ ["GIT_CONFIG_GLOBAL=/dev/null"]
        else env ++ ["GIT_CONFIG_GLOBAL=" +:+ ma_GitConfigGlobal auth] in
      let env :=
        if String.eqb (ma_SSHCommand auth) "" then env
        else env ++ ["GIT_SSH_COMMAND=" +:+ ma_SSHCommand auth] in
      env ++ ma_EnvOverlay auth
  | None => env ++ ["GIT_CONFIG_GLOBAL=/dev/null"]
  end.

(** How a subprocess ended: the state of its context, its own error and what it printed. *)
Record process_end : Type := mkProcessEnd {
  pe_ctx : option string;
  pe_err : option string;
  pe_stdout : string;
  pe_stderr : string;
}.

(** What [run] makes of it; an argument vector of fewer than two elements would panic.  [%v]
    prints a slice of strings in brackets. *)
Definition run (argv : list string) (p : process_end) : res string :=
  match pe_ctx p with
  | Some e => Err (ErrOther ("git [" +:+ Join (drop (length argv - 2) argv) " " +:+ "]: " +:+ e))
  | None =>
      match pe_err p with
      | Some e => Err (ErrOther ("git " +:+ default "" (head argv) +:+ " failed: " +:+ e +:+ ": " +:+ pe_stderr p))
      | None => Ok (pe_stdout p)
      end
  end.

(** [run] executes git with an argument vector and an environment. *)
Definition LsRemote (run : list string → list string → res string) (allowProtocol : string)
    (rawURL : string) (auth : option MaterializedAuth) : res (list LsRemoteRef) :=
  let argv := hardenedArgv "ls-remote" ["--tags"; "--end-of-options"; rawURL] in
  out ← run argv (hardenedEnvWithProtocol auth allowProtocol);
  let algo := detectAlgoFromLsRemote out in
  if negb (HashAlgo_Valid algo) then Ok [] else ParseLsRemote out algo.

(** * What git prints

    The lines [git ls-remote --tags] prints for a tag: its ref line and, for an
    annotated tag, the peeled line right after it. *)

Definition tag_line (name : string) (oid : OID) : string :=
  Hex oid +:+ String tab (prefixTags +:+ name).
Definition peeled_line (name : string) (peeled : OID) : string :=
  Hex peeled +:+ String tab (prefixTags +:+ name +:+ peeledSfx).

Definition ref_lines (r : LsRemoteRef) : list string :=
  if ls_IsAnnotatedTag r
  then [tag_line (ls_Name r) (ls_OID r); peeled_line (ls_Name r) (ls_PeeledOID r)]
  else [tag_line (ls_Name r) (ls_OID r)].

Definition print_lines (lines : list string) : string :=
  foldr (λ l out, l +:+ String newline out) "" lines.

Definition print_refs (refs : list LsRemoteRef) : string := print_lines (refs ≫= ref_lines).

(** Names git accepts hold no control byte and no caret; what the parser needs of
    that: no line break, no peeled suffix, and a line that fits the buffer. *)
Definition no_break (s : string) : bool :=
  string_forall (λ c, negb (Ascii.eqb c newline) && negb (Ascii.eqb c carriage_return)) s.
Definition name_ok (name : string) : bool :=
  no_break name && negb (HasSuffix name peeledSfx) && (len name <? 4000000).

(** A parsed ref: the ids are of the remote's algorithm, and the tag is annotated
    exactly when a peeled id was read for it. *)
Definition ls_ok (algo : HashAlgo) (r : LsRemoteRef) : Prop :=
  oid_wf (ls_OID r) ∧ Algo (ls_OID r) = algo ∧
  if ls_IsAnnotatedTag r then oid_wf (ls_PeeledOID r) ∧ Algo (ls_PeeledOID r) = algo
  else ls_PeeledOID r = zeroOID.

(** * Lemmas *)

Lemma Split_line l c rest :
  string_forall (λ a, negb (Ascii.eqb a c)) l = true →
  Split (l +:+ String c rest) c = l :: Split rest c.
Proof.
  induction l as [|a l IH]; cbn.
  - by rewrite Ascii.eqb_refl.
  - intros [Ha Hl]%andb_true_iff. apply negb_true_iff in Ha. by rewrite Ha, IH.
Qed.

Lemma no_break_newline s : no_break s = true → string_forall (λ a, negb (Ascii.eqb a newline)) s = true.
Proof. induction s; cbn; [done|]. rewrite !andb_true_iff. naive_solver. Qed.

Lemma no_break_dropCR s : no_break s = true → dropCR s = s.
Proof.
  unfold dropCR, TrimSuffix. destruct (HasSuffix _ _) eqn:E; [|done].
  apply HasSuffix_spec in E as [t ->]. unfold no_break. rewrite string_forall_append. cbn.
  by rewrite andb_false_r.
Qed.

(** Scanning undoes printing. *)
Lemma scan_print lines :
  Forall (λ l, no_break l = true ∧ len l < maxTokenSize) lines →
  scan_lines (print_lines lines) = (lines, false).
Proof.
  unfold scan_lines. induction 1 as [|l lines [Hb Hl] _ IH]; [done|].
  cbn [print_lines foldr]. rewrite Split_line by (by apply no_break_newline).
  fold (print_lines lines). cbn [scan_segments].
  destruct (Split (print_lines lines) newline) eqn:E; [by apply Split_ne in E|].
  rewrite <- E in *. rewrite IH, no_break_dropCR by done.
  destruct (Z.leb_spec maxTokenSize (len l)); [lia|done].
Qed.

Lemma parse_lines_app algo st l1 l2 :
  parse_lines algo st (l1 ++ l2) = st ← parse_lines algo st l1; parse_lines algo st l2.
Proof.
  revert st. induction l1 as [|x l1 IH]; intros st; [done|]. cbn.
  destruct (parse_line algo st x); cbn; [apply IH|done].
Qed.

Lemma hex_no_char c s : lower_hex_byte c = false → string_forall lower_hex_byte s = true →
  string_forall (λ a, negb (Ascii.eqb a c)) s = true.
Proof.
  intros Hc. induction s as [|a s IH]; cbn; [done|]. intros [Ha Hs]%andb_true_iff.
  rewrite IH, andb_true_r by done. destruct (Ascii.eqb_spec a c) as [->|]; [congruence|done].
Qed.

Lemma IndexByte_hex o rest :
  IndexByte (Hex o +:+ String tab rest) tab = Some (String.length (Hex o)).
Proof.
  unfold IndexByte. apply IndexFunc_append; [|by rewrite Ascii.eqb_refl].
  pose proof (hex_no_char tab (Hex o) eq_refl (EncodeToString_lower _)) as H.
  revert H. generalize (Hex o). intros s. induction s as [|a s IH]; cbn; [done|].
  rewrite Ascii.eqb_sym, !andb_true_iff. naive_solver.
Qed.

Lemma sdrop_tab a rest : sdrop (String.length a + 1) (a +:+ String tab rest) = rest.
Proof. induction a; cbn; auto. Qed.

Lemma Hex_tab_ne o rest : String.eqb (Hex o +:+ String tab rest) "" = false.
Proof. by destruct (Hex o). Qed.

Lemma ParseOID_Hex o : oid_wf o → ParseOID (Hex o) (Algo o) = Ok o.
Proof.
  intros [Hv Hl]. apply ParseOID_ok. split_and!; try done.
  - unfold Hex, HexLen. rewrite length_EncodeToString, Hl. lia.
  - apply EncodeToString_lower.
Qed.

Lemma sdrop_prefixTags s : sdrop (String.length prefixTags) (prefixTags +:+ s) = s.
Proof. apply sdrop_append. Qed.

(** A suffix of at most the name's length is a suffix of the name. *)
Lemma HasSuffix_sub a b : HasSuffix b peeledSfx = false → (3 ≤ String.length b)%nat ∨ a = prefixTags →
  HasSuffix (a +:+ b) peeledSfx = false.
Proof.
  intros Hb Hab. apply not_true_iff_false. intros [t Ht]%HasSuffix_spec.
  apply not_true_iff_false in Hb. destruct (decide (3 ≤ String.length b)%nat) as [Hl|Hs].
  - apply Hb. apply HasSuffix_spec.
    exists (sdrop (String.length a) t).
    assert (String.length a ≤ String.length t)%nat as Hat.
    { apply (f_equal String.length) in Ht. rewrite !append_length in Ht. cbn in Ht. lia. }
    rewrite <- (stake_sdrop (String.length a) t), <- append_assoc in Ht.
    assert (∀ n x s y z, String.length x = n → x +:+ y = stake n s +:+ z → (n ≤ String.length s)%nat → y = z) as Hcut.
    { clear. intros n. induction n as [|n IH]; intros [|c x] [|d s] y z; cbn; intros Hl He Hn; try lia; try done.
      injection He as _ He. eapply IH; [|exact He|]; lia. }
    by eapply Hcut in Ht.
  - destruct Hab as [| ->]; [lia|].
    unfold prefixTags, peeledSfx in Ht.
    destruct b as [|b1 [|b2 [|b3 b]]]; cbn in Hs; try lia; clear Hb Hs; cbn in Ht;
      repeat (destruct t as [|? t]; cbn in Ht; try discriminate Ht; injection Ht as _ Ht).
Qed.

Lemma parse_tag_line st name oid :
  name_ok name = true → oid_wf oid →
  parse_line (Algo oid) st (tag_line name oid) =
  Ok (mkParse (ps_refs st ++ [mkLsRef name oid zeroOID false]) (Some (length (ps_refs st))) name).
Proof.
  intros Hn Ho. unfold name_ok in Hn. rewrite !andb_true_iff, negb_true_iff in Hn.
  destruct Hn as [[_ Hs] _]. unfold parse_line, tag_line.
  rewrite Hex_tab_ne, IndexByte_hex, stake_append, sdrop_tab, ParseOID_Hex by done.
  rewrite HasSuffix_sub by auto. rewrite HasPrefix_append, sdrop_prefixTags. cbn.
  rewrite length_app. cbn. do 3 f_equal. lia.
Qed.

Lemma parse_peeled_line name oid peeled refs algo :
  oid_wf peeled → Algo peeled = algo →
  parse_line algo
    (mkParse (refs ++ [mkLsRef name oid zeroOID false]) (Some (length refs)) name)
    (peeled_line name peeled) =
  Ok (mkParse (refs ++ [mkLsRef name oid peeled true]) (Some (length refs)) name).
Proof.
  intros Hp <-. unfold parse_line, peeled_line.
  rewrite Hex_tab_ne, IndexByte_hex, stake_append, sdrop_tab, ParseOID_Hex by done.
  rewrite append_assoc.
  assert (HasSuffix ((prefixTags +:+ name) +:+ peeledSfx) peeledSfx = true) as ->
    by (apply HasSuffix_spec; eauto).
  rewrite TrimSuffix_append, HasPrefix_append, sdrop_prefixTags. cbn [negb ps_lastTagIdx ps_lastTagName].
  rewrite String.eqb_refl. cbn -[alter]. do 2 f_equal.
  rewrite alter_app_r_alt, Nat.sub_diag by lia. done.
Qed.

Lemma parse_ref_lines algo st r :
  name_ok (ls_Name r) = true → ls_ok algo r →
  ∃ i n, parse_lines algo st (ref_lines r) = Ok (mkParse (ps_refs st ++ [r]) i n).
Proof.
  destruct r as [name oid peeled ann]. intros Hn (Ho & <- & Hann). cbn in *.
  unfold ref_lines. cbn [ls_IsAnnotatedTag ls_Name ls_OID ls_PeeledOID].
  destruct ann; cbn [parse_lines mbind result_bind]; rewrite parse_tag_line by done; cbn [mbind result_bind].
  - destruct Hann as [Hp Ha]. rewrite parse_peeled_line by done. cbn. eauto.
  - rewrite Hann. eauto.
Qed.

Lemma parse_print_lines algo refs st :
  Forall (λ r, name_ok (ls_Name r) = true ∧ ls_ok algo r) refs →
  ∃ i n, parse_lines algo st (refs ≫= ref_lines) = Ok (mkParse (ps_refs st ++ refs) i n).
Proof.
  intros Hall. revert st. induction Hall as [|r refs [Hn Hok] _ IH]; intros st; cbn.
  - destruct st as [rs i n]. exists i, n. cbn. by rewrite app_nil_r.
  - destruct (parse_ref_lines algo st r) as (i & n & Hr); [done|done|].
    rewrite parse_lines_app, Hr. cbn [mbind result_bind].
    destruct (IH (mkParse (ps_refs st ++ [r]) i n)) as (i' & n' & H). exists i', n'.
    etrans; [exact H|]. cbn. by rewrite <- (assoc_L (++)).
Qed.

Lemma hex_no_break o : no_break (Hex o) = true.
Proof.
  unfold no_break, Hex. generalize (EncodeToString_lower (Raw o)).
  induction (EncodeToString (Raw o)) as [|c s IH]; cbn; [done|]. intros [Hc Hs]%andb_true_iff.
  rewrite IH, andb_true_r by done. destruct (Ascii.eqb_spec c newline), (Ascii.eqb_spec c carriage_return);
    subst; done.
Qed.

Lemma ref_lines_scan algo r :
  name_ok (ls_Name r) = true → ls_ok algo r →
  Forall (λ l, no_break l = true ∧ len l < maxTokenSize) (ref_lines r).
Proof.
  destruct r as [name oid peeled ann]. intros Hn (Ho & _ & Hann). cbn in *.
  unfold name_ok in Hn. rewrite !andb_true_iff, Z.ltb_lt in Hn. destruct Hn as [[Hb _] Hl].
  assert (∀ o, oid_wf o → (String.length (Hex o) ≤ 64)%nat) as Hlen.
  { intros o [Hv Ho']. unfold Hex. rewrite length_EncodeToString, Ho'.
    apply HashAlgo_Valid_cases in Hv as [->| ->]; cbn; lia. }
  assert (∀ o sfx, oid_wf o → no_break sfx = true → (String.length sfx ≤ 3)%nat →
    let l := Hex o +:+ String tab (prefixTags +:+ name +:+ sfx) in
    no_break l = true ∧ len l < maxTokenSize) as Hline.
  { intros o sfx Hwf Hsb Hsl l. pose proof (hex_no_break o) as Hob. unfold l, no_break in *.
    change (String tab (prefixTags +:+ name +:+ sfx)) with (String tab prefixTags +:+ name +:+ sfx).
    rewrite !string_forall_append, Hb, Hsb, Hob. split; [done|].
    unfold len, maxTokenSize in *. rewrite !append_length. cbn. specialize (Hlen o Hwf). lia. }
  unfold ref_lines, tag_line, peeled_line. cbn.
  pose proof (Hline oid "" Ho eq_refl ltac:(cbn; lia)) as H1. rewrite append_nil_r in H1.
  destruct ann; repeat constructor; try apply H1; try (apply (Hline peeled peeledSfx); [tauto|done|cbn; lia]).
Qed.

(** The invariant of the loop, and what a line adds. *)
Lemma parse_line_ls_ok algo st line st' :
  parse_line algo st line = Ok st' → Forall (ls_ok algo) (ps_refs st) → Forall (ls_ok algo) (ps_refs st').
Proof.
  unfold parse_line. intros H Hall. revert H.
  destruct (String.eqb line ""); [by intros [= <-]|].
  destruct (IndexByte line tab) as [i|]; [|done].
  destruct (HasSuffix _ _).
  - destruct (negb (HasPrefix _ _)); [by intros [= <-]|].
    destruct (ps_lastTagIdx st) as [idx|]; [|done]. destruct (negb _); [done|].
    intros (peeled & Hp & [= <-])%result_bind_ok. cbn.
    apply Forall_alter; [done|]. intros r _ (Ho & Ha & _). split_and!; [done..|]. cbn.
    split; [by eapply ParseOID_wf|]. by apply ParseOID_ok in Hp as (_ & _ & _ & ? & _).
  - destruct (negb (HasPrefix _ _)); [by intros [= <-]|].
    intros (oid & Hp & [= <-])%result_bind_ok. cbn. apply Forall_app. split; [done|].
    constructor; [|done]. split_and!; cbn; [by eapply ParseOID_wf| |done].
    by apply ParseOID_ok in Hp as (_ & _ & _ & ? & _).
Qed.

Lemma parse_lines_ls_ok algo lines st st' :
  parse_lines algo st lines = Ok st' → Forall (ls_ok algo) (ps_refs st) → Forall (ls_ok algo) (ps_refs st').
Proof.
  revert st. induction lines as [|l lines IH]; intros st; cbn; [by intros [= <-]|].
  intros (st1 & H1 & H2)%result_bind_ok Hall. eauto using parse_line_ls_ok.
Qed.

Lemma ParseLsRemote_print algo refs :
  HashAlgo_Valid algo = true →
  Forall (λ r, name_ok (ls_Name r) = true ∧ ls_ok algo r) refs →
  ParseLsRemote (print_refs refs) algo = Ok refs.
Proof.
  intros Hv Hall. unfold ParseLsRemote, print_refs. rewrite Hv. cbn [negb].
  rewrite scan_print.
  - destruct (parse_print_lines algo refs (mkParse [] None "") Hall) as (i & n & H).
    rewrite H. done.
  - apply Forall_bind. eapply Forall_impl; [done|]. cbn. intros r [??]. by eapply ref_lines_scan.
Qed.

(** The first tag line names the algorithm. *)
Lemma detect_print algo r refs :
  ls_ok algo r → detectAlgoFromLsRemote (print_refs (r :: refs)) = algo.
Proof.
  intros (Ho & Ha & _). unfold detectAlgoFromLsRemote, print_refs.
  assert (∃ rest, print_lines ((r :: refs) ≫= ref_lines) =
    Hex (ls_OID r) +:+ String tab rest) as [rest ->].
  { cbn. unfold ref_lines, tag_line. destruct (ls_IsAnnotatedTag r); cbn;
      rewrite <- append_assoc; cbn; eauto. }
  assert (∀ s rest, string_forall (λ a, negb (Ascii.eqb a newline)) s = true →
    ∃ rest' segs, Split (s +:+ String tab rest) newline = (s +:+ String tab rest') :: segs) as Hsplit.
  { clear. intros s rest. induction s as [|c s IH]; cbn; intros Hs.
    - destruct (Split rest newline) eqn:E; [by apply Split_ne in E|]. eauto.
    - apply andb_true_iff in Hs as [Hc Hs]. apply negb_true_iff in Hc. rewrite Hc.
      destruct (IH Hs) as (rest' & segs & ->). eauto. }
  destruct (Hsplit (Hex (ls_OID r)) rest) as (rest' & segs & ->).
  { apply (hex_no_char newline); [done|apply EncodeToString_lower]. }
  cbn [detect_lines]. rewrite IndexByte_hex. unfold Hex. rewrite length_EncodeToString.
  destruct Ho as [Hv Hl]. rewrite Hl, Ha in *. by apply HashAlgo_Valid_cases in Hv as [->| ->].
Qed.

(** * Properties *)

(** C27. Reading a remote's tags recovers exactly what git printed: for every list of
    tags of one object format with names git allows, [LsRemote] over a run that
    prints them (annotated tags with their peeled line) detects the format and
    returns the same list, in the same order, with tag-object ids, peeled ids and
    annotated flags in place; an empty listing gives the empty list. *)
Theorem ls_remote_roundtrip run allowProtocol rawURL auth algo refs :
  run (hardenedArgv "ls-remote" ["--tags"; "--end-of-options"; rawURL])
      (hardenedEnvWithProtocol auth allowProtocol) = Ok (print_refs refs) →
  Forall (λ r, name_ok (ls_Name r) = true ∧ ls_ok algo r) refs →
  LsRemote run allowProtocol rawURL auth = Ok refs.
Proof.
  intros Hrun Hall. unfold LsRemote. rewrite Hrun. cbn [mbind result_bind].
  destruct refs as [|r refs]; [done|].
  assert (ls_ok algo r) as Hr by (by apply Forall_cons in Hall as [[_ ?] _]).
  rewrite (detect_print algo) by done.
  assert (HashAlgo_Valid algo = true) as Hv by (destruct Hr as ([Hv _] & <- & _); done).
  rewrite Hv. by apply ParseLsRemote_print.
Qed.

Definition sample_refs : list LsRemoteRef :=
  [mkLsRef "v1.0" (mkOID (replicate 20 xab) SHA1) zeroOID false;
   mkLsRef "v2.0" (mkOID (replicate 20 xcd) SHA1) (mkOID (replicate 20 x01) SHA1) true].

Lemma ls_remote_roundtrip_witness :
  LsRemote (λ _ _, Ok (print_refs sample_refs)) "" "https://h/r.git" None = Ok sample_refs.
Proof.
  apply (ls_remote_roundtrip (λ _ _, Ok (print_refs sample_refs)) "" "https://h/r.git" None SHA1).
  - reflexivity.
  - repeat constructor.
Defined.

(** Whatever text git prints, a successful parse only yields tags whose object id
    has the width of the remote's algorithm, and a peeled id of the same
    algorithm exactly when the tag is flagged annotated. *)
Theorem parse_ls_remote_well_formed out algo refs r :
  ParseLsRemote out algo = Ok refs → r ∈ refs → ls_ok algo r.
Proof.
  unfold ParseLsRemote. destruct (negb _); [done|].
  destruct (scan_lines out) as [lines tooLong].
  intros (st & Hp & H)%result_bind_ok Hr. destruct tooLong; simplify_eq.
  apply parse_lines_ls_ok in Hp; [|constructor]. rewrite Forall_forall in Hp. auto.
Qed.

Lemma parse_ls_remote_well_formed_witness :
  ls_ok SHA1 (mkLsRef "v1.0" (mkOID (replicate 20 xab) SHA1) zeroOID false).
Proof.
  apply (parse_ls_remote_well_formed (print_refs sample_refs) SHA1 sample_refs).
  - vm_compute. reflexivity.
  - left.
Defined.

(** The error of a failed git names the first hardening flag where it means the subcommand, and
    ends up as such in the last_err of the remote. *)
Theorem run_names_flag sub args p e : pe_ctx p = None → pe_err p = Some e →
  run (hardenedArgv sub args) p = Err (ErrOther ("git --no-replace-objects failed: " +:+ e +:+ ": " +:+ pe_stderr p)).
Proof. intros Hc He. unfold run. by rewrite Hc, He. Qed.
