(* ===== verification/Sqlc.v ===== *)
(** The SQLite database and the statements of [internal/store/sqlite/sqlc]: the rows
    of [models.go], the tables with the constraints of
    [db/migrations-sqlite/0001_init.sql], and one definition per generated query.

    SQLite is dynamically typed, so a nullable column holds an [interface{}]
    value as the driver hands it to Go ([iface]).  A table lists its rows in the
    order of insertion, which is the order of their AUTOINCREMENT ids.  A statement
    either fails with the kind of its failure and leaves the database as it was,
    or returns its rows and the new database. *)
From S2P Require Import Prelude GoStrings Model.
#[local] Open Scope Z_scope.

(** * Values and rows *)

(** An [interface{}] of the driver.  A [float64] is known by the integer that
    [int64(x)] truncates it to. *)
Inductive iface : Type :=
  | INil
  | IInt64 (z : Z)
  | IFloat64 (trunc : Z)
  | IInt (z : Z)
  | IInt32 (z : Z)
  | IString (s : string)
  | IBytes (b : bytes).

#[global] Instance iface_eq_dec : EqDecision iface.
Proof. solve_decision. Defined.

Definition is_null (v : iface) : bool :=
  match v with
  | INil => true
  | _ => false
  end.

Record RemoteRow : Type := mkRemoteRow {
  rr_ID : Z;
  rr_Url : string;
  rr_NormalizedUrl : string;
  rr_Transport : string;
  rr_SyncIntervalNs : Z;
  rr_StalenessBudgetNs : Z;
  rr_TaintAnyTagDeletion : Z;
  rr_HashAlgo : iface;
  rr_Status : string;
  rr_LastOkNs : Z;
  rr_LastErr : string;
  rr_ConsecutiveFailures : Z;
  rr_ChainHeadHash : bytes;
  rr_ChainLen : Z;
  rr_RemovedAtNs : iface;
  rr_CreatedAtNs : Z;
  rr_UpdatedAtNs : Z;
}.

Record RefRow : Type := mkRefRow {
  fr_ID : Z;
  fr_RemoteID : Z;
  fr_TagName : string;
  fr_CurrentOid : iface;
  fr_CurrentPeeledOid : iface;
  fr_IsAnnotated : Z;
  fr_FirstOid : iface;
  fr_FirstSeenNs : Z;
  fr_LastSeenNs : Z;
  fr_LastChangedNs : Z;
  fr_Deleted : Z;
  fr_Tainted : Z;
  fr_TaintFirstNs : iface;
  fr_ObservationCount : Z;
}.

Record ObservationRow : Type := mkObservationRow {
  or_ID : Z;
  or_RemoteID : Z;
  or_RefID : Z;
  or_SyncID : Z;
  or_Seq : Z;
  or_EventType : string;
  or_PrevOid : iface;
  or_NewOid : iface;
  or_PrevPeeledOid : iface;
  or_NewPeeledOid : iface;
  or_ObservedAtNs : Z;
  or_PrevHash : bytes;
  or_RowHash : bytes;
  or_CanonicalMeta : iface;
}.

Record TaintEventRow : Type := mkTaintEventRow {
  tr_ID : Z;
  tr_RemoteID : Z;
  tr_RefID : Z;
  tr_Reason : string;
  tr_ObservationID : iface;
  tr_FromOid : iface;
  tr_ToOid : iface;
  tr_DetectedAtNs : Z;
  tr_AckedAtNs : iface;
  tr_AckedBy : iface;
  tr_AckNote : iface;
  tr_Detail : string;
}.

Record SyncRow : Type := mkSyncRow {
  sr_ID : Z;
  sr_RemoteID : Z;
  sr_Trigger : string;
  sr_StartedNs : Z;
  sr_FinishedNs : Z;
  sr_Status : string;
  sr_TagsSeen : Z;
  sr_TagsChanged : Z;
  sr_Error : string;
  sr_ChainHeadBefore : iface;
  sr_ChainHeadAfter : iface;
}.

Record LeaseRow : Type := mkLeaseRow {
  lr_RemoteID : Z;
  lr_Holder : string;
  lr_AcquiredAtNs : Z;
  lr_ExpiresAtNs : Z;
}.

(** The tables and the AUTOINCREMENT counters of [sqlite_sequence]. *)
Record db : Type := mkDb {
  t_remotes : list RemoteRow;
  t_refs : list RefRow;
  t_syncs : list SyncRow;
  t_observations : list ObservationRow;
  t_taint_events : list TaintEventRow;
  t_remote_lease : list LeaseRow;
  seq_remotes : Z;
  seq_refs : Z;
  seq_syncs : Z;
  seq_observations : Z;
  seq_taint_events : Z;
}.

Definition empty_db : db := mkDb [] [] [] [] [] [] 0 0 0 0 0.

Definition with_remotes (d : db) (l : list RemoteRow) : db :=
  mkDb l (t_refs d) (t_syncs d) (t_observations d) (t_taint_events d) (t_remote_lease d)
    (seq_remotes d) (seq_refs d) (seq_syncs d) (seq_observations d) (seq_taint_events d).
Definition with_refs (d : db) (l : list RefRow) (n : Z) : db :=
  mkDb (t_remotes d) l (t_syncs d) (t_observations d) (t_taint_events d) (t_remote_lease d)
    (seq_remotes d) n (seq_syncs d) (seq_observations d) (seq_taint_events d).
Definition with_syncs (d : db) (l : list SyncRow) (n : Z) : db :=
  mkDb (t_remotes d) (t_refs d) l (t_observations d) (t_taint_events d) (t_remote_lease d)
    (seq_remotes d) (seq_refs d) n (seq_observations d) (seq_taint_events d).
Definition with_observations (d : db) (l : list ObservationRow) (n : Z) : db :=
  mkDb (t_remotes d) (t_refs d) (t_syncs d) l (t_taint_events d) (t_remote_lease d)
    (seq_remotes d) (seq_refs d) (seq_syncs d) n (seq_taint_events d).
Definition with_taint_events (d : db) (l : list TaintEventRow) (n : Z) : db :=
  mkDb (t_remotes d) (t_refs d) (t_syncs d) (t_observations d) l (t_remote_lease d)
    (seq_remotes d) (seq_refs d) (seq_syncs d) (seq_observations d) n.
Definition with_lease (d : db) (l : list LeaseRow) : db :=
  mkDb (t_remotes d) (t_refs d) (t_syncs d) (t_observations d) (t_taint_events d) l
    (seq_remotes d) (seq_refs d) (seq_syncs d) (seq_observations d) (seq_taint_events d).

(** * Statements *)

(** How a statement fails. *)
Inductive sql_error : Type :=
  | NoRows
  | UniqueFailed
  | CheckFailed
  | ForeignKeyFailed.

Abbreviation Q := (SE db sql_error).

Definition require (c : bool) (e : sql_error) : Q () := λ d, if c then Ok ((), d) else Err e.
Definition gets {A} (f : db → A) : Q A := λ d, Ok (f d, d).

(** A query for one row. *)
Definition one {A} (f : db → option A) : Q A := λ d,
  match f d with
  | Some a => Ok (a, d)
  | None => Err NoRows
  end.

(** [LIMIT n]: a negative limit is none. *)
Definition LIMIT {A} (n : Z) (l : list A) : list A :=
  if n <? 0 then l else take (Z.to_nat n) l.

(** [UPDATE t SET ... WHERE c] and the number of rows it matched. *)
Definition UPDATE {A} (c : A → bool) (set : A → A) (l : list A) : list A :=
  map (λ r, if c r then set r else r) l.
Definition matched {A} (c : A → bool) (l : list A) : Z := Z.of_nat (length (List.filter c l)).

#[global] Arguments UPDATE : simpl never.
#[global] Arguments matched : simpl never.

(** [ORDER BY key ASC]. *)
Definition key_le {A} (key : A → Z) (a b : A) : Prop := key a ≤ key b.
#[global] Instance key_le_dec {A} (key : A → Z) : RelDecision (key_le key) := λ a b, decide (key a ≤ key b).
Definition ORDER_BY {A} (key : A → Z) (l : list A) : list A := merge_sort (key_le key) l.

(** The order of the BINARY collation. *)
Definition name_le {A} (name : A → string) (a b : A) : Prop := string_lt (name b) (name a) = false.
#[global] Instance name_le_dec {A} (name : A → string) : RelDecision (name_le name) := λ a b, decide (string_lt (name b) (name a) = false).
Definition ORDER_BY_name {A} (name : A → string) (l : list A) : list A := merge_sort (name_le name) l.

Definition in_list (s : string) (l : list string) : bool := existsb (String.eqb s) l.

(** Referenced rows. *)
Definition has_remote (d : db) (id : Z) : bool := existsb (λ r, rr_ID r =? id) (t_remotes d).
Definition has_ref (d : db) (id : Z) : bool := existsb (λ r, fr_ID r =? id) (t_refs d).
Definition has_sync (d : db) (id : Z) : bool := existsb (λ r, sr_ID r =? id) (t_syncs d).
Definition has_observation (d : db) (v : iface) : bool :=
  match v with
  | INil => true
  | IInt64 id => existsb (λ r, or_ID r =? id) (t_observations d)
  | _ => false
  end.

(** ** remotes.sql.go *)

Definition remote_checks (r : RemoteRow) : bool :=
  in_list (rr_Transport r) ["https"; "ssh"]
  && match rr_HashAlgo r with
     | INil => true
     | IString h => in_list h ["sha1"; "sha256"]
     | _ => false
     end
  && in_list (rr_Status r) ["active"; "degraded"; "paused"].

Definition AdvanceChainHead (head : bytes) (len id : Z) : Q () := λ d,
  Ok ((), with_remotes d (UPDATE (λ r, rr_ID r =? id)
    (λ r, mkRemoteRow (rr_ID r) (rr_Url r) (rr_NormalizedUrl r) (rr_Transport r) (rr_SyncIntervalNs r)
      (rr_StalenessBudgetNs r) (rr_TaintAnyTagDeletion r) (rr_HashAlgo r) (rr_Status r) (rr_LastOkNs r)
      (rr_LastErr r) (rr_ConsecutiveFailures r) head len (rr_RemovedAtNs r)
      (rr_CreatedAtNs r) (rr_UpdatedAtNs r)) (t_remotes d))).

Definition AdvanceRemoteChainHead (head : bytes) (len id : Z) (head_2 : bytes) (len_2 : Z) : Q Z := λ d,
  let c r := (rr_ID r =? id) && bool_decide (rr_ChainHeadHash r = head_2) && (rr_ChainLen r =? len_2) in
  Ok (matched c (t_remotes d),
    with_remotes d (UPDATE c
    (λ r, mkRemoteRow (rr_ID r) (rr_Url r) (rr_NormalizedUrl r) (rr_Transport r) (rr_SyncIntervalNs r)
      (rr_StalenessBudgetNs r) (rr_TaintAnyTagDeletion r) (rr_HashAlgo r) (rr_Status r) (rr_LastOkNs r)
      (rr_LastErr r) (rr_ConsecutiveFailures r) head len (rr_RemovedAtNs r)
      (rr_CreatedAtNs r) (rr_UpdatedAtNs r)) (t_remotes d))).

Definition CountAllRemotes : Q Z := gets (λ d, Z.of_nat (length (t_remotes d))).

(** [arg] is the row as a function of the id it will get. *)
Definition CreateRemote (arg : Z → RemoteRow) : Q RemoteRow :=
  d ← get_state;
  let id := seq_remotes d + 1 in
  let row := arg id in
  require (remote_checks row) CheckFailed;;
  require (negb (existsb (λ r, String.eqb (rr_NormalizedUrl r) (rr_NormalizedUrl row)) (t_remotes d))) UniqueFailed;;
  put_state (mkDb (t_remotes d ++ [row]) (t_refs d) (t_syncs d) (t_observations d) (t_taint_events d)
    (t_remote_lease d) id (seq_refs d) (seq_syncs d) (seq_observations d) (seq_taint_events d));;
  mret row.

Definition GetRemote (id : Z) : Q RemoteRow := one (λ d, List.find (λ r, rr_ID r =? id) (t_remotes d)).

Definition GetChainHead (id : Z) : Q (bytes * Z) :=
  r ← GetRemote id; mret (rr_ChainHeadHash r, rr_ChainLen r).

Definition GetRemoteChainHead (id : Z) : Q (bytes * Z) :=
  r ← GetRemote id; mret (rr_ChainHeadHash r, rr_ChainLen r).

Definition GetRemoteByURL (normalizedUrl : string) : Q RemoteRow :=
  one (λ d, List.find (λ r, String.eqb (rr_NormalizedUrl r) normalizedUrl && is_null (rr_RemovedAtNs r)) (t_remotes d)).

Definition ListRemotes (id limit : Z) : Q (list RemoteRow) :=
  gets (λ d, LIMIT limit (ORDER_BY rr_ID (List.filter (λ r, id <? rr_ID r) (t_remotes d)))).

Definition next_due (r : RemoteRow) : Z := rr_LastOkNs r + rr_SyncIntervalNs r.

Definition SelectDueRemotes (nowNs limit : Z) : Q (list RemoteRow) :=
  gets (λ d, LIMIT limit (ORDER_BY next_due
    (List.filter (λ r, String.eqb (rr_Status r) "active" && is_null (rr_RemovedAtNs r) && (next_due r <? nowNs))
      (t_remotes d)))).

Definition SetRemoteHealth (status lastErr : string) (lastOkNs updatedAtNs id : Z) : Q () :=
  d ← get_state;
  let c r := rr_ID r =? id in
  require (negb (existsb c (t_remotes d)) || in_list status ["active"; "degraded"; "paused"]) CheckFailed;;
  put_state (with_remotes d (UPDATE c
    (λ r, mkRemoteRow (rr_ID r) (rr_Url r) (rr_NormalizedUrl r) (rr_Transport r) (rr_SyncIntervalNs r)
      (rr_StalenessBudgetNs r) (rr_TaintAnyTagDeletion r) (rr_HashAlgo r) status lastOkNs
      lastErr (rr_ConsecutiveFailures r) (rr_ChainHeadHash r) (rr_ChainLen r) (rr_RemovedAtNs r)
      (rr_CreatedAtNs r) updatedAtNs) (t_remotes d))).

Definition SoftDeleteRemote (removedAtNs : iface) (updatedAtNs id : Z) : Q () := λ d,
  Ok ((), with_remotes d (UPDATE (λ r, rr_ID r =? id)
    (λ r, mkRemoteRow (rr_ID r) (rr_Url r) (rr_NormalizedUrl r) (rr_Transport r) (rr_SyncIntervalNs r)
      (rr_StalenessBudgetNs r) (rr_TaintAnyTagDeletion r) (rr_HashAlgo r) (rr_Status r) (rr_LastOkNs r)
      (rr_LastErr r) (rr_ConsecutiveFailures r) (rr_ChainHeadHash r) (rr_ChainLen r) removedAtNs
      (rr_CreatedAtNs r) updatedAtNs) (t_remotes d))).

(** The row becomes [arg] with its own creation time; no row is [NoRows], since
    the statement returns the updated row. *)
Definition UpdateRemote (arg : RemoteRow) : Q RemoteRow :=
  d ← get_state;
  let c r := rr_ID r =? rr_ID arg in
  let set r := mkRemoteRow (rr_ID r) (rr_Url arg) (rr_NormalizedUrl arg) (rr_Transport arg)
      (rr_SyncIntervalNs arg) (rr_StalenessBudgetNs arg) (rr_TaintAnyTagDeletion arg) (rr_HashAlgo arg)
      (rr_Status arg) (rr_LastOkNs arg) (rr_LastErr arg) (rr_ConsecutiveFailures arg)
      (rr_ChainHeadHash arg) (rr_ChainLen arg) (rr_RemovedAtNs arg) (rr_CreatedAtNs r) (rr_UpdatedAtNs arg) in
  require (negb (existsb c (t_remotes d)) || remote_checks arg) CheckFailed;;
  require (negb (existsb c (t_remotes d))
    || negb (existsb (λ r, String.eqb (rr_NormalizedUrl r) (rr_NormalizedUrl arg) && negb (c r)) (t_remotes d)))
    UniqueFailed;;
  put_state (with_remotes d (UPDATE c set (t_remotes d)));;
  one (λ d, List.find c (t_remotes d)).

(** ** refs.sql.go *)

Definition ref_key (remote_id : Z) (tag_name : string) (r : RefRow) : bool :=
  (fr_RemoteID r =? remote_id) && String.eqb (fr_TagName r) tag_name.

Definition CountRefs (remoteID : Z) : Q Z :=
  gets (λ d, Z.of_nat (length (List.filter (λ r, fr_RemoteID r =? remoteID) (t_refs d)))).

Definition GetRef (remoteID : Z) (tagName : string) : Q RefRow :=
  one (λ d, List.find (ref_key remoteID tagName) (t_refs d)).

Definition ListTags (remoteID : Z) : Q (list RefRow) :=
  gets (λ d, ORDER_BY_name fr_TagName (List.filter (λ r, fr_RemoteID r =? remoteID) (t_refs d))).

Definition SetRefTaint (taintFirstNs : iface) (id : Z) : Q () := λ d,
  Ok ((), with_refs d (UPDATE (λ r, fr_ID r =? id)
    (λ r, mkRefRow (fr_ID r) (fr_RemoteID r) (fr_TagName r) (fr_CurrentOid r) (fr_CurrentPeeledOid r)
      (fr_IsAnnotated r) (fr_FirstOid r) (fr_FirstSeenNs r) (fr_LastSeenNs r) (fr_LastChangedNs r)
      (fr_Deleted r) 1 taintFirstNs (fr_ObservationCount r)) (t_refs d)) (seq_refs d)).

(** The conflicting row keeps its id, its key and where it was first seen. *)
Definition ref_excluded (row r : RefRow) : RefRow :=
  mkRefRow (fr_ID r) (fr_RemoteID r) (fr_TagName r) (fr_CurrentOid row) (fr_CurrentPeeledOid row)
    (fr_IsAnnotated row) (fr_FirstOid r) (fr_FirstSeenNs r) (fr_LastSeenNs row) (fr_LastChangedNs row)
    (fr_Deleted row) (fr_Tainted row) (fr_TaintFirstNs row) (fr_ObservationCount row).

(** An id is drawn for the row before the conflict is found, and is not drawn again. *)
Definition UpsertRef (arg : Z → RefRow) : Q RefRow :=
  d ← get_state;
  let id := seq_refs d + 1 in
  let row := arg id in
  let key := ref_key (fr_RemoteID row) (fr_TagName row) in
  match List.find key (t_refs d) with
  | Some r =>
      put_state (with_refs d (UPDATE key (ref_excluded row) (t_refs d)) id);;
      mret (ref_excluded row r)
  | None =>
      require (has_remote d (fr_RemoteID row)) ForeignKeyFailed;;
      put_state (with_refs d (t_refs d ++ [row]) id);;
      mret row
  end.

(** ** observations.sql.go *)

(** [sync_id] is deferred to the commit. *)
Definition InsertObservation (arg : Z → ObservationRow) : Q Z :=
  d ← get_state;
  let id := seq_observations d + 1 in
  let row := arg id in
  require (in_list (or_EventType row) ["tag_created"; "tag_oid_changed"; "tag_deleted"; "tag_recreated"]) CheckFailed;;
  require (negb (existsb (λ o, (or_RemoteID o =? or_RemoteID row) && (or_Seq o =? or_Seq row)) (t_observations d)))
    UniqueFailed;;
  require (has_remote d (or_RemoteID row) && has_ref d (or_RefID row)) ForeignKeyFailed;;
  put_state (with_observations d (t_observations d ++ [row]) id);;
  mret id.

Definition LatestObservationForRef (refID : Z) : Q (Z * Z * bytes) :=
  one (λ d, o ← head (reverse (ORDER_BY or_Seq (List.filter (λ o, or_RefID o =? refID) (t_observations d))));
            Some (or_RemoteID o, or_Seq o, or_RowHash o)).

Definition ReplayObservations (remoteID seq limit : Z) : Q (list ObservationRow) :=
  gets (λ d, LIMIT limit (ORDER_BY or_Seq
    (List.filter (λ o, (or_RemoteID o =? remoteID) && (seq <? or_Seq o)) (t_observations d)))).

(** ** taint.sql.go *)

Definition AckTaintEvent (ackedAtNs ackedBy ackNote : iface) (id : Z) : Q () := λ d,
  Ok ((), with_taint_events d (UPDATE (λ e, (tr_ID e =? id) && is_null (tr_AckedAtNs e))
    (λ e, mkTaintEventRow (tr_ID e) (tr_RemoteID e) (tr_RefID e) (tr_Reason e) (tr_ObservationID e)
      (tr_FromOid e) (tr_ToOid e) (tr_DetectedAtNs e) ackedAtNs ackedBy ackNote (tr_Detail e))
    (t_taint_events d)) (seq_taint_events d)).

(** The unique key of the table; NULLs are distinct from each other. *)
Definition taint_key (a b : TaintEventRow) : bool :=
  (tr_RemoteID a =? tr_RemoteID b) && (tr_RefID a =? tr_RefID b) && String.eqb (tr_Reason a) (tr_Reason b)
  && bool_decide (tr_FromOid a = tr_FromOid b) && negb (is_null (tr_FromOid a))
  && bool_decide (tr_ToOid a = tr_ToOid b) && negb (is_null (tr_ToOid a)).

Definition InsertTaintEvent (arg : Z → TaintEventRow) : Q Z :=
  d ← get_state;
  let id := seq_taint_events d + 1 in
  let row := arg id in
  require (in_list (tr_Reason row) ["tag_oid_changed"; "tag_deleted_recreated"]) CheckFailed;;
  match List.find (taint_key row) (t_taint_events d) with
  | Some e => put_state (with_taint_events d (t_taint_events d) id);; mret (tr_ID e)
  | None =>
      require (has_remote d (tr_RemoteID row) && has_ref d (tr_RefID row)
        && has_observation d (tr_ObservationID row)) ForeignKeyFailed;;
      put_state (with_taint_events d (t_taint_events d ++ [row]) id);;
      mret id
  end.

Definition ListTaintEvents (remoteID id limit : Z) : Q (list TaintEventRow) :=
  gets (λ d, LIMIT limit (ORDER_BY tr_ID
    (List.filter (λ e, (tr_RemoteID e =? remoteID) && (id <? tr_ID e)) (t_taint_events d)))).

(** ** syncs.sql.go *)

Definition InsertSync (arg : Z → SyncRow) : Q Z :=
  d ← get_state;
  let id := seq_syncs d + 1 in
  let row := arg id in
  require (in_list (sr_Trigger row) ["register"; "scheduled"; "manual"]
    && in_list (sr_Status row) ["ok"; "partial"; "failed"]) CheckFailed;;
  require (has_remote d (sr_RemoteID row)) ForeignKeyFailed;;
  put_state (with_syncs d (t_syncs d ++ [row]) id);;
  mret id.

Definition newest_first (d : db) (remoteID : Z) : list SyncRow :=
  reverse (ORDER_BY sr_ID (List.filter (λ s, sr_RemoteID s =? remoteID) (t_syncs d))).

Definition ListSyncs (remoteID id limit : Z) : Q (list SyncRow) :=
  gets (λ d, LIMIT limit (List.filter (λ s, sr_ID s <? id) (newest_first d remoteID))).

Definition PruneSyncs (remoteID limit : Z) : Q () := λ d,
  let keep_ids := map sr_ID (LIMIT limit (newest_first d remoteID)) in
  let pinned := map or_SyncID (List.filter (λ o, or_RemoteID o =? remoteID) (t_observations d)) in
  Ok ((), with_syncs d (List.filter (λ s, negb ((sr_RemoteID s =? remoteID)
      && negb (existsb (Z.eqb (sr_ID s)) keep_ids) && negb (existsb (Z.eqb (sr_ID s)) pinned))) (t_syncs d))
    (seq_syncs d)).

(** ** lease.sql.go *)

Definition DeleteRemoteLease (remoteID : Z) (holder : string) : Q () := λ d,
  Ok ((), with_lease d
    (List.filter (λ l, negb ((lr_RemoteID l =? remoteID) && String.eqb (lr_Holder l) holder)) (t_remote_lease d))).

Definition GetRemoteLease (remoteID : Z) : Q LeaseRow :=
  one (λ d, List.find (λ l, lr_RemoteID l =? remoteID) (t_remote_lease d)).

(** * Lemmas *)

Lemma find_none {A} (c : A → bool) (l : list A) : List.find c l = None ↔ ∀ r, r ∈ l → c r = false.
Proof.
  induction l as [|x l IH]; cbn.
  - split; [|done]. by intros _ r ?%elem_of_nil.
  - destruct (c x) eqn:E.
    + split; [done|]. intros Hall. specialize (Hall x ltac:(left)). congruence.
    + rewrite IH. setoid_rewrite elem_of_cons. naive_solver.
Qed.

Lemma find_row {A} (c : A → bool) (l : list A) r : List.find c l = Some r → r ∈ l ∧ c r = true.
Proof. intros [Hin Hc]%List.find_some. split; [by apply list_elem_of_In|done]. Qed.

Lemma UPDATE_cons {A} (c : A → bool) set r l : UPDATE c set (r :: l) = (if c r then set r else r) :: UPDATE c set l.
Proof. done. Qed.

Lemma UPDATE_ext {A} (c1 c2 : A → bool) (set : A → A) l : (∀ r, r ∈ l → c1 r = c2 r) → UPDATE c1 set l = UPDATE c2 set l.
Proof.
  intros Heq. apply map_ext_in. intros r Hr%list_elem_of_In. by rewrite Heq.
Qed.

(** A table seen as the map from a key of its rows to a value of them. *)
Section table_map.
Context {A V : Type} `{Countable K} (key : A → K) (val : A → V).

Definition tmap (l : list A) : gmap K V := list_to_map ((λ r, (key r, val r)) <$> l).

(** [c] selects the rows of key [k]. *)
Definition selects (c : A → bool) (k : K) : Prop := ∀ r, c r = true ↔ key r = k.

Lemma tmap_lookup c k l : selects c k → tmap l !! k = val <$> List.find c l.
Proof.
  intros Hc. induction l as [|r l IH]; [done|]. unfold tmap in *. cbn.
  destruct (c r) eqn:E.
  - apply Hc in E as <-. by rewrite lookup_insert_eq.
  - rewrite lookup_insert_ne; [done|]. intros Hk%Hc. congruence.
Qed.

Lemma tmap_decide_lookup k l : tmap l !! k = val <$> List.find (λ r, bool_decide (key r = k)) l.
Proof. apply tmap_lookup. intros r. by rewrite bool_decide_eq_true. Qed.

Lemma tmap_snoc l r : (∀ r', r' ∈ l → key r' ≠ key r) → tmap (l ++ [r]) = <[key r := val r]> (tmap l).
Proof.
  intros Hfresh. unfold tmap. rewrite fmap_app, list_to_map_app. cbn.
  rewrite <- insert_union_r, map_union_empty; [done|].
  apply not_elem_of_list_to_map_1. rewrite <- list_fmap_compose. cbn.
  rewrite list_elem_of_fmap. intros (r' & Hk & Hin). by apply (Hfresh r').
Qed.

(** An UPDATE that keeps the key alters the map. *)
Lemma tmap_UPDATE c k set f l :
  selects c k → (∀ r, key r = k → key (set r) = k ∧ val (set r) = f (val r)) →
  tmap (UPDATE c set l) = alter f k (tmap l).
Proof.
  intros Hc Hset. apply map_eq. intros i. destruct (decide (i = k)) as [->|Hi].
  - rewrite lookup_alter_eq, !(tmap_lookup c k) by done.
    induction l as [|r l IH]; [done|]. rewrite UPDATE_cons. cbn [List.find]. destruct (c r) eqn:E.
    + apply Hc in E. destruct (Hset r E) as [Hk Hv]. apply Hc in Hk. rewrite Hk. cbn. by rewrite Hv.
    + by rewrite E.
  - rewrite lookup_alter_ne, !tmap_decide_lookup by done. f_equal.
    induction l as [|r l IH]; [done|]. rewrite UPDATE_cons. cbn [List.find]. rewrite IH. destruct (c r) eqn:E; [|done].
    apply Hc in E. destruct (Hset r E) as [Hk _].
    by rewrite !bool_decide_eq_false_2 by congruence.
Qed.

Lemma tmap_elem l r : NoDup (key <$> l) → r ∈ l → tmap l !! key r = Some (val r).
Proof.
  intros Hnd Hin. unfold tmap. apply elem_of_list_to_map_1.
  - rewrite <- list_fmap_compose. done.
  - apply list_elem_of_fmap. by exists r.
Qed.

Lemma tmap_inv l k v : tmap l !! k = Some v → ∃ r, r ∈ l ∧ key r = k ∧ val r = v.
Proof.
  unfold tmap. intros Hin%elem_of_list_to_map_2. apply list_elem_of_fmap in Hin as (r & [= -> ->] & ?). eauto.
Qed.

(** With a unique key, one row at most matches. *)
Lemma matched_one (c : A → bool) k l r :
  NoDup (key <$> l) → (∀ r, c r = true → key r = k) → r ∈ l → c r = true → matched c l = 1.
Proof.
  intros Hnd Hc Hin Hr. unfold matched. induction l as [|x l IH]; [by apply elem_of_nil in Hin|].
  cbn in Hnd. apply NoDup_cons in Hnd as [Hx Hnd]. cbn.
  assert (∀ y, y ∈ l → c y = true → c x = true → False) as Hother.
  { intros y Hy Hcy Hcx. apply Hx. apply list_elem_of_fmap. exists y.
    by rewrite (Hc _ Hcx), (Hc _ Hcy). }
  apply elem_of_cons in Hin as [<-|Hin].
  - rewrite Hr. cbn. enough (List.filter c l = []) as ->; [done|].
    clear -Hr Hother. induction l as [|y l IH]; [done|]. cbn. destruct (c y) eqn:E.
    + exfalso. apply (Hother y); [left|done|done].
    + apply IH. intros z Hz. apply Hother. by right.
  - destruct (c x) eqn:E; [exfalso; by apply (Hother r)|]. by apply IH.
Qed.

Lemma UPDATE_keys (c : A → bool) (set : A → A) l : (∀ r, key (set r) = key r) → key <$> UPDATE c set l = key <$> l.
Proof.
  intros Hs. unfold UPDATE. induction l as [|r l IH]; cbn; [done|]. rewrite IH.
  by destruct (c r); rewrite ?Hs.
Qed.
End table_map.
#[global] Arguments tmap : simpl never.

Lemma existsb_elem {A} (c : A → bool) l : existsb c l = true ↔ ∃ r, r ∈ l ∧ c r = true.
Proof.
  rewrite existsb_exists. split; intros (r & Hr & ?); exists r; split; auto; by apply list_elem_of_In.
Qed.

Lemma existsb_none {A} (c : A → bool) l : existsb c l = false ↔ ∀ r, r ∈ l → c r = false.
Proof.
  rewrite <- not_true_iff_false, existsb_elem. split.
  - intros Hn r Hr. apply not_true_iff_false. eauto.
  - intros Hall (r & Hr & Hc). rewrite Hall in Hc; done.
Qed.

Lemma in_list_elem s l : in_list s l = true ↔ s ∈ l.
Proof.
  unfold in_list. rewrite existsb_elem. setoid_rewrite String.eqb_eq. naive_solver.
Qed.

Lemma require_ok c e d r : require c e d = Ok r ↔ c = true ∧ r = ((), d).
Proof. unfold require. destruct c; naive_solver. Qed.

Lemma filter_List_filter {A} (P : A → Prop) `{∀ x, Decision (P x)} (c : A → bool) l :
  (∀ x, c x = true ↔ P x) → List.filter c l = filter P l.
Proof.
  intros Hc. induction l as [|x l IH]; [done|]. cbn [List.filter]. rewrite filter_cons.
  destruct (c x) eqn:E; [rewrite decide_True by (by apply Hc); by rewrite IH|].
  rewrite decide_False; [done|]. intros Hp%Hc. congruence.
Qed.

(** ORDER BY is a sort. *)
#[global] Instance key_le_total {A} (key : A → Z) : Total (key_le key).
Proof. intros a b. unfold key_le. lia. Qed.
#[global] Instance key_le_trans {A} (key : A → Z) : Transitive (key_le key).
Proof. intros a b c. unfold key_le. lia. Qed.

Lemma ORDER_BY_Permutation {A} (key : A → Z) l : ORDER_BY key l ≡ₚ l.
Proof. apply merge_sort_Permutation. Qed.

Lemma ORDER_BY_name_Permutation {A} (name : A → string) l : ORDER_BY_name name l ≡ₚ l.
Proof. apply merge_sort_Permutation. Qed.

(** Rows already in order stay where they are. *)
Lemma ORDER_BY_sorted {A} (key : A → Z) l : StronglySorted Z.lt (key <$> l) → ORDER_BY key l = l.
Proof.
  intros Hs. symmetry.
  assert (∀ a b, a ∈ l → b ∈ l → key a = key b → a = b) as Hinj.
  { clear -Hs. induction l as [|x l IH]; [by intros a b ?%elem_of_nil|].
    cbn in Hs. apply StronglySorted_inv in Hs as [Hs Hx]. rewrite Forall_fmap, Forall_forall in Hx.
    intros a b. rewrite !elem_of_cons. intros [->|Ha] [->|Hb] Hk; auto.
    - specialize (Hx _ Hb). cbn in Hx. lia.
    - specialize (Hx _ Ha). cbn in Hx. lia. }
  assert (StronglySorted (key_le key) l) as H1.
  { clear -Hs. induction l as [|x l IH]; constructor; cbn in Hs; apply StronglySorted_inv in Hs as [Hs Hx]; [auto|].
    rewrite Forall_fmap in Hx. eapply Forall_impl; [done|]. unfold key_le. cbn. lia. }
  assert (StronglySorted (key_le key) (ORDER_BY key l)) as H2.
  { apply Sorted_StronglySorted; [apply _|]. apply Sorted_merge_sort. apply _. }
  pose proof (ORDER_BY_Permutation key l) as HP. symmetry in HP.
  revert HP H1 H2 Hinj. clear Hs. generalize (ORDER_BY key l). revert l.
  induction l as [|x l IH]; intros l2 HP H1 H2 Hinj.
  - apply Permutation_nil_l in HP. done.
  - destruct l2 as [|y l2]; [by apply Permutation_nil_r in HP|].
    assert (x = y) as ->.
    { apply StronglySorted_inv in H1 as [_ H1], H2 as [_ H2]. rewrite Forall_forall in H1, H2.
      assert (y ∈ x :: l) as Hy by (rewrite HP; left).
      assert (x ∈ y :: l2) as Hx by (rewrite <- HP; left).
      apply Hinj; [left|done|].
      apply elem_of_cons in Hy as [->|Hy]; [done|]. apply elem_of_cons in Hx as [->|Hx]; [done|].
      specialize (H1 _ Hy). specialize (H2 _ Hx). unfold key_le in *. lia. }
    f_equal. apply IH.
    + by apply Permutation_cons_inv in HP.
    + by apply StronglySorted_inv in H1 as [? _].
    + by apply StronglySorted_inv in H2 as [? _].
    + intros a b Ha Hb. apply Hinj; by right.
Qed.
