(* ===== verification/StoreSpec.v ===== *)
(** [internal/model/store.go]: the persistence seam.  [Tx] and [Store] are the
    interfaces; [Abs] is the abstract state of a store and the [..._spec]
    relations are what its methods promise on it.  [TxSpec] and [StoreSpec] tie an
    implementation to them, so the theorems on the syncer and the seeder are proved
    against the promise and hold of every backend that meets it. *)
From S2P Require Import Prelude GoStrings Sha256 Model Chain.
#[local] Open Scope Z_scope.

(** * Interfaces *)

(** [model.Tx].  A method that fills in fields of its argument returns it. *)
Class Tx (T : Type) := {
  tx_AppendObservation : Observation → SE T error (Z * Observation);
  tx_UpsertRefProjection : Ref → SE T error Ref;
  tx_WriteSync : Sync → SE T error Z;
  tx_AdvanceChainHead : Z → bytes → Z → SE T error ();
  tx_AppendTaintEvent : TaintEvent → SE T error Z;
  tx_CreateRemote : Remote → SE T error Z;
  tx_CountAllRemotes : SE T error Z;
  tx_PruneSyncs : Z → Z → SE T error ();
}.

(** [model.Store] less [Migrate], [Ping] and [Close].  [SetRemoteHealth] takes the
    wall clock it reads; a lease is [None] when it is held. *)
Class Store (S T : Type) := {
  st_CreateRemote : Remote → SE S error Z;
  st_GetRemote : Z → SE S error Remote;
  st_GetRemoteByURL : string → SE S error Remote;
  st_ListRemotes : Z → Z → SE S error (list Remote * Z);
  st_CountAllRemotes : SE S error Z;
  st_UpdateRemote : Remote → SE S error ();
  st_SoftDeleteRemote : Z → Z → SE S error ();
  st_SelectDueRemotes : Z → Z → SE S error (list Remote);
  st_SetRemoteHealth : Z → Z → RemoteStatus → string → Z → SE S error ();
  st_GetRef : Z → string → SE S error Ref;
  st_ListTags : Z → SE S error (list Ref);
  st_SetRefTaint : Z → Z → SE S error ();
  st_GetChainHead : Z → SE S error (bytes * Z);
  st_ReplayObservations : Z → Z → Z → SE S error (list Observation);
  st_LatestObservationForRef : Z → SE S error ObservationProof;
  st_AppendTaintEvent : TaintEvent → SE S error Z;
  st_ListTaintEvents : Z → Z → Z → SE S error (list TaintEvent * Z);
  st_AckTaintEvent : Z → string → string → Z → SE S error ();
  st_ListSyncs : Z → Z → Z → SE S error (list Sync * Z);
  st_TryAcquireLease : Z → string → Z → Z → SE S error (option bytes);
  st_ReleaseLeaseCAS : Z → string → bytes → bytes → Z → SE S error ();
  st_WithTx : ∀ {A}, SE T error A → S → res A * S;
}.

(** * The abstract state *)

(** A lease: its holder and when it expires. *)
Record AbsLease : Type := mkAbsLease { al_holder : string; al_acquired : Z; al_expires : Z }.

Record Abs : Type := mkAbs {
  a_remotes : gmap Z Remote;
  a_refs : gmap (Z * string) Ref;
  a_obs : list Observation;
  a_events : list TaintEvent;
  a_syncs : list Sync;
  a_leases : gmap Z AbsLease;
}.

(** The ledger of a remote. *)
Definition ledger (a : Abs) (rid : Z) : list Observation :=
  filter (λ o, ob_RemoteID o = rid) (a_obs a).

Definition set_chain (r : Remote) (head : bytes) (len : Z) : Remote :=
  mkRemote (rm_ID r) (rm_URL r) (rm_NormalizedURL r) (rm_Transport r) (rm_SyncInterval r)
    (rm_StalenessBudget r) (rm_TaintAnyTagDeletion r) (rm_HashAlgo r) (rm_Status r) (rm_LastOkNS r)
    (rm_LastErr r) (rm_ConsecutiveFailures r) head len (rm_RemovedAtNS r) (rm_CreatedAtNS r) (rm_UpdatedAtNS r).

Definition set_health (r : Remote) (status : RemoteStatus) (lastErr : string) (lastOk now : Z) : Remote :=
  mkRemote (rm_ID r) (rm_URL r) (rm_NormalizedURL r) (rm_Transport r) (rm_SyncInterval r)
    (rm_StalenessBudget r) (rm_TaintAnyTagDeletion r) (rm_HashAlgo r) status lastOk
    lastErr (rm_ConsecutiveFailures r) (rm_ChainHeadHash r) (rm_ChainLen r) (rm_RemovedAtNS r)
    (rm_CreatedAtNS r) now.

(** The observation as the ledger holds it. *)
Definition chained_obs (o : Observation) (id sync seq : Z) (prevHash rowHash : bytes) : Observation :=
  mkObservation id (ob_RemoteID o) (ob_RefID o) sync seq (ob_EventType o)
    (ob_PrevOID o) (ob_NewOID o) (ob_PrevPeeledOID o) (ob_NewPeeledOID o) (ob_ObservedAtNS o)
    prevHash rowHash (ob_CanonicalMeta o).

(** The projection after an upsert of [ref] under [id]: the row keeps where the tag
    was first seen. *)
Definition upserted (old : option Ref) (ref : Ref) (id : Z) : Ref :=
  mkRef id (rf_RemoteID ref) (rf_TagName ref) (rf_CurrentOID ref) (rf_CurrentPeeledOID ref)
    (rf_IsAnnotatedTag ref)
    (match old with Some r => rf_FirstOID r | None => rf_FirstOID ref end)
    (match old with Some r => rf_FirstSeenNS r | None => rf_FirstSeenNS ref end)
    (rf_LastSeenNS ref) (rf_LastChangedNS ref) (rf_Deleted ref) (rf_Tainted ref) (rf_TaintFirstNS ref)
    (rf_ObservationCount ref).

Definition ref_with_id (ref : Ref) (id : Z) : Ref :=
  mkRef id (rf_RemoteID ref) (rf_TagName ref) (rf_CurrentOID ref) (rf_CurrentPeeledOID ref)
    (rf_IsAnnotatedTag ref) (rf_FirstOID ref) (rf_FirstSeenNS ref) (rf_LastSeenNS ref)
    (rf_LastChangedNS ref) (rf_Deleted ref) (rf_Tainted ref) (rf_TaintFirstNS ref) (rf_ObservationCount ref).

Definition recorded (e : TaintEvent) (id : Z) : TaintEvent :=
  mkTaintEvent id (te_RemoteID e) (te_RefID e) (te_Reason e) (te_ObservationID e) (te_FromOID e) (te_ToOID e)
    (te_DetectedAtNS e) None "" "" (te_Detail e).

(** The unique key of the taint spine; an absent id is not equal to another. *)
Definition same_taint (e f : TaintEvent) : Prop :=
  te_RemoteID e = te_RemoteID f ∧ te_RefID e = te_RefID f ∧ te_Reason e = te_Reason f ∧
  te_FromOID e = te_FromOID f ∧ te_ToOID e = te_ToOID f ∧ te_FromOID e ≠ zeroOID ∧ te_ToOID e ≠ zeroOID.

Definition with_a_remotes (a : Abs) m := mkAbs m (a_refs a) (a_obs a) (a_events a) (a_syncs a) (a_leases a).
Definition with_a_refs (a : Abs) m := mkAbs (a_remotes a) m (a_obs a) (a_events a) (a_syncs a) (a_leases a).
Definition with_a_obs (a : Abs) l := mkAbs (a_remotes a) (a_refs a) l (a_events a) (a_syncs a) (a_leases a).
Definition with_a_events (a : Abs) l := mkAbs (a_remotes a) (a_refs a) (a_obs a) l (a_syncs a) (a_leases a).
Definition with_a_syncs (a : Abs) l := mkAbs (a_remotes a) (a_refs a) (a_obs a) (a_events a) l (a_leases a).
Definition with_a_leases (a : Abs) m := mkAbs (a_remotes a) (a_refs a) (a_obs a) (a_events a) (a_syncs a) m.

Definition obs_storable (o : Observation) : Prop :=
  storable (ob_PrevOID o) ∧ storable (ob_NewOID o) ∧ storable (ob_PrevPeeledOID o) ∧ storable (ob_NewPeeledOID o).
Definition ref_storable (r : Ref) : Prop :=
  storable (rf_CurrentOID r) ∧ storable (rf_CurrentPeeledOID r) ∧ storable (rf_FirstOID r).

(** * What the methods promise *)

(** The next row of a remote's chain: sequence number, link and hash come from the
    remote's head, and the head moves to the row. *)
Definition append_spec (a : Abs) (txSync : Z) (o : Observation) (res : Z * Observation) (a' : Abs) : Prop :=
  ∃ rem id,
    a_remotes a !! ob_RemoteID o = Some rem ∧
    length (rm_ChainHeadHash rem) = 32%nat ∧
    let seq := rm_ChainLen rem + 1 in
    let prev := rm_ChainHeadHash rem in
    let sync := if ob_SyncID o =? 0 then txSync else ob_SyncID o in
    let hash := RowHash prev (chained_obs o (ob_ID o) (ob_SyncID o) seq prev (ob_RowHash o)) in
    sync ≠ 0 ∧
    res = (seq, chained_obs o id (ob_SyncID o) seq prev hash) ∧
    a' = mkAbs (<[ob_RemoteID o := set_chain rem hash seq]> (a_remotes a)) (a_refs a)
           (a_obs a ++ [chained_obs o id sync seq prev hash]) (a_events a) (a_syncs a) (a_leases a).

Definition upsert_spec (a : Abs) (ref : Ref) (ref' : Ref) (a' : Abs) : Prop :=
  let key := (rf_RemoteID ref, rf_TagName ref) in
  ∃ id,
    match a_refs a !! key with
    | Some old => id = rf_ID old
    | None => ∀ k r, a_refs a !! k = Some r → rf_ID r ≠ id
    end ∧
    ref' = ref_with_id ref id ∧
    a' = with_a_refs a (<[key := upserted (a_refs a !! key) ref id]> (a_refs a)).

Definition taint_spec (a : Abs) (e : TaintEvent) (id : Z) (a' : Abs) : Prop :=
  (∃ f, f ∈ a_events a ∧ same_taint e f ∧ te_ID f = id ∧ a' = a) ∨
  ((∀ f, f ∈ a_events a → ¬ same_taint e f) ∧ a' = with_a_events a (a_events a ++ [recorded e id])).

Definition sync_with_id (s : Sync) (id : Z) : Sync :=
  mkSync id (sy_RemoteID s) (sy_Trigger s) (sy_StartedNS s) (sy_FinishedNS s) (sy_Status s)
    (sy_TagsSeen s) (sy_TagsChanged s) (sy_Error s) (sy_ChainHeadBefore s) (sy_ChainHeadAfter s).

Definition write_sync_spec (a : Abs) (s : Sync) (id : Z) (a' : Abs) : Prop :=
  id ≠ 0 ∧ (∀ s', s' ∈ a_syncs a → sy_ID s' < id) ∧
  a' = with_a_syncs a (a_syncs a ++ [sync_with_id s id]).

(** Retention: a sync stays when it is another remote's, among the newest [keep] of
    its remote, or the origin of a ledger row. *)
Definition newer (a : Abs) (rid : Z) (s : Sync) : nat :=
  length (filter (λ s', sy_RemoteID s' = rid ∧ sy_ID s < sy_ID s') (a_syncs a)).
Definition kept (a : Abs) (rid keep : Z) (s : Sync) : Prop :=
  sy_RemoteID s ≠ rid ∨ keep < 0 ∨ Z.of_nat (newer a rid s) < keep ∨ sy_ID s ∈ ob_SyncID <$> ledger a rid.
#[global] Instance kept_dec a rid keep s : Decision (kept a rid keep s).
Proof. unfold kept. apply _. Defined.
Definition prune_spec (a : Abs) (rid keep : Z) (a' : Abs) : Prop :=
  a' = with_a_syncs a (filter (kept a rid keep) (a_syncs a)).

Definition has_ref_id (a : Abs) (id : Z) : Prop := ∃ k r, a_refs a !! k = Some r ∧ rf_ID r = id.
Definition has_obs_id (a : Abs) (id : Z) : Prop := ∃ o, o ∈ a_obs a ∧ ob_ID o = id.
Definition has_sync_id (a : Abs) (id : Z) : Prop := ∃ s, s ∈ a_syncs a ∧ sy_ID s = id.

(** ** The invariant *)

(** The ledger of a remote replays from genesis, and the remote's row is its head. *)
Definition chain_ok (a : Abs) : Prop :=
  ∀ rid rem, a_remotes a !! rid = Some rem →
    replay genesis_head 0 (ledger a rid) = true ∧
    rm_ChainHeadHash rem = ledger_head genesis_head (ledger a rid) ∧
    rm_ChainLen rem = Z.of_nat (length (ledger a rid)).

Definition refs_ok (a : Abs) : Prop :=
  (∀ k r, a_refs a !! k = Some r → (rf_RemoteID r, rf_TagName r) = k ∧ is_Some (a_remotes a !! k.1)) ∧
  (∀ k1 k2 r1 r2, a_refs a !! k1 = Some r1 → a_refs a !! k2 = Some r2 → rf_ID r1 = rf_ID r2 → k1 = k2).

(** Every ledger row belongs to a remote, and to a sync once committed. *)
Definition obs_ok (a : Abs) : Prop := ∀ o, o ∈ a_obs a → is_Some (a_remotes a !! ob_RemoteID o).
Definition syncs_ok (a : Abs) : Prop := ∀ o, o ∈ a_obs a → has_sync_id a (ob_SyncID o).

(** A ledger row and the sync it came from belong to the same remote. *)
Definition owner_ok (a : Abs) : Prop :=
  ∀ o s, o ∈ a_obs a → s ∈ a_syncs a → sy_ID s = ob_SyncID o → sy_RemoteID s = ob_RemoteID o.

Record abs_ok (a : Abs) : Prop := {
  ok_chain : chain_ok a;
  ok_refs : refs_ok a;
  ok_obs : obs_ok a;
}.

(** * Implementations

    A backend may limit what its columns hold: [name_ok] are the tag names it can
    store, [text_ok] the texts, [holder_ok] the lease holders, [count_ok] the
    counts.  A call within the limits succeeds. *)

Definition int32_ok (n : Z) : Prop := -2^31 ≤ n < 2^31.

Class TxSpec (T : Type) `{Tx T} := {
  t_ok : T → Prop;
  t_abs : T → Abs;
  t_sync : T → Z;
  name_ok : string → Prop;
  text_ok : string → Prop;
  count_ok : Z → Prop;
  text_ok_empty : text_ok "";
  count_ok_zero : count_ok 0;
  stored_names t k r : t_ok t → a_refs (t_abs t) !! k = Some r → name_ok k.2;
  append_refines t o r t' :
    t_ok t → obs_storable o → tx_AppendObservation o t = Ok (r, t') →
    t_ok t' ∧ t_sync t' = t_sync t ∧ append_spec (t_abs t) (t_sync t) o r (t_abs t');
  append_total t o :
    t_ok t → abs_ok (t_abs t) → obs_storable o → is_Some (a_remotes (t_abs t) !! ob_RemoteID o) →
    has_ref_id (t_abs t) (ob_RefID o) → EventType_Valid (ob_EventType o) = true → ob_SyncID o ≠ 0 →
    has_sync_id (t_abs t) (ob_SyncID o) → text_ok (ob_CanonicalMeta o) →
    ∃ r, tx_AppendObservation o t = Ok r;
  upsert_refines t ref r t' :
    t_ok t → ref_storable ref → tx_UpsertRefProjection ref t = Ok (r, t') →
    t_ok t' ∧ t_sync t' = t_sync t ∧ upsert_spec (t_abs t) ref r (t_abs t');
  upsert_total t ref :
    t_ok t → ref_storable ref → is_Some (a_remotes (t_abs t) !! rf_RemoteID ref) → name_ok (rf_TagName ref) →
    ∃ r, tx_UpsertRefProjection ref t = Ok r;
  taint_refines t e id t' :
    t_ok t → storable (te_FromOID e) → storable (te_ToOID e) → tx_AppendTaintEvent e t = Ok (id, t') →
    t_ok t' ∧ t_sync t' = t_sync t ∧ taint_spec (t_abs t) e id (t_abs t');
  taint_total t e :
    t_ok t → storable (te_FromOID e) → storable (te_ToOID e) →
    is_Some (a_remotes (t_abs t) !! te_RemoteID e) → has_ref_id (t_abs t) (te_RefID e) →
    (∀ id, te_ObservationID e = Some id → has_obs_id (t_abs t) id) → TaintReason_Valid (te_Reason e) = true →
    text_ok (te_Detail e) →
    ∃ r, tx_AppendTaintEvent e t = Ok r;
  sync_refines t s id t' :
    t_ok t → count_ok (sy_TagsSeen s) → count_ok (sy_TagsChanged s) → tx_WriteSync s t = Ok (id, t') →
    t_ok t' ∧ t_sync t' = id ∧ write_sync_spec (t_abs t) s id (t_abs t');
  sync_total t s :
    t_ok t → is_Some (a_remotes (t_abs t) !! sy_RemoteID s) →
    sy_Trigger s ∈ [TriggerRegister; TriggerScheduled; TriggerManual] →
    sy_Status s ∈ [SyncOk; SyncPartial; SyncFailed] → text_ok (sy_Error s) →
    (length (sy_ChainHeadBefore s) ≤ 32)%nat → (length (sy_ChainHeadAfter s) ≤ 32)%nat →
    ∃ r, tx_WriteSync s t = Ok r;
  prune_refines t rid keep r t' :
    t_ok t → 0 ≤ keep → int32_ok keep → tx_PruneSyncs rid keep t = Ok (r, t') →
    t_ok t' ∧ t_sync t' = t_sync t ∧ prune_spec (t_abs t) rid keep (t_abs t');
  prune_total t rid keep :
    t_ok t → owner_ok (t_abs t) → 0 ≤ keep → int32_ok keep → ∃ r, tx_PruneSyncs rid keep t = Ok r;
}.

(** What a remote's acquired lease changes.  A backend that decides by reading the row
    back ([regrants]) also grants a live lease again to its own holder, for the same
    expiry. *)
Definition acquire_spec (regrants : bool) (a : Abs) (rid : Z) (holder : string) (now expires : Z)
    (res : option bytes) (a' : Abs) : Prop :=
  ∃ rem, a_remotes a !! rid = Some rem ∧
    match a_leases a !! rid with
    | Some l =>
        if al_expires l <? now
        then res = Some (rm_ChainHeadHash rem) ∧ a' = with_a_leases a (<[rid := mkAbsLease holder now expires]> (a_leases a))
        else a' = a ∧ (res = None ∨
               regrants = true ∧ al_holder l = holder ∧ al_expires l = expires ∧ res = Some (rm_ChainHeadHash rem))
    | None => res = Some (rm_ChainHeadHash rem) ∧ a' = with_a_leases a (<[rid := mkAbsLease holder now expires]> (a_leases a))
    end.

(** Releasing drops the holder's own lease. *)
Definition drop_lease (a : Abs) (rid : Z) (holder : string) : gmap Z AbsLease :=
  match a_leases a !! rid with
  | Some l => if String.eqb (al_holder l) holder then delete rid (a_leases a) else a_leases a
  | None => a_leases a
  end.

Definition release_spec (a : Abs) (rid : Z) (holder : string) (witness newHead : bytes) (newLen : Z) (a' : Abs) : Prop :=
  ∃ rem, a_remotes a !! rid = Some rem ∧
    ((rm_ChainHeadHash rem = witness ∧
      a' = with_a_leases (with_a_remotes a (<[rid := set_chain rem newHead newLen]> (a_remotes a))) (drop_lease a rid holder)) ∨
     (rm_ChainHeadHash rem ≠ witness ∧ rm_ChainHeadHash rem = newHead ∧
      a' = with_a_leases a (drop_lease a rid holder))).

Class StoreSpec (S T : Type) `{TxSpec T} `{Store S T} := {
  s_ok : S → Prop;
  s_abs : S → Abs;
  regrants : bool;
  holder_ok : string → Prop;
  get_remote_spec s id :
    s_ok s → st_GetRemote id s = match a_remotes (s_abs s) !! id with
                                 | Some r => Ok (r, s)
                                 | None => Err ErrNotFound
                                 end;
  get_remote_by_url_spec s u :
    s_ok s → match st_GetRemoteByURL u s with
             | Ok (r, s') => s' = s ∧ a_remotes (s_abs s) !! rm_ID r = Some r ∧
                             rm_NormalizedURL r = u ∧ rm_RemovedAtNS r = None
             | Err e => e = ErrNotFound ∧ ∀ id r, a_remotes (s_abs s) !! id = Some r →
                          rm_NormalizedURL r = u → rm_RemovedAtNS r ≠ None
             end;
  get_ref_spec s rid name :
    s_ok s → st_GetRef rid name s = match a_refs (s_abs s) !! (rid, name) with
                                    | Some r => Ok (r, s)
                                    | None => Err ErrNotFound
                                    end;
  list_tags_spec s rid :
    s_ok s → ∃ l, st_ListTags rid s = Ok (l, s) ∧ NoDup (rf_TagName <$> l) ∧
      (∀ r, r ∈ l ↔ a_refs (s_abs s) !! (rid, rf_TagName r) = Some r);
  get_chain_head_spec s id :
    s_ok s → st_GetChainHead id s = match a_remotes (s_abs s) !! id with
                                    | Some r => Ok ((rm_ChainHeadHash r, rm_ChainLen r), s)
                                    | None => Err ErrNotFound
                                    end;
  set_health_spec s now id status lastErr lastOk :
    s_ok s → status ∈ [RemoteActive; RemoteDegraded; RemotePaused] → text_ok lastErr →
    ∃ s', st_SetRemoteHealth now id status lastErr lastOk s = Ok ((), s') ∧ s_ok s' ∧
      s_abs s' = with_a_remotes (s_abs s)
        (alter (λ r, set_health r status lastErr lastOk now) id (a_remotes (s_abs s)));
  acquire_refines s rid holder now expires r s' :
    s_ok s → st_TryAcquireLease rid holder now expires s = Ok (r, s') →
    s_ok s' ∧ acquire_spec regrants (s_abs s) rid holder now expires r (s_abs s');
  acquire_total s rid holder now expires :
    s_ok s → is_Some (a_remotes (s_abs s) !! rid) → holder_ok holder → ∃ r, st_TryAcquireLease rid holder now expires s = Ok r;
  release_refines s rid holder witness newHead newLen s' :
    s_ok s → st_ReleaseLeaseCAS rid holder witness newHead newLen s = Ok ((), s') →
    s_ok s' ∧ release_spec (s_abs s) rid holder witness newHead newLen (s_abs s');
  release_total s rid holder witness newHead newLen rem l :
    s_ok s → a_remotes (s_abs s) !! rid = Some rem → a_leases (s_abs s) !! rid = Some l → al_holder l = holder →
    rm_ChainHeadHash rem = witness ∨ rm_ChainHeadHash rem = newHead → (length newHead ≤ 32)%nat →
    ∃ r, st_ReleaseLeaseCAS rid holder witness newHead newLen s = Ok r;
  with_tx_spec s :
    s_ok s → ∃ t0, t_ok t0 ∧ t_abs t0 = s_abs s ∧ t_sync t0 = 0 ∧
      ∀ A (fn : SE T error A),
        match fn t0 with
        | Err e => ∃ s', st_WithTx fn s = (Err e, s') ∧ s_ok s' ∧ s_abs s' = s_abs s
        | Ok (a, t) => t_ok t →
            (syncs_ok (t_abs t) ∧ ∃ s', st_WithTx fn s = (Ok a, s') ∧ s_ok s' ∧ s_abs s' = t_abs t) ∨
            (¬ syncs_ok (t_abs t) ∧ ∃ e s', st_WithTx fn s = (Err e, s') ∧ s_ok s' ∧ s_abs s' = s_abs s)
        end;
}.

(** * Lemmas *)

Lemma ledger_snoc a m r o e s l rid :
  ledger (mkAbs m r (a_obs a ++ [o]) e s l) rid =
  ledger a rid ++ (if decide (rid = ob_RemoteID o) then [o] else []).
Proof.
  unfold ledger. cbn [a_obs]. rewrite filter_app, filter_cons, filter_nil.
  destruct (decide (rid = ob_RemoteID o)) as [->|]; [by rewrite decide_True|by rewrite decide_False].
Qed.

Lemma RowHash_chained o p id1 id2 s1 s2 seq p1 p2 h1 h2 :
  RowHash p (chained_obs o id1 s1 seq p1 h1) = RowHash p (chained_obs o id2 s2 seq p2 h2).
Proof. reflexivity. Qed.

Lemma append_ledger a txSync o r a' rid :
  append_spec a txSync o r a' →
  ∃ row, ledger a' rid = ledger a rid ++ (if decide (rid = ob_RemoteID o) then [row] else []) ∧
    chained row = chained r.2 ∧ ob_RemoteID row = ob_RemoteID o ∧ ob_ID row = ob_ID r.2 ∧
    ob_SyncID row = (if ob_SyncID o =? 0 then txSync else ob_SyncID o).
Proof.
  intros (rem & id & Hrem & Hlen & Hs & -> & ->).
  match goal with |- context [a_obs a ++ [?o']] => exists o' end. split; [|done].
  by rewrite ledger_snoc.
Qed.

(** Appending keeps the chain of every remote: the row replays on the old head. *)
Lemma append_chain_ok a txSync o r a' : append_spec a txSync o r a' → chain_ok a → chain_ok a'.
Proof.
  intros (rem & id & Hrem & Hlen & Hs & -> & ->) Hok rid rem'. rewrite ledger_snoc.
  cbn [a_remotes ob_RemoteID chained_obs]. destruct (Hok _ _ Hrem) as (Hr & Hh & Hn).
  intros [[<- <-]|[Hne Hl]]%lookup_insert_Some.
  - rewrite decide_True by done.
    cbn [rm_ChainHeadHash rm_ChainLen set_chain]. rewrite ledger_head_snoc, length_app.
    cbn [length ob_RowHash]. split_and!; [|done|lia].
    apply replay_snoc. cbn [ob_Seq ob_PrevHash ob_RowHash chained_obs]. rewrite <- Hh.
    split_and!; [done|lia|done|apply RowHash_chained].
  - rewrite decide_False, app_nil_r by done. by apply (Hok rid).
Qed.

Lemma append_ok a txSync o r a' : append_spec a txSync o r a' → abs_ok a → abs_ok a'.
Proof.
  intros Hspec [Hc [Hr1 Hr2] Ho]. pose proof (append_chain_ok _ _ _ _ _ Hspec Hc).
  destruct Hspec as (rem & id & Hrem & Hlen & Hs & -> & ->).
  split; [done|split|]; cbn.
  - intros k r' Hk. destruct (Hr1 _ _ Hk) as [? ?]. split; [done|].
    rewrite lookup_insert_is_Some. destruct (decide (ob_RemoteID o = k.1)); auto.
  - done.
  - intros o'. cbn. rewrite elem_of_app, list_elem_of_singleton. intros [Hin| ->].
    + apply lookup_insert_is_Some. destruct (decide (ob_RemoteID o = ob_RemoteID o')); [by left|].
      right. split; [done|]. by apply Ho.
    + apply lookup_insert_is_Some. by left.
Qed.

Lemma upsert_ok a ref r a' :
  upsert_spec a ref r a' → is_Some (a_remotes a !! rf_RemoteID ref) → abs_ok a → abs_ok a'.
Proof.
  intros (id & Hid & -> & ->) Hrem [Hc [Hr1 Hr2] Ho]. split; [done|split|done]; cbn.
  - intros k r. rewrite lookup_insert_Some. intros [[<- <-]|[? Hk]]; [done|by apply Hr1].
  - intros k1 k2 r1 r2. rewrite !lookup_insert_Some.
    intros [[<- <-]|[Hn1 Hk1]] [[<- <-]|[Hn2 Hk2]]; try done; cbn; intros Heq.
    + destruct (a_refs a !! _) as [old|] eqn:E; [subst; by eapply Hr2|].
      exfalso. by eapply Hid.
    + destruct (a_refs a !! (rf_RemoteID ref, rf_TagName ref)) as [old|] eqn:E; [subst; symmetry; by eapply Hr2|].
      exfalso. by eapply Hid.
    + by eapply Hr2.
Qed.

Lemma taint_ok a e id a' : taint_spec a e id a' → abs_ok a → abs_ok a'.
Proof. intros [(f & _ & _ & _ & ->)|[_ ->]]; [done|]. by intros [? [??] ?]. Qed.

Lemma with_syncs_ok a l : abs_ok a → abs_ok (with_a_syncs a l).
Proof. by intros [? [??] ?]. Qed.

Lemma write_sync_ok a s id a' : write_sync_spec a s id a' → abs_ok a → abs_ok a'.
Proof. intros (_ & _ & ->). apply with_syncs_ok. Qed.

Lemma prune_ok a rid keep a' : prune_spec a rid keep a' → abs_ok a → abs_ok a'.
Proof. intros ->. apply with_syncs_ok. Qed.

(** Pruning never removes the origin of a ledger row. *)
Lemma prune_syncs_ok a rid keep a' :
  prune_spec a rid keep a' → (∀ o s, o ∈ a_obs a → s ∈ a_syncs a → sy_ID s = ob_SyncID o → sy_RemoteID s = ob_RemoteID o) →
  syncs_ok a → syncs_ok a'.
Proof.
  intros -> Hsame Hok o Ho. destruct (Hok o Ho) as (s & Hs & Hid). exists s. cbn in *.
  split; [|done]. apply list_elem_of_filter. split; [|done]. unfold kept.
  destruct (decide (sy_RemoteID s = rid)) as [Hr|]; [|by left]. do 3 right.
  rewrite Hid. apply list_elem_of_fmap. exists o. split; [done|].
  apply list_elem_of_filter. split; [|done]. by rewrite <- Hr, (Hsame o s).
Qed.

(** The newest sync of a remote survives when at least one is kept. *)
Lemma prune_newest a rid keep a' s :
  prune_spec a rid keep a' → 0 < keep → s ∈ a_syncs a →
  (∀ s', s' ∈ a_syncs a → sy_ID s' ≤ sy_ID s) → s ∈ a_syncs a'.
Proof.
  intros -> Hk Hs Hmax. cbn. apply list_elem_of_filter. split; [|done]. do 2 right. left.
  enough (newer a rid s = 0%nat) as -> by lia. unfold newer.
  apply length_zero_iff_nil, elem_of_nil_inv.
  intros s' [[_ Hlt] Hs']%list_elem_of_filter. specialize (Hmax _ Hs'). lia.
Qed.
