(* ===== verification/SqliteStore.v ===== *)
(** [internal/store/sqlite]: rows to domain values and back ([convert.go], the
    helpers of [store.go] and [tx.go]) and the methods of [sqliteStore].  A method
    runs on the database as a state-and-error computation; a method that fails
    leaves the database unchanged. *)
From S2P Require Import Prelude GoStrings Model Sqlc.
#[local] Open Scope Z_scope.

(** * convert.go *)

Definition toInt64 (v : iface) : Z :=
  match v with
  | INil => 0
  | IInt64 x | IFloat64 x | IInt x | IInt32 x => x
  | _ => 0
  end.

Definition toString (v : iface) : string :=
  match v with
  | IString s => s
  | _ => ""
  end.

Definition toBytes (v : iface) : bytes :=
  match v with
  | IBytes b => b
  | _ => []
  end.

(** [if raw := toBytes(v); len(raw) > 0 { oid = model.OIDFromRaw(raw) }] *)
Definition oid_col (v : iface) : OID :=
  match toBytes v with
  | [] => zeroOID
  | raw => OIDFromRaw raw
  end.

(** [if v != nil { x := toInt64(v); p = &x }] *)
Definition int_ptr (v : iface) : option Z := if is_null v then None else Some (toInt64 v).

Definition remoteFromRow (r : RemoteRow) : Remote :=
  mkRemote (rr_ID r) (rr_Url r) (rr_NormalizedUrl r) (rr_Transport r) (rr_SyncIntervalNs r)
    (rr_StalenessBudgetNs r) (negb (rr_TaintAnyTagDeletion r =? 0))
    (if is_null (rr_HashAlgo r) then None else Some (toString (rr_HashAlgo r)))
    (rr_Status r) (rr_LastOkNs r) (rr_LastErr r) (rr_ConsecutiveFailures r)
    (rr_ChainHeadHash r) (rr_ChainLen r) (int_ptr (rr_RemovedAtNs r)) (rr_CreatedAtNs r) (rr_UpdatedAtNs r).

Definition refFromRow (r : RefRow) : Ref :=
  mkRef (fr_ID r) (fr_RemoteID r) (fr_TagName r) (oid_col (fr_CurrentOid r)) (oid_col (fr_CurrentPeeledOid r))
    (negb (fr_IsAnnotated r =? 0)) (oid_col (fr_FirstOid r)) (fr_FirstSeenNs r) (fr_LastSeenNs r)
    (fr_LastChangedNs r) (negb (fr_Deleted r =? 0)) (negb (fr_Tainted r =? 0)) (int_ptr (fr_TaintFirstNs r))
    (fr_ObservationCount r).

Definition taintEventFromRow (r : TaintEventRow) : TaintEvent :=
  mkTaintEvent (tr_ID r) (tr_RemoteID r) (tr_RefID r) (tr_Reason r) (int_ptr (tr_ObservationID r))
    (if is_null (tr_FromOid r) then zeroOID else OIDFromRaw (toBytes (tr_FromOid r)))
    (if is_null (tr_ToOid r) then zeroOID else OIDFromRaw (toBytes (tr_ToOid r)))
    (tr_DetectedAtNs r) (int_ptr (tr_AckedAtNs r))
    (if is_null (tr_AckedBy r) then "" else toString (tr_AckedBy r))
    (if is_null (tr_AckNote r) then "" else toString (tr_AckNote r))
    (tr_Detail r).

Definition syncFromRow (r : SyncRow) : Sync :=
  mkSync (sr_ID r) (sr_RemoteID r) (sr_Trigger r) (sr_StartedNs r) (sr_FinishedNs r) (sr_Status r)
    (sr_TagsSeen r) (sr_TagsChanged r) (sr_Error r)
    (toBytes (sr_ChainHeadBefore r)) (toBytes (sr_ChainHeadAfter r)).

(** * Helpers of store.go and tx.go *)

Definition boolToInt (b : bool) : Z := if b then 1 else 0.

Definition nullInt64Interface (p : option Z) : iface :=
  match p with
  | None => INil
  | Some v => IInt64 v
  end.

Definition nullStringInterface (s : option string) : iface :=
  match s with
  | None => INil
  | Some v => IString v
  end.

Definition nullBytes (b : bytes) : iface :=
  match b with
  | [] => INil
  | _ => IBytes b
  end.

Definition isUniqueConflict (e : sql_error) : bool :=
  match e with
  | UniqueFailed => true
  | _ => false
  end.

Fixpoint bytesEqual (a b : bytes) : bool :=
  match a, b with
  | [], [] => true
  | x :: a, y :: b => Byte.eqb x y && bytesEqual a b
  | _, _ => false
  end.

(** [fmt.Errorf("...: %w", err)] over a failed statement. *)
Definition wrap_sql (e : sql_error) : error :=
  match e with
  | NoRows => ErrNoRows
  | _ => ErrSQL
  end.

(** The statement [q], its failure reported through [f]. *)
Definition run_with {A} (f : sql_error → error) (q : Q A) : SE db error A := λ d,
  match q d with
  | Ok r => Ok r
  | Err e => Err (f e)
  end.
Abbreviation run_q := (run_with wrap_sql).

(** [if errors.Is(err, sql.ErrNoRows) { ... model.ErrNotFound }] *)
Definition not_found (e : sql_error) : error :=
  match e with
  | NoRows => ErrNotFound
  | e => wrap_sql e
  end.

(** [if isUniqueConflict(err) { ... model.ErrConflict }] *)
Definition conflict (e : sql_error) : error := if isUniqueConflict e then ErrConflict else wrap_sql e.

(** The columns of a remote. *)
Definition remote_row (r : Remote) (id : Z) : RemoteRow :=
  mkRemoteRow id (rm_URL r) (rm_NormalizedURL r) (rm_Transport r) (rm_SyncInterval r)
    (rm_StalenessBudget r) (boolToInt (rm_TaintAnyTagDeletion r)) (nullStringInterface (rm_HashAlgo r))
    (rm_Status r) (rm_LastOkNS r) (rm_LastErr r) (rm_ConsecutiveFailures r)
    (rm_ChainHeadHash r) (rm_ChainLen r) (nullInt64Interface (rm_RemovedAtNS r)) (rm_CreatedAtNS r) (rm_UpdatedAtNS r).

(** * store.go *)

(** ** RemoteStore *)

Definition CreateRemote (r : Remote) : SE db error Z :=
  row ← run_with conflict (Sqlc.CreateRemote (remote_row r));
  mret (rr_ID row).

Definition GetRemote (id : Z) : SE db error Remote :=
  row ← run_with not_found (Sqlc.GetRemote id);
  mret (remoteFromRow row).

Definition GetRemoteByURL (normalizedURL : string) : SE db error Remote :=
  row ← run_with not_found (Sqlc.GetRemoteByURL normalizedURL);
  mret (remoteFromRow row).

(** The page and the highest id on it, 0 when it is empty. *)
Definition ListRemotes (limit cursor : Z) : SE db error (list Remote * Z) :=
  let limit := if limit <=? 0 then 100 else limit in
  rows ← run_q (Sqlc.ListRemotes cursor limit);
  mret (map remoteFromRow rows, foldl (λ next r, if next <? rr_ID r then rr_ID r else next) 0 rows).

Definition CountAllRemotes : SE db error Z := run_q Sqlc.CountAllRemotes.

Definition UpdateRemote (r : Remote) : SE db error () :=
  run_with not_found (Sqlc.UpdateRemote (remote_row r (rm_ID r)));;
  mret ().

Definition SoftDeleteRemote (id atNS : Z) : SE db error () :=
  run_q (Sqlc.SoftDeleteRemote (IInt64 atNS) atNS id).

Definition SelectDueRemotes (nowNs limit : Z) : SE db error (list Remote) :=
  rows ← run_q (Sqlc.SelectDueRemotes nowNs limit);
  mret (map remoteFromRow rows).

(** [nowNS] is the wall clock the method reads. *)
Definition SetRemoteHealth (nowNS id : Z) (status : RemoteStatus) (lastErr : string) (lastOkNS : Z) : SE db error () :=
  run_q (Sqlc.SetRemoteHealth status lastErr lastOkNS nowNS id).

(** ** RefStore *)

Definition GetRef (remoteID : Z) (tagName : string) : SE db error Ref :=
  row ← run_with not_found (Sqlc.GetRef remoteID tagName);
  mret (refFromRow row).

Definition ListTags (remoteID : Z) : SE db error (list Ref) :=
  rows ← run_q (Sqlc.ListTags remoteID);
  mret (map refFromRow rows).

Definition SetRefTaint (refID firstNS : Z) : SE db error () :=
  run_q (Sqlc.SetRefTaint (IInt64 firstNS) refID).

(** ** ObservationStore *)

Definition GetChainHead (remoteID : Z) : SE db error (bytes * Z) :=
  run_with not_found (Sqlc.GetChainHead remoteID).

Definition LatestObservationForRef (refID : Z) : SE db error ObservationProof :=
  row ← run_with not_found (Sqlc.LatestObservationForRef refID);
  let '(remoteID, seq, rowHash) := row in
  mret (mkProof remoteID seq rowHash).

Definition observationFromRow (r : ObservationRow) : Observation :=
  mkObservation (or_ID r) (or_RemoteID r) (or_RefID r) (or_SyncID r) (or_Seq r) (or_EventType r)
    (oid_col (or_PrevOid r)) (oid_col (or_NewOid r)) (oid_col (or_PrevPeeledOid r)) (oid_col (or_NewPeeledOid r))
    (or_ObservedAtNs r) (or_PrevHash r) (or_RowHash r)
    (if is_null (or_CanonicalMeta r) then "" else toString (or_CanonicalMeta r)).

Definition ReplayObservations (remoteID fromSeq limit : Z) : SE db error (list Observation) :=
  let limit := if limit <=? 0 then 1000 else limit in
  rows ← run_q (Sqlc.ReplayObservations remoteID fromSeq limit);
  mret (map observationFromRow rows).

(** ** TaintStore *)

(** The columns of a taint event. *)
Definition taint_row (e : TaintEvent) (id : Z) : TaintEventRow :=
  mkTaintEventRow id (te_RemoteID e) (te_RefID e) (te_Reason e) (nullInt64Interface (te_ObservationID e))
    (nullBytes (Raw (te_FromOID e))) (nullBytes (Raw (te_ToOID e))) (te_DetectedAtNS e)
    INil INil INil (te_Detail e).

Definition AppendTaintEvent (e : TaintEvent) : SE db error Z :=
  run_q (Sqlc.InsertTaintEvent (taint_row e)).

Definition ListTaintEvents (remoteID limit cursor : Z) : SE db error (list TaintEvent * Z) :=
  let limit := if limit <=? 0 then 100 else limit in
  rows ← run_q (Sqlc.ListTaintEvents remoteID cursor limit);
  mret (map taintEventFromRow rows, foldl (λ next r, if next <? tr_ID r then tr_ID r else next) 0 rows).

Definition AckTaintEvent (id : Z) (by_ note : string) (atNS : Z) : SE db error () :=
  run_q (Sqlc.AckTaintEvent (IInt64 atNS) (IString by_) (IString note) id).

(** ** SyncStore *)

Definition MaxInt64 : Z := 2^63 - 1.

Definition ListSyncs (remoteID limit cursor : Z) : SE db error (list Sync * Z) :=
  let limit := if limit <=? 0 then 100 else limit in
  let cursor := if cursor <=? 0 then MaxInt64 else cursor in
  rows ← run_q (Sqlc.ListSyncs remoteID cursor limit);
  let out := map syncFromRow rows in
  let nextCursor :=
    if Z.of_nat (length rows) =? limit then
      match last out with
      | Some s => sy_ID s
      | None => 0
      end
    else 0 in
  mret (out, nextCursor).

(** ** Lock seam *)

(** [upsertLeaseSQL], with the number of rows it inserted or updated. *)
Definition upsertLease (remoteID : Z) (holder : string) (acquired expires now : Z) : Q Z :=
  d ← get_state;
  let row := mkLeaseRow remoteID holder acquired expires in
  match List.find (λ l, lr_RemoteID l =? remoteID) (t_remote_lease d) with
  | Some _ =>
      let c l := (lr_RemoteID l =? remoteID) && (lr_ExpiresAtNs l <? now) in
      put_state (with_lease d (UPDATE c (λ _, row) (t_remote_lease d)));;
      mret (matched c (t_remote_lease d))
  | None =>
      require (has_remote d remoteID) ForeignKeyFailed;;
      put_state (with_lease d (t_remote_lease d ++ [row]));;
      mret 1
  end.

(** [None] is [ok = false]. *)
Definition TryAcquireLease (remoteID : Z) (holder : string) (nowNs expiresNS : Z) : SE db error (option bytes) :=
  headRow ← run_q (Sqlc.GetRemoteChainHead remoteID);
  rows ← run_q (upsertLease remoteID holder nowNs expiresNS nowNs);
  mret (if rows =? 0 then None else Some headRow.1).

Definition ReleaseLeaseCAS (remoteID : Z) (holder : string) (witness newHead : bytes) (newLen : Z) : SE db error () :=
  headRow ← run_q (Sqlc.GetRemoteChainHead remoteID);
  let currentHead := headRow.1 in
  (if bytesEqual currentHead witness then
     rows ← run_q (Sqlc.AdvanceRemoteChainHead newHead newLen remoteID witness headRow.2);
     if rows =? 1 then mret () else throw ErrChainCAS
   else if bytesEqual currentHead newHead then mret ()
   else throw ErrChainCAS);;
  run_q (Sqlc.DeleteRemoteLease remoteID holder).

(** * Lemmas *)

Lemma bytesEqual_spec a b : bytesEqual a b = true ↔ a = b.
Proof.
  revert b. induction a as [|x a IH]; intros [|y b]; cbn; try done.
  rewrite andb_true_iff, IH. split; [intros [H ->]|intros [= -> ->]; split; [|done]].
  - f_equal. by apply Byte.byte_dec_bl.
  - by apply Byte.byte_dec_lb.
Qed.

Lemma run_with_ok {A} f (q : Q A) d r : run_with f q d = Ok r ↔ q d = Ok r.
Proof. unfold run_with. destruct (q d); naive_solver. Qed.

(** A column written by the store reads back as what was written. *)
Lemma oid_col_nullBytes o : storable o → oid_col (nullBytes (Raw o)) = o.
Proof.
  intros [->|Hwf]; [done|]. unfold oid_col, nullBytes.
  pose proof (OIDFromRaw_Raw o Hwf) as Hr. pose proof (oid_wf_not_zero o Hwf) as Hz.
  unfold IsZero in Hz. destruct (Raw o) eqn:E; [done|]. cbn. done.
Qed.

Lemma Raw_oid_col v : Raw (oid_col v) = toBytes v.
Proof. unfold oid_col. by destruct (toBytes v). Qed.

Lemma toBytes_nullBytes b : toBytes (nullBytes b) = b.
Proof. by destruct b. Qed.

Lemma int_ptr_null p : int_ptr (nullInt64Interface p) = p.
Proof. by destruct p. Qed.

Lemma boolToInt_nonzero b : negb (boolToInt b =? 0) = b.
Proof. by destruct b. Qed.

Lemma is_null_nullBytes b : is_null (nullBytes b) = true ↔ b = [].
Proof. by destruct b. Qed.

#[export] Hint Rewrite @run_with_ok : git_tainted_rw.
#[export] Hint Rewrite int_ptr_null boolToInt_nonzero toBytes_nullBytes Raw_oid_col : git_tainted_rw.

Lemma remoteFromRow_row r id : rm_ID r = id → remoteFromRow (remote_row r id) = r.
Proof.
  intros <-. destruct r as [? ? ? ? ? ? del algo]. unfold remoteFromRow, remote_row. cbn.
  rewrite int_ptr_null, boolToInt_nonzero. f_equal. by destruct algo.
Qed.
