(* ===== verification/SqliteTx.v ===== *)
(** [internal/store/sqlite/tx.go]: the write transaction of the SQLite store.  Its
    state is the uncommitted database and the id of the sync row written in it;
    [WithTx] commits it, or drops it when the body fails. *)
From S2P Require Import Prelude GoStrings Model Chain Sqlc SqliteStore.
#[local] Open Scope Z_scope.

Record sqliteTx : Type := mkSqliteTx {
  q : db;
  syncID : Z;
}.

(** A statement of the transaction. *)
Definition on_q {A} (m : SE db error A) : SE sqliteTx error A := λ t,
  match m (q t) with
  | Ok (a, d) => Ok (a, mkSqliteTx d (syncID t))
  | Err e => Err e
  end.

(** The constraints SQLite checks at the commit: [observations.sync_id] is deferred. *)
Definition deferred_ok (d : db) : bool := forallb (λ o, has_sync d (or_SyncID o)) (t_observations d).

(** The result of the body and the database after it. *)
Definition WithTx {A} (fn : SE sqliteTx error A) (d : db) : res A * db :=
  match fn (mkSqliteTx d 0) with
  | Err fnErr => (Err fnErr, d)
  | Ok (a, t) => if deferred_ok (q t) then (Ok a, q t) else (Err ErrSQL, d)
  end.

Definition with_chain (o : Observation) (id seq : Z) (prevHash rowHash : bytes) : Observation :=
  mkObservation id (ob_RemoteID o) (ob_RefID o) (ob_SyncID o) seq (ob_EventType o)
    (ob_PrevOID o) (ob_NewOID o) (ob_PrevPeeledOID o) (ob_NewPeeledOID o) (ob_ObservedAtNS o)
    prevHash rowHash (ob_CanonicalMeta o).

(** The columns of an observation under the effective sync id. *)
Definition observation_row (o : Observation) (effectiveSyncID id : Z) : ObservationRow :=
  mkObservationRow id (ob_RemoteID o) (ob_RefID o) effectiveSyncID (ob_Seq o) (ob_EventType o)
    (nullBytes (Raw (ob_PrevOID o))) (nullBytes (Raw (ob_NewOID o)))
    (nullBytes (Raw (ob_PrevPeeledOID o))) (nullBytes (Raw (ob_NewPeeledOID o)))
    (ob_ObservedAtNS o) (ob_PrevHash o) (ob_RowHash o)
    (if String.eqb (ob_CanonicalMeta o) "" then INil else IString (ob_CanonicalMeta o)).

(** Returns the sequence number and the observation as the method leaves it. *)
Definition AppendObservation (o : Observation) : SE sqliteTx error (Z * Observation) :=
  t ← get_state;
  if (syncID t =? 0) && (ob_SyncID o =? 0)
  then throw (ErrOther "store: AppendObservation called without a prior WriteSync (sync_id is 0)")
  else
    let effectiveSyncID := if negb (ob_SyncID o =? 0) then ob_SyncID o else syncID t in
    headRow ← on_q (run_q (Sqlc.GetRemoteChainHead (ob_RemoteID o)));
    let prevHash := headRow.1 in
    if negb (length prevHash =? ChainHashLen)%nat
    then throw (ErrOther "chain_head malformed")
    else
      let seq := headRow.2 + 1 in
      let rowHash := RowHash prevHash (with_chain o (ob_ID o) seq prevHash (ob_RowHash o)) in
      let o := with_chain o (ob_ID o) seq prevHash rowHash in
      id ← on_q (run_q (Sqlc.InsertObservation (observation_row o effectiveSyncID)));
      let o := with_chain o id seq prevHash rowHash in
      let newLen := headRow.2 + 1 in
      rows ← on_q (run_q (Sqlc.AdvanceRemoteChainHead rowHash newLen (ob_RemoteID o) prevHash headRow.2));
      if negb (rows =? 1) then throw ErrChainCAS else mret (seq, o).

(** The columns of a tag's projection. *)
Definition ref_row (ref : Ref) (id : Z) : RefRow :=
  mkRefRow id (rf_RemoteID ref) (rf_TagName ref) (nullBytes (Raw (rf_CurrentOID ref)))
    (nullBytes (Raw (rf_CurrentPeeledOID ref))) (boolToInt (rf_IsAnnotatedTag ref))
    (nullBytes (Raw (rf_FirstOID ref))) (rf_FirstSeenNS ref) (rf_LastSeenNS ref) (rf_LastChangedNS ref)
    (boolToInt (rf_Deleted ref)) (boolToInt (rf_Tainted ref)) (nullInt64Interface (rf_TaintFirstNS ref))
    (rf_ObservationCount ref).

Definition with_ids (ref : Ref) (id remoteID : Z) : Ref :=
  mkRef id remoteID (rf_TagName ref) (rf_CurrentOID ref) (rf_CurrentPeeledOID ref) (rf_IsAnnotatedTag ref)
    (rf_FirstOID ref) (rf_FirstSeenNS ref) (rf_LastSeenNS ref) (rf_LastChangedNS ref) (rf_Deleted ref)
    (rf_Tainted ref) (rf_TaintFirstNS ref) (rf_ObservationCount ref).

(** Returns the ref with the id of its row. *)
Definition UpsertRefProjection (ref : Ref) : SE sqliteTx error Ref :=
  row ← on_q (run_q (Sqlc.UpsertRef (ref_row ref)));
  mret (with_ids ref (fr_ID row) (fr_RemoteID row)).

Definition sync_row (s : Sync) (id : Z) : SyncRow :=
  mkSyncRow id (sy_RemoteID s) (sy_Trigger s) (sy_StartedNS s) (sy_FinishedNS s) (sy_Status s)
    (sy_TagsSeen s) (sy_TagsChanged s) (sy_Error s)
    (nullBytes (sy_ChainHeadBefore s)) (nullBytes (sy_ChainHeadAfter s)).

Definition WriteSync (s : Sync) : SE sqliteTx error Z :=
  id ← on_q (run_q (Sqlc.InsertSync (sync_row s)));
  t ← get_state;
  put_state (mkSqliteTx (q t) id);;
  mret id.

Definition PruneSyncs (remoteID keep : Z) : SE sqliteTx error () :=
  on_q (run_q (Sqlc.PruneSyncs remoteID keep)).

Definition AdvanceChainHead (remoteID : Z) (newHead : bytes) (newLen : Z) : SE sqliteTx error () :=
  on_q (run_q (Sqlc.AdvanceChainHead newHead newLen remoteID)).

Definition CreateRemote (r : Remote) : SE sqliteTx error Z :=
  row ← on_q (run_with conflict (Sqlc.CreateRemote (remote_row r)));
  mret (rr_ID row).

Definition CountAllRemotes : SE sqliteTx error Z := on_q (run_q Sqlc.CountAllRemotes).

Definition AppendTaintEvent (e : TaintEvent) : SE sqliteTx error Z :=
  on_q (run_q (Sqlc.InsertTaintEvent (taint_row e))).
