(* ===== verification/SqliteSpec.v ===== *)
(** The SQLite store meets the promise of the persistence seam: the database maps to
    an abstract state, each method of [SqliteStore] and [SqliteTx] refines its
    specification in [StoreSpec], and succeeds when its arguments are in order. *)
From S2P Require Import Prelude GoStrings Sha256 Model Chain Sqlc StoreSpec SqliteStore SqliteTx.
#[local] Open Scope Z_scope.

(** * The abstraction *)

Definition ref_pk (r : RefRow) : Z * string := (fr_RemoteID r, fr_TagName r).

Definition db_abs (d : db) : Abs :=
  mkAbs (tmap rr_ID remoteFromRow (t_remotes d))
    (tmap ref_pk refFromRow (t_refs d))
    (observationFromRow <$> t_observations d)
    (taintEventFromRow <$> t_taint_events d)
    (syncFromRow <$> t_syncs d)
    (tmap lr_RemoteID (λ l, mkAbsLease (lr_Holder l) (lr_AcquiredAtNs l) (lr_ExpiresAtNs l)) (t_remote_lease d)).

(** A cell that holds an object id or NULL. *)
Definition oid_cell (v : iface) : Prop := ∃ o, storable o ∧ v = nullBytes (Raw o).

(** Primary keys and ids as the schema keeps them. *)
Record db_ok (d : db) : Prop := {
  ok_remote_ids : NoDup (rr_ID <$> t_remotes d);
  ok_remote_seq : Forall (λ r, rr_ID r ≤ seq_remotes d) (t_remotes d);
  ok_ref_keys : NoDup (ref_pk <$> t_refs d);
  ok_ref_seq : Forall (λ r, fr_ID r ≤ seq_refs d) (t_refs d);
  ok_sync_ids : StronglySorted Z.lt (sr_ID <$> t_syncs d);
  ok_sync_seq : 0 ≤ seq_syncs d ∧ Forall (λ s, sr_ID s ≤ seq_syncs d) (t_syncs d);
  ok_taint_cells : Forall (λ e, oid_cell (tr_FromOid e) ∧ oid_cell (tr_ToOid e)) (t_taint_events d);
  ok_lease_ids : NoDup (lr_RemoteID <$> t_remote_lease d);
}.

(** * Instances of the interfaces *)

#[global] Instance sqlite_tx : Tx sqliteTx := {
  tx_AppendObservation := SqliteTx.AppendObservation;
  tx_UpsertRefProjection := SqliteTx.UpsertRefProjection;
  tx_WriteSync := SqliteTx.WriteSync;
  tx_AdvanceChainHead := SqliteTx.AdvanceChainHead;
  tx_AppendTaintEvent := SqliteTx.AppendTaintEvent;
  tx_CreateRemote := SqliteTx.CreateRemote;
  tx_CountAllRemotes := SqliteTx.CountAllRemotes;
  tx_PruneSyncs := SqliteTx.PruneSyncs;
}.

#[global] Instance sqlite_store : Store db sqliteTx := {
  st_CreateRemote := SqliteStore.CreateRemote;
  st_GetRemote := SqliteStore.GetRemote;
  st_GetRemoteByURL := SqliteStore.GetRemoteByURL;
  st_ListRemotes := SqliteStore.ListRemotes;
  st_CountAllRemotes := SqliteStore.CountAllRemotes;
  st_UpdateRemote := SqliteStore.UpdateRemote;
  st_SoftDeleteRemote := SqliteStore.SoftDeleteRemote;
  st_SelectDueRemotes := SqliteStore.SelectDueRemotes;
  st_SetRemoteHealth := SqliteStore.SetRemoteHealth;
  st_GetRef := SqliteStore.GetRef;
  st_ListTags := SqliteStore.ListTags;
  st_SetRefTaint := SqliteStore.SetRefTaint;
  st_GetChainHead := SqliteStore.GetChainHead;
  st_ReplayObservations := SqliteStore.ReplayObservations;
  st_LatestObservationForRef := SqliteStore.LatestObservationForRef;
  st_AppendTaintEvent := SqliteStore.AppendTaintEvent;
  st_ListTaintEvents := SqliteStore.ListTaintEvents;
  st_AckTaintEvent := SqliteStore.AckTaintEvent;
  st_ListSyncs := SqliteStore.ListSyncs;
  st_TryAcquireLease := SqliteStore.TryAcquireLease;
  st_ReleaseLeaseCAS := SqliteStore.ReleaseLeaseCAS;
  st_WithTx := @SqliteTx.WithTx;
}.

(** * Lemmas *)

Lemma on_q_ok {A} (m : SE db error A) t a t' :
  on_q m t = Ok (a, t') ↔ ∃ d, m (q t) = Ok (a, d) ∧ t' = mkSqliteTx d (syncID t).
Proof. unfold on_q. destruct (m (q t)) as [[a' d]|]; naive_solver. Qed.

(** Take a successful method apart, statement by statement. *)
Ltac step_ok H :=
  repeat first
    [ apply SE_bind_ok in H as (? & ? & ? & H)
    | apply on_q_ok in H as (? & H & ?)
    | apply run_with_ok in H
    | apply require_ok in H as [? H] ];
  unfold mret, SE_ret, get_state, put_state, gets, throw in *; simplify_eq/=.

Lemma selects_remote id : selects rr_ID (λ r, rr_ID r =? id) id.
Proof. intros r. by rewrite Z.eqb_eq. Qed.

Lemma selects_ref rid name : selects ref_pk (ref_key rid name) (rid, name).
Proof.
  intros r. unfold ref_key, ref_pk. rewrite andb_true_iff, Z.eqb_eq, String.eqb_eq.
  split; [by intros [-> ->]|by intros [= -> ->]].
Qed.

Lemma selects_lease id : selects lr_RemoteID (λ l, lr_RemoteID l =? id) id.
Proof. intros r. by rewrite Z.eqb_eq. Qed.

Lemma db_remote_lookup d id :
  a_remotes (db_abs d) !! id = remoteFromRow <$> List.find (λ r, rr_ID r =? id) (t_remotes d).
Proof. apply tmap_lookup, selects_remote. Qed.

Lemma db_ref_lookup d rid name :
  a_refs (db_abs d) !! (rid, name) = refFromRow <$> List.find (ref_key rid name) (t_refs d).
Proof. apply tmap_lookup, selects_ref. Qed.

Lemma has_remote_abs d id : has_remote d id = true ↔ is_Some (a_remotes (db_abs d) !! id).
Proof.
  rewrite db_remote_lookup, fmap_is_Some. unfold has_remote.
  destruct (List.find _ (t_remotes d)) as [r|] eqn:E.
  - split; [eauto|]. intros _. apply find_row in E. by apply existsb_elem; eauto.
  - rewrite find_none in E. rewrite <- existsb_none in E. rewrite E. split; [done|by intros [? ?]].
Qed.

Lemma has_ref_abs d id : NoDup (ref_pk <$> t_refs d) → has_ref d id = true ↔ has_ref_id (db_abs d) id.
Proof.
  intros Hnd. unfold has_ref, has_ref_id. rewrite existsb_elem. setoid_rewrite Z.eqb_eq. split.
  - intros (r & Hr & <-). exists (ref_pk r), (refFromRow r). split; [|done]. by apply tmap_elem.
  - intros (k & r & Hk & <-). apply tmap_inv in Hk as (row & Hin & _ & <-). eauto.
Qed.

Lemma GetRemoteChainHead_ok id d r :
  Sqlc.GetRemoteChainHead id d = Ok r ↔
  ∃ row, List.find (λ r, rr_ID r =? id) (t_remotes d) = Some row ∧ r = ((rr_ChainHeadHash row, rr_ChainLen row), d).
Proof.
  unfold Sqlc.GetRemoteChainHead, Sqlc.GetRemote, mbind, SE_bind, one, mret, SE_ret.
  destruct (List.find _ _); naive_solver.
Qed.

Lemma in_list_event e :
  in_list e ["tag_created"; "tag_oid_changed"; "tag_deleted"; "tag_recreated"] = EventType_Valid e.
Proof. unfold in_list, EventType_Valid. cbn. by rewrite orb_false_r, !orb_assoc. Qed.

Lemma InsertObservation_ok arg d id d' :
  Sqlc.InsertObservation arg d = Ok (id, d') ↔
  id = seq_observations d + 1 ∧ EventType_Valid (or_EventType (arg id)) = true ∧
  existsb (λ o, (or_RemoteID o =? or_RemoteID (arg id)) && (or_Seq o =? or_Seq (arg id))) (t_observations d) = false ∧
  has_remote d (or_RemoteID (arg id)) = true ∧ has_ref d (or_RefID (arg id)) = true ∧
  d' = with_observations d (t_observations d ++ [arg id]) id.
Proof.
  unfold Sqlc.InsertObservation, mbind, SE_bind, get_state, put_state, require, mret, SE_ret.
  rewrite in_list_event. cbn -[Z.add].
  destruct (EventType_Valid _) eqn:E1; cbn -[Z.add]; [|split; [done|intros (-> & ? & _); congruence]].
  destruct (existsb _ _) eqn:E2; cbn -[Z.add]; [split; [done|intros (-> & _ & ? & _); congruence]|].
  destruct (_ && _) eqn:E3; cbn -[Z.add].
  - apply andb_true_iff in E3 as [E3 E4]. split; [by intros [= <- <-]|]. by intros (-> & _ & _ & _ & _ & ->).
  - split; [done|]. intros (-> & _ & _ & H1 & H2 & _). by rewrite H1, H2 in E3.
Qed.

Lemma alter_as_insert `{Countable K} {V} (m : gmap K V) k v f :
  m !! k = Some v → alter f k m = <[k := f v]> m.
Proof.
  intros Hk. apply map_eq. intros i. destruct (decide (i = k)) as [->|].
  - by rewrite lookup_alter_eq, lookup_insert_eq, Hk.
  - by rewrite lookup_alter_ne, lookup_insert_ne.
Qed.

(** Replacing rows of [remotes] that keep their ids keeps the rest of the invariant. *)
Lemma with_remotes_ok d l :
  db_ok d → rr_ID <$> l = rr_ID <$> t_remotes d → db_ok (with_remotes d l).
Proof.
  intros [] Hids. split; cbn; try done.
  - by rewrite Hids.
  - rewrite <- (Forall_fmap rr_ID (λ i, i ≤ seq_remotes d)), Hids, Forall_fmap. done.
Qed.

(** The compare-and-swap of the chain head, on the row just read, moves it. *)
Lemma AdvanceRemoteChainHead_same d id row head len :
  db_ok d → List.find (λ r, rr_ID r =? id) (t_remotes d) = Some row →
  ∃ d', Sqlc.AdvanceRemoteChainHead head len id (rr_ChainHeadHash row) (rr_ChainLen row) d = Ok (1, d') ∧
    db_ok d' ∧
    db_abs d' = with_a_remotes (db_abs d) (<[id := set_chain (remoteFromRow row) head len]> (a_remotes (db_abs d))).
Proof.
  intros Hok Hrow. destruct (find_row _ _ _ Hrow) as [Hin Hid]. apply Z.eqb_eq in Hid as Hid'.
  unfold Sqlc.AdvanceRemoteChainHead. eexists. split; [|split].
  - do 2 f_equal. eapply (matched_one rr_ID); [apply Hok| |exact Hin|].
    + intros r. rewrite !andb_true_iff, Z.eqb_eq. by intros [[? _] _].
    + by rewrite Hid, bool_decide_eq_true_2, Z.eqb_refl.
  - apply with_remotes_ok; [done|]. by apply UPDATE_keys.
  - unfold db_abs, with_a_remotes. cbn. f_equal.
    rewrite (UPDATE_ext _ (λ r, rr_ID r =? id)).
    + erewrite (tmap_UPDATE _ _ _ id) with (f := λ r, set_chain r head len); [|apply selects_remote|done].
      apply (alter_as_insert _ _ _ (λ r, set_chain r head len)).
      rewrite (tmap_lookup _ _ (λ r, rr_ID r =? id)) by apply selects_remote. by rewrite Hrow.
    + intros r Hr. destruct (rr_ID r =? id) eqn:E; [|done]. apply Z.eqb_eq in E.
      assert (r = row) as ->; [|by rewrite bool_decide_eq_true_2, Z.eqb_refl].
      pose proof (ok_remote_ids d Hok) as Hnd. subst id.
      clear -Hr Hin E Hnd. induction (t_remotes d) as [|x l IH]; [by apply elem_of_nil in Hr|].
      cbn in Hnd. apply NoDup_cons in Hnd as [Hx Hnd].
      apply elem_of_cons in Hr as [->|Hr], Hin as [->|Hin]; [done| | |by apply IH].
      * exfalso. apply Hx. rewrite E. by apply list_elem_of_fmap_2.
      * exfalso. apply Hx. rewrite <- E. by apply list_elem_of_fmap_2.
Qed.

(** An observation read back is the observation written. *)
Lemma observationFromRow_row o sync id :
  obs_storable o →
  observationFromRow (observation_row o sync id) = chained_obs o id sync (ob_Seq o) (ob_PrevHash o) (ob_RowHash o).
Proof.
  intros (H1 & H2 & H3 & H4). unfold observationFromRow, observation_row. cbn.
  rewrite !oid_col_nullBytes by done. unfold chained_obs. f_equal.
  destruct (String.eqb_spec (ob_CanonicalMeta o) "") as [->|]; done.
Qed.

Lemma with_observations_ok d l n : db_ok d → db_ok (with_observations d l n).
Proof. by intros []. Qed.

(** The append on the tables: the row under any id, then the compare-and-swap of the
    head it was chained to. *)
Lemma append_db d txSync o row id :
  db_ok d → obs_storable o → List.find (λ r, rr_ID r =? ob_RemoteID o) (t_remotes d) = Some row →
  length (rr_ChainHeadHash row) = 32%nat → ¬ (txSync = 0 ∧ ob_SyncID o = 0) →
  let seq := rr_ChainLen row + 1 in
  let prev := rr_ChainHeadHash row in
  let hash := RowHash prev (with_chain o (ob_ID o) seq prev (ob_RowHash o)) in
  let sync := if ob_SyncID o =? 0 then txSync else ob_SyncID o in
  let d1 := with_observations d (t_observations d ++ [observation_row (with_chain o (ob_ID o) seq prev hash) sync id]) id in
  ∃ d', Sqlc.AdvanceRemoteChainHead hash seq (ob_RemoteID o) prev (rr_ChainLen row) d1 = Ok (1, d') ∧
    db_ok d' ∧ append_spec (db_abs d) txSync o (seq, with_chain o id seq prev hash) (db_abs d').
Proof.
  intros Hok Hst Hrow Hlen Hz seq prev hash sync d1.
  assert (db_ok d1) as Hok1 by (by apply with_observations_ok).
  destruct (AdvanceRemoteChainHead_same d1 (ob_RemoteID o) row hash seq Hok1 Hrow) as (d' & Hadv & Hok' & Habs).
  exists d'. split; [done|]. split; [done|]. exists (remoteFromRow row), id.
  rewrite db_remote_lookup, Hrow. split; [done|]. split; [done|]. cbn zeta. split_and!; [|done|].
  - destruct (Z.eqb_spec (ob_SyncID o) 0); [|done]. naive_solver.
  - rewrite Habs. unfold d1, db_abs, with_a_remotes. cbn. f_equal.
    rewrite fmap_app. cbn. rewrite observationFromRow_row by done. done.
Qed.

Lemma sqlite_append_refines t o r t' :
  db_ok (q t) → obs_storable o → SqliteTx.AppendObservation o t = Ok (r, t') →
  db_ok (q t') ∧ syncID t' = syncID t ∧ append_spec (db_abs (q t)) (syncID t) o r (db_abs (q t')).
Proof.
  intros Hok Hst H. unfold SqliteTx.AppendObservation in H.
  apply SE_bind_ok in H as (t0 & t1 & [= <- <-] & H).
  destruct (_ && _) eqn:Hz; [done|].
  apply SE_bind_ok in H as ([head n] & t2 & (d2 & Hh & ->)%on_q_ok & H).
  apply run_with_ok, GetRemoteChainHead_ok in Hh as (row & Hrow & [= -> -> ->]). cbn [fst snd] in H.
  destruct (negb _) eqn:Hlen in H; [done|]. apply negb_false_iff, Nat.eqb_eq in Hlen.
  apply SE_bind_ok in H as (id & t3 & (d3 & Hins & ->)%on_q_ok & H).
  apply run_with_ok, InsertObservation_ok in Hins as (-> & _ & _ & _ & _ & ->). cbn [q syncID] in *.
  apply SE_bind_ok in H as (rows & t4 & (d4 & Hadv & ->)%on_q_ok & H). apply run_with_ok in Hadv. cbn [q syncID] in *.
  destruct (append_db (q t) (syncID t) o row (seq_observations (q t) + 1) Hok Hst Hrow Hlen) as (d' & Hadv' & Hok' & Hspec).
  { rewrite andb_false_iff, !Z.eqb_neq in Hz. naive_solver. }
  cbn [ob_RemoteID with_chain] in Hadv. rewrite if_negb in Hadv. rewrite Hadv' in Hadv. injection Hadv as <- <-.
  cbn [Z.eqb Pos.eqb negb] in H. injection H as <- <-. done.
Qed.

(** No row of a replayed ledger carries the next sequence number. *)
Lemma ledger_seq_fresh d rid n :
  replay genesis_head 0 (ledger (db_abs d) rid) = true → n = Z.of_nat (length (ledger (db_abs d) rid)) →
  existsb (λ o, (or_RemoteID o =? rid) && (or_Seq o =? n + 1)) (t_observations d) = false.
Proof.
  intros Hr Hn. apply existsb_none. intros o Ho. apply not_true_iff_false.
  rewrite andb_true_iff, !Z.eqb_eq. intros [Hrid Hseq].
  assert (observationFromRow o ∈ ledger (db_abs d) rid) as Hin.
  { apply list_elem_of_filter. split; [done|]. by apply list_elem_of_fmap_2. }
  apply list_elem_of_lookup in Hin as [i Hi].
  pose proof (replay_seq _ _ _ _ _ Hr Hi) as Hs. apply lookup_lt_Some in Hi. cbn in Hs. lia.
Qed.

Lemma sqlite_append_total t o :
  db_ok (q t) → abs_ok (db_abs (q t)) → obs_storable o →
  is_Some (a_remotes (db_abs (q t)) !! ob_RemoteID o) →
  has_ref_id (db_abs (q t)) (ob_RefID o) → EventType_Valid (ob_EventType o) = true → ob_SyncID o ≠ 0 →
  ∃ r, SqliteTx.AppendObservation o t = Ok r.
Proof.
  intros Hok Habs Hst Hrem Href Hev Hsync.
  pose proof Hrem as Hrem'. destruct Hrem' as [rem Hl]. pose proof Hl as Hl'.
  rewrite db_remote_lookup in Hl'. destruct (List.find _ _) as [row|] eqn:Hrow; [|done]. cbn in Hl'.
  destruct (ok_chain _ Habs _ _ Hl) as (Hr & Hh & Hn).
  assert (length (rr_ChainHeadHash row) = 32%nat) as Hlen.
  { injection Hl' as <-. cbn in Hh. rewrite Hh. by eapply length_ledger_head. }
  assert (rr_ChainLen row = Z.of_nat (length (ledger (db_abs (q t)) (ob_RemoteID o)))) as Hn'
    by (injection Hl' as <-; done).
  unfold SqliteTx.AppendObservation.
  set (hash := RowHash (rr_ChainHeadHash row)
    (with_chain o (ob_ID o) (rr_ChainLen row + 1) (rr_ChainHeadHash row) (ob_RowHash o))).
  set (o' := with_chain o (ob_ID o) (rr_ChainLen row + 1) (rr_ChainHeadHash row) hash).
  set (id := seq_observations (q t) + 1).
  set (d3 := with_observations (q t) (t_observations (q t) ++ [observation_row o' (ob_SyncID o) id]) id).
  assert (Sqlc.InsertObservation (observation_row o' (ob_SyncID o)) (q t) = Ok (id, d3)) as Hins.
  { apply InsertObservation_ok. cbn. split_and!; try done.
    - by apply ledger_seq_fresh.
    - by apply has_remote_abs.
    - apply has_ref_abs; [apply Hok|done]. }
  destruct (AdvanceRemoteChainHead_same d3 (ob_RemoteID o) row hash (rr_ChainLen row + 1)) as (d4 & Hadv & _).
  { by apply with_observations_ok. } { done. }
  exists ((rr_ChainLen row + 1, with_chain o' id (rr_ChainLen row + 1) (rr_ChainHeadHash row) hash), mkSqliteTx d4 (syncID t)).
  apply Z.eqb_neq in Hsync.
  apply SE_bind_ok. exists t, t. split; [done|]. rewrite Hsync, andb_false_r. cbn [negb].
  apply SE_bind_ok. exists (rr_ChainHeadHash row, rr_ChainLen row), t. split.
  { apply on_q_ok. exists (q t). split; [|by destruct t]. apply run_with_ok, GetRemoteChainHead_ok. eauto. }
  cbn [fst snd]. rewrite Hlen. cbn [Nat.eqb negb ChainHashLen].
  apply SE_bind_ok. exists id, (mkSqliteTx d3 (syncID t)). split.
  { apply on_q_ok. exists d3. split; [|done]. apply run_with_ok. exact Hins. }
  apply SE_bind_ok. exists 1, (mkSqliteTx d4 (syncID t)). split; [|done].
  apply on_q_ok. exists d4. split; [|done]. apply run_with_ok. exact Hadv.
Qed.

Lemma with_refs_abs d l n :
  db_abs (with_refs d l n) = with_a_refs (db_abs d) (tmap ref_pk refFromRow l).
Proof. reflexivity. Qed.

Lemma refFromRow_insert ref id : ref_storable ref → refFromRow (ref_row ref id) = upserted None ref id.
Proof.
  intros (H1 & H2 & H3). unfold refFromRow, ref_row, upserted. cbn.
  by rewrite !oid_col_nullBytes, !boolToInt_nonzero, int_ptr_null.
Qed.

Lemma refFromRow_update ref id r :
  ref_storable ref → ref_pk r = (rf_RemoteID ref, rf_TagName ref) →
  refFromRow (ref_excluded (ref_row ref id) r) = upserted (Some (refFromRow r)) ref (fr_ID r).
Proof.
  intros (H1 & H2 & H3) [= Hr Ht]. unfold refFromRow, ref_excluded, ref_row, upserted. cbn.
  by rewrite !oid_col_nullBytes, !boolToInt_nonzero, int_ptr_null, Hr, Ht.
Qed.

(** The upsert on the tables, under any id past the counter. *)
Lemma upsert_found d ref id old :
  db_ok d → ref_storable ref → seq_refs d ≤ id →
  List.find (ref_key (rf_RemoteID ref) (rf_TagName ref)) (t_refs d) = Some old →
  let d' := with_refs d (UPDATE (ref_key (rf_RemoteID ref) (rf_TagName ref)) (ref_excluded (ref_row ref id)) (t_refs d)) id in
  db_ok d' ∧ upsert_spec (db_abs d) ref (ref_with_id ref (fr_ID old)) (db_abs d').
Proof.
  intros Hok Hst Hid Hf d'. destruct (find_row _ _ _ Hf) as [Hin Hk]. apply selects_ref in Hk. split.
  { destruct Hok. split; cbn; try done.
    - rewrite UPDATE_keys; done.
    - apply Forall_forall. intros x Hx. rewrite Forall_forall in ok_ref_seq0.
      apply list_elem_of_In, in_map_iff in Hx as (y & <- & Hy%list_elem_of_In).
      specialize (ok_ref_seq0 y Hy). destruct (ref_key _ _ y); cbn; lia. }
  unfold upsert_spec. rewrite db_ref_lookup, Hf. exists (fr_ID old). split; [done|]. split; [done|].
  unfold d'. rewrite with_refs_abs. f_equal. cbn [fmap option_fmap option_map].
  rewrite (tmap_UPDATE _ _ _ (rf_RemoteID ref, rf_TagName ref) _
    (λ r, upserted (Some r) ref (rf_ID r))); [|apply selects_ref|].
  - rewrite (alter_as_insert _ _ (refFromRow old)); [done|].
    rewrite (tmap_lookup _ _ (ref_key (rf_RemoteID ref) (rf_TagName ref))) by apply selects_ref. by rewrite Hf.
  - intros x Hx. split; [done|]. by apply refFromRow_update.
Qed.

Lemma upsert_fresh d ref id :
  db_ok d → ref_storable ref → seq_refs d < id →
  List.find (ref_key (rf_RemoteID ref) (rf_TagName ref)) (t_refs d) = None →
  let d' := with_refs d (t_refs d ++ [ref_row ref id]) id in
  db_ok d' ∧ upsert_spec (db_abs d) ref (ref_with_id ref id) (db_abs d').
Proof.
  intros Hok Hst Hid Hf d'. pose proof Hf as Hnone. rewrite find_none in Hf.
  assert (∀ r', r' ∈ t_refs d → ref_pk r' ≠ (rf_RemoteID ref, rf_TagName ref)) as Hfresh.
  { intros r' Hr' Hk%selects_ref. rewrite Hf in Hk; done. }
  split.
  { destruct Hok. split; cbn; try done.
    - rewrite fmap_app. apply NoDup_app. split; [done|]. split; [|apply NoDup_singleton].
      intros k (r' & -> & Hr')%list_elem_of_fmap Heq%list_elem_of_singleton. by apply (Hfresh r').
    - apply Forall_app. split; [|repeat constructor; cbn; lia].
      eapply Forall_impl; [done|]. cbn. lia. }
  unfold upsert_spec. rewrite db_ref_lookup, Hnone. exists id. split_and!; [|done|].
  - intros k r' Hr'. apply tmap_inv in Hr' as (row & Hin & _ & <-).
    pose proof (ok_ref_seq _ Hok) as Hs. rewrite Forall_forall in Hs. specialize (Hs _ Hin). cbn. lia.
  - unfold d'. rewrite with_refs_abs. f_equal. rewrite tmap_snoc by done. by rewrite refFromRow_insert.
Qed.

Lemma sqlite_upsert_refines t ref r t' :
  db_ok (q t) → ref_storable ref → SqliteTx.UpsertRefProjection ref t = Ok (r, t') →
  db_ok (q t') ∧ syncID t' = syncID t ∧ upsert_spec (db_abs (q t)) ref r (db_abs (q t')).
Proof.
  intros Hok Hst H. unfold SqliteTx.UpsertRefProjection in H.
  apply SE_bind_ok in H as (row & t1 & (d1 & H1 & ->)%on_q_ok & [= <- <-]).
  apply run_with_ok in H1. cbn [q syncID]. set (d := q t) in *. clearbody d.
  unfold Sqlc.UpsertRef in H1. apply SE_bind_ok in H1 as (? & ? & [= <- <-] & H1). cbn [fr_RemoteID fr_TagName ref_row] in H1.
  destruct (List.find _ (t_refs d)) as [old|] eqn:Hf.
  - destruct (find_row _ _ _ Hf) as [_ Hk]. apply selects_ref in Hk. injection Hk as Hr _.
    apply SE_bind_ok in H1 as (? & ? & [= <- <-] & [= <- <-]).
    destruct (upsert_found d ref (seq_refs d + 1) old Hok Hst ltac:(lia) Hf) as [Hok' Hspec].
    split; [done|]. split; [done|]. unfold with_ids. cbn. by rewrite Hr.
  - apply SE_bind_ok in H1 as (? & ? & [Hrem [= -> ->]]%require_ok & H1).
    apply SE_bind_ok in H1 as (? & ? & [= <- <-] & [= <- <-]).
    by destruct (upsert_fresh d ref (seq_refs d + 1) Hok Hst ltac:(lia) Hf) as [Hok' Hspec].
Qed.

Lemma sqlite_upsert_total t ref :
  is_Some (a_remotes (db_abs (q t)) !! rf_RemoteID ref) →
  ∃ r, SqliteTx.UpsertRefProjection ref t = Ok r.
Proof.
  intros Hrem%has_remote_abs. unfold SqliteTx.UpsertRefProjection, Sqlc.UpsertRef, on_q, run_with.
  unfold mbind, SE_bind, get_state, put_state, require. cbn. destruct (List.find _ _); [by eauto|].
  rewrite Hrem. eauto.
Qed.

Lemma taint_cell_oid o :
  storable o → (if is_null (nullBytes (Raw o)) then zeroOID else OIDFromRaw (toBytes (nullBytes (Raw o)))) = o.
Proof.
  intros Hst. rewrite toBytes_nullBytes. destruct (is_null _) eqn:E.
  - apply is_null_nullBytes in E. destruct Hst as [->|Hwf]; [done|].
    apply oid_wf_not_zero in Hwf. unfold IsZero in Hwf. by rewrite E in Hwf.
  - destruct Hst as [->|Hwf]; [done|by apply OIDFromRaw_Raw].
Qed.

Lemma zero_cell o : storable o → is_null (nullBytes (Raw o)) = false ↔ o ≠ zeroOID.
Proof.
  intros Hst. rewrite <- not_true_iff_false, is_null_nullBytes. destruct Hst as [->|Hwf]; [naive_solver|].
  split; [by intros Hn ->|]. intros _ E. apply oid_wf_not_zero in Hwf. unfold IsZero in Hwf. by rewrite E in Hwf.
Qed.

Lemma taintEventFromRow_row e id :
  storable (te_FromOID e) → storable (te_ToOID e) → taintEventFromRow (taint_row e id) = recorded e id.
Proof.
  intros Hf Ht. unfold taintEventFromRow, taint_row, recorded. cbn.
  by rewrite !taint_cell_oid, int_ptr_null.
Qed.

(** The unique index on cells is equality of the abstract keys. *)
Lemma taint_key_spec e id r :
  storable (te_FromOID e) → storable (te_ToOID e) → oid_cell (tr_FromOid r) → oid_cell (tr_ToOid r) →
  taint_key (taint_row e id) r = true ↔ same_taint e (taintEventFromRow r).
Proof.
  intros Hf Ht (f & Hsf & Ef) (t & Hst & Et). unfold taint_key, same_taint, taintEventFromRow, taint_row. cbn.
  rewrite Ef, Et, !taint_cell_oid by done.
  rewrite !andb_true_iff, !Z.eqb_eq, String.eqb_eq, !bool_decide_eq_true, !negb_true_iff, !zero_cell by done.
  assert (∀ a b, storable a → storable b → nullBytes (Raw a) = nullBytes (Raw b) ↔ a = b) as Hinj.
  { intros a b Ha Hb. split; [|by intros ->]. intros E.
    rewrite <- (taint_cell_oid a), <- (taint_cell_oid b) by done. by rewrite E. }
  rewrite !Hinj by done. naive_solver.
Qed.

(** The taint insert on the tables. *)
Lemma taint_found d e id r :
  db_ok d → storable (te_FromOID e) → storable (te_ToOID e) →
  List.find (taint_key (taint_row e id)) (t_taint_events d) = Some r →
  let d' := with_taint_events d (t_taint_events d) id in
  db_ok d' ∧ taint_spec (db_abs d) e (tr_ID r) (db_abs d').
Proof.
  intros Hok Hf Ht Hfind d'. pose proof (ok_taint_cells _ Hok) as Hcells. rewrite Forall_forall in Hcells.
  apply find_row in Hfind as [Hin Hk]. destruct (Hcells r Hin) as [Hc1 Hc2]. apply taint_key_spec in Hk; [|done..].
  split; [by destruct Hok|]. left. exists (taintEventFromRow r).
  split; [by apply list_elem_of_fmap_2|]. by split_and!.
Qed.

Lemma taint_fresh d e id :
  db_ok d → storable (te_FromOID e) → storable (te_ToOID e) →
  List.find (taint_key (taint_row e id)) (t_taint_events d) = None →
  let d' := with_taint_events d (t_taint_events d ++ [taint_row e id]) id in
  db_ok d' ∧ taint_spec (db_abs d) e id (db_abs d').
Proof.
  intros Hok Hf Ht Hfind d'. pose proof (ok_taint_cells _ Hok) as Hcells. rewrite Forall_forall in Hcells.
  split; [|right; split].
  - destruct Hok. split; cbn; try done. apply Forall_app. split; [done|]. constructor; [|done]. split; [by exists (te_FromOID e)|by exists (te_ToOID e)].
  - intros f (r & -> & Hr)%list_elem_of_fmap Hs. destruct (Hcells r Hr) as [Hc1 Hc2].
    rewrite find_none in Hfind. specialize (Hfind r Hr).
    apply taint_key_spec with (id := id) in Hs; [|done..]. congruence.
  - unfold db_abs, with_a_events. cbn. f_equal. rewrite fmap_app. cbn.
    by rewrite taintEventFromRow_row.
Qed.

Lemma sqlite_taint_refines t e id t' :
  db_ok (q t) → storable (te_FromOID e) → storable (te_ToOID e) → SqliteTx.AppendTaintEvent e t = Ok (id, t') →
  db_ok (q t') ∧ syncID t' = syncID t ∧ taint_spec (db_abs (q t)) e id (db_abs (q t')).
Proof.
  intros Hok Hf Ht H. apply on_q_ok in H as (d1 & H & ->). apply run_with_ok in H. cbn [q syncID].
  set (d := q t) in *. clearbody d. unfold Sqlc.InsertTaintEvent in H.
  apply SE_bind_ok in H as (? & ? & [= <- <-] & H).
  apply SE_bind_ok in H as (? & ? & [_ [= -> ->]]%require_ok & H).
  destruct (List.find _ (t_taint_events d)) as [r|] eqn:Hfind.
  - apply SE_bind_ok in H as (? & ? & [= <- <-] & [= <- <-]).
    by destruct (taint_found d e _ r Hok Hf Ht Hfind).
  - apply SE_bind_ok in H as (? & ? & [_ [= -> ->]]%require_ok & H).
    apply SE_bind_ok in H as (? & ? & [= <- <-] & [= <- <-]).
    by destruct (taint_fresh d e _ Hok Hf Ht Hfind).
Qed.

Lemma sqlite_taint_total t e :
  db_ok (q t) → is_Some (a_remotes (db_abs (q t)) !! te_RemoteID e) → has_ref_id (db_abs (q t)) (te_RefID e) →
  (∀ id, te_ObservationID e = Some id → has_obs_id (db_abs (q t)) id) → TaintReason_Valid (te_Reason e) = true →
  ∃ r, SqliteTx.AppendTaintEvent e t = Ok r.
Proof.
  intros Hok Hrem%has_remote_abs Href%has_ref_abs Hobs Hreason; [|apply Hok].
  assert (has_observation (q t) (nullInt64Interface (te_ObservationID e)) = true) as Ho.
  { destruct (te_ObservationID e) as [id|]; [|done]. cbn. destruct (Hobs id eq_refl) as (o & Hin & <-).
    apply list_elem_of_fmap in Hin as (row & -> & Hin). apply existsb_elem. exists row. by rewrite Z.eqb_refl. }
  assert (in_list (te_Reason e) ["tag_oid_changed"; "tag_deleted_recreated"] = true) as Hr.
  { unfold in_list. cbn. by rewrite orb_false_r. }
  unfold SqliteTx.AppendTaintEvent, Sqlc.InsertTaintEvent, on_q, run_with, mbind, SE_bind, get_state, put_state, require.
  cbn [tr_Reason taint_row]. rewrite Hr. cbn [negb]. destruct (List.find _ _); [by eauto|].
  cbn [tr_RemoteID tr_RefID tr_ObservationID taint_row]. rewrite Hrem, Href, Ho. eauto.
Qed.

Lemma syncFromRow_row s id : syncFromRow (sync_row s id) = sync_with_id s id.
Proof. unfold syncFromRow, sync_row, sync_with_id. cbn. by rewrite !toBytes_nullBytes. Qed.

Lemma StronglySorted_snoc l x : StronglySorted Z.lt l → (∀ y, y ∈ l → y < x) → StronglySorted Z.lt (l ++ [x]).
Proof.
  induction 1 as [|y l Hs IH Hy]; intros Hlt; cbn; [repeat constructor|]. constructor.
  - apply IH. intros z Hz. apply Hlt. by right.
  - apply Forall_app. split; [done|]. repeat constructor. apply Hlt. left.
Qed.

(** A new sync row on the tables. *)
Lemma sync_fresh d s id :
  db_ok d → seq_syncs d < id →
  let d' := with_syncs d (t_syncs d ++ [sync_row s id]) id in
  db_ok d' ∧ write_sync_spec (db_abs d) s id (db_abs d').
Proof.
  intros Hok Hid d'. destruct (ok_sync_seq _ Hok) as [Hpos Hall]. rewrite Forall_forall in Hall.
  split; [|split; [lia|split]].
  - destruct Hok. split; cbn; try done.
    + rewrite fmap_app. apply StronglySorted_snoc; [done|]. intros y (s' & -> & Hs')%list_elem_of_fmap.
      specialize (Hall s' Hs'). cbn. lia.
    + split; [lia|]. apply Forall_app. split; [|repeat constructor; cbn; lia].
      apply Forall_forall. intros s' Hs'. specialize (Hall s' Hs'). lia.
  - intros s' (row & -> & Hin)%list_elem_of_fmap. specialize (Hall row Hin). cbn. lia.
  - unfold db_abs, with_a_syncs. cbn. f_equal. rewrite fmap_app. cbn. by rewrite syncFromRow_row.
Qed.

Lemma sqlite_sync_refines t s id t' :
  db_ok (q t) → SqliteTx.WriteSync s t = Ok (id, t') →
  db_ok (q t') ∧ syncID t' = id ∧ write_sync_spec (db_abs (q t)) s id (db_abs (q t')).
Proof.
  intros Hok H. unfold SqliteTx.WriteSync in H.
  apply SE_bind_ok in H as (id' & t1 & (d1 & H1 & ->)%on_q_ok & H). apply run_with_ok in H1.
  apply SE_bind_ok in H as (? & ? & [= <- <-] & H). apply SE_bind_ok in H as (? & ? & [= <- <-] & [= <- <-]).
  cbn [q syncID]. set (d := q t) in *. clearbody d. unfold Sqlc.InsertSync in H1.
  apply SE_bind_ok in H1 as (? & ? & [= <- <-] & H1).
  apply SE_bind_ok in H1 as (? & ? & [_ [= -> ->]]%require_ok & H1).
  apply SE_bind_ok in H1 as (? & ? & [_ [= -> ->]]%require_ok & H1).
  apply SE_bind_ok in H1 as (? & ? & [= <- <-] & [= <- <-]).
  by destruct (sync_fresh d s (seq_syncs d + 1) Hok ltac:(lia)).
Qed.

Lemma sqlite_sync_total t s :
  is_Some (a_remotes (db_abs (q t)) !! sy_RemoteID s) →
  sy_Trigger s ∈ [TriggerRegister; TriggerScheduled; TriggerManual] →
  sy_Status s ∈ [SyncOk; SyncPartial; SyncFailed] →
  ∃ r, SqliteTx.WriteSync s t = Ok r.
Proof.
  intros Hrem%has_remote_abs Ht%in_list_elem Hs%in_list_elem.
  unfold SqliteTx.WriteSync, Sqlc.InsertSync, on_q, run_with, mbind, SE_bind, get_state, put_state, require.
  cbn [sr_Trigger sr_Status sr_RemoteID sync_row].
  change ["register"; "scheduled"; "manual"] with [TriggerRegister; TriggerScheduled; TriggerManual].
  change ["ok"; "partial"; "failed"] with [SyncOk; SyncPartial; SyncFailed].
  rewrite Ht, Hs, Hrem. cbn. eauto.
Qed.

(** In a strictly increasing list, the last [n] are those with fewer than [n] above. *)
Lemma take_reverse_newest {A} (key : A → Z) (l : list A) x n :
  StronglySorted Z.lt (key <$> l) → x ∈ l →
  x ∈ take n (reverse l) ↔ (length (filter (λ y, (key x < key y)%Z) l) < n)%nat.
Proof.
  intros Hs Hx. apply list_elem_of_split in Hx as (l1 & l2 & ->).
  assert (Forall (λ y, key y < key x) l1 ∧ Forall (λ y, key x < key y) l2) as [H1 H2].
  { clear n. induction l1 as [|y l1 IH]; cbn in Hs; apply StronglySorted_inv in Hs as [Hs Hy].
    - by rewrite Forall_fmap in Hy.
    - destruct (IH Hs) as [? ?]. split; [|done]. constructor; [|done].
      rewrite fmap_app, Forall_app in Hy. destruct Hy as [_ Hy]. cbn in Hy. by apply Forall_cons in Hy as [? _]. }
  assert (filter (λ y, key x < key y) (l1 ++ x :: l2) = l2) as ->.
  { rewrite filter_app, filter_cons, decide_False by lia.
    assert (filter (λ y, key x < key y) l1 = []) as ->.
    { clear -H1. induction H1; [done|]. rewrite filter_cons, decide_False by lia. done. }
    clear -H2. induction H2; [done|]. rewrite filter_cons, decide_True by lia. cbn. by f_equal. }
  rewrite reverse_app, reverse_cons, <- (assoc_L (++)), take_app, length_reverse. cbn.
  rewrite elem_of_app. split.
  - intros [Hin|Hin].
    + apply elem_of_take in Hin as (i & Hi & _). apply list_elem_of_lookup_2 in Hi.
      rewrite elem_of_reverse in Hi. rewrite Forall_forall in H2. specialize (H2 _ Hi). lia.
    + destruct (n - length l2)%nat eqn:E; [by apply elem_of_nil in Hin|]. lia.
  - intros Hlt. right. destruct (n - length l2)%nat eqn:E; [lia|]. left.
Qed.

Lemma fmap_filter_comm {A B} (f : A → B) (P : B → Prop) `{∀ x, Decision (P x)} (c : A → bool) l :
  (∀ x, x ∈ l → c x = true ↔ P (f x)) → f <$> List.filter c l = filter P (f <$> l).
Proof.
  induction l as [|x l IH]; intros Hc; [done|]. cbn [List.filter fmap list_fmap].
  change (list_fmap A B f l) with (f <$> l). rewrite filter_cons, <- IH by (intros; apply Hc; by right).
  specialize (Hc x ltac:(left)). destruct (c x) eqn:E; [rewrite decide_True by (by apply Hc); done|].
  rewrite decide_False; [done|]. intros Hp%Hc. done.
Qed.

Lemma filter_keys_sorted {A} (key : A → Z) (c : A → bool) l :
  StronglySorted Z.lt (key <$> l) → StronglySorted Z.lt (key <$> List.filter c l).
Proof.
  induction l as [|x l IH]; cbn; [done|]. intros [Hs Hx]%StronglySorted_inv.
  destruct (c x); cbn; [constructor|]; auto. rewrite Forall_fmap, Forall_forall in *.
  intros y Hy%list_elem_of_In. apply filter_In in Hy as [Hy _]. apply Hx. by apply list_elem_of_In.
Qed.

Lemma newest_first_eq d rid :
  db_ok d → newest_first d rid = reverse (List.filter (λ s, sr_RemoteID s =? rid) (t_syncs d)).
Proof.
  intros Hok. unfold newest_first. rewrite ORDER_BY_sorted; [done|]. apply filter_keys_sorted, Hok.
Qed.

Lemma ledger_db d rid :
  ledger (db_abs d) rid = observationFromRow <$> List.filter (λ o, or_RemoteID o =? rid) (t_observations d).
Proof. symmetry. apply fmap_filter_comm. intros o _. by rewrite Z.eqb_eq. Qed.

Lemma kept_db d rid keep s :
  db_ok d → s ∈ t_syncs d →
  kept (db_abs d) rid keep (syncFromRow s) ↔
  sr_RemoteID s ≠ rid ∨ sr_ID s ∈ map sr_ID (LIMIT keep (newest_first d rid)) ∨
  sr_ID s ∈ map or_SyncID (List.filter (λ o, or_RemoteID o =? rid) (t_observations d)).
Proof.
  intros Hok Hs. unfold kept. cbn [sy_RemoteID syncFromRow sy_ID].
  destruct (decide (sr_RemoteID s = rid)) as [Hr|]; [|tauto].
  set (l := List.filter (λ s, sr_RemoteID s =? rid) (t_syncs d)).
  assert (s ∈ l) as Hl.
  { apply list_elem_of_In, filter_In. split; [by apply list_elem_of_In|by apply Z.eqb_eq]. }
  assert (StronglySorted Z.lt (sr_ID <$> l)) as Hsort by apply filter_keys_sorted, Hok.
  assert (sr_ID s ∈ map sr_ID (LIMIT keep (newest_first d rid)) ↔
          keep < 0 ∨ Z.of_nat (newer (db_abs d) rid (syncFromRow s)) < keep) as ->.
  { rewrite newest_first_eq by done. fold l.
    assert (newer (db_abs d) rid (syncFromRow s) = length (filter (λ y, sr_ID s < sr_ID y) l)) as ->.
    { unfold newer, l. rewrite (filter_List_filter (λ y, sr_RemoteID y = rid)) by (intros; apply Z.eqb_eq).
      rewrite list_filter_filter. cbn [a_syncs db_abs].
      rewrite <- (fmap_filter_comm syncFromRow _ (λ y, (sr_ID s <? sr_ID y) && (sr_RemoteID y =? rid))).
      - rewrite length_fmap. f_equal. apply filter_List_filter. intros y.
        by rewrite andb_true_iff, Z.ltb_lt, Z.eqb_eq.
      - intros y _. cbn. rewrite andb_true_iff, Z.ltb_lt, Z.eqb_eq. tauto. }
    unfold LIMIT. destruct (Z.ltb_spec keep 0).
    - split; [by left|]. intros _. apply list_elem_of_fmap_2. by rewrite elem_of_reverse.
    - assert (∀ k, sr_ID s ∈ map sr_ID k → (∀ y, y ∈ k → y ∈ l) → s ∈ k) as Hinj.
      { intros k (y & Hy & Hin)%list_elem_of_fmap Hsub. enough (s = y) as -> by done.
        specialize (Hsub y Hin). clear -Hsort Hl Hsub Hy.
        induction l as [|x l IH]; [by apply elem_of_nil in Hl|]. cbn in Hsort.
        apply StronglySorted_inv in Hsort as [Hs Hx]. rewrite Forall_fmap, Forall_forall in Hx.
        apply elem_of_cons in Hl as [->|Hl], Hsub as [->|Hsub]; auto.
        - specialize (Hx _ Hsub). cbn in Hx. lia.
        - specialize (Hx _ Hl). cbn in Hx. lia. }
      assert (∀ n, Z.of_nat n < keep ↔ (n < Z.to_nat keep)%nat) as -> by lia.
      rewrite <- take_reverse_newest by done.
      split.
      + intros Hin. right. apply Hinj; [done|]. intros y Hy.
        apply elem_of_take in Hy as (i & Hi & _). apply list_elem_of_lookup_2 in Hi. by rewrite elem_of_reverse in Hi.
      + intros [?|Hin]; [lia|]. by apply list_elem_of_fmap_2. }
  assert (sr_ID s ∈ ob_SyncID <$> ledger (db_abs d) rid ↔
          sr_ID s ∈ map or_SyncID (List.filter (λ o, or_RemoteID o =? rid) (t_observations d))) as ->.
  { rewrite ledger_db, <- list_fmap_compose. done. }
  tauto.
Qed.

Lemma existsb_Zeqb x l : existsb (Z.eqb x) l = true ↔ x ∈ l.
Proof. rewrite existsb_elem. setoid_rewrite Z.eqb_eq. naive_solver. Qed.

Lemma sqlite_prune_refines t rid keep r t' :
  db_ok (q t) → SqliteTx.PruneSyncs rid keep t = Ok (r, t') →
  db_ok (q t') ∧ syncID t' = syncID t ∧ prune_spec (db_abs (q t)) rid keep (db_abs (q t')).
Proof.
  intros Hok H. apply on_q_ok in H as (d1 & H & ->). apply run_with_ok in H. cbn [q syncID].
  set (d := q t) in *. clearbody d. unfold Sqlc.PruneSyncs in H. injection H as _ <-.
  split; [|split; [done|]].
  - destruct Hok as [? ? ? ? ? [? Hall] ? ?]. split; cbn; try done.
    + by apply filter_keys_sorted.
    + split; [done|]. rewrite Forall_forall in *. intros s Hs%list_elem_of_In. apply filter_In in Hs as [Hs _].
      apply Hall. by apply list_elem_of_In.
  - unfold prune_spec, db_abs at 1, with_a_syncs. cbn [with_syncs t_remotes t_refs t_syncs t_observations t_taint_events t_remote_lease].
    f_equal. apply fmap_filter_comm. intros s Hs. rewrite kept_db by done.
    rewrite negb_true_iff, !andb_false_iff, !negb_false_iff, Z.eqb_neq, !existsb_Zeqb. tauto.
Qed.

#[global, refine] Instance sqlite_tx_spec : TxSpec sqliteTx := {
  t_ok := λ t, db_ok (q t);
  t_abs := λ t, db_abs (q t);
  t_sync := syncID;
  name_ok := λ _, True;
  text_ok := λ _, True;
  count_ok := λ _, True;
}.
Proof.
  - done.
  - done.
  - done.
  - apply sqlite_append_refines.
  - intros. by apply sqlite_append_total.
  - apply sqlite_upsert_refines.
  - intros. by apply sqlite_upsert_total.
  - apply sqlite_taint_refines.
  - intros. by apply sqlite_taint_total.
  - intros t s id t' Hok _ _. by apply sqlite_sync_refines.
  - intros. by apply sqlite_sync_total.
  - intros t rid keep r t' Hok _ _. by apply sqlite_prune_refines.
  - intros. eexists. reflexivity.
Defined.

Lemma GetRemote_spec d id :
  SqliteStore.GetRemote id d = match a_remotes (db_abs d) !! id with
                               | Some r => Ok (r, d)
                               | None => Err ErrNotFound
                               end.
Proof.
  rewrite db_remote_lookup. unfold SqliteStore.GetRemote, Sqlc.GetRemote, mbind, SE_bind, run_with, one.
  by destruct (List.find _ _).
Qed.

Lemma GetChainHead_spec d id :
  SqliteStore.GetChainHead id d = match a_remotes (db_abs d) !! id with
                                  | Some r => Ok ((rm_ChainHeadHash r, rm_ChainLen r), d)
                                  | None => Err ErrNotFound
                                  end.
Proof.
  rewrite db_remote_lookup.
  unfold SqliteStore.GetChainHead, Sqlc.GetChainHead, Sqlc.GetRemote, run_with, mbind, SE_bind, one.
  by destruct (List.find _ _).
Qed.

Lemma GetRef_spec d rid name :
  SqliteStore.GetRef rid name d = match a_refs (db_abs d) !! (rid, name) with
                                  | Some r => Ok (r, d)
                                  | None => Err ErrNotFound
                                  end.
Proof.
  rewrite db_ref_lookup. unfold SqliteStore.GetRef, Sqlc.GetRef, mbind, SE_bind, run_with, one.
  by destruct (List.find _ _).
Qed.

Lemma GetRemoteByURL_spec d u :
  db_ok d → match SqliteStore.GetRemoteByURL u d with
            | Ok (r, d') => d' = d ∧ a_remotes (db_abs d) !! rm_ID r = Some r ∧
                            rm_NormalizedURL r = u ∧ rm_RemovedAtNS r = None
            | Err e => e = ErrNotFound ∧ ∀ id r, a_remotes (db_abs d) !! id = Some r →
                         rm_NormalizedURL r = u → rm_RemovedAtNS r ≠ None
            end.
Proof.
  intros Hok. unfold SqliteStore.GetRemoteByURL, Sqlc.GetRemoteByURL, mbind, SE_bind, run_with, one.
  destruct (List.find _ _) as [row|] eqn:E; cbn.
  - apply find_row in E as [Hin [Hu Hn]%andb_true_iff]. apply String.eqb_eq in Hu. split_and!; [done| |done|].
    + by apply (tmap_elem rr_ID remoteFromRow _ row (ok_remote_ids _ Hok)).
    + unfold int_ptr. by rewrite Hn.
  - split; [done|]. intros id r (row & Hin & _ & <-)%tmap_inv Hu. cbn in *.
    rewrite find_none in E. specialize (E row Hin). rewrite Hu, String.eqb_refl in E. cbn in E.
    unfold int_ptr. by rewrite E.
Qed.

Lemma NoDup_fmap_filter {A B} (f : A → B) (c : A → bool) l : NoDup (f <$> l) → NoDup (f <$> List.filter c l).
Proof.
  induction l as [|x l IH]; cbn; [done|]. intros [Hx Hnd]%NoDup_cons.
  destruct (c x); cbn; [apply NoDup_cons; split|]; auto.
  contradict Hx. apply list_elem_of_fmap in Hx as (y & -> & Hy%list_elem_of_In).
  apply filter_In in Hy as [Hy _]. by apply list_elem_of_fmap_2, list_elem_of_In.
Qed.

Lemma ListTags_spec d rid :
  db_ok d → ∃ l, SqliteStore.ListTags rid d = Ok (l, d) ∧ NoDup (rf_TagName <$> l) ∧
    (∀ r, r ∈ l ↔ a_refs (db_abs d) !! (rid, rf_TagName r) = Some r).
Proof.
  intros Hok. eexists. split; [reflexivity|].
  pose proof (ORDER_BY_name_Permutation fr_TagName (List.filter (λ r, fr_RemoteID r =? rid) (t_refs d))) as HP.
  assert (∀ x, x ∈ List.filter (λ r, fr_RemoteID r =? rid) (t_refs d) ↔ x ∈ t_refs d ∧ fr_RemoteID x = rid) as Hel.
  { intros x. by rewrite list_elem_of_In, filter_In, <- list_elem_of_In, Z.eqb_eq. }
  split.
  - rewrite <- list_fmap_compose. change (rf_TagName ∘ refFromRow) with fr_TagName. rewrite HP.
    apply (NoDup_fmap_1 (λ n, (rid, n))). rewrite <- list_fmap_compose.
    assert ((λ n, (rid, n)) ∘ fr_TagName <$> List.filter (λ r, fr_RemoteID r =? rid) (t_refs d) =
            ref_pk <$> List.filter (λ r, fr_RemoteID r =? rid) (t_refs d)) as ->.
    { apply list_fmap_ext. intros i x Hi%list_elem_of_lookup_2. apply Hel in Hi as [_ <-]. done. }
    apply NoDup_fmap_filter, Hok.
  - intros r. rewrite list_elem_of_fmap. setoid_rewrite HP. setoid_rewrite Hel. split.
    + intros (x & -> & Hx & <-). by apply (tmap_elem ref_pk refFromRow _ x (ok_ref_keys _ Hok)).
    + intros (x & Hx & [= ? _] & <-)%tmap_inv. eauto.
Qed.

Lemma SetRemoteHealth_spec d now id status lastErr lastOk :
  db_ok d → status ∈ [RemoteActive; RemoteDegraded; RemotePaused] →
  ∃ d', SqliteStore.SetRemoteHealth now id status lastErr lastOk d = Ok ((), d') ∧ db_ok d' ∧
    db_abs d' = with_a_remotes (db_abs d)
      (alter (λ r, set_health r status lastErr lastOk now) id (a_remotes (db_abs d))).
Proof.
  intros Hok Hs%in_list_elem. eexists. split; [|split].
  - unfold SqliteStore.SetRemoteHealth, run_with, Sqlc.SetRemoteHealth, mbind, SE_bind, get_state, require, put_state.
    change ["active"; "degraded"; "paused"] with [RemoteActive; RemoteDegraded; RemotePaused].
    rewrite Hs, orb_true_r. reflexivity.
  - apply with_remotes_ok; [done|]. by apply UPDATE_keys.
  - unfold db_abs, with_a_remotes. cbn. f_equal. apply tmap_UPDATE; [apply selects_remote|done].
Qed.

Lemma lease_lookup d rid :
  a_leases (db_abs d) !! rid =
  (λ l, mkAbsLease (lr_Holder l) (lr_AcquiredAtNs l) (lr_ExpiresAtNs l)) <$>
  List.find (λ l, lr_RemoteID l =? rid) (t_remote_lease d).
Proof. apply tmap_lookup, selects_lease. Qed.

Lemma with_lease_abs d l :
  db_abs (with_lease d l) = with_a_leases (db_abs d)
    (tmap lr_RemoteID (λ l, mkAbsLease (lr_Holder l) (lr_AcquiredAtNs l) (lr_ExpiresAtNs l)) l).
Proof. reflexivity. Qed.

Lemma with_lease_ok d l : db_ok d → NoDup (lr_RemoteID <$> l) → db_ok (with_lease d l).
Proof. by intros []. Qed.

Lemma UPDATE_nothing {A} (c : A → bool) set l : (∀ r, r ∈ l → c r = false) → UPDATE c set l = l.
Proof.
  induction l as [|x l IH]; intros Hc; [done|]. rewrite UPDATE_cons, Hc by left. f_equal.
  apply IH. intros r Hr. apply Hc. by right.
Qed.

Lemma matched_none {A} (c : A → bool) l : (∀ r, r ∈ l → c r = false) → matched c l = 0.
Proof.
  unfold matched. induction l as [|x l IH]; intros Hc; [done|]. cbn. rewrite Hc by left.
  apply IH. intros r Hr. apply Hc. by right.
Qed.

(** Rows with the same unique key are the same row. *)
Lemma key_unique {A K} (key : A → K) l a b : NoDup (key <$> l) → a ∈ l → b ∈ l → key a = key b → a = b.
Proof.
  induction l as [|x l IH]; intros Hnd Ha Hb Hk; [by apply elem_of_nil in Ha|].
  cbn in Hnd. apply NoDup_cons in Hnd as [Hx Hnd].
  apply elem_of_cons in Ha as [->|Ha], Hb as [->|Hb]; auto.
  - exfalso. apply Hx. rewrite Hk. by apply list_elem_of_fmap_2.
  - exfalso. apply Hx. rewrite <- Hk. by apply list_elem_of_fmap_2.
Qed.

(** The lease upsert: taken when there is none or the one there has expired. *)
Lemma upsertLease_spec d rid holder now expires n d' :
  db_ok d → upsertLease rid holder now expires now d = Ok (n, d') →
  db_ok d' ∧
  match a_leases (db_abs d) !! rid with
  | Some l =>
      if al_expires l <? now
      then n = 1 ∧ db_abs d' = with_a_leases (db_abs d) (<[rid := mkAbsLease holder now expires]> (a_leases (db_abs d)))
      else n = 0 ∧ db_abs d' = db_abs d
  | None => n = 1 ∧ db_abs d' = with_a_leases (db_abs d) (<[rid := mkAbsLease holder now expires]> (a_leases (db_abs d)))
  end.
Proof.
  intros Hok H. unfold upsertLease in H. apply SE_bind_ok in H as (? & ? & [= <- <-] & H).
  rewrite lease_lookup. destruct (List.find _ _) as [l|] eqn:Hl; cbn [fmap option_fmap option_map al_expires].
  - apply SE_bind_ok in H as (? & ? & [= <- <-] & [= <- <-]).
    destruct (find_row _ _ _ Hl) as [Hin Hid]. pose proof (ok_lease_ids _ Hok) as Hnd.
    split.
    { apply with_lease_ok; [done|].
      clear -Hnd. induction (t_remote_lease d) as [|y k IH]; [done|]. rewrite UPDATE_cons. cbn in *.
      apply NoDup_cons in Hnd as [Hy Hnd].
      assert (∀ m, lr_RemoteID <$> UPDATE (λ l, (lr_RemoteID l =? rid) && (lr_ExpiresAtNs l <? now)) (λ _, mkLeaseRow rid holder now expires) m
              = lr_RemoteID <$> m) as Hkeys.
      { intros m. induction m as [|z m IHm]; [done|]. rewrite UPDATE_cons. cbn. rewrite IHm. f_equal.
        destruct (Z.eqb_spec (lr_RemoteID z) rid), (lr_ExpiresAtNs z <? now); cbn; congruence. }
      apply NoDup_cons. rewrite Hkeys. split; [|done].
      destruct (Z.eqb_spec (lr_RemoteID y) rid) as [E|], (lr_ExpiresAtNs y <? now); cbn; [by rewrite <- E|done..]. }
    destruct (lr_ExpiresAtNs l <? now) eqn:E.
    + split.
      * eapply (matched_one lr_RemoteID _ rid); [done| |exact Hin|by rewrite Hid, E].
        intros r. rewrite andb_true_iff, Z.eqb_eq. tauto.
      * rewrite with_lease_abs. f_equal.
        rewrite (UPDATE_ext _ (λ l, lr_RemoteID l =? rid)).
        -- rewrite (tmap_UPDATE _ _ _ rid _ (λ _, mkAbsLease holder now expires)); [|apply selects_lease|done].
           eapply (alter_as_insert _ _ _ (λ _, mkAbsLease holder now expires)).
           rewrite (tmap_lookup _ _ (λ l, lr_RemoteID l =? rid)) by apply selects_lease. by rewrite Hl.
        -- intros r Hr. destruct (Z.eqb_spec (lr_RemoteID r) rid) as [Er|]; [|done].
           apply Z.eqb_eq in Hid. rewrite (key_unique lr_RemoteID _ r l Hnd Hr Hin) by congruence. done.
    + assert (∀ r, r ∈ t_remote_lease d → (lr_RemoteID r =? rid) && (lr_ExpiresAtNs r <? now) = false) as Hnone.
      { intros r Hr. destruct (Z.eqb_spec (lr_RemoteID r) rid) as [Er|]; [|done].
        apply Z.eqb_eq in Hid. by rewrite (key_unique lr_RemoteID _ r l Hnd Hr Hin) by congruence. }
      rewrite matched_none, UPDATE_nothing by done. split; [done|]. by destruct d.
  - apply SE_bind_ok in H as (? & ? & [_ [= -> ->]]%require_ok & H).
    apply SE_bind_ok in H as (? & ? & [= <- <-] & [= <- <-]). rewrite find_none in Hl.
    assert (∀ r, r ∈ t_remote_lease d → lr_RemoteID r ≠ rid) as Hfresh.
    { intros r Hr. by apply Z.eqb_neq, Hl. }
    split; [|split; [done|]].
    + apply with_lease_ok; [done|]. rewrite fmap_app. apply NoDup_app. split; [apply Hok|].
      split; [|apply NoDup_singleton]. intros k (r & -> & Hr)%list_elem_of_fmap Heq%list_elem_of_singleton.
      by apply (Hfresh r).
    + rewrite with_lease_abs. f_equal. by rewrite tmap_snoc.
Qed.

Lemma sqlite_acquire_refines d rid holder now expires r d' :
  db_ok d → SqliteStore.TryAcquireLease rid holder now expires d = Ok (r, d') →
  db_ok d' ∧ acquire_spec false (db_abs d) rid holder now expires r (db_abs d').
Proof.
  intros Hok H. unfold SqliteStore.TryAcquireLease in H.
  apply SE_bind_ok in H as (hd & d1 & (row & Hrow & [= -> ->])%run_with_ok%GetRemoteChainHead_ok & H).
  apply SE_bind_ok in H as (n & d2 & Hup%run_with_ok & [= <- <-]).
  apply upsertLease_spec in Hup as [Hok' Hcase]; [|done]. split; [done|].
  exists (remoteFromRow row). rewrite db_remote_lookup, Hrow. split; [done|].
  destruct (a_leases (db_abs d) !! rid) as [l|]; [destruct (al_expires l <? now)|]; destruct Hcase as [-> ->]; [done|by split; [|left]|done].
Qed.

Lemma sqlite_acquire_total d rid holder now expires :
  is_Some (a_remotes (db_abs d) !! rid) → ∃ r, SqliteStore.TryAcquireLease rid holder now expires d = Ok r.
Proof.
  intros Hrem. pose proof Hrem as Hr%has_remote_abs. rewrite db_remote_lookup, fmap_is_Some in Hrem.
  destruct Hrem as [row Hrow].
  unfold SqliteStore.TryAcquireLease, Sqlc.GetRemoteChainHead, Sqlc.GetRemote, one, upsertLease, run_with, mbind, SE_bind, get_state, put_state, require.
  rewrite Hrow. cbn. destruct (List.find _ (t_remote_lease d)); [by eauto|]. rewrite Hr. eauto.
Qed.

(** A DELETE on a table with a unique key. *)
Lemma tmap_filter_lookup {A V} `{Countable K} (key : A → K) (val : A → V) (c : A → bool) l k :
  NoDup (key <$> l) →
  tmap key val (List.filter c l) !! k =
  (r ← List.find (λ r, bool_decide (key r = k)) l; if c r then Some (val r) else None).
Proof.
  intros Hnd. rewrite tmap_decide_lookup. induction l as [|x l IH]; [done|].
  cbn in Hnd. apply NoDup_cons in Hnd as [Hx Hnd]. cbn. case_bool_decide as Hk; cbn.
  - destruct (c x) eqn:E; cbn; [by rewrite bool_decide_eq_true_2|].
    rewrite IH by done. destruct (List.find _ l) as [y|] eqn:Hy; [|done]. exfalso.
    apply find_row in Hy as [Hin Hy%bool_decide_eq_true]. apply Hx. rewrite Hk, <- Hy. by apply list_elem_of_fmap_2.
  - destruct (c x); cbn; [|by apply IH]. rewrite bool_decide_eq_false_2 by done. by apply IH.
Qed.

Lemma drop_lease_db d rid holder :
  db_ok d →
  db_abs (with_lease d (List.filter (λ l, negb ((lr_RemoteID l =? rid) && String.eqb (lr_Holder l) holder)) (t_remote_lease d)))
  = with_a_leases (db_abs d) (drop_lease (db_abs d) rid holder).
Proof.
  intros Hok. rewrite with_lease_abs. f_equal. apply map_eq. intros i.
  rewrite tmap_filter_lookup by apply Hok. unfold drop_lease.
  assert (∀ j, a_leases (db_abs d) !! j = (λ l, mkAbsLease (lr_Holder l) (lr_AcquiredAtNs l) (lr_ExpiresAtNs l)) <$>
    List.find (λ r, bool_decide (lr_RemoteID r = j)) (t_remote_lease d)) as Hl by (intros; apply tmap_decide_lookup).
  rewrite (Hl rid). destruct (decide (i = rid)) as [->|Hi].
  - destruct (List.find _ _) as [l|] eqn:E; cbn; [|by rewrite Hl, E].
    pose proof (find_row _ _ _ E) as [_ Hid%bool_decide_eq_true]. apply Z.eqb_eq in Hid. rewrite Hid. cbn.
    destruct (String.eqb _ _); cbn; [by rewrite lookup_delete_eq|by rewrite Hl, E].
  - transitivity (a_leases (db_abs d) !! i).
    + rewrite Hl. destruct (List.find _ _) as [l|] eqn:E; [|done]. cbn.
      pose proof (find_row _ _ _ E) as [_ Hid%bool_decide_eq_true].
      destruct (Z.eqb_spec (lr_RemoteID l) rid); [congruence|done].
    + destruct (List.find _ _); cbn; [|done]. destruct (String.eqb _ _); [by rewrite lookup_delete_ne|done].
Qed.

Lemma DeleteRemoteLease_spec d rid holder :
  db_ok d → ∃ d', run_q (Sqlc.DeleteRemoteLease rid holder) d = Ok ((), d') ∧ db_ok d' ∧
    db_abs d' = with_a_leases (db_abs d) (drop_lease (db_abs d) rid holder).
Proof.
  intros Hok. eexists. split; [reflexivity|]. split; [|by apply drop_lease_db].
  apply with_lease_ok; [done|]. apply NoDup_fmap_filter, Hok.
Qed.

(** Both outcomes of the release on a remote whose head is the witness or the new head. *)
Lemma ReleaseLeaseCAS_run d rid holder witness newHead newLen row :
  db_ok d → List.find (λ r, rr_ID r =? rid) (t_remotes d) = Some row →
  SqliteStore.ReleaseLeaseCAS rid holder witness newHead newLen d =
  if decide (rr_ChainHeadHash row = witness) then
    (match Sqlc.AdvanceRemoteChainHead newHead newLen rid witness (rr_ChainLen row) d with
     | Ok (_, d1) => run_q (Sqlc.DeleteRemoteLease rid holder) d1
     | Err e => Err (wrap_sql e)
     end)
  else if decide (rr_ChainHeadHash row = newHead) then run_q (Sqlc.DeleteRemoteLease rid holder) d
  else Err ErrChainCAS.
Proof.
  intros Hok Hrow. unfold SqliteStore.ReleaseLeaseCAS, Sqlc.GetRemoteChainHead, Sqlc.GetRemote, one.
  unfold mbind, SE_bind, run_with at 1. rewrite Hrow. cbn [mret SE_ret fst snd].
  destruct (decide (rr_ChainHeadHash row = witness)) as [<-|Hw].
  - assert (bytesEqual (rr_ChainHeadHash row) (rr_ChainHeadHash row) = true) as -> by by apply bytesEqual_spec.
    destruct (AdvanceRemoteChainHead_same d rid row newHead newLen Hok Hrow) as (d1 & Hadv & _).
    unfold run_with at 1. rewrite Hadv. done.
  - assert (bytesEqual (rr_ChainHeadHash row) witness = false) as ->
      by (apply not_true_iff_false; by rewrite bytesEqual_spec).
    destruct (decide (rr_ChainHeadHash row = newHead)) as [<-|Hn].
    + assert (bytesEqual (rr_ChainHeadHash row) (rr_ChainHeadHash row) = true) as -> by by apply bytesEqual_spec.
      done.
    + assert (bytesEqual (rr_ChainHeadHash row) newHead = false) as ->
        by (apply not_true_iff_false; by rewrite bytesEqual_spec).
      done.
Qed.

Lemma sqlite_release_refines d rid holder witness newHead newLen d' :
  db_ok d → SqliteStore.ReleaseLeaseCAS rid holder witness newHead newLen d = Ok ((), d') →
  db_ok d' ∧ release_spec (db_abs d) rid holder witness newHead newLen (db_abs d').
Proof.
  intros Hok H. destruct (List.find (λ r, rr_ID r =? rid) (t_remotes d)) as [row|] eqn:Hrow.
  - rewrite (ReleaseLeaseCAS_run _ _ _ _ _ _ row) in H by done. unfold release_spec.
    rewrite db_remote_lookup, Hrow. destruct (decide (_ = witness)) as [<-|Hw].
    + destruct (AdvanceRemoteChainHead_same d rid row newHead newLen Hok Hrow) as (d1 & Hadv & Hok1 & Habs1).
      rewrite Hadv in H. destruct (DeleteRemoteLease_spec d1 rid holder Hok1) as (d2 & Hdel & Hok2 & Habs2).
      rewrite Hdel in H. injection H as <-. split; [done|]. exists (remoteFromRow row). split; [done|]. left.
      split; [done|]. rewrite Habs2, Habs1. done.
    + destruct (decide (_ = newHead)) as [<-|Hn]; [|done].
      destruct (DeleteRemoteLease_spec d rid holder Hok) as (d2 & Hdel & Hok2 & Habs2).
      rewrite Hdel in H. injection H as <-. split; [done|]. exists (remoteFromRow row). split; [done|]. by right.
  - exfalso. unfold SqliteStore.ReleaseLeaseCAS, Sqlc.GetRemoteChainHead, Sqlc.GetRemote, one, mbind, SE_bind, run_with at 1 in H.
    by rewrite Hrow in H.
Qed.

Lemma sqlite_release_total d rid holder witness newHead newLen rem :
  db_ok d → a_remotes (db_abs d) !! rid = Some rem →
  rm_ChainHeadHash rem = witness ∨ rm_ChainHeadHash rem = newHead →
  ∃ r, SqliteStore.ReleaseLeaseCAS rid holder witness newHead newLen d = Ok r.
Proof.
  intros Hok Hrem Hcase. rewrite db_remote_lookup in Hrem.
  destruct (List.find _ _) as [row|] eqn:Hrow; [|done]. cbn in Hrem. injection Hrem as <-. cbn in Hcase.
  rewrite (ReleaseLeaseCAS_run _ _ _ _ _ _ row) by done. destruct (decide (_ = witness)) as [<-|Hw].
  - destruct (AdvanceRemoteChainHead_same d rid row newHead newLen Hok Hrow) as (d1 & -> & Hok1 & _).
    by eauto.
  - destruct Hcase as [?| ->]; [done|]. rewrite decide_True by done. by eauto.
Qed.

Lemma deferred_ok_spec d : deferred_ok d = true ↔ syncs_ok (db_abs d).
Proof.
  unfold deferred_ok, syncs_ok, has_sync_id. rewrite forallb_forall. split.
  - intros Hall o (row & -> & Hin)%list_elem_of_fmap. specialize (Hall row). rewrite <- list_elem_of_In in Hall.
    specialize (Hall Hin). apply existsb_elem in Hall as (s & Hs & E%Z.eqb_eq). cbn.
    exists (syncFromRow s). split; [by apply list_elem_of_fmap_2|done].
  - intros Hall row Hin%list_elem_of_In. destruct (Hall (observationFromRow row)) as (s & Hs & E).
    { by apply list_elem_of_fmap_2. }
    apply list_elem_of_fmap in Hs as (srow & -> & Hs). apply existsb_elem. exists srow. cbn in E. by rewrite E, Z.eqb_refl.
Qed.

Lemma sqlite_with_tx_spec d :
  db_ok d → ∃ t0, db_ok (q t0) ∧ db_abs (q t0) = db_abs d ∧ syncID t0 = 0 ∧
    ∀ A (fn : SE sqliteTx error A),
      match fn t0 with
      | Err e => ∃ s', SqliteTx.WithTx fn d = (Err e, s') ∧ db_ok s' ∧ db_abs s' = db_abs d
      | Ok (a, t) => db_ok (q t) →
          (syncs_ok (db_abs (q t)) ∧ ∃ s', SqliteTx.WithTx fn d = (Ok a, s') ∧ db_ok s' ∧ db_abs s' = db_abs (q t)) ∨
          (¬ syncs_ok (db_abs (q t)) ∧ ∃ e s', SqliteTx.WithTx fn d = (Err e, s') ∧ db_ok s' ∧ db_abs s' = db_abs d)
      end.
Proof.
  intros Hok. exists (mkSqliteTx d 0). split_and!; [done..|]. intros A fn. unfold SqliteTx.WithTx.
  destruct (fn _) as [[a t]|e]; [|by eauto]. intros Ht. rewrite <- deferred_ok_spec.
  destruct (deferred_ok (q t)) eqn:E; [left|right]; eauto 10.
Qed.

#[global, refine] Instance sqlite_store_spec : StoreSpec db sqliteTx := {
  s_ok := db_ok;
  s_abs := db_abs;
  regrants := false;
  holder_ok := λ _, True;
}.
Proof.
  - intros s id _. apply GetRemote_spec.
  - apply GetRemoteByURL_spec.
  - intros s rid name _. apply GetRef_spec.
  - apply ListTags_spec.
  - intros s id _. apply GetChainHead_spec.
  - intros s now id status lastErr lastOk Hok Hst _. by apply SetRemoteHealth_spec.
  - apply sqlite_acquire_refines.
  - intros s rid holder now expires _ Hrem _. by apply sqlite_acquire_total.
  - apply sqlite_release_refines.
  - intros s rid holder witness newHead newLen rem l Hok Hrem _ _ Hhead _. by apply sqlite_release_total with (rem := rem).
  - apply sqlite_with_tx_spec.
Defined.

Lemma empty_db_ok : db_ok empty_db.
Proof. split; cbn; repeat constructor; done. Qed.
