(* ===== verification/Lock.v ===== *)
(** [internal/lock/dblease.go]: the per-remote writer lease over the lease methods of
    a store. *)
From S2P Require Import Prelude GoStrings Sha256 Model Chain StoreSpec.
#[local] Open Scope Z_scope.
#[local] Open Scope go_scope.

Section dblease.
Context {S T : Type} `{Store S T}.

(** [now] is what the clock reads. *)
Definition AcquireRemoteLease (now remoteID : Z) (holder : string) (ttl : Z) : SE S error Lease :=
  let expires := now +w ttl in
  r ← st_TryAcquireLease remoteID holder now expires;
  match r with
  | None => throw ErrLeaseHeld
  | Some head => mret (mkLease remoteID holder now expires head)
  end.

Definition Release (lease : option Lease) (newChainHead : bytes) (newChainLen : Z) : SE S error () :=
  match lease with
  | None => throw (ErrOther "lock: nil lease")
  | Some lease =>
      st_ReleaseLeaseCAS (le_RemoteID lease) (le_Holder lease) (le_ChainHeadAtLease lease) newChainHead newChainLen
  end.
End dblease.

Section lemmas.
Context {S T : Type} `{HS : StoreSpec S T}.

(** The store does not take this attempt for the lease that is already there. *)
Definition no_regrant (s : S) (rid : Z) (holder : string) (now expires : Z) : Prop :=
  regrants = true → ∀ l, a_leases (s_abs s) !! rid = Some l →
  al_expires l < now ∨ al_holder l ≠ holder ∨ al_expires l ≠ expires.

(** A lease is granted when there is none or the old one has expired, and never
    otherwise; it records the head the chain has then. *)
Lemma AcquireRemoteLease_spec s now rid holder ttl :
  s_ok s → holder_ok holder → no_regrant s rid holder now (now +w ttl) →
  match AcquireRemoteLease now rid holder ttl s with
  | Ok (lease, s') =>
      s_ok s' ∧ ∃ rem, a_remotes (s_abs s) !! rid = Some rem ∧
        (∀ l, a_leases (s_abs s) !! rid = Some l → al_expires l < now) ∧
        lease = mkLease rid holder now (now +w ttl) (rm_ChainHeadHash rem) ∧
        s_abs s' = with_a_leases (s_abs s) (<[rid := mkAbsLease holder now (now +w ttl)]> (a_leases (s_abs s)))
  | Err e =>
      a_remotes (s_abs s) !! rid = None ∨
      e = ErrLeaseHeld ∧ ∃ l, a_leases (s_abs s) !! rid = Some l ∧ now ≤ al_expires l
  end.
Proof.
  intros Hok Hholder Hfresh. unfold AcquireRemoteLease, mbind, SE_bind.
  destruct (st_TryAcquireLease rid holder now (now +w ttl) s) as [[r s']|e] eqn:Hacq.
  - destruct (acquire_refines _ _ _ _ _ _ _ Hok Hacq) as (Hok' & rem & Hrem & Hcase).
    destruct (a_leases (s_abs s) !! rid) as [l|] eqn:Hl.
    + destruct (Z.ltb_spec (al_expires l) now).
      * destruct Hcase as [-> Habs]. split; [done|]. exists rem. split_and!; [done| |done|done]. naive_solver.
      * destruct Hcase as [_ [->|(Hre & Hh & He & _)]]; [right; eauto|]. destruct (Hfresh Hre l Hl) as [?|[?|?]]; [lia|done|done].
    + destruct Hcase as [-> Habs]. cbn. split; [done|]. exists rem. by split_and!.
  - left. destruct (a_remotes (s_abs s) !! rid) eqn:Hrem; [|done].
    destruct (acquire_total s rid holder now (now +w ttl) Hok) as [? ?]; [by rewrite Hrem|done|congruence].
Qed.
End lemmas.
