(* ===== verification/SyncRemote.v ===== *)
(** [internal/sync/remote.go]: one sync of a remote, from [git ls-remote] to the
    committed ledger, projection and taint spine.  It is written against the
    persistence interfaces; what Go reads from the world (the clock, git, the order
    in which a map is ranged over, the text of an error) is an argument. *)
From S2P Require Import Prelude GoStrings Sha256 Model Chain SyncDiff StoreSpec Lock.
#[local] Open Scope Z_scope.

Record SyncResult : Type := mkSyncResult {
  sr_SyncID : Z;
  sr_Status : SyncStatus;
  sr_TagsSeen : Z;
  sr_TagsChanged : Z;
  sr_HeadBefore : bytes;
  sr_HeadAfter : bytes;
}.

(** [2 * time.Minute] *)
Definition leaseTTL : Z := 2 * 60 * 1000000000.

Definition syncRetentionKeep : Z := 5.

(** The readings of the clocks, in the order the code takes them: the lease, the
    start, the transaction, one per deleted tag, the end, and the store's own wall
    clock when it records the remote's health. *)
Record Readings : Type := mkReadings {
  rd_lease : Z;
  rd_start : Z;
  rd_tx : Z;
  rd_del : nat → Z;
  rd_end : Z;
  rd_wall : Z;
}.

Definition projectTag (prev : option Ref) (now : LsRemoteRef) (nowNS remoteID : Z) : Ref :=
  let peeledOID := if IsZero (ls_PeeledOID now) then ls_OID now else ls_PeeledOID now in
  match prev with
  | None =>
      mkRef 0 remoteID (ls_Name now) (ls_OID now) peeledOID (ls_IsAnnotatedTag now)
        (ls_OID now) nowNS nowNS nowNS false false None 1
  | Some prev =>
      mkRef (rf_ID prev) (rf_RemoteID prev) (ls_Name now) (ls_OID now) peeledOID (ls_IsAnnotatedTag now)
        (rf_FirstOID prev) (rf_FirstSeenNS prev) nowNS
        (if OID_Equal (ls_OID now) (rf_CurrentOID prev) then rf_LastChangedNS prev else nowNS)
        false (rf_Tainted prev) (rf_TaintFirstNS prev) (rf_ObservationCount prev + 1)
  end.

Definition set_tainted (ref : Ref) (nowNS : Z) : Ref :=
  mkRef (rf_ID ref) (rf_RemoteID ref) (rf_TagName ref) (rf_CurrentOID ref) (rf_CurrentPeeledOID ref)
    (rf_IsAnnotatedTag ref) (rf_FirstOID ref) (rf_FirstSeenNS ref) (rf_LastSeenNS ref) (rf_LastChangedNS ref)
    (rf_Deleted ref) true (Some nowNS) (rf_ObservationCount ref).

Definition set_deleted (ref : Ref) (nowNS : Z) : Ref :=
  mkRef (rf_ID ref) (rf_RemoteID ref) (rf_TagName ref) (rf_CurrentOID ref) (rf_CurrentPeeledOID ref)
    (rf_IsAnnotatedTag ref) (rf_FirstOID ref) (rf_FirstSeenNS ref) nowNS (rf_LastChangedNS ref)
    true (rf_Tainted ref) (rf_TaintFirstNS ref) (rf_ObservationCount ref).

(** The observation of a tag seen in the listing, and of a tag gone from it. *)
Definition seen_obs (remoteID refID syncID nowNS : Z) (event : ObservationEventType) (prev : option Ref)
    (now : LsRemoteRef) : Observation :=
  let '(prevOID, prevPeeled) :=
    match prev with
    | Some p => if negb (IsZero (rf_CurrentOID p)) then (rf_CurrentOID p, rf_CurrentPeeledOID p) else (zeroOID, zeroOID)
    | None => (zeroOID, zeroOID)
    end in
  mkObservation 0 remoteID refID syncID 0 event prevOID (ls_OID now) prevPeeled (ls_PeeledOID now) nowNS [] [] "".

Definition gone_obs (remoteID syncID nowNS : Z) (event : ObservationEventType) (prev : Ref) : Observation :=
  mkObservation 0 remoteID (rf_ID prev) syncID 0 event (rf_CurrentOID prev) zeroOID (rf_CurrentPeeledOID prev)
    zeroOID nowNS [] [] "".

Section syncer.
Context {S T : Type} `{Tx T} `{Store S T}.

Definition applyTaint (remoteID : Z) (ref : Ref) (fromOID toOID : OID) (reason : TaintReason)
    (obsID nowNS : Z) : SE T error () :=
  ref ← match rf_TaintFirstNS ref with
        | None => tx_UpsertRefProjection (set_tainted ref nowNS)
        | Some _ => mret ref
        end;
  tx_AppendTaintEvent (mkTaintEvent 0 remoteID (rf_ID ref) reason (Some obsID) fromOID toOID nowNS None "" "" "");;
  mret ().

(** One tag of the listing: 1 when it changed. *)
Definition sync_seen_one (remoteID syncID nowNS : Z) (priorByName : gmap string Ref) (now : LsRemoteRef) : SE T error Z :=
  let prev := priorByName !! ls_Name now in
  let delta := ClassifyTag prev (Some now) in
  ref ← tx_UpsertRefProjection (projectTag prev now nowNS remoteID);
  if String.eqb (Event delta) "" then mret 0
  else
    r ← tx_AppendObservation (seen_obs remoteID (rf_ID ref) syncID nowNS (Event delta) prev now);
    let obs := r.2 in
    match Taint delta with
    | Some reason => applyTaint remoteID ref (ob_PrevOID obs) (ls_OID now) reason (ob_ID obs) nowNS;; mret 1
    | None => mret 1
    end.

Fixpoint sync_seen (remoteID syncID nowNS : Z) (priorByName : gmap string Ref) (lsRefs : list LsRemoteRef) : SE T error Z :=
  match lsRefs with
  | [] => mret 0
  | now :: lsRefs =>
      n ← sync_seen_one remoteID syncID nowNS priorByName now;
      m ← sync_seen remoteID syncID nowNS priorByName lsRefs;
      mret (n + m)
  end.

(** One tag of the projection that the listing no longer shows. *)
Definition sync_gone_one (remoteID syncID nowNS2 : Z) (taintAnyTagDeletion : bool) (prev : Ref) : SE T error () :=
  let delta := ClassifyDeletion (Some prev) taintAnyTagDeletion in
  prev ← tx_UpsertRefProjection (set_deleted prev nowNS2);
  r ← tx_AppendObservation (gone_obs remoteID syncID nowNS2 (Event delta) prev);
  match Taint delta with
  | Some reason => applyTaint remoteID prev (rf_CurrentOID prev) zeroOID reason (ob_ID r.2) nowNS2
  | None => mret ()
  end.

(** The range over the map; [i] counts the deletions so far. *)
Fixpoint sync_gone (remoteID syncID : Z) (t_del : nat → Z) (taintAnyTagDeletion : bool) (seenName : list string)
    (i : nat) (prior : list (string * Ref)) : SE T error Z :=
  match prior with
  | [] => mret (Z.of_nat i)
  | (name, prev) :: prior =>
      if bool_decide (name ∈ seenName) || rf_Deleted prev
      then sync_gone remoteID syncID t_del taintAnyTagDeletion seenName i prior
      else
        sync_gone_one remoteID syncID (t_del i) taintAnyTagDeletion prev;;
        sync_gone remoteID syncID t_del taintAnyTagDeletion seenName (Datatypes.S i) prior
  end.

(** The transaction: the sync row, retention, the listing, the deletions.  Returns the
    sync id and the number of changed tags. *)
Definition sync_tx (range : gmap string Ref → list (string * Ref)) (rd : Readings) (remoteID : Z)
    (taintAnyTagDeletion : bool) (headBefore : bytes) (priorByName : gmap string Ref)
    (lsRefs : list LsRemoteRef) : SE T error (Z * Z) :=
  let nowNS := rd_tx rd in
  syncID ← tx_WriteSync (mkSync 0 remoteID TriggerScheduled (rd_start rd) nowNS SyncOk
    (Z.of_nat (length lsRefs)) 0 "" headBefore []);
  tx_PruneSyncs remoteID syncRetentionKeep;;
  n ← sync_seen remoteID syncID nowNS priorByName lsRefs;
  m ← sync_gone remoteID syncID (rd_del rd) taintAnyTagDeletion (map ls_Name lsRefs) 0 (range priorByName);
  mret (syncID, n + m).

(** [_ = f(...)] *)
Definition ignoring {A} (m : SE S error A) (s : S) : S :=
  match m s with
  | Ok (_, s') => s'
  | Err _ => s
  end.

(** [for i := range prior { priorByName[prior[i].TagName] = &prior[i] }] *)
Definition index_by_name (prior : list Ref) : gmap string Ref :=
  foldl (λ m r, <[rf_TagName r := r]> m) ∅ prior.

(** The result, the error and the store after the call.  [LsRemote] is the git runner,
    [error_text] is [err.Error()]. *)
Definition SyncRemote (LsRemote : string → res (list LsRemoteRef)) (error_text : error → string)
    (range : gmap string Ref → list (string * Ref)) (holder : string) (rd : Readings) (remoteID : Z) (s : S)
    : option SyncResult * option error * S :=
  match st_GetRemote remoteID s with
  | Err e => (None, Some e, s)
  | Ok (r, s) =>
  match AcquireRemoteLease (rd_lease rd) remoteID holder leaseTTL s with
  | Err e => (None, Some e, s)
  | Ok (lease, s) =>
      let startNS := rd_start rd in
      let headBefore := le_ChainHeadAtLease lease in
      match LsRemote (rm_URL r) with
      | Err lsErr =>
          let s := ignoring (st_SetRemoteHealth (rd_wall rd) remoteID RemoteDegraded (error_text lsErr) startNS) s in
          let s := ignoring (Release (Some lease) headBefore (rm_ChainLen r)) s in
          (Some (mkSyncResult 0 SyncFailed 0 0 headBefore headBefore), Some lsErr, s)
      | Ok lsRefs =>
      match st_ListTags remoteID s with
      | Err e =>
          let s := ignoring (Release (Some lease) headBefore (rm_ChainLen r)) s in
          (None, Some e, s)
      | Ok (prior, s) =>
          let priorByName := index_by_name prior in
          let '(txRes, s) := st_WithTx
            (sync_tx range rd remoteID (rm_TaintAnyTagDeletion r) headBefore priorByName lsRefs) s in
          match txRes with
          | Err txErr =>
              let s := ignoring (Release (Some lease) headBefore (rm_ChainLen r)) s in
              let s := ignoring (st_SetRemoteHealth (rd_wall rd) remoteID RemoteDegraded (error_text txErr) (rd_end rd)) s in
              (Some (mkSyncResult 0 SyncFailed 0 0 headBefore headBefore), Some txErr, s)
          | Ok (syncID, changed) =>
          match st_GetChainHead remoteID s with
          | Err e => (None, Some e, s)
          | Ok ((headAfter, newLen), s) =>
          match Release (Some lease) headAfter newLen s with
          | Err e => (None, Some e, s)
          | Ok (_, s) =>
              let s := ignoring (st_SetRemoteHealth (rd_wall rd) remoteID RemoteActive "" (rd_end rd)) s in
              (Some (mkSyncResult syncID SyncOk (Z.of_nat (length lsRefs)) changed headBefore headAfter), None, s)
          end end end
      end end
  end end.
End syncer.
