(* ===== verification/SyncCorrect.v ===== *)
(** Correctness of [SyncRemote], proved against the promise of the persistence seam
    and then stated for the SQLite store. *)
From S2P Require Import Prelude GoStrings Sha256 Model Chain SyncDiff StoreSpec Lock SyncRemote.
#[local] Open Scope Z_scope.

(** * What a good store state is *)

(** Stored tags have ids the columns can hold, and are tainted exactly when the time
    of the first taint is recorded. *)
Definition tag_ok (r : Ref) : Prop :=
  ref_storable r ∧ (rf_Tainted r = true ↔ is_Some (rf_TaintFirstNS r)).
Definition tags_ok (a : Abs) : Prop := ∀ k r, a_refs a !! k = Some r → tag_ok r.

Record good (a : Abs) : Prop := {
  good_abs : abs_ok a;
  good_tags : tags_ok a;
  good_syncs : syncs_ok a;
  good_owner : owner_ok a;
}.

(** The sync a transaction writes for. *)
Definition current (a : Abs) (rid syncID : Z) : Prop :=
  syncID ≠ 0 ∧ has_sync_id a syncID ∧ (∀ s, s ∈ a_syncs a → sy_ID s = syncID → sy_RemoteID s = rid).

(** What one part of a sync leaves alone: tags under other names, other remotes, the
    syncs, the leases; the spine only grows, rows keep their ids, and of the
    remote itself only the chain head moves. *)
Record frame (rid : Z) (names : list string) (a a' : Abs) : Prop := {
  frame_refs k : k.1 ≠ rid ∨ k.2 ∉ names → a_refs a' !! k = a_refs a !! k;
  frame_ids k r : a_refs a !! k = Some r → ∃ r', a_refs a' !! k = Some r' ∧ rf_ID r' = rf_ID r;
  frame_syncs : a_syncs a' = a_syncs a;
  frame_leases : a_leases a' = a_leases a;
  frame_events : a_events a `prefix_of` a_events a';
  frame_other k : k ≠ rid → a_remotes a' !! k = a_remotes a !! k;
  frame_remote rem : a_remotes a !! rid = Some rem → ∃ h n, a_remotes a' !! rid = Some (set_chain rem h n);
}.

(** * The outcome for a tag *)

(** A tag of the listing: the projection shows it live with the ids read; it is
    tainted if it was, or if this sync found it moved; the first taint time never
    changes; a new taint is in the spine with the two ids. *)
Definition seen_result (rid : Z) (prior : gmap string Ref) (a : Abs) (now : LsRemoteRef) : Prop :=
  let prev := prior !! ls_Name now in
  let delta := ClassifyTag prev (Some now) in
  ∃ ref, a_refs a !! (rid, ls_Name now) = Some ref ∧
    rf_CurrentOID ref = ls_OID now ∧
    rf_CurrentPeeledOID ref = (if IsZero (ls_PeeledOID now) then ls_OID now else ls_PeeledOID now) ∧
    rf_IsAnnotatedTag ref = ls_IsAnnotatedTag now ∧
    rf_Deleted ref = false ∧
    rf_FirstOID ref = match prev with Some p => rf_FirstOID p | None => ls_OID now end ∧
    (rf_Tainted ref = true ↔ (∃ p, prev = Some p ∧ rf_Tainted p = true) ∨ is_Some (Taint delta)) ∧
    (∀ p n, prev = Some p → rf_TaintFirstNS p = Some n → rf_TaintFirstNS ref = Some n) ∧
    (∀ reason, Taint delta = Some reason →
       ∃ e p, prev = Some p ∧ e ∈ a_events a ∧ te_RemoteID e = rid ∧ te_RefID e = rf_ID ref ∧
         te_Reason e = reason ∧ te_FromOID e = rf_CurrentOID p ∧ te_ToOID e = ls_OID now).

(** The ledger row of a changed tag of the listing. *)
Definition seen_row (rid syncID nowNS : Z) (prior : gmap string Ref) (a : Abs) (now : LsRemoteRef) (o : Observation) : Prop :=
  let prev := prior !! ls_Name now in
  ob_RemoteID o = rid ∧ ob_SyncID o = syncID ∧ ob_ObservedAtNS o = nowNS ∧
  ob_EventType o = Event (ClassifyTag prev (Some now)) ∧
  ob_PrevOID o = match prev with Some p => rf_CurrentOID p | None => zeroOID end ∧
  ob_NewOID o = ls_OID now ∧ ob_NewPeeledOID o = ls_PeeledOID now ∧
  ∃ ref, a_refs a !! (rid, ls_Name now) = Some ref ∧ rf_ID ref = ob_RefID o.

Definition changed (prior : gmap string Ref) (now : LsRemoteRef) : Prop :=
  Event (ClassifyTag (prior !! ls_Name now) (Some now)) ≠ "".
#[global] Instance changed_dec prior now : Decision (changed prior now).
Proof. unfold changed. apply _. Defined.

(** A tag gone from the listing. *)
Definition gone_result (rid : Z) (policy : bool) (a : Abs) (prev : Ref) : Prop :=
  ∃ ref, a_refs a !! (rid, rf_TagName prev) = Some ref ∧
    rf_CurrentOID ref = rf_CurrentOID prev ∧ rf_Deleted ref = true ∧
    (rf_Tainted ref = true ↔ rf_Tainted prev = true ∨ policy = true) ∧
    (∀ n, rf_TaintFirstNS prev = Some n → rf_TaintFirstNS ref = Some n) ∧
    (policy = true → ∃ e, e ∈ a_events a ∧ te_RemoteID e = rid ∧ te_RefID e = rf_ID ref ∧
       te_Reason e = TaintTagDeletedRecreated ∧ te_FromOID e = rf_CurrentOID prev ∧ te_ToOID e = zeroOID).

Definition gone_row (rid syncID : Z) (a : Abs) (prev : Ref) (o : Observation) : Prop :=
  ob_RemoteID o = rid ∧ ob_SyncID o = syncID ∧ ob_EventType o = EventTagDeleted ∧
  ob_PrevOID o = rf_CurrentOID prev ∧ ob_NewOID o = zeroOID ∧
  ∃ ref, a_refs a !! (rid, rf_TagName prev) = Some ref ∧ rf_ID ref = ob_RefID o.

(** The whole of a committed sync of [rid], from [a] to [a']: [seen] are the rows of the
    changed tags of the listing in its order, then [del] is what was marked deleted. *)
Record sync_effect (rid syncID ns : Z) (policy : bool) (prior : gmap string Ref) (lsRefs : list LsRemoteRef)
    (a a' : Abs) (count : Z) : Prop := {
  se_seen : Forall (seen_result rid prior a') lsRefs;
  se_gone name p : prior !! name = Some p → name ∉ ls_Name <$> lsRefs →
    if rf_Deleted p then a_refs a' !! (rid, name) = Some p else gone_result rid policy a' p;
  se_none name : prior !! name = None → name ∉ ls_Name <$> lsRefs → a_refs a' !! (rid, name) = None;
  se_rows : ∃ seen del rows,
    a_obs a' = a_obs a ++ seen ++ rows ∧ count = Z.of_nat (length (seen ++ rows)) ∧
    Forall2 (seen_row rid syncID ns prior a') (filter (changed prior) lsRefs) seen ∧
    Forall2 (gone_row rid syncID a') del rows ∧
    (∀ p, p ∈ del ↔ prior !! rf_TagName p = Some p ∧ rf_TagName p ∉ ls_Name <$> lsRefs ∧ rf_Deleted p = false);
  se_other_refs k : k.1 ≠ rid → a_refs a' !! k = a_refs a !! k;
  se_events : a_events a `prefix_of` a_events a';
  se_other_remotes k : k ≠ rid → a_remotes a' !! k = a_remotes a !! k;
  se_remote rem : a_remotes a !! rid = Some rem → ∃ h n, a_remotes a' !! rid = Some (set_chain rem h n);
}.

Definition ls_wf (now : LsRemoteRef) : Prop := oid_wf (ls_OID now) ∧ storable (ls_PeeledOID now).

(** * Lemmas *)

Lemma frame_refl rid names a : frame rid names a a.
Proof.
  split; try done; [by eauto|]. intros rem Hrem.
  exists (rm_ChainHeadHash rem), (rm_ChainLen rem). rewrite Hrem. by destruct rem.
Qed.

Lemma frame_trans rid n1 n2 names a1 a2 a3 :
  frame rid n1 a1 a2 → frame rid n2 a2 a3 → n1 ⊆ names → n2 ⊆ names → frame rid names a1 a3.
Proof.
  intros H1 H2 Hn1 Hn2. split.
  - intros k Hk. rewrite (frame_refs _ _ _ _ H2), (frame_refs _ _ _ _ H1); [done| |]; set_solver.
  - intros k r (r2 & Hk2 & E2)%(frame_ids _ _ _ _ H1).
    destruct (frame_ids _ _ _ _ H2 _ _ Hk2) as (r3 & ? & ?). exists r3. split; [done|congruence].
  - by rewrite (frame_syncs _ _ _ _ H2), (frame_syncs _ _ _ _ H1).
  - by rewrite (frame_leases _ _ _ _ H2), (frame_leases _ _ _ _ H1).
  - etrans; [apply H1|apply H2].
  - intros k Hk. by rewrite (frame_other _ _ _ _ H2), (frame_other _ _ _ _ H1).
  - intros rem (h & n & Hrem)%(frame_remote _ _ _ _ H1).
    destruct (frame_remote _ _ _ _ H2 _ Hrem) as (h' & n' & ->). by eauto.
Qed.

Lemma frame_weaken rid n1 names a a' : frame rid n1 a a' → n1 ⊆ names → frame rid names a a'.
Proof. intros H1 Hn. by apply (frame_trans rid n1 n1 names a a' a'); [|apply frame_refl| |]. Qed.

Lemma frame_trans_same rid names a1 a2 a3 : frame rid names a1 a2 → frame rid names a2 a3 → frame rid names a1 a3.
Proof. intros ??. by eapply frame_trans. Qed.

(** The outcome of a tag survives work on other tags. *)
Lemma seen_result_frame rid names prior a a' now :
  frame rid names a a' → ls_Name now ∉ names → seen_result rid prior a now → seen_result rid prior a' now.
Proof.
  intros Hf Hn (ref & Href & H1 & H2 & H3 & H4 & H5 & H6 & H7 & H8). exists ref.
  rewrite (frame_refs _ _ _ _ Hf) by (by right). split_and!; [done..|].
  intros reason Hr. destruct (H8 reason Hr) as (e & p & Hp & He & Hrest). exists e, p.
  split; [done|]. split; [|done]. destruct (frame_events _ _ _ _ Hf) as [k ->]. apply elem_of_app. by left.
Qed.

Lemma seen_row_frame rid names syncID nowNS prior a a' now o :
  frame rid names a a' → seen_row rid syncID nowNS prior a now o → seen_row rid syncID nowNS prior a' now o.
Proof.
  intros Hf (? & ? & ? & ? & ? & ? & ? & ref & Href & Hid). unfold seen_row. split_and!; try done.
  destruct (frame_ids _ _ _ _ Hf _ _ Href) as (r' & ? & ?). exists r'. split; [done|congruence].
Qed.

Lemma gone_result_frame rid names policy a a' prev :
  frame rid names a a' → rf_TagName prev ∉ names → gone_result rid policy a prev → gone_result rid policy a' prev.
Proof.
  intros Hf Hn (ref & Href & H1 & H2 & H3 & H4 & H5). exists ref.
  rewrite (frame_refs _ _ _ _ Hf) by (by right). split_and!; [done..|].
  intros Hp. destruct (H5 Hp) as (e & He & Hrest). exists e.
  split; [|done]. destruct (frame_events _ _ _ _ Hf) as [k ->]. apply elem_of_app. by left.
Qed.

Lemma gone_row_frame rid names syncID a a' prev o :
  frame rid names a a' → gone_row rid syncID a prev o → gone_row rid syncID a' prev o.
Proof.
  intros Hf (? & ? & ? & ? & ? & ref & Href & Hid). unfold gone_row. split_and!; try done.
  destruct (frame_ids _ _ _ _ Hf _ _ Href) as (r' & ? & ?). exists r'. split; [done|congruence].
Qed.

Section sync_tx.
Context {S T : Type} `{HS : StoreSpec S T}.

(** The invariant of the transaction body. *)
Record txinv (rid syncID : Z) (t : T) : Prop := {
  tx_ok : t_ok t;
  tx_good : good (t_abs t);
  tx_remote : is_Some (a_remotes (t_abs t) !! rid);
  tx_current : current (t_abs t) rid syncID;
}.

(** ** Each call succeeds and keeps the invariant *)

Lemma upsert_run rid syncID t ref :
  txinv rid syncID t → tag_ok ref → rf_RemoteID ref = rid → name_ok (rf_TagName ref) →
  ∃ id t', tx_UpsertRefProjection ref t = Ok (ref_with_id ref id, t') ∧ txinv rid syncID t' ∧
    match a_refs (t_abs t) !! (rid, rf_TagName ref) with
    | Some old => id = rf_ID old
    | None => ∀ k r, a_refs (t_abs t) !! k = Some r → rf_ID r ≠ id
    end ∧
    t_abs t' = with_a_refs (t_abs t)
      (<[(rid, rf_TagName ref) := upserted (a_refs (t_abs t) !! (rid, rf_TagName ref)) ref id]> (a_refs (t_abs t))).
Proof.
  intros [Hok Hgood Hrem Hcur] [Hst Htaint] Hrid Hname.
  destruct (upsert_total t ref Hok Hst) as [[r t'] Hrun]; [by rewrite Hrid|done|].
  destruct (upsert_refines t ref r t' Hok Hst Hrun) as (Hok' & _ & Hspec).
  pose proof (upsert_ok _ _ _ _ Hspec ltac:(by rewrite Hrid) (good_abs _ Hgood)) as Habs.
  destruct Hspec as (id & Hid & -> & Ha). rewrite Hrid in *. exists id, t'. split; [done|]. split; [|by split].
  rewrite Ha in Habs. split; rewrite ?Ha; [done| |done|done]. split; [done| |apply Hgood|apply Hgood].
  intros k r. cbn. rewrite lookup_insert_Some. intros [[<- <-]|[_ Hk]]; [|by eapply good_tags].
  destruct Hst as (Hs1 & Hs2 & Hs3). split; [|done]. split_and!; [done..|].
  unfold upserted. cbn. destruct (a_refs (t_abs t) !! _) as [old|] eqn:Hold; [|done].
  by apply (good_tags _ Hgood _ _ Hold).
Qed.

Lemma append_run rid syncID t o :
  txinv rid syncID t → obs_storable o → ob_RemoteID o = rid → ob_SyncID o = syncID →
  has_ref_id (t_abs t) (ob_RefID o) → EventType_Valid (ob_EventType o) = true → ob_CanonicalMeta o = "" →
  ∃ r t' row, tx_AppendObservation o t = Ok (r, t') ∧ txinv rid syncID t' ∧
    (∃ seq p h, row = chained_obs o (ob_ID r.2) syncID seq p h ∧ r.2 = row) ∧
    a_obs (t_abs t') = a_obs (t_abs t) ++ [row] ∧
    a_refs (t_abs t') = a_refs (t_abs t) ∧ frame rid [] (t_abs t) (t_abs t').
Proof.
  intros [Hok Hgood Hrem Hcur] Hst Hrid Hsync Href Hev Hmeta.
  destruct (append_total t o Hok (good_abs _ Hgood) Hst) as [[r t'] Hrun];
    [by rewrite Hrid|done|done|by rewrite Hsync; apply Hcur|by rewrite Hsync; apply Hcur|rewrite Hmeta; apply text_ok_empty|].
  destruct (append_refines t o r t' Hok Hst Hrun) as (Hok' & _ & Hspec).
  pose proof (append_ok _ _ _ _ _ Hspec (good_abs _ Hgood)) as Habs.
  destruct Hspec as (rem & id & Hrem' & Hlen & Hs & -> & Ha).
  destruct Hcur as (Hnz & Hhas & Huniq).
  rewrite Hsync, (proj2 (Z.eqb_neq syncID 0) Hnz) in Ha. rewrite Hsync in *. rewrite Hrid in *.
  eexists _, t', _. split; [done|]. split_and!.
  - rewrite Ha in Habs. split; rewrite ?Ha; [done| | |]; cbn.
    + split; [done|apply Hgood| |].
      * intros o'. cbn. rewrite elem_of_app, list_elem_of_singleton.
        intros [Hin| ->]; [by apply (good_syncs _ Hgood)|done].
      * intros o' s. cbn. rewrite elem_of_app, list_elem_of_singleton.
        intros [Hin| ->] Hs'; [by apply (good_owner _ Hgood)|]. cbn. rewrite Hrid. by apply Huniq.
    + rewrite lookup_insert_is_Some. by left.
    + done.
  - eexists _, _, _. split; [|done]. reflexivity.
  - by rewrite Ha.
  - by rewrite Ha.
  - rewrite Ha. split; cbn; try done; [by eauto| |].
    + intros k Hk. by rewrite lookup_insert_ne.
    + intros rem' Hr'. rewrite lookup_insert_eq. naive_solver.
Qed.

Lemma taint_run rid syncID t e :
  txinv rid syncID t → storable (te_FromOID e) → storable (te_ToOID e) → te_RemoteID e = rid →
  has_ref_id (t_abs t) (te_RefID e) → (∀ id, te_ObservationID e = Some id → has_obs_id (t_abs t) id) →
  TaintReason_Valid (te_Reason e) = true → te_Detail e = "" →
  ∃ id t' f, tx_AppendTaintEvent e t = Ok (id, t') ∧ txinv rid syncID t' ∧
    a_refs (t_abs t') = a_refs (t_abs t) ∧ a_obs (t_abs t') = a_obs (t_abs t) ∧
    frame rid [] (t_abs t) (t_abs t') ∧ f ∈ a_events (t_abs t') ∧
    te_RemoteID f = rid ∧ te_RefID f = te_RefID e ∧ te_Reason f = te_Reason e ∧
    te_FromOID f = te_FromOID e ∧ te_ToOID f = te_ToOID e.
Proof.
  intros [Hok Hgood Hrem Hcur] Hf Ht Hrid Href Hobs Hreason Hdetail.
  destruct (taint_total t e Hok Hf Ht) as [[id t'] Hrun]; [by rewrite Hrid|done..|rewrite Hdetail; apply text_ok_empty|].
  destruct (taint_refines t e id t' Hok Hf Ht Hrun) as (Hok' & _ & Hspec).
  pose proof (taint_ok _ _ _ _ Hspec (good_abs _ Hgood)) as Habs.
  destruct Hspec as [(f & Hin & (E1 & E2 & E3 & E4 & E5 & _) & _ & Ha)|[_ Ha]].
  - exists id, t', f. rewrite Ha. split; [done|]. split; [by split; rewrite ?Ha|].
    split_and!; [done|done|apply frame_refl|done|congruence..].
  - exists id, t', (recorded e id). split; [done|]. split.
    { split; rewrite ?Ha; try done. split; [by rewrite <- Ha|apply Hgood..]. }
    rewrite Ha. cbn. split_and!; try done.
    + split; cbn; try done; [by eauto|by exists [recorded e id]|]. intros rem' Hr'.
      exists (rm_ChainHeadHash rem'), (rm_ChainLen rem'). rewrite Hr'. by destruct rem'.
    + apply elem_of_app. right. by left.
Qed.

(** The row of a tag after an upsert. *)
Lemma upsert_frame a rid name r' :
  (∀ r, a_refs a !! (rid, name) = Some r → rf_ID r' = rf_ID r) →
  frame rid [name] a (with_a_refs a (<[(rid, name) := r']> (a_refs a))).
Proof.
  intros Hid. split; cbn; try done.
  - intros [k1 k2] Hk. cbn in Hk. rewrite lookup_insert_ne; [done|]. intros [= -> ->]. set_solver.
  - intros k r Hk. destruct (decide (k = (rid, name))) as [->|].
    + rewrite lookup_insert_eq. eauto.
    + rewrite lookup_insert_ne by done. eauto.
  - intros rem Hrem. exists (rm_ChainHeadHash rem), (rm_ChainLen rem). rewrite Hrem. by destruct rem.
Qed.

(** The fields an upsert writes. *)
Definition same_fields (cur ref : Ref) : Prop := cur = upserted (Some cur) ref (rf_ID ref).

Lemma same_fields_inv cur ref :
  same_fields cur ref →
  rf_ID cur = rf_ID ref ∧ rf_CurrentOID cur = rf_CurrentOID ref ∧
  rf_CurrentPeeledOID cur = rf_CurrentPeeledOID ref ∧ rf_IsAnnotatedTag cur = rf_IsAnnotatedTag ref ∧
  rf_Deleted cur = rf_Deleted ref ∧ rf_Tainted cur = rf_Tainted ref ∧ rf_TaintFirstNS cur = rf_TaintFirstNS ref.
Proof. unfold same_fields. intros ->. done. Qed.

Lemma projectTag_fields prev now ns rid :
  let ref := projectTag prev now ns rid in
  rf_CurrentOID ref = ls_OID now ∧
  rf_CurrentPeeledOID ref = (if IsZero (ls_PeeledOID now) then ls_OID now else ls_PeeledOID now) ∧
  rf_IsAnnotatedTag ref = ls_IsAnnotatedTag now ∧ rf_Deleted ref = false ∧
  (rf_Tainted ref = true ↔ ∃ p, prev = Some p ∧ rf_Tainted p = true) ∧
  (∀ p n, prev = Some p → rf_TaintFirstNS p = Some n → rf_TaintFirstNS ref = Some n).
Proof. unfold projectTag. destruct prev as [p|]; cbn; split_and!; try done; naive_solver. Qed.

(** An unmoved tag: its row alone tells the outcome. *)
Lemma quiet_result rid prior a now cur ns id :
  let prev := prior !! ls_Name now in
  let ref := projectTag prev now ns rid in
  Taint (ClassifyTag prev (Some now)) = None →
  a_refs a !! (rid, ls_Name now) = Some cur → same_fields cur (ref_with_id ref id) →
  rf_FirstOID cur = match prev with Some p => rf_FirstOID p | None => ls_OID now end →
  seen_result rid prior a now.
Proof.
  intros prev ref Hnone Hcur (E1 & E2 & E3 & E4 & E5 & E6 & E7)%same_fields_inv Hfirst.
  destruct (projectTag_fields prev now ns rid) as (F1 & F2 & F3 & F4 & F5 & F6).
  cbn [rf_ID rf_CurrentOID rf_CurrentPeeledOID rf_IsAnnotatedTag rf_Deleted rf_Tainted rf_TaintFirstNS ref_with_id] in *.
  exists cur. fold prev. unfold ref in *. rewrite Hnone, E6, E7, F5. split_and!; try done; try congruence.
  by split; [left|intros [?|[]]].
Qed.

Lemma applyTaint_run rid syncID t ref from to reason obsID ns cur :
  txinv rid syncID t → tag_ok ref → rf_RemoteID ref = rid →
  a_refs (t_abs t) !! (rid, rf_TagName ref) = Some cur → same_fields cur ref →
  storable from → storable to → has_obs_id (t_abs t) obsID → TaintReason_Valid reason = true →
  ∃ t' cur' f, applyTaint rid ref from to reason obsID ns t = Ok ((), t') ∧ txinv rid syncID t' ∧
    a_obs (t_abs t') = a_obs (t_abs t) ∧ frame rid [rf_TagName ref] (t_abs t) (t_abs t') ∧
    a_refs (t_abs t') !! (rid, rf_TagName ref) = Some cur' ∧
    rf_ID cur' = rf_ID ref ∧ rf_CurrentOID cur' = rf_CurrentOID ref ∧
    rf_CurrentPeeledOID cur' = rf_CurrentPeeledOID ref ∧ rf_IsAnnotatedTag cur' = rf_IsAnnotatedTag ref ∧
    rf_Deleted cur' = rf_Deleted ref ∧ rf_FirstOID cur' = rf_FirstOID cur ∧
    rf_Tainted cur' = true ∧ (∀ n, rf_TaintFirstNS ref = Some n → rf_TaintFirstNS cur' = Some n) ∧
    f ∈ a_events (t_abs t') ∧ te_RemoteID f = rid ∧ te_RefID f = rf_ID ref ∧ te_Reason f = reason ∧
    te_FromOID f = from ∧ te_ToOID f = to.
Proof.
  intros Hinv [Hst Htaint] Hrid Hcur Hsame Hf Ht Hobs Hreason. unfold applyTaint.
  assert (rf_ID cur = rf_ID ref) as Hid by (rewrite Hsame; done).
  assert (∃ t1 ref1 cur', (match rf_TaintFirstNS ref with
            | None => tx_UpsertRefProjection (set_tainted ref ns) | Some _ => mret ref end) t = Ok (ref1, t1) ∧
          rf_ID ref1 = rf_ID ref ∧ txinv rid syncID t1 ∧ a_obs (t_abs t1) = a_obs (t_abs t) ∧
          frame rid [rf_TagName ref] (t_abs t) (t_abs t1) ∧ a_refs (t_abs t1) !! (rid, rf_TagName ref) = Some cur' ∧
          cur' = upserted (Some cur) (if rf_TaintFirstNS ref then ref else set_tainted ref ns) (rf_ID ref) ∧
          rf_Tainted cur' = true)
    as (t1 & ref1 & cur' & Hrun & Hid1 & Hinv1 & Hobs1 & Hfr & Hl & Ec & Htrue).
  { destruct (rf_TaintFirstNS ref) as [n|] eqn:Hfirst.
    - exists t, ref, cur. split_and!; try done; [apply frame_refl|].
      rewrite Hsame. cbn. apply Htaint. eauto.
    - destruct (upsert_run rid syncID t (set_tainted ref ns)) as (id & t1 & Hrun & Hinv1 & Hcase & Ha); [done| |done| |].
      { split; [done|]. cbn. naive_solver. } { by apply (stored_names t _ _ (tx_ok _ _ _ Hinv) Hcur). }
      cbn [rf_TagName set_tainted] in *. rewrite Hcur in *. subst id.
      eexists t1, _, _. split; [exact Hrun|]. rewrite Ha. cbn.
      split_and!; try done.
      + apply upsert_frame. intros r Hr. rewrite Hcur in Hr. by injection Hr as <-.
      + by rewrite lookup_insert_eq, Hid. }
  destruct (taint_run rid syncID t1
    (mkTaintEvent 0 rid (rf_ID ref1) reason (Some obsID) from to ns None "" "" ""))
    as (id & t2 & f & Hrun2 & Hinv2 & Hrefs2 & Hobs2 & Hfr2 & Hin & Hf1 & Hf2 & Hf3 & Hf4 & Hf5);
    [done|done|done|done| | |done|done|].
  { exists (rid, rf_TagName ref), cur'. split; [done|]. cbn. rewrite Ec. by rewrite Hid1. }
  { intros ? [= <-]. destruct Hobs as (o & Ho & E). exists o. by rewrite Hobs1. }
  exists t2, cur', f. split; [|split; [done|]].
  { apply SE_bind_ok. exists ref1, t1. split; [done|]. apply SE_bind_ok. by exists id, t2. }
  rewrite Hobs2, Hrefs2. split; [done|]. split.
  { eapply frame_trans; [exact Hfr|exact Hfr2|set_solver|set_solver]. }
  cbn in *. rewrite Hid1 in *.
  split_and!; try done; rewrite Ec; destruct (rf_TaintFirstNS ref) eqn:E; cbn; intros; congruence.
Qed.

Lemma projectTag_ok prev now ns rid :
  ls_wf now → (∀ p, prev = Some p → tag_ok p) → tag_ok (projectTag prev now ns rid).
Proof.
  intros [Hwf Hp] Hprev. unfold projectTag.
  assert (storable (if IsZero (ls_PeeledOID now) then ls_OID now else ls_PeeledOID now)) as Hpeel.
  { destruct (IsZero _); [by right|done]. }
  destruct prev as [p|].
  - destruct (Hprev p eq_refl) as [(Hs1 & Hs2 & Hs3) Ht]. split; [|done]. split_and!; cbn; [by right|done|done].
  - split; [split_and!; cbn; [by right|done|by right]|]. cbn. split; [done|by intros []].
Qed.

Lemma ClassifyTag_taint_prev prev now reason :
  Taint (ClassifyTag prev (Some now)) = Some reason → ∃ p, prev = Some p.
Proof. destruct prev; [eauto|done]. Qed.

Lemma storable_zero o : storable o → IsZero o = true → o = zeroOID.
Proof. intros [->|Hwf] Hz; [done|]. apply oid_wf_not_zero in Hwf. congruence. Qed.

Lemma seen_obs_prev rid refID syncID ns event prev now :
  (∀ p, prev = Some p → tag_ok p) →
  ob_PrevOID (seen_obs rid refID syncID ns event prev now) =
  match prev with Some p => rf_CurrentOID p | None => zeroOID end.
Proof.
  intros Hprev. unfold seen_obs. destruct prev as [p|]; [|done].
  destruct (Hprev p eq_refl) as [(Hs & _) _]. destruct (IsZero _) eqn:E; cbn; [|done].
  symmetry. by apply storable_zero.
Qed.

Lemma seen_obs_fields rid refID syncID ns event prev now :
  let o := seen_obs rid refID syncID ns event prev now in
  ob_RemoteID o = rid ∧ ob_RefID o = refID ∧ ob_SyncID o = syncID ∧ ob_EventType o = event ∧
  ob_NewOID o = ls_OID now ∧ ob_NewPeeledOID o = ls_PeeledOID now ∧ ob_ObservedAtNS o = ns.
Proof. unfold seen_obs. destruct prev as [p|]; [destruct (negb _)|]; done. Qed.

Lemma seen_obs_storable rid refID syncID ns event prev now :
  ls_wf now → (∀ p, prev = Some p → tag_ok p) → obs_storable (seen_obs rid refID syncID ns event prev now).
Proof.
  intros [Hwf Hp] Hprev. unfold seen_obs, obs_storable. destruct prev as [p|].
  - destruct (Hprev p eq_refl) as [(Hs1 & Hs2 & _) _]. destruct (IsZero _); cbn; split_and!; try done; (by left) || by right.
  - cbn. split_and!; try done; (by left) || by right.
Qed.

(** The projection of a tag of the listing, before its observation. *)
Lemma project_run rid syncID ns (prior : gmap string Ref) t now :
  txinv rid syncID t → ls_wf now → name_ok (ls_Name now) →
  a_refs (t_abs t) !! (rid, ls_Name now) = prior !! ls_Name now →
  let prev := prior !! ls_Name now in
  let ref := projectTag prev now ns rid in
  (∀ p, prev = Some p → tag_ok p) ∧
  ∃ id t1 cur, tx_UpsertRefProjection ref t = Ok (ref_with_id ref id, t1) ∧ txinv rid syncID t1 ∧
    frame rid [ls_Name now] (t_abs t) (t_abs t1) ∧ a_obs (t_abs t1) = a_obs (t_abs t) ∧
    a_refs (t_abs t1) !! (rid, ls_Name now) = Some cur ∧ same_fields cur (ref_with_id ref id) ∧
    tag_ok (ref_with_id ref id) ∧ rf_RemoteID ref = rid ∧ rf_TagName ref = ls_Name now ∧
    rf_FirstOID cur = match prev with Some p => rf_FirstOID p | None => ls_OID now end.
Proof.
  intros Hinv Hwf Hnok Hprior prev ref. fold prev in Hprior.
  assert (∀ p, prev = Some p → tag_ok p ∧ rf_RemoteID p = rid) as Hprev.
  { intros p Hp. rewrite Hp in Hprior. split; [by eapply (good_tags _ (tx_good _ _ _ Hinv))|].
    destruct (ok_refs _ (good_abs _ (tx_good _ _ _ Hinv))) as [Hr _].
    by destruct (Hr _ _ Hprior) as [[= -> _] _]. }
  assert (rf_RemoteID ref = rid ∧ rf_TagName ref = ls_Name now) as [Hr0 Hn0].
  { unfold ref, projectTag. destruct prev as [p|]; [|done]. cbn. split; [by apply (Hprev p)|done]. }
  assert (tag_ok ref) as Hok0 by (apply projectTag_ok; [done|]; intros p Hp; by apply Hprev).
  split; [intros p Hp; by apply Hprev|].
  destruct (upsert_run rid syncID t ref) as (id & t1 & Hrun1 & Hinv1 & Hcase & Ha1); [done|done|done|by rewrite Hn0|].
  rewrite Hn0, Hprior in *. exists id, t1, (upserted prev ref id).
  split; [done|]. split; [done|]. rewrite Ha1. split_and!; try done.
  - apply upsert_frame. intros r Hr. rewrite Hprior in Hr. rewrite Hr in Hcase. by rewrite <- Hcase.
  - cbn. by rewrite lookup_insert_eq.
  - unfold upserted, ref, projectTag. by destruct prev.
Qed.

(** A changed tag: its observation and, when it moved, its taint. *)
Lemma loud_run rid syncID ns (prior : gmap string Ref) t1 now ref id cur :
  let prev := prior !! ls_Name now in
  let delta := ClassifyTag prev (Some now) in
  ref = projectTag prev now ns rid →
  txinv rid syncID t1 → ls_wf now → (∀ p, prev = Some p → tag_ok p) → Event delta ≠ "" →
  a_refs (t_abs t1) !! (rid, ls_Name now) = Some cur → same_fields cur (ref_with_id ref id) →
  tag_ok (ref_with_id ref id) → rf_RemoteID ref = rid → rf_TagName ref = ls_Name now →
  rf_FirstOID cur = match prev with Some p => rf_FirstOID p | None => ls_OID now end →
  ∃ t' row, (r ← tx_AppendObservation (seen_obs rid id syncID ns (Event delta) prev now);
     match Taint delta with
     | Some reason => applyTaint rid (ref_with_id ref id) (ob_PrevOID r.2) (ls_OID now) reason (ob_ID r.2) ns;; mret 1
     | None => mret 1
     end) t1 = Ok (1, t') ∧ txinv rid syncID t' ∧
    frame rid [ls_Name now] (t_abs t1) (t_abs t') ∧ seen_result rid prior (t_abs t') now ∧
    a_obs (t_abs t') = a_obs (t_abs t1) ++ [row] ∧ seen_row rid syncID ns prior (t_abs t') now row.
Proof.
  intros prev delta Eref Hinv Hwf Hprev Hloud Hcur Hsame Hok Hrid Hname Hfirst.
  destruct (projectTag_fields prev now ns rid) as (F1 & F2 & F3 & F4 & F5 & F6). rewrite <- Eref in *.
  set (o := seen_obs rid id syncID ns (Event delta) prev now).
  destruct (seen_obs_fields rid id syncID ns (Event delta) prev now) as (O1 & O2 & O3 & O4 & O5 & O6 & O7).
  pose proof (seen_obs_prev rid id syncID ns (Event delta) prev now Hprev) as O8. fold o in O1, O2, O3, O4, O5, O6, O7, O8.
  destruct (append_run rid syncID t1 o)
    as (r & t2 & row & Hrun & Hinv2 & (seq & p & h & Erow & Er) & Hobs & Hrefs & Hfr); [done| |done|done| | | |].
  { by apply seen_obs_storable. }
  { exists (rid, ls_Name now), cur. split; [done|]. by rewrite Hsame, O2. }
  { rewrite O4. by destruct (ClassifyTag_event_valid prev (Some now)). }
  { unfold o, seen_obs. clear. destruct prev as [p|]; [by destruct (negb _)|done]. }
  assert (ob_PrevOID r.2 = match prev with Some p => rf_CurrentOID p | None => zeroOID end) as Hp
    by (by rewrite Er, Erow).
  assert (∀ a, (∃ ref', a_refs a !! (rid, ls_Name now) = Some ref' ∧ rf_ID ref' = id) →
    seen_row rid syncID ns prior a now row) as Hrow.
  { intros a (ref' & Hr' & Hid). rewrite Erow. unfold seen_row. split_and!; try done.
    exists ref'. split; [done|]. by rewrite Hid. }
  rewrite <- Hrefs in Hcur. destruct (Taint delta) as [reason|] eqn:Htaint.
  - destruct (ClassifyTag_taint_prev _ _ _ Htaint) as [p0 Hp0].
    destruct (applyTaint_run rid syncID t2 (ref_with_id ref id) (ob_PrevOID r.2) (ls_OID now) reason (ob_ID r.2) ns cur)
      as (t3 & cur' & f & Hrun3 & Hinv3 & Hobs3 & Hfr3 & Hl3 & C1 & C2 & C3 & C4 & C5 & C6 & C7 & C8 & Hin & E1 & E2 & E3 & E4 & E5);
      try done.
    { cbn. by rewrite Hname. } { rewrite Hp, Hp0. by apply Hprev. } { by right; apply Hwf. }
    { exists row. rewrite Hobs. split; [apply elem_of_app; right; by left|by rewrite Er]. }
    { by eapply ClassifyTag_taint_event. }
    cbn [rf_ID rf_TagName rf_CurrentOID rf_CurrentPeeledOID rf_IsAnnotatedTag rf_Deleted rf_FirstOID rf_Tainted
      rf_TaintFirstNS ref_with_id] in *.
    rewrite Hname in *. exists t3, row. split_and!.
    + apply SE_bind_ok. exists r, t2. split; [done|]. apply SE_bind_ok. by exists (), t3.
    + done.
    + eapply frame_trans; [exact Hfr|exact Hfr3|set_solver|set_solver].
    + exists cur'. fold prev delta. rewrite Htaint.
      split_and!; try done; try congruence.
      * split; [intros _; right; eauto|done].
      * intros q n Hq Hn. apply C8. by eapply F6.
      * intros ? [= <-]. exists f, p0. rewrite E4, Hp, Hp0. split_and!; try done. congruence.
    + by rewrite Hobs3.
    + apply Hrow. eauto.
  - exists t2, row. split_and!; try done.
    + apply SE_bind_ok. by exists r, t2.
    + eapply frame_weaken; [exact Hfr|set_solver].
    + rewrite Eref in Hsame. by eapply quiet_result.
    + apply Hrow. exists cur. split; [done|]. by rewrite Hsame.
Qed.

(** One tag of the listing. *)
Lemma sync_seen_one_run rid syncID ns prior t now :
  txinv rid syncID t → ls_wf now → name_ok (ls_Name now) →
  a_refs (t_abs t) !! (rid, ls_Name now) = prior !! ls_Name now →
  ∃ n t' new, sync_seen_one rid syncID ns prior now t = Ok (n, t') ∧ txinv rid syncID t' ∧
    frame rid [ls_Name now] (t_abs t) (t_abs t') ∧ seen_result rid prior (t_abs t') now ∧
    a_obs (t_abs t') = a_obs (t_abs t) ++ new ∧ n = Z.of_nat (length new) ∧
    Forall2 (seen_row rid syncID ns prior (t_abs t')) (if decide (changed prior now) then [now] else []) new.
Proof.
  intros Hinv Hwf Hnok Hprior.
  destruct (project_run rid syncID ns prior t now Hinv Hwf Hnok Hprior)
    as (Hprev & id & t1 & cur & Hrun1 & Hinv1 & Hfr1 & Ho1 & Hl1 & Hsame & Hok & Hrid & Hname & Hfirst).
  unfold sync_seen_one. set (prev := prior !! ls_Name now) in *.
  destruct (String.eqb_spec (Event (ClassifyTag prev (Some now))) "") as [Hquiet|Hloud].
  - assert (Taint (ClassifyTag prev (Some now)) = None) as Hnone.
    { destruct (Taint _) as [reason|] eqn:E; [|done]. exfalso. by eapply ClassifyTag_taint_event. }
    exists 0, t1, []. split; [apply SE_bind_ok; eexists _, t1; split; [exact Hrun1|done]|].
    rewrite app_nil_r. split_and!; try done.
    + by eapply quiet_result.
    + rewrite decide_False; [done|]. intros Hn. by apply Hn.
  - destruct (loud_run rid syncID ns prior t1 now (projectTag prev now ns rid) id cur)
      as (t2 & row & Hrun2 & Hinv2 & Hfr2 & Hres & Hobs & Hrow); try done.
    exists 1, t2, [row]. split; [apply SE_bind_ok; eexists _, t1; split; [exact Hrun1|exact Hrun2]|].
    rewrite Hobs, Ho1. split_and!; try done.
    + by eapply frame_trans_same.
    + rewrite decide_True by done. constructor; [exact Hrow|constructor].
Qed.

(** The listing. *)
Lemma sync_seen_run rid syncID ns prior lsRefs t :
  txinv rid syncID t → Forall ls_wf lsRefs → NoDup (ls_Name <$> lsRefs) → Forall name_ok (ls_Name <$> lsRefs) →
  (∀ now, now ∈ lsRefs → a_refs (t_abs t) !! (rid, ls_Name now) = prior !! ls_Name now) →
  ∃ n t' new, sync_seen rid syncID ns prior lsRefs t = Ok (n, t') ∧ txinv rid syncID t' ∧
    frame rid (ls_Name <$> lsRefs) (t_abs t) (t_abs t') ∧ Forall (seen_result rid prior (t_abs t')) lsRefs ∧
    a_obs (t_abs t') = a_obs (t_abs t) ++ new ∧ n = Z.of_nat (length new) ∧
    Forall2 (seen_row rid syncID ns prior (t_abs t')) (filter (changed prior) lsRefs) new.
Proof.
  revert t. induction lsRefs as [|now lsRefs IH]; intros t Hinv Hwf Hnd Hnok Hprior.
  { exists 0, t, []. rewrite app_nil_r. split_and!; try done. apply frame_refl. }
  apply Forall_cons in Hwf as [Hw Hwf]. cbn in Hnd, Hnok. apply NoDup_cons in Hnd as [Hn Hnd].
  apply Forall_cons in Hnok as [Hnok1 Hnok].
  destruct (sync_seen_one_run rid syncID ns prior t now) as (n1 & t1 & new1 & Hrun1 & Hinv1 & Hfr1 & Hres1 & Hobs1 & Hlen1 & Hrows1);
    [done|done|done|apply Hprior; left|].
  destruct (IH t1) as (n2 & t2 & new2 & Hrun2 & Hinv2 & Hfr2 & Hres2 & Hobs2 & Hlen2 & Hrows2); [done|done|done|done| |].
  { intros x Hx. rewrite (frame_refs _ _ _ _ Hfr1); [apply Hprior; by right|]. right. cbn.
    intros E%list_elem_of_singleton. apply Hn. rewrite <- E. by apply list_elem_of_fmap_2. }
  exists (n1 + n2), t2, (new1 ++ new2). cbn [sync_seen]. split_and!.
  - apply SE_bind_ok. exists n1, t1. split; [done|]. apply SE_bind_ok. by exists n2, t2.
  - done.
  - eapply frame_trans; [exact Hfr1|exact Hfr2|set_solver|set_solver].
  - constructor; [|done]. by eapply seen_result_frame.
  - by rewrite Hobs2, Hobs1, <- (assoc_L (++)).
  - rewrite length_app. lia.
  - rewrite filter_cons. assert (∀ l k, Forall2 (seen_row rid syncID ns prior (t_abs t1)) l k →
      Forall2 (seen_row rid syncID ns prior (t_abs t2)) l k) as Hmono.
    { intros l k Hl. eapply Forall2_impl; [exact Hl|]. intros x o. by apply seen_row_frame with (names := ls_Name <$> lsRefs). }
    apply Hmono in Hrows1. destruct (decide (changed prior now)).
    + change (now :: filter (changed prior) lsRefs) with ([now] ++ filter (changed prior) lsRefs). by apply Forall2_app.
    + by apply Forall2_nil_inv_l in Hrows1 as ->.
Qed.

(** A tag gone from the listing. *)
Lemma sync_gone_one_run rid syncID ns policy t prev :
  txinv rid syncID t → a_refs (t_abs t) !! (rid, rf_TagName prev) = Some prev →
  ∃ t' row, sync_gone_one rid syncID ns policy prev t = Ok ((), t') ∧ txinv rid syncID t' ∧
    frame rid [rf_TagName prev] (t_abs t) (t_abs t') ∧ gone_result rid policy (t_abs t') prev ∧
    a_obs (t_abs t') = a_obs (t_abs t) ++ [row] ∧ gone_row rid syncID (t_abs t') prev row.
Proof.
  intros Hinv Hl. assert (tag_ok prev) as Hok by (by eapply (good_tags _ (tx_good _ _ _ Hinv))).
  destruct Hok as [(Hs1 & Hs2 & Hs3) Htaint].
  assert (rf_RemoteID prev = rid) as Hrid.
  { destruct (ok_refs _ (good_abs _ (tx_good _ _ _ Hinv))) as [Hr _]. destruct (Hr _ _ Hl) as [E _]. by injection E. }
  destruct (upsert_run rid syncID t (set_deleted prev ns)) as (id & t1 & Hrun1 & Hinv1 & Hid & Ha1); [done|done|done|by apply (stored_names t _ _ (tx_ok _ _ _ Hinv) Hl)|].
  cbn [rf_TagName set_deleted] in Hid, Ha1. rewrite Hl in Hid, Ha1.
  set (ref := ref_with_id (set_deleted prev ns) id) in *.
  set (cur := upserted (Some prev) (set_deleted prev ns) id) in *.
  assert (a_refs (t_abs t1) !! (rid, rf_TagName prev) = Some cur) as Hl1 by (rewrite Ha1; cbn; by rewrite lookup_insert_eq).
  assert (frame rid [rf_TagName prev] (t_abs t) (t_abs t1)) as Hfr1.
  { rewrite Ha1. apply upsert_frame. intros r Hr. rewrite Hl in Hr. by injection Hr as <-. }
  destruct (append_run rid syncID t1 (gone_obs rid syncID ns EventTagDeleted ref))
    as (r & t2 & row & Hrun2 & Hinv2 & (seq & p & h & Erow & Er) & Hobs2 & Hrefs2 & Hfr2); [done| |done|done| |done|done|].
  { split_and!; cbn; try done; by left. } { exists (rid, rf_TagName prev), cur. done. }
  rewrite <- Hrefs2 in Hl1.
  assert (a_obs (t_abs t2) = a_obs (t_abs t) ++ [row]) as Ho2 by (rewrite Hobs2, Ha1; done).
  assert (frame rid [rf_TagName prev] (t_abs t) (t_abs t2)) as Hfr12.
  { eapply frame_trans_same; [exact Hfr1|]. eapply frame_weaken; [exact Hfr2|set_solver]. }
  assert (∀ a, (∃ ref', a_refs a !! (rid, rf_TagName prev) = Some ref' ∧ rf_ID ref' = id) →
    gone_row rid syncID a prev row) as Hrow by (intros a Hex; by rewrite Erow).
  unfold sync_gone_one. destruct policy; cbn [ClassifyDeletion Event Taint].
  - destruct (applyTaint_run rid syncID t2 ref (rf_CurrentOID ref) zeroOID TaintTagDeletedRecreated (ob_ID r.2) ns cur)
      as (t3 & cur' & f & Hrun3 & Hinv3 & Hobs3 & Hfr3 & Hl3 & C1 & C2 & C3 & C4 & C5 & C6 & C7 & C8 & Hin & E1 & E2 & E3 & E4 & E5);
      try done; [by left| |].
    { exists row. rewrite Hobs2. split; [apply elem_of_app; right; by left|by rewrite Er]. }
    exists t3, row. split_and!.
    + apply SE_bind_ok. exists ref, t1. split; [done|]. apply SE_bind_ok. by exists r, t2.
    + done.
    + by eapply frame_trans_same.
    + exists cur'. split_and!; try done; [split; auto|]. intros _. exists f. split_and!; try done. congruence.
    + by rewrite Hobs3.
    + apply Hrow. eauto.
  - exists t2, row. split_and!; try done.
    + apply SE_bind_ok. exists ref, t1. split; [done|]. apply SE_bind_ok. by exists r, t2.
    + exists cur. split_and!; try done. cbn. split; [by left|by intros [?|?]].
    + apply Hrow. eauto.
Qed.

(** The tags the range visits that are neither listed nor already deleted. *)
Definition gone (seen : list string) (kv : string * Ref) : Prop := kv.1 ∉ seen ∧ rf_Deleted kv.2 = false.
#[global] Instance gone_dec seen kv : Decision (gone seen kv).
Proof. unfold gone. apply _. Defined.

(** The deletions. *)
Lemma sync_gone_run rid syncID t_del policy seen i prior t :
  txinv rid syncID t → NoDup prior.*1 →
  (∀ name prev, (name, prev) ∈ prior → name ∉ seen → a_refs (t_abs t) !! (rid, name) = Some prev ∧ rf_TagName prev = name) →
  ∃ t' new, sync_gone rid syncID t_del policy seen i prior t = Ok (Z.of_nat (i + length new), t') ∧ txinv rid syncID t' ∧
    frame rid (filter (gone seen) prior).*1 (t_abs t) (t_abs t') ∧
    Forall (gone_result rid policy (t_abs t')) (filter (gone seen) prior).*2 ∧
    a_obs (t_abs t') = a_obs (t_abs t) ++ new ∧
    Forall2 (gone_row rid syncID (t_abs t')) (filter (gone seen) prior).*2 new.
Proof.
  revert i t. induction prior as [|[name prev] prior IH]; intros i t Hinv Hnd Hprior.
  { exists t, []. rewrite app_nil_r, Nat.add_0_r. split_and!; try done. apply frame_refl. }
  cbn in Hnd. apply NoDup_cons in Hnd as [Hn Hnd]. cbn [sync_gone]. rewrite filter_cons.
  destruct (decide (gone seen (name, prev))) as [[Hseen Hdel]|Hskip]; cbn in *.
  - rewrite bool_decide_eq_false_2, Hdel by done. cbn [orb].
    destruct (Hprior name prev) as [Hl Htag]; [left|done|].
    destruct (sync_gone_one_run rid syncID (t_del i) policy t prev) as (t1 & row & Hrun1 & Hinv1 & Hfr1 & Hres1 & Hobs1 & Hrow1);
      [done|by rewrite Htag|].
    destruct (IH (Datatypes.S i) t1) as (t2 & new & Hrun2 & Hinv2 & Hfr2 & Hres2 & Hobs2 & Hrows2); [done|done| |].
    { intros x p Hx Hs. destruct (Hprior x p) as [Hl' ?]; [by right|done|]. split; [|done].
      rewrite (frame_refs _ _ _ _ Hfr1); [done|]. right. cbn. rewrite Htag.
      intros ->%list_elem_of_singleton. apply Hn. by apply (list_elem_of_fmap_2 fst) in Hx. }
    assert (rf_TagName prev ∉ (filter (gone seen) prior).*1) as Hnot.
    { rewrite Htag. intros (kv & -> & [_ Hin]%list_elem_of_filter)%list_elem_of_fmap. by apply Hn, list_elem_of_fmap_2. }
    exists t2, (row :: new). split_and!.
    + apply SE_bind_ok. exists (), t1. split; [done|]. rewrite Hrun2. do 2 f_equal. cbn. lia.
    + done.
    + rewrite Htag in Hfr1. eapply frame_trans; [exact Hfr1|exact Hfr2|set_solver|set_solver].
    + constructor; [by eapply gone_result_frame|done].
    + by rewrite Hobs2, Hobs1, <- (assoc_L (++)).
    + constructor; [by eapply gone_row_frame|done].
  - assert (bool_decide (name ∈ seen) || rf_Deleted prev = true) as ->.
    { case_bool_decide; [done|]. destruct (rf_Deleted prev) eqn:E; [done|]. exfalso. by apply Hskip. }
    destruct (IH i t) as (t2 & new & Hrest); [done|done| |by exists t2, new].
    intros x p Hx. apply Hprior. by right.
Qed.

(** What a backend needs of a sync row to take it. *)
Definition sync_fits (s : Sync) : Prop :=
  count_ok (sy_TagsSeen s) ∧ count_ok (sy_TagsChanged s) ∧ text_ok (sy_Error s) ∧
  (length (sy_ChainHeadBefore s) ≤ 32)%nat ∧ (length (sy_ChainHeadAfter s) ≤ 32)%nat.

(** The sync row and retention. *)
Lemma write_prune_run rid t s :
  t_ok t → good (t_abs t) → is_Some (a_remotes (t_abs t) !! rid) → sy_RemoteID s = rid →
  sy_Trigger s ∈ [TriggerRegister; TriggerScheduled; TriggerManual] → sy_Status s ∈ [SyncOk; SyncPartial; SyncFailed] →
  sync_fits s →
  ∃ id t1 t2, tx_WriteSync s t = Ok (id, t1) ∧ tx_PruneSyncs rid syncRetentionKeep t1 = Ok ((), t2) ∧
    txinv rid id t2 ∧ ∃ l, t_abs t2 = with_a_syncs (t_abs t) l.
Proof.
  intros Hok Hgood Hrem Hrid Htr Hst (Hf1 & Hf2 & Hf3 & Hf4 & Hf5).
  destruct (sync_total t s Hok) as [[id t1] Hrun1]; [by rewrite Hrid|done..|].
  destruct (sync_refines t s id t1 Hok Hf1 Hf2 Hrun1) as (Hok1 & _ & Hspec1).
  pose proof (write_sync_ok _ _ _ _ Hspec1 (good_abs _ Hgood)) as Habs1.
  destruct Hspec1 as (Hnz & Hmax & Ha1).
  assert (owner_ok (t_abs t1)) as Hown1.
  { intros o s'. rewrite Ha1. cbn. intros Ho [Hs'|Hs'%list_elem_of_singleton]%elem_of_app Hid.
    - by apply (good_owner _ Hgood).
    - exfalso. destruct (good_syncs _ Hgood o Ho) as (s0 & Hs0 & E). specialize (Hmax s0 Hs0). subst s'. cbn in Hid. lia. }
  assert (syncs_ok (t_abs t1)) as Hsy1.
  { intros o Ho. rewrite Ha1 in *. destruct (good_syncs _ Hgood o Ho) as (s0 & Hs0 & E). exists s0. cbn.
    split; [apply elem_of_app; by left|done]. }
  destruct (prune_total t1 rid syncRetentionKeep Hok1 Hown1) as [[[] t2] Hrun2]; [done|done|].
  destruct (prune_refines t1 rid syncRetentionKeep () t2 Hok1) as (Hok2 & _ & Hspec2); [done..|].
  pose proof (prune_ok _ _ _ _ Hspec2 Habs1) as Habs2.
  pose proof (prune_syncs_ok _ _ _ _ Hspec2 Hown1 Hsy1) as Hsy2.
  assert (sync_with_id s id ∈ a_syncs (t_abs t2)) as Hnew.
  { eapply prune_newest; [exact Hspec2|done| |].
    - rewrite Ha1. cbn. apply elem_of_app. right. by left.
    - rewrite Ha1. cbn. intros s' [Hs'| ->%list_elem_of_singleton]%elem_of_app; [|done]. apply Hmax in Hs'. lia. }
  assert (∀ s', s' ∈ a_syncs (t_abs t2) → s' ∈ a_syncs (t_abs t1)) as Hsub.
  { rewrite Hspec2. cbn. by intros s' [_ Hs']%list_elem_of_filter. }
  assert (∃ l, t_abs t2 = with_a_syncs (t_abs t) l) as [l Hl].
  { rewrite Hspec2, Ha1. eexists. reflexivity. }
  exists id, t1, t2. split; [done|]. split; [done|]. split; [|by exists l]. split; [done| |by rewrite Hl|].
  - split; [done|by rewrite Hl; apply Hgood|done|].
    intros o s' Ho Hs'. apply Hown1; [|by apply Hsub]. rewrite Hspec2 in Ho. done.
  - split; [done|]. split; [by eexists|]. intros s' Hs'%Hsub Hid. rewrite Ha1 in Hs'. cbn in Hs'.
    apply elem_of_app in Hs' as [Hs'| ->%list_elem_of_singleton]; [|done].
    apply Hmax in Hs'. lia.
Qed.

(** The names and the number of the tags of a listing are within the limits. *)
Definition listing_fits (lsRefs : list LsRemoteRef) : Prop :=
  Forall name_ok (ls_Name <$> lsRefs) ∧ count_ok (Z.of_nat (length lsRefs)).

(** The transaction body commits to a good state with the effect above. *)
Lemma sync_tx_run range rd rid policy headBefore prior lsRefs t :
  t_ok t → good (t_abs t) → is_Some (a_remotes (t_abs t) !! rid) →
  Forall ls_wf lsRefs → NoDup (ls_Name <$> lsRefs) → listing_fits lsRefs → (length headBefore ≤ 32)%nat →
  (∀ name, a_refs (t_abs t) !! (rid, name) = prior !! name) →
  (range prior ≡ₚ map_to_list prior) →
  ∃ syncID n t', sync_tx range rd rid policy headBefore prior lsRefs t = Ok ((syncID, n), t') ∧
    t_ok t' ∧ good (t_abs t') ∧ is_Some (a_remotes (t_abs t') !! rid) ∧
    a_leases (t_abs t') = a_leases (t_abs t) ∧
    sync_effect rid syncID (rd_tx rd) policy prior lsRefs (t_abs t) (t_abs t') n.
Proof.
  intros Hok Hgood Hrem Hwf Hnd [Hnok Hcount] Hhead Hprior Hrange.
  destruct (write_prune_run rid t (mkSync 0 rid TriggerScheduled (rd_start rd) (rd_tx rd) SyncOk
    (Z.of_nat (length lsRefs)) 0 "" headBefore [])) as (syncID & t1 & t2 & Hrun1 & Hrun2 & Hinv2 & l & Ha2);
    [done|done|done|done|set_solver|set_solver| |].
  { split_and!; cbn; [done|apply count_ok_zero|apply text_ok_empty|done|lia]. }
  destruct (sync_seen_run rid syncID (rd_tx rd) prior lsRefs t2)
    as (n & t3 & new1 & Hrun3 & Hinv3 & Hfr3 & Hres3 & Hobs3 & Hn & Hrows3); [done|done|done|done| |].
  { intros now _. by rewrite Ha2. }
  assert (∀ name p, (name, p) ∈ range prior ↔ prior !! name = Some p) as Hin.
  { intros name p. by rewrite Hrange, elem_of_map_to_list. }
  assert (∀ name p, prior !! name = Some p → rf_TagName p = name) as Hname.
  { intros name p Hp. destruct (ok_refs _ (good_abs _ Hgood)) as [Hr _].
    rewrite <- Hprior in Hp. destruct (Hr _ _ Hp) as [E _]. by injection E. }
  destruct (sync_gone_run rid syncID (rd_del rd) policy (map ls_Name lsRefs) 0 (range prior) t3)
    as (t4 & new2 & Hrun4 & Hinv4 & Hfr4 & Hres4 & Hobs4 & Hrows4); [done| | |].
  { rewrite Hrange. apply NoDup_fst_map_to_list. }
  { intros name p Hp%Hin Hs. rewrite (frame_refs _ _ _ _ Hfr3) by (by right). rewrite Ha2. cbn. rewrite Hprior. auto. }
  exists syncID, (n + Z.of_nat (0 + length new2)), t4. split_and!.
  { apply SE_bind_ok. exists syncID, t1. split; [done|]. apply SE_bind_ok. exists (), t2. split; [done|].
    apply SE_bind_ok. exists n, t3. split; [done|]. apply SE_bind_ok. by eexists _, t4. }
  { apply Hinv4. } { apply Hinv4. } { apply Hinv4. }
  { by rewrite (frame_leases _ _ _ _ Hfr4), (frame_leases _ _ _ _ Hfr3), Ha2. }
  assert (∀ name p, (name, p) ∈ filter (gone (map ls_Name lsRefs)) (range prior) ↔
    prior !! name = Some p ∧ name ∉ ls_Name <$> lsRefs ∧ rf_Deleted p = false) as Hgone.
  { intros name p. rewrite list_elem_of_filter, Hin. unfold gone. cbn. tauto. }
  split.
  - rewrite Forall_forall in *. intros now Hnow. eapply seen_result_frame; [exact Hfr4| |by apply Hres3].
    intros ([name p] & Heq & [_ [Hne _]]%Hgone)%list_elem_of_fmap. cbn in Heq. subst name.
    by apply Hne, list_elem_of_fmap_2.
  - intros name p Hp Hn'. destruct (rf_Deleted p) eqn:E.
    + rewrite (frame_refs _ _ _ _ Hfr4), (frame_refs _ _ _ _ Hfr3), Ha2; [cbn; by rewrite Hprior|by right|].
      right. intros ([name' p'] & Hname' & (Hp' & _ & E')%Hgone)%list_elem_of_fmap. cbn in Hname'. subst name'. congruence.
    + rewrite Forall_forall in Hres4. apply Hres4. apply (list_elem_of_fmap_2 snd _ (name, p)). by apply Hgone.
  - intros name Hp Hn'. rewrite (frame_refs _ _ _ _ Hfr4), (frame_refs _ _ _ _ Hfr3), Ha2; [cbn; by rewrite Hprior|by right|].
    right. intros ([name' p'] & Hname' & (Hp' & _)%Hgone)%list_elem_of_fmap. cbn in Hname'. subst name'. congruence.
  - exists new1, (filter (gone (map ls_Name lsRefs)) (range prior)).*2, new2. split_and!.
    + by rewrite Hobs4, Hobs3, Ha2, <- (assoc_L (++)).
    + rewrite length_app. lia.
    + eapply Forall2_impl; [exact Hrows3|]. intros now o. by eapply seen_row_frame.
    + done.
    + intros p. split.
      * intros ([name p'] & -> & (Hp & Hrest)%Hgone)%list_elem_of_fmap. cbn. by rewrite (Hname _ _ Hp).
      * intros Hp. apply (list_elem_of_fmap_2 snd _ (rf_TagName p, p)). by apply Hgone.
  - intros k Hk. rewrite (frame_refs _ _ _ _ Hfr4), (frame_refs _ _ _ _ Hfr3), Ha2 by (by left). done.
  - etrans; [|apply Hfr4]. etrans; [|apply Hfr3]. by rewrite Ha2.
  - intros k Hk. by rewrite (frame_other _ _ _ _ Hfr4), (frame_other _ _ _ _ Hfr3), Ha2.
  - intros rem Hr. destruct (frame_remote _ _ _ _ Hfr3 rem) as (h & n' & Hr3); [by rewrite Ha2|].
    destruct (frame_remote _ _ _ _ Hfr4 _ Hr3) as (h' & n'' & ->). by exists h', n''.
Qed.

(** ** Around the transaction *)

Lemma good_leases a m : good a → good (with_a_leases a m).
Proof. intros [[Hc Hr Ho] Ht Hs Hw]. by split; [split| | |]. Qed.

Lemma good_health a rid status lastErr lastOk now :
  good a → good (with_a_remotes a (alter (λ r, set_health r status lastErr lastOk now) rid (a_remotes a))).
Proof.
  intros [[Hc [Hr1 Hr2] Ho] Ht Hs Hw]. split; [split; [|split|]| | |]; try done.
  - intros k rem Hk. cbn in Hk. rewrite lookup_alter_Some in Hk.
    destruct Hk as [(-> & rem0 & Hk & ->)|[_ Hk]]; by apply (Hc _ _ Hk).
  - intros k r Hk. cbn in *. rewrite lookup_alter_is_Some. by apply Hr1.
  - intros o Hin. cbn in *. rewrite lookup_alter_is_Some. by apply Ho.
Qed.

(** Releasing against the head and length the remote has changes only the lease. *)
Lemma release_same a rid holder witness rem a' :
  a_remotes a !! rid = Some rem →
  release_spec a rid holder witness (rm_ChainHeadHash rem) (rm_ChainLen rem) a' →
  a' = with_a_leases a (drop_lease a rid holder).
Proof.
  intros Hrem (rem' & Hrem' & [[_ ->]|(_ & _ & ->)]); [|done].
  rewrite Hrem in Hrem'. injection Hrem' as <-.
  assert (set_chain rem (rm_ChainHeadHash rem) (rm_ChainLen rem) = rem) as -> by (by destruct rem).
  rewrite insert_id by done. by destruct a.
Qed.

Lemma release_ignored s lease rem head len :
  s_ok s → a_remotes (s_abs s) !! le_RemoteID lease = Some rem →
  rm_ChainHeadHash rem = head → rm_ChainLen rem = len →
  ∃ m, s_ok (ignoring (Release (Some lease) head len) s) ∧
    s_abs (ignoring (Release (Some lease) head len) s) = with_a_leases (s_abs s) m.
Proof.
  intros Hok Hrem <- <-. unfold ignoring, Release.
  destruct (st_ReleaseLeaseCAS _ _ _ _ _ s) as [[[] s']|e] eqn:E.
  - destruct (release_refines _ _ _ _ _ _ _ Hok E) as [Hok' Hspec].
    eexists. split; [done|]. by eapply release_same.
  - exists (a_leases (s_abs s)). split; [done|]. by destruct (s_abs s).
Qed.

Lemma health_ignored s now id status lastErr lastOk :
  s_ok s → status ∈ [RemoteActive; RemoteDegraded; RemotePaused] → text_ok lastErr →
  s_ok (ignoring (st_SetRemoteHealth now id status lastErr lastOk) s) ∧
  s_abs (ignoring (st_SetRemoteHealth now id status lastErr lastOk) s) =
    with_a_remotes (s_abs s) (alter (λ r, set_health r status lastErr lastOk now) id (a_remotes (s_abs s))).
Proof.
  intros Hok Hst Htext. destruct (set_health_spec s now id status lastErr lastOk Hok Hst Htext) as (s' & E & Hok' & Habs).
  unfold ignoring. rewrite E. done.
Qed.

Lemma index_by_name_lookup l name r :
  NoDup (rf_TagName <$> l) → index_by_name l !! name = Some r ↔ r ∈ l ∧ rf_TagName r = name.
Proof.
  intros Hnd. unfold index_by_name. revert Hnd. induction l as [|x l IH] using rev_ind; intros Hnd.
  - cbn. rewrite lookup_empty. split; [done|]. by intros [?%elem_of_nil _].
  - rewrite foldl_app. cbn. rewrite fmap_app in Hnd. apply NoDup_app in Hnd as (Hnd & Hdisj & _).
    rewrite lookup_insert_Some, IH, elem_of_app, list_elem_of_singleton by done. split.
    + intros [[<- <-]|[Hne [Hin <-]]]; auto.
    + intros [[Hin| ->] <-]; [right|by left]. split; [|done]. intros E.
      apply (Hdisj (rf_TagName r)); [by apply list_elem_of_fmap_2|]. rewrite <- E. by left.
Qed.

Lemma index_prior s rid :
  s_ok s → refs_ok (s_abs s) →
  ∃ l, st_ListTags rid s = Ok (l, s) ∧ ∀ name, a_refs (s_abs s) !! (rid, name) = index_by_name l !! name.
Proof.
  intros Hok [Hkeys _]. destruct (list_tags_spec s rid Hok) as (l & Hl & Hnd & Hin). exists l. split; [done|].
  intros name. apply option_eq. intros r. rewrite index_by_name_lookup by done. split.
  - intros Hr. destruct (Hkeys _ _ Hr) as [E _]. injection E as _ E. split; [|done]. apply Hin. by rewrite E.
  - intros [Hr <-]. by apply Hin.
Qed.

Lemma sync_effect_leases rid syncID ns policy prior lsRefs a m a' n :
  sync_effect rid syncID ns policy prior lsRefs (with_a_leases a m) a' n →
  sync_effect rid syncID ns policy prior lsRefs a a' n.
Proof. intros []. by split. Qed.

(** The tags of a remote before the sync. *)
Definition tags_of (a : Abs) (rid : Z) (prior : gmap string Ref) : Prop :=
  ∀ name, a_refs a !! (rid, name) = prior !! name.

(** The remote can be synced now: it exists and no live lease is in the way. *)
Definition lease_free (a : Abs) (rid now : Z) : Prop :=
  ∀ l, a_leases a !! rid = Some l → al_expires l < now.

Lemma lease_free_fresh s rid holder now expires : lease_free (s_abs s) rid now → no_regrant s rid holder now expires.
Proof. intros Hfree _ l Hl. left. by apply Hfree. Qed.

(** The head of a good store is a hash. *)
Lemma good_head_length a rid rem : good a → a_remotes a !! rid = Some rem → length (rm_ChainHeadHash rem) = 32%nat.
Proof.
  intros Hgood Hrem. destruct (ok_chain _ (good_abs _ Hgood) _ _ Hrem) as (Hr & -> & _). by eapply length_ledger_head.
Qed.

Lemma SyncRemote_run LsRemote error_text range holder rd rid s rem lsRefs :
  s_ok s → good (s_abs s) → a_remotes (s_abs s) !! rid = Some rem → lease_free (s_abs s) rid (rd_lease rd) →
  LsRemote (rm_URL rem) = Ok lsRefs → Forall ls_wf lsRefs → NoDup (ls_Name <$> lsRefs) →
  (∀ m, range m ≡ₚ map_to_list m) → holder_ok holder → listing_fits lsRefs →
  ∃ syncID n s' rem' prior a',
    SyncRemote LsRemote error_text range holder rd rid s =
      (Some (mkSyncResult syncID SyncOk (Z.of_nat (length lsRefs)) n (rm_ChainHeadHash rem) (rm_ChainHeadHash rem')), None, s') ∧
    s_ok s' ∧ good (s_abs s') ∧ tags_of (s_abs s) rid prior ∧
    sync_effect rid syncID (rd_tx rd) (rm_TaintAnyTagDeletion rem) prior lsRefs (s_abs s) a' n ∧
    a_remotes a' !! rid = Some rem' ∧
    s_abs s' = mkAbs (alter (λ r, set_health r RemoteActive "" (rd_end rd) (rd_wall rd)) rid (a_remotes a'))
      (a_refs a') (a_obs a') (a_events a') (a_syncs a') (delete rid (a_leases (s_abs s))).
Proof.
  intros Hok Hgood Hrem Hfree Hls Hwf Hnd Hrange Hholder Hfits. unfold SyncRemote.
  rewrite get_remote_spec, Hrem by done.
  pose proof (AcquireRemoteLease_spec s (rd_lease rd) rid holder leaseTTL Hok Hholder ltac:(by apply lease_free_fresh)) as Hacq.
  destruct (AcquireRemoteLease _ _ _ _ s) as [[lease s1]|e].
  2: { destruct Hacq as [?|(_ & l & Hl & Hle)]; [congruence|]. specialize (Hfree l Hl). lia. }
  destruct Hacq as (Hok1 & rem0 & Hrem0 & _ & -> & Habs1). rewrite Hrem in Hrem0. injection Hrem0 as <-.
  cbn [le_ChainHeadAtLease]. rewrite Hls.
  assert (good (s_abs s1)) as Hgood1 by (rewrite Habs1; by apply good_leases).
  destruct (index_prior s1 rid Hok1 (ok_refs _ (good_abs _ Hgood1))) as (l & Hl & Hprior). rewrite Hl.
  destruct (with_tx_spec s1 Hok1) as (t0 & Ht0 & Hta & _ & Htx).
  specialize (Htx _ (sync_tx range rd rid (rm_TaintAnyTagDeletion rem) (rm_ChainHeadHash rem) (index_by_name l) lsRefs)).
  destruct (sync_tx_run range rd rid (rm_TaintAnyTagDeletion rem) (rm_ChainHeadHash rem) (index_by_name l) lsRefs t0)
    as (syncID & n & t' & Hrun & Hok' & Hgood' & [rem' Hrem'] & Hleases & Heff); try done;
    try by rewrite (good_head_length _ _ _ Hgood Hrem).
  { by rewrite Hta. } { rewrite Hta, Habs1. cbn. by rewrite Hrem. } { by rewrite Hta. }
  rewrite Hrun in Htx. destruct (Htx Hok') as [(_ & s2 & -> & Hok2 & Habs2)|[Hbad _]]; [|by destruct Hbad; apply Hgood'].
  rewrite get_chain_head_spec, Habs2, Hrem' by done.
  rewrite Hta, Habs1 in Hleases, Heff. cbn in Hleases.
  destruct (release_total s2 rid holder (rm_ChainHeadHash rem) (rm_ChainHeadHash rem') (rm_ChainLen rem') rem'
    (mkAbsLease holder (rd_lease rd) (wrap64 (rd_lease rd + leaseTTL)))) as [[[] s3] Hrel]; try done;
    [by rewrite Habs2|by rewrite Habs2, Hleases, lookup_insert_eq|by right|by rewrite (good_head_length _ _ _ Hgood' Hrem')|].
  unfold Release. cbn [le_RemoteID le_Holder le_ChainHeadAtLease]. rewrite Hrel.
  destruct (release_refines _ _ _ _ _ _ _ Hok2 Hrel) as [Hok3 Hspec3].
  rewrite Habs2 in Hspec3. apply release_same in Hspec3; [|done].
  destruct (health_ignored s3 (rd_wall rd) rid RemoteActive "" (rd_end rd) Hok3) as [Hok4 Habs4]; [set_solver|apply text_ok_empty|].
  eexists syncID, n, _, rem', (index_by_name l), (t_abs t'). split; [reflexivity|]. split; [done|]. split_and!.
  - rewrite Habs4, Hspec3. by apply good_health, good_leases.
  - intros name. by rewrite <- Hprior, Habs1.
  - by eapply sync_effect_leases.
  - done.
  - rewrite Habs4, Hspec3. unfold with_a_remotes, with_a_leases. cbn. f_equal.
    unfold drop_lease. rewrite Hleases, lookup_insert_eq. cbn. rewrite String.eqb_refl.
    by rewrite delete_insert_eq.
Qed.
End sync_tx.
