(* ===== verification/SyncProps.v ===== *)
(** The properties of a sync on the SQLite store: what a successful sync leaves in the
    database, what every sync preserves, and what a failed one does. *)
From S2P Require Import Prelude GoStrings Sha256 Model Chain SyncDiff Sqlc StoreSpec SqliteStore SqliteTx SqliteSpec.
From S2P Require Import Lock SyncRemote SyncCorrect.
#[local] Open Scope Z_scope.

(** * Lemmas *)

Lemma ledger_prefix a l m r e s k rid :
  ledger a rid `prefix_of` ledger (mkAbs m r (a_obs a ++ l) e s k) rid.
Proof.
  unfold ledger. cbn [a_obs]. rewrite filter_app. by eexists.
Qed.

Lemma Forall2_elem_l {A B} (P : A → B → Prop) l k x : Forall2 P l k → x ∈ l → ∃ y, y ∈ k ∧ P x y.
Proof.
  intros H Hx. apply list_elem_of_lookup in Hx as [i Hi].
  destruct (Forall2_lookup_l _ _ _ _ _ H Hi) as (y & Hy & HP). exists y. split; [|done]. by eapply list_elem_of_lookup_2.
Qed.

(** A committed sync keeps every taint, with its first time. *)
Lemma effect_keeps_taint rid syncID ns policy prior lsRefs a a' n k r :
  tags_of a rid prior → sync_effect rid syncID ns policy prior lsRefs a a' n →
  a_refs a !! k = Some r → rf_Tainted r = true → tag_ok r → tags_ok a' → refs_ok a →
  ∃ r', a_refs a' !! k = Some r' ∧ rf_Tainted r' = true ∧ rf_TaintFirstNS r' = rf_TaintFirstNS r.
Proof.
  intros Hprior Heff Hk Htaint [_ Hok] Hok' [Hkeys _]. destruct k as [rid' name].
  destruct (decide (rid' = rid)) as [->|Hne].
  2: { exists r. rewrite (se_other_refs _ _ _ _ _ _ _ _ _ Heff) by done. done. }
  apply Hok in Htaint as Hfirst. destruct Hfirst as [n0 Hn0].
  assert (prior !! name = Some r) as Hp by (by rewrite <- Hprior).
  destruct (Hkeys _ _ Hk) as [[= _ Hname] _].
  destruct (decide (name ∈ ls_Name <$> lsRefs)) as [Hin|Hnin].
  - apply list_elem_of_fmap in Hin as (now & -> & Hnow).
    pose proof (se_seen _ _ _ _ _ _ _ _ _ Heff) as Hseen. rewrite Forall_forall in Hseen.
    destruct (Hseen now Hnow) as (ref & Href & _ & _ & _ & _ & _ & Ht & Hf & _). exists ref.
    split; [done|]. split; [apply Ht; left; eauto|]. rewrite Hn0. by eapply Hf.
  - pose proof (se_gone _ _ _ _ _ _ _ _ _ Heff name r Hp Hnin) as Hg. destruct (rf_Deleted r); [by exists r|].
    destruct Hg as (ref & Href & _ & _ & Ht & Hf & _). rewrite Hname in Href. exists ref.
    split; [done|]. split; [apply Ht; by left|]. rewrite Hn0. by apply Hf.
Qed.

(** After a sync, the same listing shows nothing new. *)
Lemma resync_rows rid ns1 ns2 id1 id2 pol1 pol2 prior1 prior2 lsRefs a a1 b a2 n1 n2 :
  sync_effect rid id1 ns1 pol1 prior1 lsRefs a a1 n1 → sync_effect rid id2 ns2 pol2 prior2 lsRefs b a2 n2 →
  a_obs b = a_obs a1 → (∀ name, a_refs a1 !! (rid, name) = prior2 !! name) → tags_of a rid prior1 → refs_ok a →
  a_obs a2 = a_obs b ∧ n2 = 0.
Proof.
  intros H1 H2 Hb Hp2 Hp1 [Hkeys _].
  destruct (se_rows _ _ _ _ _ _ _ _ _ H2) as (seen & del & rows & Hobs & -> & Hseen & Hdel & Hin).
  pose proof (se_seen _ _ _ _ _ _ _ _ _ H1) as Hs1. rewrite Forall_forall in Hs1.
  assert (filter (changed prior2) lsRefs = []) as Hq.
  { apply elem_of_nil_inv. intros now [Hc Hnow]%list_elem_of_filter.
    destruct (Hs1 now Hnow) as (ref & Href & E1 & _ & _ & E2 & _). unfold changed in Hc.
    rewrite <- Hp2, Href in Hc. apply Hc. by apply ClassifyTag_quiet. }
  rewrite Hq in Hseen. apply Forall2_nil_inv_l in Hseen as ->.
  assert (del = []) as ->.
  { apply elem_of_nil_inv. intros p (Hp & Hn & Hd)%Hin. rewrite <- Hp2 in Hp.
    destruct (prior1 !! rf_TagName p) as [p0|] eqn:E.
    - pose proof (se_gone _ _ _ _ _ _ _ _ _ H1 _ _ E Hn) as Hg.
      assert (rf_TagName p0 = rf_TagName p) as Hname.
      { rewrite <- Hp1 in E. destruct (Hkeys _ _ E) as [Ek _]. by injection Ek. }
      destruct (rf_Deleted p0) eqn:Ed; [congruence|]. destruct Hg as (ref & Href & _ & Hdel' & _).
      rewrite Hname in Href. congruence.
    - pose proof (se_none _ _ _ _ _ _ _ _ _ H1 _ E Hn). congruence. }
  apply Forall2_nil_inv_l in Hdel as ->. rewrite Hobs. by rewrite app_nil_r.
Qed.

(** What a sync that does not reach its transaction leaves behind. *)
Definition untouched (a a' : Abs) : Prop :=
  a_refs a' = a_refs a ∧ a_obs a' = a_obs a ∧ a_events a' = a_events a ∧ a_syncs a' = a_syncs a.

Section generic.
Context {S T : Type} `{HS : StoreSpec S T}.

Lemma SyncRemote_ls_failure LsRemote error_text range holder rd rid s rem e :
  s_ok s → good (s_abs s) → a_remotes (s_abs s) !! rid = Some rem → lease_free (s_abs s) rid (rd_lease rd) →
  LsRemote (rm_URL rem) = Err e → holder_ok holder → text_ok (error_text e) →
  ∃ s', SyncRemote LsRemote error_text range holder rd rid s =
      (Some (mkSyncResult 0 SyncFailed 0 0 (rm_ChainHeadHash rem) (rm_ChainHeadHash rem)), Some e, s') ∧
    s_ok s' ∧ good (s_abs s') ∧ untouched (s_abs s) (s_abs s') ∧
    a_remotes (s_abs s') =
      alter (λ r, set_health r RemoteDegraded (error_text e) (rd_start rd) (rd_wall rd)) rid (a_remotes (s_abs s)).
Proof.
  intros Hok Hgood Hrem Hfree Hls Hholder Htext. unfold SyncRemote. rewrite get_remote_spec, Hrem by done.
  pose proof (AcquireRemoteLease_spec s (rd_lease rd) rid holder leaseTTL Hok Hholder ltac:(by apply lease_free_fresh)) as Hacq.
  destruct (AcquireRemoteLease _ _ _ _ s) as [[lease s1]|e'].
  2: { destruct Hacq as [?|(_ & l & Hl & Hle)]; [congruence|]. specialize (Hfree l Hl). lia. }
  destruct Hacq as (Hok1 & rem0 & Hrem0 & _ & -> & Habs1). rewrite Hrem in Hrem0. injection Hrem0 as <-.
  cbn [le_ChainHeadAtLease]. rewrite Hls.
  destruct (health_ignored s1 (rd_wall rd) rid RemoteDegraded (error_text e) (rd_start rd) Hok1) as [Hok2 Habs2]; [set_solver|done|].
  set (s2 := ignoring _ s1) in *. rewrite Habs1 in Habs2.
  destruct (release_ignored s2 (mkLease rid holder (rd_lease rd) (wrap64 (rd_lease rd + leaseTTL)) (rm_ChainHeadHash rem))
    (set_health rem RemoteDegraded (error_text e) (rd_start rd) (rd_wall rd)) (rm_ChainHeadHash rem) (rm_ChainLen rem) Hok2)
    as (m & Hok3 & Habs3); [|done|done|].
  { rewrite Habs2. cbn. by rewrite lookup_alter_eq, Hrem. }
  eexists. split; [reflexivity|]. split; [done|]. rewrite Habs3, Habs2.
  split; [by apply good_leases, good_health, good_leases|]. by split.
Qed.

(** The states a sync can end in, whatever git does. *)
Lemma SyncRemote_any LsRemote error_text range holder rd rid s res e s' :
  s_ok s → good (s_abs s) →
  (∀ u lsRefs, LsRemote u = Ok lsRefs → Forall ls_wf lsRefs ∧ NoDup (ls_Name <$> lsRefs)) →
  (∀ m, range m ≡ₚ map_to_list m) →
  holder_ok holder → (∀ e, text_ok (error_text e)) → (∀ u lsRefs, LsRemote u = Ok lsRefs → listing_fits lsRefs) →
  no_regrant s rid holder (rd_lease rd) (wrap64 (rd_lease rd + leaseTTL)) →
  SyncRemote LsRemote error_text range holder rd rid s = (res, e, s') →
  s_ok s' ∧ good (s_abs s') ∧
  (untouched (s_abs s) (s_abs s') ∨
   ∃ syncID n policy prior lsRefs a', tags_of (s_abs s) rid prior ∧
     sync_effect rid syncID (rd_tx rd) policy prior lsRefs (s_abs s) a' n ∧ untouched a' (s_abs s')).
Proof.
  intros Hok Hgood Hgit Hrange Hholder Htext Hfits Hfresh Hrun.
  destruct (a_remotes (s_abs s) !! rid) as [rem|] eqn:Hrem.
  2: { unfold SyncRemote in Hrun. rewrite get_remote_spec, Hrem in Hrun by done. injection Hrun as <- <- <-.
       split_and!; [done|done|by left]. }
  assert (lease_free (s_abs s) rid (rd_lease rd) ∨ s' = s) as [Hfree| ->].
  { pose proof (AcquireRemoteLease_spec s (rd_lease rd) rid holder leaseTTL Hok Hholder Hfresh) as Hacq.
    unfold SyncRemote in Hrun. rewrite get_remote_spec, Hrem in Hrun by done.
    destruct (AcquireRemoteLease _ _ _ _ s) as [[lease s1]|e'].
    - left. by destruct Hacq as (_ & _ & _ & Hf & _).
    - right. by injection Hrun as <- <- <-. }
  2: { split_and!; [done|done|by left]. }
  destruct (LsRemote (rm_URL rem)) as [lsRefs|lsErr] eqn:Hls.
  - destruct (Hgit _ _ Hls) as [Hwf Hnd].
    destruct (SyncRemote_run LsRemote error_text range holder rd rid s rem lsRefs)
      as (syncID & n & s2 & rem' & prior & a' & Hrun2 & Hok2 & Hgood2 & Hprior & Heff & _ & Habs); try done; [by apply (Hfits _ _ Hls)|].
    rewrite Hrun2 in Hrun. injection Hrun as <- <- <-. split; [done|]. split; [done|]. right.
    exists syncID, n, (rm_TaintAnyTagDeletion rem), prior, lsRefs, a'. split; [done|]. split; [done|].
    by rewrite Habs.
  - destruct (SyncRemote_ls_failure LsRemote error_text range holder rd rid s rem lsErr)
      as (s2 & Hrun2 & Hok2 & Hgood2 & Hun & _); try done.
    rewrite Hrun2 in Hrun. injection Hrun as <- <- <-. split_and!; [done|done|by left].
Qed.
End generic.

(** SQLite columns have no limits a listing can exceed, and it grants no live lease. *)
Lemma sqlite_listing_fits l : listing_fits (T := sqliteTx) l.
Proof. split; [by apply Forall_forall|done]. Qed.
Lemma sqlite_no_regrant (d : db) rid holder now expires : no_regrant (T := sqliteTx) d rid holder now expires.
Proof. intros [=]. Qed.
#[export] Hint Resolve sqlite_listing_fits sqlite_no_regrant : core.

(** The database is one the program can have written. *)
Definition db_good (d : db) : Prop := db_ok d ∧ good (db_abs d).

(** The remote of a stored tag is registered. *)
Lemma db_good_ref_remote d rid name r :
  db_good d → a_refs (db_abs d) !! (rid, name) = Some r → ∃ rem, a_remotes (db_abs d) !! rid = Some rem.
Proof. intros [_ [[_ [Hk _] _] _ _ _]] Hr. by destruct (Hk _ _ Hr) as [_ [rem Hrem]]; exists rem. Qed.

Lemma empty_db_good : db_good empty_db.
Proof.
  split; [apply empty_db_ok|]. split; [split| | |]; try done.
  - by intros o ?%elem_of_nil.
  - by intros o ?%elem_of_nil.
  - by intros o s ?%elem_of_nil.
Qed.

(** Registering a remote with an empty chain keeps the database good. *)
Lemma CreateRemote_good r d id d' :
  db_good d → rm_ChainHeadHash r = genesis_head → rm_ChainLen r = 0 →
  SqliteStore.CreateRemote r d = Ok (id, d') →
  db_good d' ∧ a_remotes (db_abs d') = <[id := remoteFromRow (remote_row r id)]> (a_remotes (db_abs d)) ∧
  a_remotes (db_abs d) !! id = None.
Proof.
  intros [Hok Hgood] Hh Hl H. unfold SqliteStore.CreateRemote in H.
  apply SE_bind_ok in H as (row & d1 & Hrow%run_with_ok & [= <- <-]).
  unfold Sqlc.CreateRemote in Hrow. apply SE_bind_ok in Hrow as (? & ? & [= <- <-] & Hrow).
  apply SE_bind_ok in Hrow as (? & ? & [_ [= -> ->]]%require_ok & Hrow).
  apply SE_bind_ok in Hrow as (? & ? & [_ [= -> ->]]%require_ok & Hrow).
  apply SE_bind_ok in Hrow as (? & ? & [= <- <-] & [= <- <-]).
  pose proof (ok_remote_seq _ Hok) as Hseq. rewrite Forall_forall in Hseq.
  set (id := seq_remotes d + 1). set (d' := mkDb _ _ _ _ _ _ _ _ _ _ _).
  assert (∀ x, x ∈ t_remotes d → rr_ID x ≠ id) as Hfresh by (intros x Hx; specialize (Hseq x Hx); lia).
  assert (a_remotes (db_abs d') = <[id := remoteFromRow (remote_row r id)]> (a_remotes (db_abs d))) as Hrem.
  { unfold db_abs. cbn. by rewrite tmap_snoc. }
  assert (a_remotes (db_abs d) !! id = None) as Hnone.
  { destruct (a_remotes (db_abs d) !! id) eqn:E; [|done]. apply tmap_inv in E as (x & Hx & E & _). by apply Hfresh in Hx. }
  split; [|done]. split.
  { destruct Hok. split; cbn; try done.
    - rewrite fmap_app. apply NoDup_app. split; [done|]. split; [|apply NoDup_singleton].
      intros k (x & -> & Hx)%list_elem_of_fmap E%list_elem_of_singleton. by apply (Hfresh x).
    - apply Forall_app. split; [|repeat constructor; cbn; unfold id; lia].
      apply Forall_forall. intros x Hx. specialize (Hseq x Hx). unfold id. lia. }
  destruct Hgood as [[Hc [Hr1 Hr2] Ho] Ht Hs Hw]. split; [split; [|split|]| | |]; try done.
  - intros k rem. rewrite Hrem, lookup_insert_Some. intros [[<- <-]|[_ Hk]]; [|by apply (Hc k)].
    assert (ledger (db_abs d') id = []) as ->; [|done].
    apply elem_of_nil_inv. intros o [Hid Hin]%list_elem_of_filter. destruct (Ho o Hin) as [? Hx]. congruence.
  - intros k x Hk. destruct (Hr1 k x Hk) as [? Hsome]. split; [done|]. rewrite Hrem, lookup_insert_is_Some.
    destruct (decide (id = k.1)); auto.
  - intros o Hin. rewrite Hrem, lookup_insert_is_Some. destruct (decide (id = ob_RemoteID o)); [by left|right].
    split; [done|]. by apply Ho.
Qed.

(** A first sync to run the properties on: one remote, registered on an empty store. *)
Definition sample_remote : Remote :=
  mkRemote 1 "https://h/r.git" "https://h/r" TransportHTTPS 300000000000 0 true None RemoteActive 0 "" 0
    genesis_head 0 None 1 1.
Definition sample_db : db := with_remotes (mkDb [] [] [] [] [] [] 1 0 0 0 0) [remote_row sample_remote 1].
Definition oid_a : OID := mkOID (replicate 20 xab) SHA1.
Definition oid_b : OID := mkOID (replicate 20 xcd) SHA1.
Definition listing (o : OID) : list LsRemoteRef := [mkLsRef "v1" o zeroOID false].
Definition sample_readings (t : Z) : Readings := mkReadings t (t + 1) (t + 2) (λ i, t + 3 + Z.of_nat i) (t + 9) (t + 10).
Definition no_text (e : error) : string := "".

(** The database after the sample remote was synced at time [t] with listing [l]. *)
Definition synced (l : list LsRemoteRef) (t : Z) (d : db) : db :=
  (SyncRemote (T := sqliteTx) (λ _, Ok l) no_text map_to_list "w" (sample_readings t) 1 d).2.

Lemma sample_db_good : db_good sample_db.
Proof.
  assert (SqliteStore.CreateRemote sample_remote empty_db = Ok (1, sample_db)) as H by (vm_compute; reflexivity).
  by apply (CreateRemote_good sample_remote empty_db 1 sample_db empty_db_good eq_refl eq_refl) in H as [? _].
Qed.

Lemma oid_a_wf : oid_wf oid_a.
Proof. split; reflexivity. Qed.
Lemma oid_b_wf : oid_wf oid_b.
Proof. split; reflexivity. Qed.

Lemma listing_wf o : oid_wf o → Forall ls_wf (listing o) ∧ NoDup (ls_Name <$> listing o).
Proof.
  intros Ho. split; [|apply NoDup_singleton]. constructor; [|done]. split; [done|by left].
Qed.

Lemma synced_good o t d : db_good d → oid_wf o → db_good (synced (listing o) t d).
Proof.
  intros [Hok Hgood] Ho. unfold synced.
  destruct (SyncRemote (λ _, Ok (listing o)) no_text map_to_list "w" (sample_readings t) 1 d) as [[res e] d'] eqn:E.
  destruct (SyncRemote_any (S := db) (T := sqliteTx) (λ _, Ok (listing o)) no_text map_to_list "w" (sample_readings t) 1 d res e d')
    as (? & ? & _); try done.
  intros u l Hl. injection Hl as <-. by apply listing_wf.
Qed.

(** The sample store after its first sync. *)
Definition sample_db1 : db := Eval vm_compute in synced (listing oid_a) 5 sample_db.

Lemma sample_db1_good : db_good sample_db1.
Proof.
  assert (sample_db1 = synced (listing oid_a) 5 sample_db) as -> by (vm_compute; reflexivity).
  apply synced_good; [apply sample_db_good|apply oid_a_wf].
Qed.

Definition sample_remote1 : Remote := Eval vm_compute in default sample_remote (a_remotes (db_abs sample_db1) !! 1).
Definition sample_tag1 : Ref :=
  Eval vm_compute in default (projectTag None (mkLsRef "" zeroOID zeroOID false) 0 0) (a_refs (db_abs sample_db1) !! (1, "v1")).

(** Every sync, whatever its outcome, keeps the store good, its ledgers and its taints. *)
Lemma sync_preserves LsRemote error_text range holder rd rid d res e d' :
  db_good d →
  (∀ u lsRefs, LsRemote u = Ok lsRefs → Forall ls_wf lsRefs ∧ NoDup (ls_Name <$> lsRefs)) →
  (∀ m, range m ≡ₚ map_to_list m) →
  SyncRemote LsRemote error_text range holder rd rid d = (res, e, d') →
  db_good d' ∧
  (∀ k, ledger (db_abs d) k `prefix_of` ledger (db_abs d') k) ∧
  a_events (db_abs d) `prefix_of` a_events (db_abs d') ∧
  (∀ k r, a_refs (db_abs d) !! k = Some r → rf_Tainted r = true →
     ∃ r', a_refs (db_abs d') !! k = Some r' ∧ rf_Tainted r' = true ∧ rf_TaintFirstNS r' = rf_TaintFirstNS r).
Proof.
  intros [Hok Hgood] Hgit Hrange Hrun.
  destruct (SyncRemote_any (S := db) LsRemote error_text range holder rd rid d res e d') as (Hok' & Hgood' & Hcase); try done.
  split; [done|]. destruct Hcase as [(Hr & Ho & He & _)|(syncID & n & policy & prior & lsRefs & a' & Hprior & Heff & Hr & Ho & He & _)].
  - cbn in *. unfold ledger. rewrite Ho, Hr, He. split_and!; [done|done|]. by eauto.
  - cbn in *. split_and!.
    + intros k. unfold ledger. rewrite Ho. destruct (se_rows _ _ _ _ _ _ _ _ _ Heff) as (l1 & _ & l2 & -> & _).
      rewrite filter_app. by eexists.
    + rewrite He. apply Heff.
    + intros k r Hk Ht. rewrite Hr. eapply effect_keeps_taint; try done.
      * by apply (good_tags _ Hgood k).
      * intros k' r' Hk'. rewrite <- Hr in Hk'. by apply (good_tags _ Hgood' k').
      * apply Hgood.
Qed.

(** A sync over a listing with a moved tag. *)
Lemma sync_moved LsRemote error_text range holder rd rid d rem lsRefs now p :
  db_good d → a_remotes (db_abs d) !! rid = Some rem → lease_free (db_abs d) rid (rd_lease rd) →
  LsRemote (rm_URL rem) = Ok lsRefs → Forall ls_wf lsRefs → NoDup (ls_Name <$> lsRefs) →
  (∀ m, range m ≡ₚ map_to_list m) →
  now ∈ lsRefs → a_refs (db_abs d) !! (rid, ls_Name now) = Some p → ls_OID now ≠ rf_CurrentOID p →
  ∃ res d' ref, SyncRemote LsRemote error_text range holder rd rid d = (Some res, None, d') ∧ db_good d' ∧
    a_refs (db_abs d') !! (rid, ls_Name now) = Some ref ∧ rf_Tainted ref = true ∧
    (∃ new o, ledger (db_abs d') rid = ledger (db_abs d) rid ++ new ∧ o ∈ new ∧ ob_RefID o = rf_ID ref ∧
       ob_PrevOID o = rf_CurrentOID p ∧ ob_NewOID o = ls_OID now) ∧
    (∃ e, e ∈ a_events (db_abs d') ∧ te_RefID e = rf_ID ref ∧ te_FromOID e = rf_CurrentOID p ∧ te_ToOID e = ls_OID now).
Proof.
  intros Hdb Hrem Hfree Hls Hwf Hnd Hrange Hnow Hp Hmoved. pose proof Hdb as [Hok Hgood].
  destruct (SyncRemote_run LsRemote error_text range holder rd rid d rem lsRefs)
    as (syncID & n & d' & rem' & prior & a' & Hrun & Hok' & Hgood' & Hprior & Heff & _ & Habs); try done.
  cbn in Habs. assert (prior !! ls_Name now = Some p) as Hpr by (by rewrite <- Hprior).
  assert (Taint (ClassifyTag (prior !! ls_Name now) (Some now)) ≠ None) as Htaint.
  { rewrite Hpr. by rewrite ClassifyTag_taint. }
  assert (changed prior now) as Hch.
  { unfold changed. destruct (Taint _) as [reason|] eqn:E; [|done]. by eapply ClassifyTag_taint_event. }
  pose proof (se_seen _ _ _ _ _ _ _ _ _ Heff) as Hseen. rewrite Forall_forall in Hseen.
  destruct (Hseen now Hnow) as (ref & Href & _ & _ & _ & _ & _ & Ht & _ & Hev).
  eexists _, d', ref. rewrite Habs. cbn. split; [exact Hrun|]. split; [done|]. split; [done|].
  destruct (Taint _) as [reason|] eqn:E; [|done]. split; [apply Ht; right; eauto|]. split.
  - destruct (se_rows _ _ _ _ _ _ _ _ _ Heff) as (seen & del & rows & Hobs & _ & Hrows & _).
    destruct (Forall2_elem_l _ _ _ now Hrows) as (o & Ho & Hrow); [by apply list_elem_of_filter|].
    destruct Hrow as (R1 & R2 & _ & _ & R5 & R6 & _ & ref' & Href' & Hid). rewrite Href in Href'. injection Href' as <-.
    rewrite Hpr in R5. exists (filter (λ o, ob_RemoteID o = rid) (seen ++ rows)), o. split_and!; try done.
    + unfold ledger. cbn. by rewrite Hobs, filter_app.
    + apply list_elem_of_filter. split; [done|]. apply elem_of_app. by left.
  - destruct (Hev reason eq_refl) as (e & p' & Hp' & He & _ & He2 & _ & He4 & He5). rewrite Hpr in Hp'. injection Hp' as <-.
    exists e. done.
Qed.

(** * Properties *)

(** C1. A sync of a registered remote, when git lists its tags and no live lease is in
    the way, succeeds and leaves the database in a good state in which: every listed
    tag is in the projection with the ids git showed, live, tainted if it was or if
    this sync found its id moved, with the first taint time kept and the taint event
    recorded; every tag that vanished is marked deleted (and tainted under the
    deletion policy); no other tag of the remote appears; the ledger grew by
    exactly one row per changed tag, in order, and the count returned is their number;
    other remotes are untouched; the lease is gone and the remote is active. *)
Theorem sync_remote_success LsRemote error_text range holder rd rid d rem lsRefs :
  db_good d → a_remotes (db_abs d) !! rid = Some rem → lease_free (db_abs d) rid (rd_lease rd) →
  LsRemote (rm_URL rem) = Ok lsRefs → Forall ls_wf lsRefs → NoDup (ls_Name <$> lsRefs) →
  (∀ m, range m ≡ₚ map_to_list m) →
  ∃ syncID n d' rem' prior a',
    SyncRemote LsRemote error_text range holder rd rid d =
      (Some (mkSyncResult syncID SyncOk (Z.of_nat (length lsRefs)) n (rm_ChainHeadHash rem) (rm_ChainHeadHash rem')),
       None, d') ∧
    db_good d' ∧ tags_of (db_abs d) rid prior ∧
    sync_effect rid syncID (rd_tx rd) (rm_TaintAnyTagDeletion rem) prior lsRefs (db_abs d) a' n ∧
    a_remotes a' !! rid = Some rem' ∧
    db_abs d' = mkAbs (alter (λ r, set_health r RemoteActive "" (rd_end rd) (rd_wall rd)) rid (a_remotes a'))
      (a_refs a') (a_obs a') (a_events a') (a_syncs a') (delete rid (a_leases (db_abs d))).
Proof.
  intros [Hok Hgood] ??????.
  destruct (SyncRemote_run LsRemote error_text range holder rd rid d rem lsRefs)
    as (syncID & n & s' & rem' & prior & a' & Hrun & ? & ? & ? & ? & ? & ?); try done.
  by exists syncID, n, s', rem', prior, a'.
Qed.

Lemma sync_remote_success_witness :
  ∃ n d', SyncRemote (λ _, Ok (listing oid_a)) no_text map_to_list "w" (sample_readings 5) 1 sample_db = (n, None, d') ∧ db_good d'.
Proof.
  destruct (sync_remote_success (λ _, Ok (listing oid_a)) no_text map_to_list "w" (sample_readings 5) 1 sample_db
    sample_remote (listing oid_a)) as (syncID & n & d' & rem' & prior & a' & Hrun & Hgood & _).
  - apply sample_db_good.
  - vm_compute; reflexivity.
  - intros l Hl. vm_compute in Hl. discriminate Hl.
  - reflexivity.
  - apply listing_wf, oid_a_wf.
  - apply listing_wf, oid_a_wf.
  - done.
  - rewrite Hrun. eauto.
Defined.

(** C2. Nothing a sync does, whether it succeeds or fails at any point, breaks the
    store: the ledger of every remote still replays from genesis to the head its row
    holds, every ledger only grew, the taint spine only grew, and every tag that was
    tainted is still tainted with the same first time. *)
Theorem sync_remote_invariant LsRemote error_text range holder rd rid d res e d' :
  db_good d →
  (∀ u lsRefs, LsRemote u = Ok lsRefs → Forall ls_wf lsRefs ∧ NoDup (ls_Name <$> lsRefs)) →
  (∀ m, range m ≡ₚ map_to_list m) →
  SyncRemote LsRemote error_text range holder rd rid d = (res, e, d') →
  db_good d' ∧
  (∀ k, ledger (db_abs d) k `prefix_of` ledger (db_abs d') k) ∧
  a_events (db_abs d) `prefix_of` a_events (db_abs d') ∧
  (∀ k r, a_refs (db_abs d) !! k = Some r → rf_Tainted r = true →
     ∃ r', a_refs (db_abs d') !! k = Some r' ∧ rf_Tainted r' = true ∧ rf_TaintFirstNS r' = rf_TaintFirstNS r).
Proof. apply sync_preserves. Qed.

Lemma sync_remote_invariant_witness :
  a_events (db_abs sample_db) `prefix_of` a_events (db_abs (synced (listing oid_a) 5 sample_db)).
Proof.
  destruct (SyncRemote (λ _, Ok (listing oid_a)) no_text map_to_list "w" (sample_readings 5) 1 sample_db) as [[res e] d'] eqn:E.
  assert (synced (listing oid_a) 5 sample_db = d') as -> by (unfold synced; rewrite E; reflexivity).
  apply (sync_remote_invariant (λ _, Ok (listing oid_a)) no_text map_to_list "w" (sample_readings 5) 1 sample_db res e d').
  - apply sample_db_good.
  - intros u l Hl. injection Hl as <-. apply (listing_wf oid_a oid_a_wf).
  - done.
  - exact E.
Defined.

(** C3. A moved tag is caught: when git shows a different id for a tag the store knows
    (live or deleted), the sync marks it tainted, appends a ledger row with the old
    and the new id, and records a taint event with both. *)
Theorem sync_detects_moved_tag LsRemote error_text range holder rd rid d rem lsRefs now p :
  db_good d → a_remotes (db_abs d) !! rid = Some rem → lease_free (db_abs d) rid (rd_lease rd) →
  LsRemote (rm_URL rem) = Ok lsRefs → Forall ls_wf lsRefs → NoDup (ls_Name <$> lsRefs) →
  (∀ m, range m ≡ₚ map_to_list m) →
  now ∈ lsRefs → a_refs (db_abs d) !! (rid, ls_Name now) = Some p → ls_OID now ≠ rf_CurrentOID p →
  ∃ res d' ref, SyncRemote LsRemote error_text range holder rd rid d = (Some res, None, d') ∧
    a_refs (db_abs d') !! (rid, ls_Name now) = Some ref ∧ rf_Tainted ref = true ∧
    (∃ new o, ledger (db_abs d') rid = ledger (db_abs d) rid ++ new ∧ o ∈ new ∧ ob_RefID o = rf_ID ref ∧
       ob_PrevOID o = rf_CurrentOID p ∧ ob_NewOID o = ls_OID now) ∧
    (∃ e, e ∈ a_events (db_abs d') ∧ te_RefID e = rf_ID ref ∧ te_FromOID e = rf_CurrentOID p ∧ te_ToOID e = ls_OID now).
Proof.
  intros. destruct (sync_moved LsRemote error_text range holder rd rid d rem lsRefs now p)
    as (res & d' & ref & ? & _ & ?); [done..|]. by exists res, d', ref.
Qed.

Lemma sync_detects_moved_tag_witness :
  ∃ res d' ref, SyncRemote (λ _, Ok (listing oid_b)) no_text map_to_list "w" (sample_readings 500000000000) 1 sample_db1
      = (Some res, None, d') ∧
    a_refs (db_abs d') !! (1, "v1") = Some ref ∧ rf_Tainted ref = true.
Proof.
  destruct (sync_detects_moved_tag (λ _, Ok (listing oid_b)) no_text map_to_list "w" (sample_readings 500000000000) 1
    sample_db1 sample_remote1 (listing oid_b) (mkLsRef "v1" oid_b zeroOID false) sample_tag1)
    as (res & d' & ref & Hrun & Href & Ht & _).
  - apply sample_db1_good.
  - vm_compute. reflexivity.
  - intros l Hl. vm_compute in Hl. discriminate Hl.
  - reflexivity.
  - apply listing_wf, oid_b_wf.
  - apply listing_wf, oid_b_wf.
  - done.
  - left.
  - vm_compute. reflexivity.
  - vm_compute. discriminate.
  - exists res, d', ref. exact (conj Hrun (conj Href Ht)).
Defined.


Definition sample_result1 : SyncResult :=
  Eval vm_compute in default (mkSyncResult 0 "" 0 0 [] [])
    (SyncRemote (T := sqliteTx) (λ _, Ok (listing oid_a)) no_text map_to_list "w" (sample_readings 5) 1 sample_db).1.1.


(** C40. When [git ls-remote] fails, the sync reports the failure and touches no tag, no
    ledger, no taint event and no sync row.  Of the remote it records the degraded
    status and the error; it also sets the time of the last success to the start of
    this failed sync and leaves the count of consecutive failures as it was. *)
Theorem sync_ls_failure LsRemote error_text range holder rd rid d rem e :
  db_good d → a_remotes (db_abs d) !! rid = Some rem → lease_free (db_abs d) rid (rd_lease rd) →
  LsRemote (rm_URL rem) = Err e →
  ∃ res d' rem', SyncRemote LsRemote error_text range holder rd rid d = (Some res, Some e, d') ∧
    sr_Status res = SyncFailed ∧ db_good d' ∧ untouched (db_abs d) (db_abs d') ∧
    a_remotes (db_abs d') !! rid = Some rem' ∧
    rm_Status rem' = RemoteDegraded ∧ rm_LastErr rem' = error_text e ∧
    rm_LastOkNS rem' = rd_start rd ∧ rm_ConsecutiveFailures rem' = rm_ConsecutiveFailures rem.
Proof.
  intros [Hok Hgood] Hrem Hfree Hls.
  destruct (SyncRemote_ls_failure LsRemote error_text range holder rd rid d rem e)
    as (d' & Hrun & Hok' & Hgood' & Hun & Hr); try done.
  eexists _, d', _. split; [exact Hrun|]. split; [done|]. split; [done|]. split; [done|].
  change (s_abs d') with (db_abs d') in Hr. change (s_abs d) with (db_abs d) in Hr.
  rewrite Hr, lookup_alter_eq, Hrem. done.
Qed.

Lemma sync_ls_failure_witness :
  ∃ res d' rem', SyncRemote (λ _, Err ErrNoRefs) no_text map_to_list "w" (sample_readings 5) 1 sample_db
      = (Some res, Some ErrNoRefs, d') ∧ a_remotes (db_abs d') !! 1 = Some rem' ∧ rm_LastOkNS rem' = 6.
Proof.
  destruct (sync_ls_failure (λ _, Err ErrNoRefs) no_text map_to_list "w" (sample_readings 5) 1 sample_db sample_remote ErrNoRefs)
    as (res & d' & rem' & Hrun & _ & _ & _ & Hrem & _ & _ & Hlast & _).
  - apply sample_db_good.
  - vm_compute. reflexivity.
  - intros l Hl. vm_compute in Hl. discriminate Hl.
  - reflexivity.
  - exists res, d', rem'. exact (conj Hrun (conj Hrem Hlast)).
Defined.


Definition failed_db : db :=
  Eval vm_compute in (SyncRemote (T := sqliteTx) (λ _, Err ErrNoRefs) no_text map_to_list "w" (sample_readings 5) 1 sample_db).2.

