(* ===== verification/StoreProps.v ===== *)
(** Properties of the SQLite store and of the lease on it: the chain append, the tag
    projection, sync retention, the auditor's replay, acknowledgements and
    lease exclusion. *)
From S2P Require Import Prelude GoStrings Sha256 Model Chain SyncDiff Sqlc StoreSpec SqliteStore SqliteTx SqliteSpec.
From S2P Require Import Lock SyncRemote SyncCorrect SyncProps.
#[local] Open Scope Z_scope.
#[local] Open Scope go_scope.

(** * Lemmas *)

(** Rows in the order of distinct ids. *)
Lemma ORDER_BY_strict {A} (key : A → Z) l : NoDup (key <$> l) → StronglySorted Z.lt (key <$> ORDER_BY key l).
Proof.
  intros Hnd. assert (StronglySorted (key_le key) (ORDER_BY key l)) as Hs.
  { apply Sorted_StronglySorted; [apply _|]. apply Sorted_merge_sort. apply _. }
  rewrite <- (ORDER_BY_Permutation key l) in Hnd. induction Hs as [|a l' Hs IH Ha]; [constructor|].
  cbn in *. apply NoDup_cons in Hnd as [Hnin Hnd]. constructor; [auto|]. rewrite Forall_fmap. rewrite Forall_forall in Ha |- *.
  intros b Hb. specialize (Ha b Hb). unfold key_le in Ha. cbn. assert (key a ≠ key b); [|lia].
  intros E. apply Hnin. rewrite E. by apply list_elem_of_fmap_2.
Qed.

Lemma filter_Perm {A} (p : A → bool) l l' : l ≡ₚ l' → List.filter p l ≡ₚ List.filter p l'.
Proof.
  induction 1 as [|a l1 l2 _ IH|a b l1|l1 l2 l3 _ IH1 _ IH2]; cbn.
  - done.
  - destruct (p a); [by constructor|done].
  - destruct (p a), (p b); done || constructor.
  - by etrans.
Qed.

(** To filter and to sort commute. *)
Lemma ORDER_BY_filter {A} (key : A → Z) p l : NoDup (key <$> l) →
  ORDER_BY key (List.filter p l) = List.filter p (ORDER_BY key l).
Proof.
  intros Hnd. rewrite <- (ORDER_BY_sorted key (List.filter p (ORDER_BY key l))) by by apply filter_keys_sorted, ORDER_BY_strict.
  assert (List.filter p l ≡ₚ List.filter p (ORDER_BY key l)) as HP.
  { apply filter_Perm. by rewrite ORDER_BY_Permutation. }
  assert (NoDup (key <$> List.filter p l)) as Hnd1 by by apply NoDup_fmap_filter.
  assert (NoDup (key <$> List.filter p (ORDER_BY key l))) as Hnd2 by by rewrite <- HP.
  assert (ORDER_BY key (List.filter p l) ≡ₚ ORDER_BY key (List.filter p (ORDER_BY key l))) as HP' by by rewrite !ORDER_BY_Permutation.
  pose proof (ORDER_BY_strict key _ Hnd1) as S1. pose proof (ORDER_BY_strict key _ Hnd2) as S2. revert HP' S1 S2.
  generalize (ORDER_BY key (List.filter p l)) (ORDER_BY key (List.filter p (ORDER_BY key l))). clear.
  induction l as [|a l1 IH]; intros l2 HP S1 S2; [by apply Permutation_nil_l in HP|].
  destruct l2 as [|b l2]; [by apply Permutation_nil_r in HP|]. cbn in S1, S2. apply StronglySorted_inv in S1 as [S1 Ha], S2 as [S2 Hb].
  rewrite Forall_fmap, Forall_forall in Ha, Hb. assert (a = b) as ->.
  { assert (a ∈ b :: l2) as Hin by (rewrite <- HP; by left). apply elem_of_cons in Hin as [|Hin]; [done|].
    assert (b ∈ a :: l1) as Hin' by (rewrite HP; by left). apply elem_of_cons in Hin' as [|Hin']; [done|].
    specialize (Ha _ Hin'). specialize (Hb _ Hin). cbn in *. lia. }
  f_equal. apply IH; [by eapply Permutation_cons_inv|done..].
Qed.

Lemma filter_all {A} (p : A → bool) l : (∀ a, a ∈ l → p a = true) → List.filter p l = l.
Proof.
  induction l as [|a l IH]; [done|]. intros H. cbn. rewrite (H a) by by left. f_equal. apply IH. intros b Hb. apply H. by right.
Qed.
Lemma filter_and {A} (p q : A → bool) l : List.filter q (List.filter p l) = List.filter (λ a, p a && q a) l.
Proof. induction l as [|a l IH]; [done|]. cbn. destruct (p a); cbn; [destruct (q a)|]; by rewrite IH. Qed.

(** The rows of a remote come in the order of their sequence numbers. *)
Lemma ledger_rows_sorted d rid :
  replay genesis_head 0 (ledger (db_abs d) rid) = true →
  StronglySorted Z.lt (or_Seq <$> List.filter (λ o, or_RemoteID o =? rid) (t_observations d)).
Proof.
  rewrite ledger_db. generalize (List.filter (λ o, or_RemoteID o =? rid) (t_observations d)) as l.
  generalize genesis_head as h. generalize 0 as n.
  assert (∀ l h n, replay h n (observationFromRow <$> l) = true →
    StronglySorted Z.lt (or_Seq <$> l) ∧ Forall (λ o, n < or_Seq o) l) as Hgen.
  { induction l as [|o l IH]; intros h n Hr; [split; constructor|].
    cbn in Hr. rewrite !andb_true_iff, Z.eqb_eq in Hr. destruct Hr as (((Hs & _) & _) & Hr).
    destruct (IH _ _ Hr) as [Hsort Hall]. split; cbn.
    - constructor; [done|]. rewrite Forall_fmap. eapply Forall_impl; [done|]. cbn. lia.
    - constructor; [lia|]. eapply Forall_impl; [done|]. cbn. lia. }
  intros n h l Hr. by apply (Hgen l h n).
Qed.

(** The auditor's page of a remote's ledger. *)
Lemma ReplayObservations_page d rid fromSeq limit :
  replay genesis_head 0 (ledger (db_abs d) rid) = true →
  SqliteStore.ReplayObservations rid fromSeq limit d =
  Ok (take (Z.to_nat (if limit <=? 0 then 1000 else limit)) (filter (λ o, fromSeq < ob_Seq o) (ledger (db_abs d) rid)), d).
Proof.
  intros Hr. unfold SqliteStore.ReplayObservations, Sqlc.ReplayObservations, run_with, gets, mbind, SE_bind, mret, SE_ret.
  do 2 f_equal. unfold LIMIT.
  assert ((if limit <=? 0 then 1000 else limit) <? 0 = false) as ->.
  { destruct (Z.leb_spec limit 0); [done|]. apply Z.ltb_ge. lia. }
  set (n := Z.to_nat _). rewrite ORDER_BY_sorted.
  - change (map observationFromRow (take n ?l)) with (observationFromRow <$> take n l). rewrite fmap_take. f_equal.
    rewrite ledger_db, <- (fmap_filter_comm observationFromRow (λ o, fromSeq < ob_Seq o) (λ o, fromSeq <? or_Seq o))
      by (intros; apply Z.ltb_lt).
    f_equal. induction (t_observations d) as [|o l IH]; cbn; [done|]. destruct (or_RemoteID o =? rid); cbn; rewrite IH; done.
  - assert (List.filter (λ o, (or_RemoteID o =? rid) && (fromSeq <? or_Seq o)) (t_observations d) =
      List.filter (λ o, fromSeq <? or_Seq o) (List.filter (λ o, or_RemoteID o =? rid) (t_observations d))) as ->.
    { induction (t_observations d) as [|o l IH]; cbn; [done|]. destruct (or_RemoteID o =? rid); cbn; rewrite IH; done. }
    apply filter_keys_sorted. by apply ledger_rows_sorted.
Qed.

(** * Properties *)

(** The auditor's view: replaying a remote's observations from sequence 0 returns its
    ledger up to the limit, which an independent check accepts from genesis; with a
    limit at least its length, the hash of the last row is the head the remote's row
    advertises and the number of rows is its length. *)
Theorem audit_replay d rid rem limit :
  db_good d → a_remotes (db_abs d) !! rid = Some rem →
  ∃ l, SqliteStore.ReplayObservations rid 0 limit d = Ok (l, d) ∧ replay genesis_head 0 l = true ∧
    (rm_ChainLen rem ≤ limit → 0 < limit →
     ledger_head genesis_head l = rm_ChainHeadHash rem ∧ Z.of_nat (length l) = rm_ChainLen rem).
Proof.
  intros [Hok Hgood] Hrem. destruct (ok_chain _ (good_abs _ Hgood) _ _ Hrem) as (Hr & Hh & Hn).
  rewrite ReplayObservations_page by done. eexists. split; [reflexivity|].
  assert (filter (λ o, 0 < ob_Seq o) (ledger (db_abs d) rid) = ledger (db_abs d) rid) as ->.
  { assert (Forall (λ o, 0 < ob_Seq o) (ledger (db_abs d) rid)) as Hall.
    { apply Forall_lookup. intros i o Hi. rewrite (replay_seq _ _ _ _ _ Hr Hi). lia. }
    clear -Hall. induction Hall as [|o l Ho Hall IH]; [done|]. rewrite filter_cons, decide_True by done. by f_equal. }
  split.
  - set (n := Z.to_nat _). rewrite <- (take_drop n (ledger (db_abs d) rid)), replay_app, andb_true_iff in Hr. tauto.
  - intros Hlim Hpos. destruct (Z.leb_spec limit 0); [lia|]. rewrite take_ge by lia. done.
Qed.

Lemma audit_replay_witness : ∃ l, SqliteStore.ReplayObservations 1 0 10 sample_db1 = Ok (l, sample_db1) ∧ replay genesis_head 0 l = true.
Proof.
  destruct (audit_replay sample_db1 1 sample_remote1 10) as (l & Hl & Hr & _).
  - apply sample_db1_good.
  - vm_compute. reflexivity.
  - exists l. exact (conj Hl Hr).
Defined.

(** C9. Appending an observation for a known remote and tag under a valid event succeeds
    and extends exactly that remote's chain by one row linked to its head; the new
    state still replays for every remote, and nothing else of the store moves. *)
Theorem append_observation_correct t o rem :
  db_good (q t) → a_remotes (db_abs (q t)) !! ob_RemoteID o = Some rem →
  has_ref_id (db_abs (q t)) (ob_RefID o) → EventType_Valid (ob_EventType o) = true → ob_SyncID o ≠ 0 → obs_storable o →
  ∃ seq o' t', SqliteTx.AppendObservation o t = Ok ((seq, o'), t') ∧
    seq = rm_ChainLen rem + 1 ∧ ob_PrevHash o' = rm_ChainHeadHash rem ∧ ob_RowHash o' = RowHash (rm_ChainHeadHash rem) o' ∧
    a_remotes (db_abs (q t')) = <[ob_RemoteID o := set_chain rem (ob_RowHash o') seq]> (a_remotes (db_abs (q t))) ∧
    (∀ k, ledger (db_abs (q t')) k = ledger (db_abs (q t)) k ++ (if decide (k = ob_RemoteID o) then [o'] else [])) ∧
    a_refs (db_abs (q t')) = a_refs (db_abs (q t)) ∧ a_events (db_abs (q t')) = a_events (db_abs (q t)) ∧
    chain_ok (db_abs (q t')).
Proof.
  intros [Hok Hgood] Hrem Href Hev Hsync Hst.
  destruct (sqlite_append_total t o Hok (good_abs _ Hgood) Hst) as [[r t'] Hrun]; [by rewrite Hrem|done..|].
  destruct (sqlite_append_refines t o r t' Hok Hst Hrun) as (_ & _ & Hspec).
  pose proof (append_chain_ok _ _ _ _ _ Hspec (ok_chain _ (good_abs _ Hgood))) as Hchain.
  destruct Hspec as (rem' & id & Hrem' & _ & _ & -> & Ha). rewrite Hrem in Hrem'. injection Hrem' as <-.
  rewrite (proj2 (Z.eqb_neq _ 0) Hsync) in Ha.
  eexists _, _, t'. split; [exact Hrun|]. rewrite Ha in *. split_and!; try done.
  intros k. by rewrite ledger_snoc.
Qed.

(** A transaction on the sample store, and an observation of its tag. *)
Definition sample_tx : sqliteTx := mkSqliteTx sample_db1 0.
Definition sample_obs : Observation :=
  mkObservation 0 1 (rf_ID sample_tag1) 1 0 EventTagOIDChanged oid_a oid_b zeroOID zeroOID 7 [] [] "".

Lemma append_observation_correct_witness :
  ∃ seq o' t', SqliteTx.AppendObservation sample_obs sample_tx = Ok ((seq, o'), t') ∧ seq = 2.
Proof.
  destruct (append_observation_correct sample_tx sample_obs sample_remote1) as (seq & o' & t' & Hrun & Hseq & _).
  - apply sample_db1_good.
  - vm_compute. reflexivity.
  - exists (1, "v1"), sample_tag1. split; [vm_compute; reflexivity|reflexivity].
  - reflexivity.
  - discriminate.
  - split_and!; [right; apply oid_a_wf|right; apply oid_b_wf|by left|by left].
  - exists seq, o', t'. exact (conj Hrun Hseq).
Defined.

(** What is written of a tag is read back: after an upsert of a projection, looking
    the tag up returns the same values under the row's id (which an existing row
    keeps, together with where the tag was first seen), and every other tag reads as
    before. *)
Theorem ref_roundtrip t ref t' ref' :
  db_good (q t) → ref_storable ref → SqliteTx.UpsertRefProjection ref t = Ok (ref', t') →
  ∃ got, SqliteStore.GetRef (rf_RemoteID ref) (rf_TagName ref) (q t') = Ok (got, q t') ∧
    got = upserted (a_refs (db_abs (q t)) !! (rf_RemoteID ref, rf_TagName ref)) ref (rf_ID ref') ∧
    (∀ old, a_refs (db_abs (q t)) !! (rf_RemoteID ref, rf_TagName ref) = Some old → rf_ID got = rf_ID old) ∧
    (∀ rid name, (rid, name) ≠ (rf_RemoteID ref, rf_TagName ref) →
       a_refs (db_abs (q t')) !! (rid, name) = a_refs (db_abs (q t)) !! (rid, name)).
Proof.
  intros [Hok _] Hst Hrun. destruct (sqlite_upsert_refines t ref ref' t' Hok Hst Hrun) as (_ & _ & id & Hid & -> & Ha).
  rewrite GetRef_spec, Ha. cbn [a_refs with_a_refs]. rewrite lookup_insert_eq. eexists. split; [reflexivity|]. split; [done|]. split.
  - intros old Hold. rewrite Hold in Hid. done.
  - intros rid name Hne. by rewrite lookup_insert_ne.
Qed.

Lemma ref_roundtrip_witness :
  ∃ got d', SqliteStore.GetRef 1 "v1" d' = Ok (got, d') ∧ rf_ID got = rf_ID sample_tag1.
Proof.
  destruct (SqliteTx.UpsertRefProjection sample_tag1 sample_tx) as [[ref' t']|e] eqn:E; [|exfalso; vm_compute in E; discriminate E].
  destruct (ref_roundtrip sample_tx sample_tag1 t' ref') as (got & Hget & _ & Hold & _).
  - apply sample_db1_good.
  - split_and!; right; split; reflexivity.
  - exact E.
  - exists got, (q t'). split; [exact Hget|]. apply Hold. vm_compute. reflexivity.
Defined.

(** Retention keeps what it must: pruning leaves exactly the syncs of other remotes,
    the newest [keep] of this one, and those a ledger row came from; every row of
    every ledger still has its sync. *)
Theorem prune_retention t rid keep r t' :
  db_good (q t) → SqliteTx.PruneSyncs rid keep t = Ok (r, t') →
  (∀ s, s ∈ a_syncs (db_abs (q t')) ↔ s ∈ a_syncs (db_abs (q t)) ∧ kept (db_abs (q t)) rid keep s) ∧
  syncs_ok (db_abs (q t')) ∧ a_obs (db_abs (q t')) = a_obs (db_abs (q t)).
Proof.
  intros [Hok Hgood] Hrun. destruct (sqlite_prune_refines t rid keep r t' Hok Hrun) as (_ & _ & Hspec).
  split; [|split].
  - intros s. rewrite Hspec. cbn. rewrite list_elem_of_filter. tauto.
  - eapply prune_syncs_ok; [exact Hspec| |]; apply Hgood.
  - by rewrite Hspec.
Qed.

Lemma prune_retention_witness :
  ∃ t', SqliteTx.PruneSyncs 1 5 sample_tx = Ok ((), t') ∧ syncs_ok (db_abs (q t')).
Proof.
  destruct (SqliteTx.PruneSyncs 1 5 sample_tx) as [[[] t']|e] eqn:E; [|exfalso; vm_compute in E; discriminate E].
  destruct (prune_retention sample_tx 1 5 () t') as (_ & Hs & _).
  - apply sample_db1_good.
  - exact E.
  - exists t'. exact (conj eq_refl Hs).
Defined.

(** C28. One writer at a time: once a holder has acquired a remote's lease, every attempt
    to acquire it again while it has not expired, by anyone (the same holder
    included), is refused with [ErrLeaseHeld] and changes nothing; after it has
    expired the next attempt is granted. *)
Theorem lease_exclusive d rid now1 holder1 ttl1 lease d1 now2 holder2 ttl2 :
  db_good d → AcquireRemoteLease now1 rid holder1 ttl1 d = Ok (lease, d1) →
  if now2 <=? now1 +w ttl1
  then AcquireRemoteLease now2 rid holder2 ttl2 d1 = Err ErrLeaseHeld
  else ∃ lease2 d2, AcquireRemoteLease now2 rid holder2 ttl2 d1 = Ok (lease2, d2) ∧ le_Holder lease2 = holder2.
Proof.
  intros [Hok _] H1. pose proof (AcquireRemoteLease_spec (S := db) (T := sqliteTx) d now1 rid holder1 ttl1 Hok I ltac:(done)) as Hs1.
  rewrite H1 in Hs1. destruct Hs1 as (Hok1 & rem & Hrem & _ & -> & Ha1).
  change (s_abs d1) with (db_abs d1) in Ha1. change (s_abs d) with (db_abs d) in Ha1, Hrem.
  pose proof (AcquireRemoteLease_spec (S := db) (T := sqliteTx) d1 now2 rid holder2 ttl2 Hok1 I ltac:(done)) as Hs2.
  change (s_abs d1) with (db_abs d1) in Hs2. rewrite Ha1 in Hs2.
  cbn [a_leases a_remotes with_a_leases] in Hs2. rewrite lookup_insert_eq in Hs2.
  destruct (AcquireRemoteLease now2 rid holder2 ttl2 d1) as [[lease2 d2]|e] eqn:H2.
  - destruct Hs2 as (_ & rem' & _ & Hexp & -> & _). specialize (Hexp _ eq_refl). cbn in Hexp.
    destruct (Z.leb_spec now2 (now1 +w ttl1)); [lia|]. by eexists _, d2.
  - destruct Hs2 as [?|(-> & l & [= <-] & Hle)]; [congruence|]. cbn in Hle.
    destruct (Z.leb_spec now2 (now1 +w ttl1)); [done|lia].
Qed.

Lemma lease_exclusive_witness :
  ∃ lease d1, AcquireRemoteLease 10 1 "a" 100 sample_db = Ok (lease, d1) ∧ AcquireRemoteLease 20 1 "b" 100 d1 = Err ErrLeaseHeld.
Proof.
  destruct (AcquireRemoteLease 10 1 "a" 100 sample_db) as [[lease d1]|e] eqn:E; [|exfalso; vm_compute in E; discriminate E].
  exists lease, d1. split; [reflexivity|].
  apply (lease_exclusive sample_db 1 10 "a" 100 lease d1 20 "b" 100).
  - apply sample_db_good.
  - exact E.
Defined.

(** The event with its first acknowledgement. *)
Definition acked (id : Z) (by_ note : string) (atNS : Z) (e : TaintEvent) : TaintEvent :=
  if (te_ID e =? id) && match te_AckedAtNS e with None => true | Some _ => false end then
    mkTaintEvent (te_ID e) (te_RemoteID e) (te_RefID e) (te_Reason e) (te_ObservationID e) (te_FromOID e) (te_ToOID e)
      (te_DetectedAtNS e) (Some atNS) by_ note (te_Detail e)
  else e.

(** Acknowledging is only an annotation, and the first one stands: it writes the time,
    the author and the note on the event with that id if it has none, and changes
    no taint flag, no ledger and no remote.  It succeeds whether or not such an event
    exists and whether or not it was acknowledged before. *)
Theorem ack_annotates id by_ note atNS d :
  ∃ d', SqliteStore.AckTaintEvent id by_ note atNS d = Ok ((), d') ∧
    a_events (db_abs d') = acked id by_ note atNS <$> a_events (db_abs d) ∧
    a_refs (db_abs d') = a_refs (db_abs d) ∧ a_obs (db_abs d') = a_obs (db_abs d) ∧
    a_remotes (db_abs d') = a_remotes (db_abs d).
Proof.
  eexists. split; [reflexivity|]. split; [|done]. cbn [db_abs a_events with_taint_events t_taint_events].
  unfold UPDATE. rewrite <- list_fmap_compose. change (map ?f ?l) with (f <$> l). rewrite <- list_fmap_compose.
  apply list_fmap_ext. intros i e _. unfold acked, int_ptr. cbn.
  destruct (tr_ID e =? id); [|done]. unfold int_ptr. by destruct (is_null (tr_AckedAtNs e)).
Qed.

(** Recording a taint twice: when both ids are present, a second record of the same
    change returns the id of the first and adds nothing; when one is absent, as the new
    id of a deletion is, every record adds another event. *)
Theorem taint_event_repeat t e id1 t1 id2 t2 :
  db_good (q t) → storable (te_FromOID e) → storable (te_ToOID e) →
  SqliteTx.AppendTaintEvent e t = Ok (id1, t1) → SqliteTx.AppendTaintEvent e t1 = Ok (id2, t2) →
  if decide (te_FromOID e ≠ zeroOID ∧ te_ToOID e ≠ zeroOID)
  then a_events (db_abs (q t2)) = a_events (db_abs (q t1)) ∧ (∃ f, f ∈ a_events (db_abs (q t1)) ∧ same_taint e f)
  else a_events (db_abs (q t2)) = a_events (db_abs (q t)) ++ [recorded e id1; recorded e id2].
Proof.
  intros [Hok _] Hf Ht H1 H2.
  destruct (sqlite_taint_refines t e id1 t1 Hok Hf Ht H1) as (Hok1 & _ & Hs1).
  destruct (sqlite_taint_refines t1 e id2 t2 Hok1 Hf Ht H2) as (_ & _ & Hs2).
  destruct (decide _) as [[Hnf Hnt]|Hz].
  - assert (∃ f, f ∈ a_events (db_abs (q t1)) ∧ same_taint e f) as (f & Hin & Hsame).
    { destruct Hs1 as [(f & Hin & Hsame & _ & ->)|[_ ->]]; [by eauto|].
      exists (recorded e id1). split; [cbn; apply elem_of_app; right; by left|]. by split_and!. }
    split; [|by eauto]. destruct Hs2 as [(_ & _ & _ & _ & ->)|[Hno _]]; [done|]. exfalso. by apply (Hno f).
  - assert (∀ f, ¬ same_taint e f) as Hno by (intros f (_ & _ & _ & _ & _ & ? & ?); by apply Hz).
    destruct Hs1 as [(f & _ & Hsame & _)|[_ Ha1]]; [by destruct (Hno f)|].
    destruct Hs2 as [(f & _ & Hsame & _)|[_ Ha2]]; [by destruct (Hno f)|].
    rewrite Ha2, Ha1. cbn. by rewrite <- (assoc_L (++)).
Qed.

Definition deletion_event : TaintEvent :=
  mkTaintEvent 0 1 (rf_ID sample_tag1) TaintTagDeletedRecreated (Some 1) oid_a zeroOID 9 None "" "" "".

Lemma taint_event_repeat_witness :
  ∃ t1 t2, SqliteTx.AppendTaintEvent deletion_event sample_tx = Ok (1, t1) ∧
    SqliteTx.AppendTaintEvent deletion_event t1 = Ok (2, t2) ∧
    a_events (db_abs (q t2)) = a_events (db_abs (q sample_tx)) ++ [recorded deletion_event 1; recorded deletion_event 2].
Proof.
  destruct (SqliteTx.AppendTaintEvent deletion_event sample_tx) as [[id1 t1]|e] eqn:E1; [|exfalso; vm_compute in E1; discriminate E1].
  assert (id1 = 1) as -> by (vm_compute in E1; by injection E1).
  destruct (SqliteTx.AppendTaintEvent deletion_event t1) as [[id2 t2]|e] eqn:E2;
    [|exfalso; vm_compute in E1; injection E1 as <-; vm_compute in E2; discriminate E2].
  assert (id2 = 2) as -> by (vm_compute in E1; injection E1 as <-; vm_compute in E2; by injection E2).
  exists t1, t2. split; [reflexivity|]. split; [exact E2|].
  apply (taint_event_repeat sample_tx deletion_event 1 t1 2 t2).
  - apply sample_db1_good.
  - right; split; reflexivity.
  - by left.
  - exact E1.
  - exact E2.
Defined.
