(* ===== verification/Testutil.v ===== *)
(** The auditor the tests use (internal/testutil): [AssertChainIntact] reads a ledger through the
    store in batches and recomputes every hash with its own copy of the encoding, so that it
    does not trust internal/store/chain.go.  [Testutil] holds it with the fixture and the clock
    of the tests; the theorems say what its verdict means on any content of the tables. *)
From S2P Require Import Prelude GoStrings GoMaps Sha256 Model Chain SyncDiff Sqlc StoreSpec SqliteStore SqliteTx SqliteSpec SyncRemote SyncCorrect SyncProps StoreProps.
#[local] Open Scope Z_scope.

(** * The copy of the encoding *)

Definition replayWriteField (buf b : bytes) : bytes :=
  let lp := PutUint64 (Z.of_nat (length b)) in
  let buf := buf ++ lp in
  buf ++ b.

Definition replayWriteInt (buf : bytes) (v : Z) : bytes :=
  let x := PutUint64 (uint64 v) in
  replayWriteField buf x.

Definition replayCanonical (o : Observation) : bytes :=
  let buf := [] in
  let buf := replayWriteInt buf (ob_RemoteID o) in
  let buf := replayWriteInt buf (ob_Seq o) in
  let buf := replayWriteInt buf (ob_RefID o) in
  let buf := replayWriteField buf (bytes_of_string (ob_EventType o)) in
  let buf := replayWriteField buf (Raw (ob_PrevOID o)) in
  let buf := replayWriteField buf (Raw (ob_NewOID o)) in
  let buf := replayWriteField buf (Raw (ob_PrevPeeledOID o)) in
  let buf := replayWriteField buf (Raw (ob_NewPeeledOID o)) in
  let buf := replayWriteInt buf (ob_ObservedAtNS o) in
  let buf := replayWriteField buf (bytes_of_string (ob_CanonicalMeta o)) in
  buf.

Definition replayRowHash (prevHash : bytes) (o : Observation) : bytes :=
  Sum256 (prevHash ++ replayCanonical o).

(** * The assertion *)

(** Why it fails the test; the texts carry what is named here. *)
Inductive broken : Type :=
  | Unreadable (e : error)
  | GenesisLength (n : nat)
  | GenesisByte
  | PrevLength (seq : Z)
  | PrevMismatch (seq : Z)
  | RowLength (seq : Z)
  | RowMismatch (seq : Z)
  | CountMismatch (count length : Z)
  | HeadLength (n : nat)
  | HeadMismatch.

Definition batchSize : Z := 500.

(** Where the replay stands: the running head, the last sequence number and the count. *)
Record replay_state : Type := mkReplay { rp_prev : bytes; rp_seq : Z; rp_count : Z }.

(** [prevHash] has 32 bytes whenever it is compared, and so has what it is compared with. *)
Definition assert_row (st : replay_state) (obs : Observation) : result broken replay_state :=
  if negb (length (ob_PrevHash obs) =? 32)%nat then Err (PrevLength (ob_Seq obs))
  else if negb (bool_decide (rp_prev st = ob_PrevHash obs)) then Err (PrevMismatch (ob_Seq obs))
  else
    let computed := replayRowHash (rp_prev st) obs in
    if negb (length (ob_RowHash obs) =? 32)%nat then Err (RowLength (ob_Seq obs))
    else if negb (bool_decide (computed = ob_RowHash obs)) then Err (RowMismatch (ob_Seq obs))
    else Ok (mkReplay (ob_RowHash obs) (ob_Seq obs) (rp_count st + 1)).

Fixpoint assert_batch (st : replay_state) (batch : list Observation) : result broken replay_state :=
  match batch with
  | [] => Ok st
  | obs :: batch => st ← assert_row st obs; assert_batch st batch
  end.

(** The checks after the last batch. *)
Definition assert_end (head : bytes) (len : Z) (st : replay_state) : result broken () :=
  if negb (rp_count st =? len) then Err (CountMismatch (rp_count st) len)
  else if negb (length head =? 32)%nat then Err (HeadLength (length head))
  else if negb (bool_decide (rp_prev st = head)) then Err HeadMismatch
  else Ok ().

Section audit.
Context {S T : Type} `{Store S T}.

(** The loop over batches; [None] is a run out of fuel. *)
Fixpoint assert_loop (fuel : nat) (remoteID : Z) (head : bytes) (len : Z) (st : replay_state) (s : S) : option (result broken ()) :=
  match fuel with
  | O => None
  | Datatypes.S fuel =>
      match st_ReplayObservations remoteID (rp_seq st) batchSize s with
      | Err e => Some (Err (Unreadable e))
      | Ok (batch, s) =>
          match batch with
          | [] => Some (assert_end head len st)
          | _ =>
              match assert_batch st batch with
              | Err b => Some (Err b)
              | Ok st => if Z.of_nat (length batch) <? batchSize then Some (assert_end head len st)
                         else assert_loop fuel remoteID head len st s
              end
          end
      end
  end.

Definition AssertChainIntact (fuel : nat) (remoteID : Z) (s : S) : option (result broken ()) :=
  match st_GetChainHead remoteID s with
  | Err e => Some (Err (Unreadable e))
  | Ok ((head, len), s) =>
      if len =? 0 then
        if negb (length head =? 32)%nat then Some (Err (GenesisLength (length head)))
        else if bool_decide (head = genesis_head) then Some (Ok ()) else Some (Err GenesisByte)
      else assert_loop fuel remoteID head len (mkReplay genesis_head 0 0) s
  end.

(** The fixture of the tests: a registered remote. *)
Definition SeedRemote (url : string) : SE S error Z :=
  st_CreateRemote (mkRemote 0 url url TransportHTTPS (5 * 60 * 1000000000) (60 * 60 * 1000000000) true None RemoteActive 0 "" 0
    genesis_head 0 None 1718000000000000000 1718000000000000000).
End audit.

(** The clock of the tests. *)
Definition FakeClock : Type := Z.
Definition NewFakeClock (startNS : Z) : FakeClock := startNS.
Definition NowNS (c : FakeClock) : Z := c.
Definition SetNS (ns : Z) (c : FakeClock) : FakeClock := ns.
Definition Advance (deltaNS : Z) (c : FakeClock) : FakeClock := wrap64 (c + deltaNS).

(** * What a verdict means *)

(** The rows an auditor of [rid] reads, in the order of their numbers. *)
Definition audit_rows (d : db) (rid : Z) : list Observation :=
  observationFromRow <$> ORDER_BY or_Seq (List.filter (λ o, (or_RemoteID o =? rid) && (0 <? or_Seq o)) (t_observations d)).

(** UNIQUE (remote_id, seq) *)
Definition seqs_unique (d : db) (rid : Z) : Prop :=
  NoDup (or_Seq <$> List.filter (λ o, or_RemoteID o =? rid) (t_observations d)).

Definition intact (d : db) (rid : Z) (rem : Remote) : Prop :=
  if rm_ChainLen rem =? 0 then rm_ChainHeadHash rem = genesis_head
  else linked genesis_head (audit_rows d rid) = true ∧ Z.of_nat (length (audit_rows d rid)) = rm_ChainLen rem ∧
       ledger_head genesis_head (audit_rows d rid) = rm_ChainHeadHash rem.

(** ** The copy and the original *)

Lemma replayCanonical_eq o : replayCanonical o = CanonicalRow o.
Proof. unfold replayCanonical, CanonicalRow, replayWriteInt, writeInt, replayWriteField, writeField. by rewrite <- !(assoc_L (++)). Qed.

Lemma replayRowHash_eq p o : replayRowHash p o = RowHash p o.
Proof. unfold replayRowHash. by rewrite replayCanonical_eq. Qed.

(** ** The batches *)

(** The state after rows that link up. *)
Definition after (st : replay_state) (l : list Observation) : replay_state :=
  mkReplay (ledger_head (rp_prev st) l) (match last l with Some o => ob_Seq o | None => rp_seq st end) (rp_count st + Z.of_nat (length l)).

Lemma assert_row_spec st o : length (rp_prev st) = 32%nat →
  match assert_row st o with
  | Ok st' => linked (rp_prev st) [o] = true ∧ st' = after st [o]
  | Err _ => linked (rp_prev st) [o] = false
  end.
Proof.
  intros Hlen. unfold assert_row, after. cbn [linked last length ledger_head]. rewrite replayRowHash_eq, andb_true_r.
  destruct (Nat.eqb_spec (length (ob_PrevHash o)) 32) as [Hp|Hp]; cbn [negb].
  2: { rewrite bool_decide_eq_false_2; [done|]. congruence. }
  case_bool_decide as E1; cbn [negb]; [|by rewrite bool_decide_eq_false_2 by congruence].
  rewrite (bool_decide_eq_true_2 (ob_PrevHash o = _)) by congruence. cbn [andb].
  destruct (Nat.eqb_spec (length (ob_RowHash o)) 32) as [Hr|Hr]; cbn [negb].
  2: { rewrite bool_decide_eq_false_2; [done|]. intros E. by rewrite E, length_RowHash in Hr. }
  case_bool_decide as E2; cbn [negb]; [|by rewrite bool_decide_eq_false_2 by congruence].
  rewrite bool_decide_eq_true_2 by congruence. by split.
Qed.

Lemma after_app st l1 l2 : after (after st l1) l2 = after st (l1 ++ l2).
Proof.
  unfold after. cbn [rp_prev rp_seq rp_count]. rewrite length_app. f_equal; [| |lia].
  - unfold ledger_head. rewrite last_app. by destruct (last l2).
  - rewrite last_app. by destruct (last l2).
Qed.

Lemma after_length st l : length (rp_prev st) = 32%nat → linked (rp_prev st) l = true → length (rp_prev (after st l)) = 32%nat.
Proof.
  intros Hlen. destruct l as [|o l _] using rev_ind; [done|]. rewrite linked_app, andb_true_iff. intros [_ Hl].
  cbn. rewrite ledger_head_snoc. cbn in Hl. rewrite !andb_true_iff, !bool_decide_eq_true in Hl. destruct Hl as [[_ ->] _]. apply length_RowHash.
Qed.

Lemma assert_batch_spec l st : length (rp_prev st) = 32%nat →
  match assert_batch st l with
  | Ok st' => linked (rp_prev st) l = true ∧ st' = after st l
  | Err _ => linked (rp_prev st) l = false
  end.
Proof.
  revert st. induction l as [|o l IH]; intros st Hlen; cbn [assert_batch].
  { split; [done|]. unfold after. cbn. rewrite Z.add_0_r. by destruct st. }
  pose proof (assert_row_spec st o Hlen) as Hrow. change (o :: l) with ([o] ++ l). rewrite linked_app.
  unfold mbind, result_bind. destruct (assert_row st o) as [st1|b]; [|by rewrite Hrow]. destruct Hrow as [Hl ->]. rewrite Hl. cbn [andb].
  pose proof (after_length st [o] Hlen Hl) as Hlen1. specialize (IH (after st [o]) Hlen1). destruct (assert_batch _ l) as [st2|b]; [|exact IH].
  destruct IH as [Hl2 ->]. split; [exact Hl2|]. by rewrite after_app.
Qed.

(** ** The loop, on SQLite *)

(** The rows of [rid] after [c], sorted. *)
Definition rows_after (d : db) (rid c : Z) : list ObservationRow :=
  List.filter (λ o, c <? or_Seq o) (ORDER_BY or_Seq (List.filter (λ o, or_RemoteID o =? rid) (t_observations d))).

Lemma rows_after_sorted d rid c : seqs_unique d rid → StronglySorted Z.lt (or_Seq <$> rows_after d rid c).
Proof. intros Hu. by apply filter_keys_sorted, ORDER_BY_strict. Qed.

Lemma replay_page d rid c : seqs_unique d rid →
  SqliteStore.ReplayObservations rid c batchSize d = Ok (observationFromRow <$> take 500 (rows_after d rid c), d).
Proof.
  intros Hu. unfold SqliteStore.ReplayObservations, Sqlc.ReplayObservations, run_with, gets, mbind, SE_bind, mret, SE_ret. cbn [batchSize Z.leb Z.compare Pos.compare].
  do 3 f_equal. unfold LIMIT. cbn [Z.ltb Z.compare]. f_equal. unfold rows_after. rewrite <- ORDER_BY_filter by done. by rewrite filter_and.
Qed.

Lemma audit_rows_after d rid : seqs_unique d rid → audit_rows d rid = observationFromRow <$> rows_after d rid 0.
Proof. intros Hu. unfold audit_rows, rows_after. rewrite <- ORDER_BY_filter by done. by rewrite filter_and. Qed.

(** What is left after the last row of a batch. *)
Lemma filter_past {A} (key : A → Z) xs x ys : StronglySorted Z.lt (key <$> xs ++ x :: ys) →
  List.filter (λ a, key x <? key a) (xs ++ x :: ys) = ys.
Proof.
  rewrite fmap_app. intros Hs. apply StronglySorted_app in Hs as (Hcross & _ & Hx). apply StronglySorted_inv in Hx as [_ Hx].
  rewrite List.filter_app. cbn. rewrite Z.ltb_irrefl, (proj2 (filter_nil_iff _ _)), filter_all; [done|..].
  - intros a Ha. apply Z.ltb_lt. change (Forall (Z.lt (key x)) (key <$> ys)) in Hx. rewrite Forall_fmap, Forall_forall in Hx. by apply Hx.
  - intros a Ha. apply Z.ltb_ge. assert (key a < key x); [|lia]. apply Hcross; [by apply list_elem_of_fmap_2|by left].
Qed.

Lemma rows_after_next d rid c xs x : seqs_unique d rid → take 500 (rows_after d rid c) = xs ++ [x] →
  rows_after d rid (or_Seq x) = drop 500 (rows_after d rid c).
Proof.
  intros Hu E. pose proof (rows_after_sorted d rid c Hu) as Hs.
  assert (rows_after d rid c = xs ++ x :: drop 500 (rows_after d rid c)) as El.
  { rewrite <- (take_drop 500 (rows_after d rid c)) at 1. rewrite E, <- (assoc_L (++)). done. }
  assert (c < or_Seq x) as Hc.
  { assert (x ∈ rows_after d rid c) as Hx by (rewrite El; apply elem_of_app; right; by left).
    apply elem_of_filter_bool in Hx as [_ Hx]. by apply Z.ltb_lt. }
  transitivity (List.filter (λ a, or_Seq x <? or_Seq a) (rows_after d rid c)).
  - unfold rows_after. rewrite filter_and. apply filter_ext. intros a. destruct (Z.ltb_spec c (or_Seq a)), (Z.ltb_spec (or_Seq x) (or_Seq a)); cbn; lia || done.
  - rewrite El at 1. apply (filter_past or_Seq). by rewrite <- El.
Qed.

Lemma assert_loop_spec d rid head len fuel st : seqs_unique d rid → length (rp_prev st) = 32%nat →
  (length (rows_after d rid (rp_seq st)) < fuel)%nat →
  ∃ v, assert_loop (T := sqliteTx) fuel rid head len st d = Some v ∧
    (v = Ok () ↔ linked (rp_prev st) (observationFromRow <$> rows_after d rid (rp_seq st)) = true ∧
                 assert_end head len (after st (observationFromRow <$> rows_after d rid (rp_seq st))) = Ok ()).
Proof.
  intros Hu. revert st. induction fuel as [|fuel IH]; intros st Hlen Hf; [lia|]. cbn [assert_loop st_ReplayObservations sqlite_store].
  rewrite replay_page by done. set (l := rows_after d rid (rp_seq st)) in *.
  destruct (decide (take 500 l = [])) as [Ht|Ht].
  { assert (l = []) as E by (destruct l; [done|discriminate Ht]). rewrite Ht, E. cbn. eexists. split; [done|].
    assert (after st [] = st) as -> by (unfold after; cbn; rewrite Z.add_0_r; by destruct st). naive_solver. }
  destruct (exists_last Ht) as (xs & x & E).
  pose proof (assert_batch_spec (observationFromRow <$> take 500 l) st Hlen) as Hb.
  assert (observationFromRow <$> l = (observationFromRow <$> take 500 l) ++ (observationFromRow <$> drop 500 l)) as El
    by (by rewrite <- fmap_app, take_drop).
  destruct (observationFromRow <$> take 500 l) as [|o batch] eqn:Eb; [by apply fmap_nil_inv in Eb|]. rewrite <- Eb in *. clear Ht.
  destruct (assert_batch st _) as [st'|b].
  2: { eexists. split; [done|]. rewrite El, linked_app, Hb. naive_solver. }
  destruct Hb as [Hl ->]. pose proof (after_length st _ Hlen Hl) as Hlen'. rewrite length_fmap, length_take.
  destruct (Z.ltb_spec (Z.of_nat (500 `min` length l)) batchSize) as [Hlt|Hge]; unfold batchSize in *.
  - assert (drop 500 l = []) as Ed by (apply drop_ge; lia). rewrite El, Ed, app_nil_r. eexists. split; [done|]. naive_solver.
  - assert (rp_seq (after st (observationFromRow <$> take 500 l)) = or_Seq x) as Hseq.
    { unfold after. cbn [rp_seq]. rewrite E, fmap_app. cbn. by rewrite last_snoc. }
    assert (rows_after d rid (or_Seq x) = drop 500 l) as Hrest by (by eapply rows_after_next).
    destruct (IH (after st (observationFromRow <$> take 500 l)) Hlen') as (v & Hv & Hiff).
    { rewrite Hseq, Hrest, length_drop. lia. }
    exists v. split; [exact Hv|]. rewrite Hiff, Hseq, Hrest, El, linked_app, Hl, after_app. done.
Qed.

Lemma assert_end_ok head len st : length (rp_prev st) = 32%nat → assert_end head len st = Ok () ↔ rp_count st = len ∧ rp_prev st = head.
Proof.
  intros Hlen. unfold assert_end. destruct (Z.eqb_spec (rp_count st) len); cbn [negb]; [|split; [done|by intros []]].
  destruct (Nat.eqb_spec (length head) 32) as [|Hh]; cbn [negb]; [|split; [done|intros [_ <-]; congruence]].
  case_bool_decide; cbn [negb]; split; try done. by intros [].
Qed.

(** ** The verdict *)

(** A store in order passes. *)
Lemma good_audit d rid rem : db_good d → a_remotes (db_abs d) !! rid = Some rem →
  seqs_unique d rid ∧ audit_rows d rid = ledger (db_abs d) rid ∧ intact d rid rem.
Proof.
  intros [Hok Hg] Hrem. destruct (ok_chain _ (good_abs _ Hg) _ _ Hrem) as (Hr & Hh & Hn). pose proof (ledger_rows_sorted d rid Hr) as Hs.
  assert (seqs_unique d rid) as Hu.
  { unfold seqs_unique. clear -Hs. induction Hs as [|z l Hs IH Hz]; constructor; [|done]. intros Hin. rewrite Forall_forall in Hz. specialize (Hz _ Hin). lia. }
  assert (audit_rows d rid = ledger (db_abs d) rid) as Ha.
  { pose proof (ReplayObservations_page d rid 0 batchSize Hr) as H1. rewrite replay_page in H1 by done.
    rewrite audit_rows_after by done. unfold rows_after. rewrite ORDER_BY_sorted by done.
    rewrite filter_all; [by rewrite ledger_db|]. intros o Ho. apply Z.ltb_lt. apply list_elem_of_lookup in Ho as [i Hi].
    assert (ledger (db_abs d) rid !! i = Some (observationFromRow o)) as Hl by (by rewrite ledger_db, list_lookup_fmap, Hi).
    pose proof (replay_seq _ _ _ _ _ Hr Hl) as E. cbn in E. lia. }
  split; [done|]. split; [done|]. unfold intact. rewrite Ha. destruct (Z.eqb_spec (rm_ChainLen rem) 0) as [E|]; [|eauto using replay_linked].
  rewrite Hh. destruct (ledger (db_abs d) rid); [done|]. cbn in Hn. lia.
Qed.

Lemma assert_verdict d rid rem fuel :
  seqs_unique d rid → a_remotes (db_abs d) !! rid = Some rem → (length (t_observations d) < fuel)%nat →
  ∃ v, AssertChainIntact (S := db) (T := sqliteTx) fuel rid d = Some v ∧ (v = Ok () ↔ intact d rid rem).
Proof.
  intros Hu Hrem Hf.
  unfold AssertChainIntact. cbn [st_GetChainHead sqlite_store]. rewrite GetChainHead_spec, Hrem. unfold intact.
  destruct (rm_ChainLen rem =? 0) eqn:El.
  { destruct (Nat.eqb_spec (length (rm_ChainHeadHash rem)) 32) as [|Hn]; cbn [negb].
    - case_bool_decide; (eexists; split; [done|]); naive_solver.
    - eexists. split; [done|]. split; [done|]. intros E. by rewrite E in Hn. }
  assert (length (rows_after d rid 0) < fuel)%nat as Hf'.
  { eapply Nat.le_lt_trans; [|exact Hf]. unfold rows_after. etrans; [apply filter_length_le|]. rewrite ORDER_BY_Permutation. apply filter_length_le. }
  destruct (assert_loop_spec d rid (rm_ChainHeadHash rem) (rm_ChainLen rem) fuel (mkReplay genesis_head 0 0) Hu eq_refl Hf') as (v & Hv & Hiff).
  exists v. split; [done|]. rewrite Hiff. cbn [rp_prev rp_seq]. rewrite <- audit_rows_after by done. split.
  - intros [Hl He]. split; [done|]. apply assert_end_ok in He as [Hc Hp]; [|by apply (after_length (mkReplay genesis_head 0 0))]. by split.
  - intros (Hl & Hc & Hp). split; [done|]. apply assert_end_ok; [by apply (after_length (mkReplay genesis_head 0 0))|]. by split.
Qed.

(** C10. What the auditor's verdict means, whatever the tables hold (rows changed, removed, added
    or renumbered, as long as the schema's UNIQUE (remote_id, seq) stands): it comes after finitely
    many batches, and it is a pass exactly when the rows of the remote, in the order of their
    numbers, link up from genesis by recomputed hashes, as many as its row says and ending in its
    head; with a chain length of 0 only the head is looked at.  The auditor's copy of the encoding
    is the store's.  Every store in order passes. *)
Theorem assert_chain_intact_exact d rid rem fuel :
  seqs_unique d rid → a_remotes (db_abs d) !! rid = Some rem → (length (t_observations d) < fuel)%nat →
  (∀ p o, replayRowHash p o = RowHash p o) ∧
  ∃ v, AssertChainIntact (S := db) (T := sqliteTx) fuel rid d = Some v ∧ (v = Ok () ↔ intact d rid rem) ∧ (db_good d → v = Ok ()).
Proof.
  intros Hu Hrem Hf. split; [exact replayRowHash_eq|].
  destruct (assert_verdict d rid rem fuel Hu Hrem Hf) as (v & Hv & Hiff).
  exists v. split; [done|]. split; [done|]. intros Hd. apply Hiff. by apply good_audit.
Qed.


(** The sample store with other rows in the ledger. *)
Definition with_rows (f : ObservationRow → ObservationRow) : db :=
  mkDb (t_remotes sample_db1) (t_refs sample_db1) (t_syncs sample_db1) (map f (t_observations sample_db1))
    (t_taint_events sample_db1) (t_remote_lease sample_db1) (seq_remotes sample_db1) (seq_refs sample_db1) (seq_syncs sample_db1)
    (seq_observations sample_db1) (seq_taint_events sample_db1).

(** The commit of the tag is exchanged, or only what the chain does not commit to. *)
Definition forged_db : db := Eval vm_compute in
  with_rows (λ o, mkObservationRow (or_ID o) (or_RemoteID o) (or_RefID o) (or_SyncID o) (or_Seq o) (or_EventType o)
    (or_PrevOid o) (IBytes (Raw oid_b)) (or_PrevPeeledOid o) (or_NewPeeledOid o) (or_ObservedAtNs o) (or_PrevHash o) (or_RowHash o)
    (or_CanonicalMeta o)).
Definition copied_db : db := Eval vm_compute in
  with_rows (λ o, mkObservationRow (or_ID o + 40) (or_RemoteID o) (or_RefID o) (or_SyncID o + 7) (or_Seq o) (or_EventType o)
    (or_PrevOid o) (or_NewOid o) (or_PrevPeeledOid o) (or_NewPeeledOid o) (or_ObservedAtNs o) (or_PrevHash o) (or_RowHash o)
    (or_CanonicalMeta o)).

Lemma assert_chain_intact_exact_witness :
  AssertChainIntact (T := sqliteTx) 5 1 sample_db1 = Some (Ok ()) ∧
  ∃ v, AssertChainIntact (T := sqliteTx) 5 1 forged_db = Some v ∧ v ≠ Ok () ∧ v = Err (RowMismatch 1).
Proof.
  split.
  - destruct (assert_chain_intact_exact sample_db1 1 sample_remote1 5) as (_ & v & Hv & _ & Hg).
    + vm_compute. repeat constructor. by intros ?%elem_of_nil.
    + vm_compute. exact eq_refl.
    + vm_compute. lia.
    + rewrite Hv, (Hg sample_db1_good). reflexivity.
  - destruct (assert_chain_intact_exact forged_db 1 sample_remote1 5) as (_ & v & Hv & Hiff & _).
    + vm_compute. repeat constructor. by intros ?%elem_of_nil.
    + vm_compute. exact eq_refl.
    + vm_compute. lia.
    + exists v. split; [exact Hv|]. split.
      * intros E. apply Hiff in E. vm_compute in E. destruct E as [E _]. discriminate E.
      * vm_compute in Hv. injection Hv as <-. reflexivity.
Defined.

Lemma rows_fit l : forallb (λ o, bool_decide (int64_ok (ob_RemoteID o) ∧ int64_ok (ob_Seq o) ∧ int64_ok (ob_RefID o) ∧ int64_ok (ob_ObservedAtNS o)) &&
  forallb (λ b : bytes, Z.of_nat (length b) <? 1000) [bytes_of_string (ob_EventType o); Raw (ob_PrevOID o); Raw (ob_NewOID o);
    Raw (ob_PrevPeeledOID o); Raw (ob_NewPeeledOID o); bytes_of_string (ob_CanonicalMeta o)]) l = true → Forall row_fits l.
Proof.
  induction l as [|o l IH]; [constructor|]. cbn [forallb]. rewrite !andb_true_iff, bool_decide_eq_true, !Z.ltb_lt.
  intros (((H1 & H2 & H3 & H4) & H5 & H6 & H7 & H8 & H9 & H10 & _) & Hl). constructor; [|by apply IH]. split; try done; unfold fits; lia.
Qed.

