(* ===== verification/Mysqlc.v ===== *)
(** The MySQL database and the statements of [internal/store/mysql/mysqlc]: the
    generated row structs of [models.go] and one definition per generated query, on
    the same tables as [Sqlc] (the columns of [db/migrations-mysql/0001_init.sql] are
    those of the SQLite schema, and a cell holds what the column holds).

    What differs from SQLite is in the statements: texts are compared by the collation
    of the server, a column accepts only what fits it, foreign keys are checked by the
    statement and not at the commit, AUTO_INCREMENT may skip ids, [INSERT] reports an
    id by [LastInsertId] and returns no row, and [LIMIT] refuses a negative count. *)
From S2P Require Import Prelude GoStrings Model Sqlc.
#[local] Open Scope Z_scope.

(** * The server *)

(** What the program leaves to the MySQL server it talks to, in the default SQL mode
    (strict).  The schema names no collation, so [=], [IN], UNIQUE and ORDER BY on a text
    column are those of the server's default. *)
Record server : Type := mkServer {
  coll_eq : string → string → bool;
  coll_le : string → string → bool;
  varchar_fits : nat → string → bool;   (* the text is accepted by VARCHAR(n) *)
  text_fits : string → bool;            (* the text is accepted by TEXT *)
  gap : Z → Z;                          (* the ids AUTO_INCREMENT skips after a counter value *)
  dup_id : Z → Z;                       (* LastInsertId when ON DUPLICATE KEY kept the row of this id *)
  lost : Z → Z;                         (* the ids drawn by a transaction that was rolled back *)
}.

(** Documented behaviour of every server: ids increase, LastInsertId of a kept row is 0
    or its id, an empty text fits. *)
Record server_ok (srv : server) : Prop := {
  srv_gap n : 0 ≤ gap srv n;
  srv_lost n : 0 ≤ lost srv n;
  srv_dup id : dup_id srv id = 0 ∨ dup_id srv id = id;
  srv_text : text_fits srv "" = true;
  srv_refl s : coll_eq srv s s = true;
}.

(** * models.go *)

(** A [sql.NullString] and a [sql.NullInt64]. *)
Abbreviation NullString := (option string).
Abbreviation NullInt64 := (option Z).

Record MObservation : Type := mkMObservation {
  qo_ID : Z;
  qo_RemoteID : Z;
  qo_RefID : Z;
  qo_SyncID : Z;
  qo_Seq : Z;
  qo_EventType : string;
  qo_PrevOid : NullString;
  qo_NewOid : NullString;
  qo_PrevPeeledOid : NullString;
  qo_NewPeeledOid : NullString;
  qo_ObservedAtNs : Z;
  qo_PrevHash : bytes;
  qo_RowHash : bytes;
  qo_CanonicalMeta : NullString;
}.

Record MRef : Type := mkMRef {
  qf_ID : Z;
  qf_RemoteID : Z;
  qf_TagName : string;
  qf_CurrentOid : NullString;
  qf_CurrentPeeledOid : NullString;
  qf_IsAnnotated : Z;
  qf_FirstOid : NullString;
  qf_FirstSeenNs : Z;
  qf_LastSeenNs : Z;
  qf_LastChangedNs : Z;
  qf_Deleted : Z;
  qf_Tainted : Z;
  qf_TaintFirstNs : NullInt64;
  qf_ObservationCount : Z;
}.

Record MRemote : Type := mkMRemote {
  qr_ID : Z;
  qr_Url : string;
  qr_NormalizedUrl : string;
  qr_Transport : string;
  qr_SyncIntervalNs : Z;
  qr_StalenessBudgetNs : Z;
  qr_TaintAnyTagDeletion : Z;
  qr_HashAlgo : NullString;
  qr_Status : string;
  qr_LastOkNs : Z;
  qr_LastErr : string;
  qr_ConsecutiveFailures : Z;
  qr_ChainHeadHash : bytes;
  qr_ChainLen : Z;
  qr_RemovedAtNs : NullInt64;
  qr_CreatedAtNs : Z;
  qr_UpdatedAtNs : Z;
}.

Record MSync : Type := mkMSync {
  qs_ID : Z;
  qs_RemoteID : Z;
  qs_Trigger : string;
  qs_StartedNs : Z;
  qs_FinishedNs : Z;
  qs_Status : string;
  qs_TagsSeen : Z;
  qs_TagsChanged : Z;
  qs_Error : string;
  qs_ChainHeadBefore : NullString;
  qs_ChainHeadAfter : NullString;
}.

Record MTaintEvent : Type := mkMTaintEvent {
  qt_ID : Z;
  qt_RemoteID : Z;
  qt_RefID : Z;
  qt_Reason : string;
  qt_ObservationID : NullInt64;
  qt_FromOid : NullString;
  qt_ToOid : NullString;
  qt_DetectedAtNs : Z;
  qt_AckedAtNs : NullInt64;
  qt_AckedBy : NullString;
  qt_AckNote : NullString;
  qt_Detail : string;
}.

(** ** Parameters to cells and cells to structs *)

Definition text_cell (s : NullString) : iface :=
  match s with
  | None => INil
  | Some s => IString s
  end.
Definition bin_cell (s : NullString) : iface :=
  match s with
  | None => INil
  | Some s => IBytes (bytes_of_string s)
  end.
Definition int_cell (n : NullInt64) : iface :=
  match n with
  | None => INil
  | Some n => IInt64 n
  end.

(** [Scan] into a nullable; a VARBINARY is read into a string byte by byte. *)
Definition scan_string (v : iface) : NullString :=
  match v with
  | IString s => Some s
  | IBytes b => Some (string_of_bytes b)
  | _ => None
  end.
Definition scan_int (v : iface) : NullInt64 :=
  match v with
  | IInt64 n => Some n
  | _ => None
  end.

Definition remote_cells (r : MRemote) : RemoteRow :=
  mkRemoteRow (qr_ID r) (qr_Url r) (qr_NormalizedUrl r) (qr_Transport r) (qr_SyncIntervalNs r)
    (qr_StalenessBudgetNs r) (qr_TaintAnyTagDeletion r) (text_cell (qr_HashAlgo r)) (qr_Status r) (qr_LastOkNs r)
    (qr_LastErr r) (qr_ConsecutiveFailures r) (qr_ChainHeadHash r) (qr_ChainLen r) (int_cell (qr_RemovedAtNs r))
    (qr_CreatedAtNs r) (qr_UpdatedAtNs r).
Definition scan_remote (r : RemoteRow) : MRemote :=
  mkMRemote (rr_ID r) (rr_Url r) (rr_NormalizedUrl r) (rr_Transport r) (rr_SyncIntervalNs r)
    (rr_StalenessBudgetNs r) (rr_TaintAnyTagDeletion r) (scan_string (rr_HashAlgo r)) (rr_Status r) (rr_LastOkNs r)
    (rr_LastErr r) (rr_ConsecutiveFailures r) (rr_ChainHeadHash r) (rr_ChainLen r) (scan_int (rr_RemovedAtNs r))
    (rr_CreatedAtNs r) (rr_UpdatedAtNs r).

Definition ref_cells (r : MRef) : RefRow :=
  mkRefRow (qf_ID r) (qf_RemoteID r) (qf_TagName r) (bin_cell (qf_CurrentOid r)) (bin_cell (qf_CurrentPeeledOid r))
    (qf_IsAnnotated r) (bin_cell (qf_FirstOid r)) (qf_FirstSeenNs r) (qf_LastSeenNs r) (qf_LastChangedNs r)
    (qf_Deleted r) (qf_Tainted r) (int_cell (qf_TaintFirstNs r)) (qf_ObservationCount r).
Definition scan_ref (r : RefRow) : MRef :=
  mkMRef (fr_ID r) (fr_RemoteID r) (fr_TagName r) (scan_string (fr_CurrentOid r)) (scan_string (fr_CurrentPeeledOid r))
    (fr_IsAnnotated r) (scan_string (fr_FirstOid r)) (fr_FirstSeenNs r) (fr_LastSeenNs r) (fr_LastChangedNs r)
    (fr_Deleted r) (fr_Tainted r) (scan_int (fr_TaintFirstNs r)) (fr_ObservationCount r).

Definition observation_cells (o : MObservation) : ObservationRow :=
  mkObservationRow (qo_ID o) (qo_RemoteID o) (qo_RefID o) (qo_SyncID o) (qo_Seq o) (qo_EventType o)
    (bin_cell (qo_PrevOid o)) (bin_cell (qo_NewOid o)) (bin_cell (qo_PrevPeeledOid o)) (bin_cell (qo_NewPeeledOid o))
    (qo_ObservedAtNs o) (qo_PrevHash o) (qo_RowHash o) (text_cell (qo_CanonicalMeta o)).
Definition scan_observation (o : ObservationRow) : MObservation :=
  mkMObservation (or_ID o) (or_RemoteID o) (or_RefID o) (or_SyncID o) (or_Seq o) (or_EventType o)
    (scan_string (or_PrevOid o)) (scan_string (or_NewOid o)) (scan_string (or_PrevPeeledOid o)) (scan_string (or_NewPeeledOid o))
    (or_ObservedAtNs o) (or_PrevHash o) (or_RowHash o) (scan_string (or_CanonicalMeta o)).

Definition taint_cells (e : MTaintEvent) : TaintEventRow :=
  mkTaintEventRow (qt_ID e) (qt_RemoteID e) (qt_RefID e) (qt_Reason e) (int_cell (qt_ObservationID e))
    (bin_cell (qt_FromOid e)) (bin_cell (qt_ToOid e)) (qt_DetectedAtNs e) (int_cell (qt_AckedAtNs e))
    (text_cell (qt_AckedBy e)) (text_cell (qt_AckNote e)) (qt_Detail e).
Definition scan_taint (e : TaintEventRow) : MTaintEvent :=
  mkMTaintEvent (tr_ID e) (tr_RemoteID e) (tr_RefID e) (tr_Reason e) (scan_int (tr_ObservationID e))
    (scan_string (tr_FromOid e)) (scan_string (tr_ToOid e)) (tr_DetectedAtNs e) (scan_int (tr_AckedAtNs e))
    (scan_string (tr_AckedBy e)) (scan_string (tr_AckNote e)) (tr_Detail e).

Definition sync_cells (s : MSync) : SyncRow :=
  mkSyncRow (qs_ID s) (qs_RemoteID s) (qs_Trigger s) (qs_StartedNs s) (qs_FinishedNs s) (qs_Status s)
    (qs_TagsSeen s) (qs_TagsChanged s) (qs_Error s) (bin_cell (qs_ChainHeadBefore s)) (bin_cell (qs_ChainHeadAfter s)).
Definition scan_sync (s : SyncRow) : MSync :=
  mkMSync (sr_ID s) (sr_RemoteID s) (sr_Trigger s) (sr_StartedNs s) (sr_FinishedNs s) (sr_Status s)
    (sr_TagsSeen s) (sr_TagsChanged s) (sr_Error s) (scan_string (sr_ChainHeadBefore s)) (scan_string (sr_ChainHeadAfter s)).

(** * Statements *)

(** How a statement fails; [DupEntry] is error 1062. *)
Inductive mysql_error : Type :=
  | NoRows
  | DupEntry
  | CheckViolated
  | NoReferencedRow
  | RowIsReferenced
  | DataTooLong
  | OutOfRange
  | WrongArguments.

Abbreviation MQ := (SE db mysql_error).

Definition require (c : bool) (e : mysql_error) : MQ () := λ d, if c then Ok ((), d) else Err e.
Definition select_one {A} (f : db → option A) : MQ A := λ d,
  match f d with
  | Some a => Ok (a, d)
  | None => Err NoRows
  end.

(** [LIMIT ?] refuses a negative count. *)
Definition select_limit {A} (limit : Z) (f : db → list A) : MQ (list A) :=
  require (0 <=? limit) WrongArguments;;
  d ← get_state;
  mret (take (Z.to_nat limit) (f d)).

(** VARBINARY(32). *)
Definition bin32 (b : bytes) : bool := (length b <=? 32)%nat.
Definition null_bin32 (s : NullString) : bool :=
  match s with
  | None => true
  | Some s => (String.length s <=? 32)%nat
  end.

(** The order of the collation. *)
Definition coll_order {A} (srv : server) (name : A → string) (a b : A) : Prop := coll_le srv (name a) (name b) = true.
#[global] Instance coll_order_dec {A} srv (name : A → string) : RelDecision (coll_order srv name) :=
  λ a b, decide (coll_le srv (name a) (name b) = true).

Section statements.
Context (srv : server).

(** A column whose CHECK lists its words needs no length of its own. *)
Definition in_words (s : string) (l : list string) : bool := existsb (coll_eq srv s) l.

Definition null_text (s : NullString) : bool :=
  match s with
  | None => true
  | Some s => text_fits srv s
  end.

(** The next AUTO_INCREMENT value. *)
Definition next_id (n : Z) : Z := n + 1 + gap srv n.

(** ** remotes.sql.go *)

Definition remote_fits (r : MRemote) : bool :=
  text_fits srv (qr_Url r) && varchar_fits srv 768 (qr_NormalizedUrl r) && text_fits srv (qr_LastErr r)
  && bin32 (qr_ChainHeadHash r).

Definition remote_check (r : MRemote) : bool :=
  in_words (qr_Transport r) ["https"; "ssh"]
  && match qr_HashAlgo r with
     | None => true
     | Some h => in_words h ["sha1"; "sha256"]
     end
  && in_words (qr_Status r) ["active"; "degraded"; "paused"].

(** The row with a new chain head. *)
Definition with_head (head : bytes) (len : Z) (r : RemoteRow) : RemoteRow :=
  mkRemoteRow (rr_ID r) (rr_Url r) (rr_NormalizedUrl r) (rr_Transport r) (rr_SyncIntervalNs r)
    (rr_StalenessBudgetNs r) (rr_TaintAnyTagDeletion r) (rr_HashAlgo r) (rr_Status r) (rr_LastOkNs r)
    (rr_LastErr r) (rr_ConsecutiveFailures r) head len (rr_RemovedAtNs r) (rr_CreatedAtNs r) (rr_UpdatedAtNs r).

Definition AdvanceChainHead (head : bytes) (len id : Z) : MQ () :=
  d ← get_state;
  let c r := rr_ID r =? id in
  require (negb (existsb c (t_remotes d)) || bin32 head) DataTooLong;;
  put_state (with_remotes d (UPDATE c (with_head head len) (t_remotes d))).

(** With clientFoundRows the affected rows are the matched ones. *)
Definition AdvanceRemoteChainHead (head : bytes) (len id : Z) (head_2 : bytes) (len_2 : Z) : MQ Z :=
  d ← get_state;
  let c r := (rr_ID r =? id) && bool_decide (rr_ChainHeadHash r = head_2) && (rr_ChainLen r =? len_2) in
  require (negb (existsb c (t_remotes d)) || bin32 head) DataTooLong;;
  put_state (with_remotes d (UPDATE c (with_head head len) (t_remotes d)));;
  mret (matched c (t_remotes d)).

Definition CountAllRemotes : MQ Z :=
  d ← get_state; mret (Z.of_nat (length (t_remotes d))).

(** [arg] is the row as a function of the id it will get. *)
Definition CreateRemote (arg : Z → MRemote) : MQ Z :=
  d ← get_state;
  let id := next_id (seq_remotes d) in
  let row := arg id in
  require (remote_fits row) DataTooLong;;
  require (remote_check row) CheckViolated;;
  require (negb (existsb (λ r, coll_eq srv (rr_NormalizedUrl r) (qr_NormalizedUrl row)) (t_remotes d))) DupEntry;;
  put_state (mkDb (t_remotes d ++ [remote_cells row]) (t_refs d) (t_syncs d) (t_observations d) (t_taint_events d)
    (t_remote_lease d) id (seq_refs d) (seq_syncs d) (seq_observations d) (seq_taint_events d));;
  mret id.

Definition GetChainHead (id : Z) : MQ (bytes * Z) :=
  select_one (λ d, r ← List.find (λ r, rr_ID r =? id) (t_remotes d); Some (rr_ChainHeadHash r, rr_ChainLen r)).

Definition GetRemote (id : Z) : MQ MRemote :=
  select_one (λ d, scan_remote <$> List.find (λ r, rr_ID r =? id) (t_remotes d)).

Definition GetRemoteByURL (normalizedUrl : string) : MQ MRemote :=
  select_one (λ d, scan_remote <$>
    List.find (λ r, coll_eq srv (rr_NormalizedUrl r) normalizedUrl && is_null (rr_RemovedAtNs r)) (t_remotes d)).

Definition GetRemoteChainHead (id : Z) : MQ (bytes * Z) :=
  select_one (λ d, r ← List.find (λ r, rr_ID r =? id) (t_remotes d); Some (rr_ChainHeadHash r, rr_ChainLen r)).

Definition ListRemotes (id limit : Z) : MQ (list MRemote) :=
  select_limit limit (λ d, scan_remote <$> ORDER_BY rr_ID (List.filter (λ r, id <? rr_ID r) (t_remotes d))).

(** The sum of two BIGINT columns is an error when it leaves BIGINT. *)
Definition in_bigint (z : Z) : bool := (-2^63 <=? z) && (z <? 2^63).

Definition SelectDueRemotes (nowNs limit : Z) : MQ (list MRemote) :=
  d ← get_state;
  let active := List.filter (λ r, coll_eq srv (rr_Status r) "active" && is_null (rr_RemovedAtNs r)) (t_remotes d) in
  require (0 <=? limit) WrongArguments;;
  require (forallb (λ r, in_bigint (next_due r)) active) OutOfRange;;
  mret (scan_remote <$> take (Z.to_nat limit) (ORDER_BY next_due (List.filter (λ r, next_due r <? nowNs) active))).

Definition SetRemoteHealth (status lastErr : string) (lastOkNs updatedAtNs id : Z) : MQ () :=
  d ← get_state;
  let c r := rr_ID r =? id in
  require (negb (existsb c (t_remotes d)) || text_fits srv lastErr) DataTooLong;;
  require (negb (existsb c (t_remotes d)) || in_words status ["active"; "degraded"; "paused"]) CheckViolated;;
  put_state (with_remotes d (UPDATE c
    (λ r, mkRemoteRow (rr_ID r) (rr_Url r) (rr_NormalizedUrl r) (rr_Transport r) (rr_SyncIntervalNs r)
      (rr_StalenessBudgetNs r) (rr_TaintAnyTagDeletion r) (rr_HashAlgo r) status lastOkNs lastErr
      (rr_ConsecutiveFailures r) (rr_ChainHeadHash r) (rr_ChainLen r) (rr_RemovedAtNs r) (rr_CreatedAtNs r) updatedAtNs)
    (t_remotes d))).

Definition SoftDeleteRemote (removedAtNs : NullInt64) (updatedAtNs id : Z) : MQ () :=
  d ← get_state;
  put_state (with_remotes d (UPDATE (λ r, rr_ID r =? id)
    (λ r, mkRemoteRow (rr_ID r) (rr_Url r) (rr_NormalizedUrl r) (rr_Transport r) (rr_SyncIntervalNs r)
      (rr_StalenessBudgetNs r) (rr_TaintAnyTagDeletion r) (rr_HashAlgo r) (rr_Status r) (rr_LastOkNs r) (rr_LastErr r)
      (rr_ConsecutiveFailures r) (rr_ChainHeadHash r) (rr_ChainLen r) (int_cell removedAtNs) (rr_CreatedAtNs r) updatedAtNs)
    (t_remotes d))).

(** The row keeps its id and when it was created. *)
Definition UpdateRemote (arg : MRemote) : MQ Z :=
  d ← get_state;
  let c r := rr_ID r =? qr_ID arg in
  let there := existsb c (t_remotes d) in
  let cells := remote_cells arg in
  require (negb there || remote_fits arg) DataTooLong;;
  require (negb there || remote_check arg) CheckViolated;;
  require (negb there
    || negb (existsb (λ r, coll_eq srv (rr_NormalizedUrl r) (qr_NormalizedUrl arg) && negb (c r)) (t_remotes d)))
    DupEntry;;
  put_state (with_remotes d (UPDATE c
    (λ r, mkRemoteRow (rr_ID r) (rr_Url cells) (rr_NormalizedUrl cells) (rr_Transport cells) (rr_SyncIntervalNs cells)
      (rr_StalenessBudgetNs cells) (rr_TaintAnyTagDeletion cells) (rr_HashAlgo cells) (rr_Status cells) (rr_LastOkNs cells)
      (rr_LastErr cells) (rr_ConsecutiveFailures cells) (rr_ChainHeadHash cells) (rr_ChainLen cells) (rr_RemovedAtNs cells)
      (rr_CreatedAtNs r) (rr_UpdatedAtNs cells)) (t_remotes d)));;
  mret (matched c (t_remotes d)).

(** ** refs.sql.go *)

Definition ref_named (remote_id : Z) (tag_name : string) (r : RefRow) : bool :=
  (fr_RemoteID r =? remote_id) && coll_eq srv (fr_TagName r) tag_name.

Definition CountRefs (remoteID : Z) : MQ Z :=
  d ← get_state; mret (Z.of_nat (length (List.filter (λ r, fr_RemoteID r =? remoteID) (t_refs d)))).

Definition GetRef (remoteID : Z) (tagName : string) : MQ MRef :=
  select_one (λ d, scan_ref <$> List.find (ref_named remoteID tagName) (t_refs d)).

Definition GetRefIDByName (remoteID : Z) (tagName : string) : MQ (Z * Z) :=
  select_one (λ d, r ← List.find (ref_named remoteID tagName) (t_refs d); Some (fr_ID r, fr_RemoteID r)).

Definition ListTags (remoteID : Z) : MQ (list MRef) :=
  d ← get_state;
  mret (scan_ref <$> merge_sort (coll_order srv fr_TagName) (List.filter (λ r, fr_RemoteID r =? remoteID) (t_refs d))).

Definition SetRefTaint (taintFirstNs : NullInt64) (id : Z) : MQ () :=
  d ← get_state;
  put_state (with_refs d (UPDATE (λ r, fr_ID r =? id)
    (λ r, mkRefRow (fr_ID r) (fr_RemoteID r) (fr_TagName r) (fr_CurrentOid r) (fr_CurrentPeeledOid r)
      (fr_IsAnnotated r) (fr_FirstOid r) (fr_FirstSeenNs r) (fr_LastSeenNs r) (fr_LastChangedNs r)
      (fr_Deleted r) 1 (int_cell taintFirstNs) (fr_ObservationCount r)) (t_refs d)) (seq_refs d)).

(** ON DUPLICATE KEY UPDATE: the row keeps its id, its key (the spelling of the name
    included) and where it was first seen. *)
Definition ref_duplicate (row r : RefRow) : RefRow :=
  mkRefRow (fr_ID r) (fr_RemoteID r) (fr_TagName r) (fr_CurrentOid row) (fr_CurrentPeeledOid row)
    (fr_IsAnnotated row) (fr_FirstOid r) (fr_FirstSeenNs r) (fr_LastSeenNs row) (fr_LastChangedNs row)
    (fr_Deleted row) (fr_Tainted row) (fr_TaintFirstNs row) (fr_ObservationCount row).

Definition UpsertRef (arg : Z → MRef) : MQ () :=
  d ← get_state;
  let id := next_id (seq_refs d) in
  let row := arg id in
  let key := ref_named (qf_RemoteID row) (qf_TagName row) in
  require (varchar_fits srv 512 (qf_TagName row) && null_bin32 (qf_CurrentOid row) && null_bin32 (qf_CurrentPeeledOid row)
    && null_bin32 (qf_FirstOid row)) DataTooLong;;
  match List.find key (t_refs d) with
  | Some _ => put_state (with_refs d (UPDATE key (ref_duplicate (ref_cells row)) (t_refs d)) id)
  | None =>
      require (has_remote d (qf_RemoteID row)) NoReferencedRow;;
      put_state (with_refs d (t_refs d ++ [ref_cells row]) id)
  end.

(** ** observations.sql.go *)

(** All three foreign keys are checked by the statement. *)
Definition InsertObservation (arg : Z → MObservation) : MQ Z :=
  d ← get_state;
  let id := next_id (seq_observations d) in
  let row := arg id in
  require (null_bin32 (qo_PrevOid row) && null_bin32 (qo_NewOid row) && null_bin32 (qo_PrevPeeledOid row)
    && null_bin32 (qo_NewPeeledOid row) && bin32 (qo_PrevHash row) && bin32 (qo_RowHash row)
    && null_text (qo_CanonicalMeta row)) DataTooLong;;
  require (in_words (qo_EventType row) ["tag_created"; "tag_oid_changed"; "tag_deleted"; "tag_recreated"]) CheckViolated;;
  require (negb (existsb (λ o, (or_RemoteID o =? qo_RemoteID row) && (or_Seq o =? qo_Seq row)) (t_observations d)))
    DupEntry;;
  require (has_remote d (qo_RemoteID row) && has_ref d (qo_RefID row) && has_sync d (qo_SyncID row)) NoReferencedRow;;
  put_state (with_observations d (t_observations d ++ [observation_cells row]) id);;
  mret id.

Definition GetRemoteChainHeadObs (id : Z) : MQ (bytes * Z) :=
  select_one (λ d, r ← List.find (λ r, rr_ID r =? id) (t_remotes d); Some (rr_ChainHeadHash r, rr_ChainLen r)).

Definition LatestObservationForRef (refID : Z) : MQ (Z * Z * bytes) :=
  select_one (λ d, o ← head (reverse (ORDER_BY or_Seq (List.filter (λ o, or_RefID o =? refID) (t_observations d))));
                   Some (or_RemoteID o, or_Seq o, or_RowHash o)).

Definition ReplayObservations (remoteID seq limit : Z) : MQ (list MObservation) :=
  select_limit limit (λ d, scan_observation <$> ORDER_BY or_Seq
    (List.filter (λ o, (or_RemoteID o =? remoteID) && (seq <? or_Seq o)) (t_observations d))).

(** ** taint.sql.go *)

Definition AckTaintEvent (ackedAtNs : NullInt64) (ackedBy ackNote : NullString) (id : Z) : MQ () :=
  d ← get_state;
  let c e := (tr_ID e =? id) && is_null (tr_AckedAtNs e) in
  require (negb (existsb c (t_taint_events d)) || (null_text ackedBy && null_text ackNote)) DataTooLong;;
  put_state (with_taint_events d (UPDATE c
    (λ e, mkTaintEventRow (tr_ID e) (tr_RemoteID e) (tr_RefID e) (tr_Reason e) (tr_ObservationID e)
      (tr_FromOid e) (tr_ToOid e) (tr_DetectedAtNs e) (int_cell ackedAtNs) (text_cell ackedBy) (text_cell ackNote) (tr_Detail e))
    (t_taint_events d)) (seq_taint_events d)).

(** The comparison [<=>] is equality, with NULL equal to NULL. *)
Definition GetTaintEventID (remoteID refID : Z) (reason : string) (fromOid toOid : NullString) : MQ Z :=
  select_one (λ d, tr_ID <$> List.find (λ e, (tr_RemoteID e =? remoteID) && (tr_RefID e =? refID)
    && coll_eq srv (tr_Reason e) reason && bool_decide (tr_FromOid e = bin_cell fromOid)
    && bool_decide (tr_ToOid e = bin_cell toOid)) (t_taint_events d)).

(** The unique key; NULLs are distinct from each other. *)
Definition taint_dup (row : MTaintEvent) (e : TaintEventRow) : bool :=
  (tr_RemoteID e =? qt_RemoteID row) && (tr_RefID e =? qt_RefID row) && coll_eq srv (tr_Reason e) (qt_Reason row)
  && bool_decide (tr_FromOid e = bin_cell (qt_FromOid row)) && negb (is_null (tr_FromOid e))
  && bool_decide (tr_ToOid e = bin_cell (qt_ToOid row)) && negb (is_null (tr_ToOid e)).

(** ON DUPLICATE KEY the assignment changes nothing. *)
Definition InsertTaintEvent (arg : Z → MTaintEvent) : MQ Z :=
  d ← get_state;
  let id := next_id (seq_taint_events d) in
  let row := arg id in
  require (null_bin32 (qt_FromOid row) && null_bin32 (qt_ToOid row) && text_fits srv (qt_Detail row)) DataTooLong;;
  require (in_words (qt_Reason row) ["tag_oid_changed"; "tag_deleted_recreated"]) CheckViolated;;
  match List.find (taint_dup row) (t_taint_events d) with
  | Some e => put_state (with_taint_events d (t_taint_events d) id);; mret (dup_id srv (tr_ID e))
  | None =>
      require (has_remote d (qt_RemoteID row) && has_ref d (qt_RefID row)
        && has_observation d (int_cell (qt_ObservationID row))) NoReferencedRow;;
      put_state (with_taint_events d (t_taint_events d ++ [taint_cells row]) id);;
      mret id
  end.

Definition ListTaintEvents (remoteID id limit : Z) : MQ (list MTaintEvent) :=
  select_limit limit (λ d, scan_taint <$> ORDER_BY tr_ID
    (List.filter (λ e, (tr_RemoteID e =? remoteID) && (id <? tr_ID e)) (t_taint_events d))).

(** ** syncs.sql.go *)

Definition InsertSync (arg : Z → MSync) : MQ Z :=
  d ← get_state;
  let id := next_id (seq_syncs d) in
  let row := arg id in
  require (text_fits srv (qs_Error row) && null_bin32 (qs_ChainHeadBefore row) && null_bin32 (qs_ChainHeadAfter row)) DataTooLong;;
  require (in_words (qs_Trigger row) ["register"; "scheduled"; "manual"]
    && in_words (qs_Status row) ["ok"; "partial"; "failed"]) CheckViolated;;
  require (has_remote d (qs_RemoteID row)) NoReferencedRow;;
  put_state (with_syncs d (t_syncs d ++ [sync_cells row]) id);;
  mret id.

Definition ListSyncs (remoteID id limit : Z) : MQ (list MSync) :=
  select_limit limit (λ d, scan_sync <$> List.filter (λ s, sr_ID s <? id) (newest_first d remoteID)).

(** The DELETE fails when an observation still refers to a row it would delete. *)
Definition PruneSyncs (remoteID remoteID_2 limit remoteID_3 : Z) : MQ () :=
  d ← get_state;
  require (0 <=? limit) WrongArguments;;
  let keep_ids := map sr_ID (take (Z.to_nat limit) (newest_first d remoteID_2)) in
  let pinned := map or_SyncID (List.filter (λ o, or_RemoteID o =? remoteID_3) (t_observations d)) in
  let c s := (sr_RemoteID s =? remoteID) && negb (existsb (Z.eqb (sr_ID s)) keep_ids) && negb (existsb (Z.eqb (sr_ID s)) pinned) in
  require (negb (existsb (λ s, c s && existsb (λ o, or_SyncID o =? sr_ID s) (t_observations d)) (t_syncs d))) RowIsReferenced;;
  put_state (with_syncs d (List.filter (λ s, negb (c s)) (t_syncs d)) (seq_syncs d)).

(** ** lease.sql.go *)

Definition DeleteRemoteLease (remoteID : Z) (holder : string) : MQ () :=
  d ← get_state;
  put_state (with_lease d (List.filter (λ l, negb ((lr_RemoteID l =? remoteID) && coll_eq srv (lr_Holder l) holder))
    (t_remote_lease d))).

Definition GetRemoteLease (remoteID : Z) : MQ LeaseRow :=
  select_one (λ d, List.find (λ l, lr_RemoteID l =? remoteID) (t_remote_lease d)).
End statements.
