(* ===== verification/MysqlStore.v ===== *)
(** [internal/store/mysql]: rows to domain values and back ([convert.go]) and the methods
    of [mysqlStore] ([store.go]).  A method runs on the
    tables as a state-and-error computation for the server [srv]; one that fails leaves
    the tables as they were. *)
From S2P Require Import Prelude GoStrings Model Chain Sqlc Mysqlc.
From S2P Require SqliteStore.
#[local] Open Scope Z_scope.

(** * convert.go *)

Definition nullStringFromBytes (b : bytes) : NullString :=
  match b with
  | [] => None
  | _ => Some (string_of_bytes b)
  end.

Definition bytesFromNullString (ns : NullString) : bytes :=
  match ns with
  | None => []
  | Some s => bytes_of_string s
  end.

Definition nullStringFromStr (s : string) : NullString := if String.eqb s "" then None else Some s.
Definition nullStringFromStrPtr (p : option string) : NullString :=
  match p with
  | None => None
  | Some s => Some s
  end.
Definition nullInt64 (v : Z) : NullInt64 := Some v.
Definition nullInt64FromPtr (p : option Z) : NullInt64 :=
  match p with
  | None => None
  | Some v => Some v
  end.
Definition boolToInt32 (b : bool) : Z := if b then 1 else 0.

(** [if raw := bytesFromNullString(v); len(raw) > 0 { oid = model.OIDFromRaw(raw) }] *)
Definition oid_of (v : NullString) : OID :=
  match bytesFromNullString v with
  | [] => zeroOID
  | raw => OIDFromRaw raw
  end.

Definition remoteFromMySQLRow (r : MRemote) : Remote :=
  mkRemote (qr_ID r) (qr_Url r) (qr_NormalizedUrl r) (qr_Transport r) (qr_SyncIntervalNs r)
    (qr_StalenessBudgetNs r) (negb (qr_TaintAnyTagDeletion r =? 0)) (qr_HashAlgo r) (qr_Status r) (qr_LastOkNs r)
    (qr_LastErr r) (qr_ConsecutiveFailures r) (qr_ChainHeadHash r) (qr_ChainLen r) (qr_RemovedAtNs r)
    (qr_CreatedAtNs r) (qr_UpdatedAtNs r).

Definition refFromMySQLRow (r : MRef) : Ref :=
  mkRef (qf_ID r) (qf_RemoteID r) (qf_TagName r) (oid_of (qf_CurrentOid r)) (oid_of (qf_CurrentPeeledOid r))
    (negb (qf_IsAnnotated r =? 0)) (oid_of (qf_FirstOid r)) (qf_FirstSeenNs r) (qf_LastSeenNs r) (qf_LastChangedNs r)
    (negb (qf_Deleted r =? 0)) (negb (qf_Tainted r =? 0)) (qf_TaintFirstNs r) (qf_ObservationCount r).

Definition taintEventFromMySQLRow (r : MTaintEvent) : TaintEvent :=
  mkTaintEvent (qt_ID r) (qt_RemoteID r) (qt_RefID r) (qt_Reason r) (qt_ObservationID r)
    (oid_of (qt_FromOid r)) (oid_of (qt_ToOid r)) (qt_DetectedAtNs r) (qt_AckedAtNs r)
    (default "" (qt_AckedBy r)) (default "" (qt_AckNote r)) (qt_Detail r).

Definition syncFromMySQLRow (r : MSync) : Sync :=
  mkSync (qs_ID r) (qs_RemoteID r) (qs_Trigger r) (qs_StartedNs r) (qs_FinishedNs r) (qs_Status r)
    (qs_TagsSeen r) (qs_TagsChanged r) (qs_Error r)
    (bytesFromNullString (qs_ChainHeadBefore r)) (bytesFromNullString (qs_ChainHeadAfter r)).

(** * Helpers of store.go *)

Definition isMySQLUniqueConflict (e : mysql_error) : bool :=
  match e with
  | DupEntry => true
  | _ => false
  end.

Definition hashAlgoPtr (a : option HashAlgo) : option string :=
  match a with
  | None => None
  | Some a => Some a
  end.

Fixpoint bytesEqual (a b : bytes) : bool :=
  match a, b with
  | [], [] => true
  | x :: a, y :: b => Byte.eqb x y && bytesEqual a b
  | _, _ => false
  end.

(** [fmt.Errorf("...: %w", err)] over a failed statement. *)
Definition wrap_mysql (e : mysql_error) : error :=
  match e with
  | Mysqlc.NoRows => ErrNoRows
  | _ => ErrSQL
  end.
Definition not_found_mysql (e : mysql_error) : error :=
  match e with
  | Mysqlc.NoRows => ErrNotFound
  | e => wrap_mysql e
  end.
Definition conflict_mysql (e : mysql_error) : error := if isMySQLUniqueConflict e then ErrConflict else wrap_mysql e.

(** The statement [m], its failure reported through [f]. *)
Definition run_mq {A} (f : mysql_error → error) (m : MQ A) : SE db error A := λ d,
  match m d with
  | Ok r => Ok r
  | Err e => Err (f e)
  end.
Abbreviation run_m := (run_mq wrap_mysql).

(** ** The connection *)

(** What [driver.ParseDSN] reads of the parameters of the DSN. *)
Record dsn_config : Type := mkDsn {
  MultiStatements : bool;
  ClientFoundRows : bool;
  ParseTime : bool;
}.

Definition validateMySQLDSN (ParseDSN : string → res dsn_config) (dsn : string) : res () :=
  cfg ← ParseDSN dsn;
  if negb (MultiStatements cfg) then Err (ErrOther "mysql.Open: DSN must set multiStatements=true")
  else if negb (ClientFoundRows cfg) then Err (ErrOther "mysql.Open: DSN must set clientFoundRows=true")
  else if ParseTime cfg then Err (ErrOther "mysql.Open: DSN must set parseTime=false")
  else Ok ().

(** The columns of a remote; the count of failures is narrowed to 32 bits. *)
Definition remote_params (r : Remote) (id : Z) : MRemote :=
  mkMRemote id (rm_URL r) (rm_NormalizedURL r) (rm_Transport r) (rm_SyncInterval r)
    (rm_StalenessBudget r) (boolToInt32 (rm_TaintAnyTagDeletion r)) (nullStringFromStrPtr (hashAlgoPtr (rm_HashAlgo r)))
    (rm_Status r) (rm_LastOkNS r) (rm_LastErr r) (int32 (rm_ConsecutiveFailures r))
    (rm_ChainHeadHash r) (rm_ChainLen r) (nullInt64FromPtr (rm_RemovedAtNS r)) (rm_CreatedAtNS r) (rm_UpdatedAtNS r).

Section store.
Context (srv : server).

(** * store.go *)

(** ** RemoteStore *)

Definition CreateRemote (r : Remote) : SE db error Z :=
  run_mq conflict_mysql (Mysqlc.CreateRemote srv (remote_params r)).

Definition GetRemote (id : Z) : SE db error Remote :=
  row ← run_mq not_found_mysql (Mysqlc.GetRemote id);
  mret (remoteFromMySQLRow row).

Definition GetRemoteByURL (normalizedURL : string) : SE db error Remote :=
  row ← run_mq not_found_mysql (Mysqlc.GetRemoteByURL srv normalizedURL);
  mret (remoteFromMySQLRow row).

Definition ListRemotes (limit cursor : Z) : SE db error (list Remote * Z) :=
  let limit := if limit <=? 0 then 100 else limit in
  rows ← run_m (Mysqlc.ListRemotes cursor (int32 limit));
  mret (map remoteFromMySQLRow rows, foldl (λ next r, if next <? qr_ID r then qr_ID r else next) 0 rows).

Definition CountAllRemotes : SE db error Z := run_m Mysqlc.CountAllRemotes.

Definition UpdateRemote (r : Remote) : SE db error () :=
  n ← run_m (Mysqlc.UpdateRemote srv (remote_params r (rm_ID r)));
  if n =? 0 then throw ErrNotFound else mret ().

Definition SoftDeleteRemote (id atNS : Z) : SE db error () :=
  run_m (Mysqlc.SoftDeleteRemote (nullInt64 atNS) atNS id).

Definition SelectDueRemotes (nowNs limit : Z) : SE db error (list Remote) :=
  rows ← run_m (Mysqlc.SelectDueRemotes srv nowNs (int32 limit));
  mret (map remoteFromMySQLRow rows).

(** [nowNS] is the wall clock the method reads. *)
Definition SetRemoteHealth (nowNS id : Z) (status : RemoteStatus) (lastErr : string) (lastOkNS : Z) : SE db error () :=
  run_m (Mysqlc.SetRemoteHealth srv status lastErr lastOkNS nowNS id).

(** ** RefStore *)

Definition GetRef (remoteID : Z) (tagName : string) : SE db error Ref :=
  row ← run_mq not_found_mysql (Mysqlc.GetRef srv remoteID tagName);
  mret (refFromMySQLRow row).

Definition ListTags (remoteID : Z) : SE db error (list Ref) :=
  rows ← run_m (Mysqlc.ListTags srv remoteID);
  mret (map refFromMySQLRow rows).

Definition SetRefTaint (refID firstNS : Z) : SE db error () :=
  run_m (Mysqlc.SetRefTaint (nullInt64 firstNS) refID).

(** ** ObservationStore *)

Definition GetChainHead (remoteID : Z) : SE db error (bytes * Z) :=
  run_mq not_found_mysql (Mysqlc.GetChainHead remoteID).

Definition LatestObservationForRef (refID : Z) : SE db error ObservationProof :=
  row ← run_mq not_found_mysql (Mysqlc.LatestObservationForRef refID);
  let '(remoteID, seq, rowHash) := row in
  mret (mkProof remoteID seq rowHash).

Definition observationFromMySQLRow (r : MObservation) : Observation :=
  mkObservation (qo_ID r) (qo_RemoteID r) (qo_RefID r) (qo_SyncID r) (qo_Seq r) (qo_EventType r)
    (oid_of (qo_PrevOid r)) (oid_of (qo_NewOid r)) (oid_of (qo_PrevPeeledOid r)) (oid_of (qo_NewPeeledOid r))
    (qo_ObservedAtNs r) (qo_PrevHash r) (qo_RowHash r) (default "" (qo_CanonicalMeta r)).

Definition ReplayObservations (remoteID fromSeq limit : Z) : SE db error (list Observation) :=
  let limit := if limit <=? 0 then 1000 else limit in
  rows ← run_m (Mysqlc.ReplayObservations remoteID fromSeq (int32 limit));
  mret (map observationFromMySQLRow rows).

(** ** TaintStore *)

Definition taint_params (e : TaintEvent) (id : Z) : MTaintEvent :=
  mkMTaintEvent id (te_RemoteID e) (te_RefID e) (te_Reason e) (nullInt64FromPtr (te_ObservationID e))
    (nullStringFromBytes (Raw (te_FromOID e))) (nullStringFromBytes (Raw (te_ToOID e))) (te_DetectedAtNS e)
    None None None (te_Detail e).

(** Of tx.go, shared by the store and the transaction: an id of 0 means the row was
    there, and its id is read back. *)
Definition insertTaintEventMySQL (e : TaintEvent) : SE db error Z :=
  id ← run_m (Mysqlc.InsertTaintEvent srv (taint_params e));
  if negb (id =? 0) then mret id
  else run_m (Mysqlc.GetTaintEventID srv (te_RemoteID e) (te_RefID e) (te_Reason e)
         (nullStringFromBytes (Raw (te_FromOID e))) (nullStringFromBytes (Raw (te_ToOID e)))).

Definition AppendTaintEvent (e : TaintEvent) : SE db error Z := insertTaintEventMySQL e.

Definition ListTaintEvents (remoteID limit cursor : Z) : SE db error (list TaintEvent * Z) :=
  let limit := if limit <=? 0 then 100 else limit in
  rows ← run_m (Mysqlc.ListTaintEvents remoteID cursor (int32 limit));
  mret (map taintEventFromMySQLRow rows, foldl (λ next r, if next <? qt_ID r then qt_ID r else next) 0 rows).

Definition AckTaintEvent (id : Z) (by_ note : string) (atNS : Z) : SE db error () :=
  run_m (Mysqlc.AckTaintEvent srv (nullInt64 atNS) (nullStringFromStr by_) (nullStringFromStr note) id).

(** ** SyncStore *)

Definition ListSyncs (remoteID limit cursor : Z) : SE db error (list Sync * Z) :=
  let limit := if limit <=? 0 then 100 else limit in
  let cursor := if cursor <=? 0 then SqliteStore.MaxInt64 else cursor in
  rows ← run_m (Mysqlc.ListSyncs remoteID cursor (int32 limit));
  let out := map syncFromMySQLRow rows in
  let nextCursor :=
    if Z.of_nat (length rows) =? limit then
      match last out with
      | Some s => sy_ID s
      | None => 0
      end
    else 0 in
  mret (out, nextCursor).

(** ** Lock seam *)

(** [upsertLeaseMySQLSQL]: the assignments run in order, and the one of [expires_at_ns] is
    the last, so all three see the old expiry. *)
Definition upsertLeaseMySQL (remoteID : Z) (holder : string) (acquired expires now : Z) : MQ () :=
  d ← get_state;
  let c l := lr_RemoteID l =? remoteID in
  Mysqlc.require (varchar_fits srv 255 holder) DataTooLong;;
  match List.find c (t_remote_lease d) with
  | Some _ =>
      put_state (with_lease d (UPDATE c
        (λ l, mkLeaseRow (lr_RemoteID l)
          (if lr_ExpiresAtNs l <? now then holder else lr_Holder l)
          (if lr_ExpiresAtNs l <? now then acquired else lr_AcquiredAtNs l)
          (if lr_ExpiresAtNs l <? now then expires else lr_ExpiresAtNs l)) (t_remote_lease d)))
  | None =>
      Mysqlc.require (has_remote d remoteID) NoReferencedRow;;
      put_state (with_lease d (t_remote_lease d ++ [mkLeaseRow remoteID holder acquired expires]))
  end.

(** [None] is [ok = false]: the row read back is not this attempt's. *)
Definition TryAcquireLease (remoteID : Z) (holder : string) (nowNs expiresNS : Z) : SE db error (option bytes) :=
  headRow ← run_m (Mysqlc.GetRemoteChainHead remoteID);
  run_m (upsertLeaseMySQL remoteID holder nowNs expiresNS nowNs);;
  leaseRow ← run_m (Mysqlc.GetRemoteLease remoteID);
  mret (if negb (String.eqb (lr_Holder leaseRow) holder) || negb (lr_ExpiresAtNs leaseRow =? expiresNS)
        then None else Some headRow.1).

Definition lease_lost (e : mysql_error) : error :=
  match e with
  | Mysqlc.NoRows => ErrLeaseLost
  | e => wrap_mysql e
  end.

(** One transaction; a failure rolls it back. *)
Definition ReleaseLeaseCAS (remoteID : Z) (holder : string) (witness newHead : bytes) (newLen : Z) : SE db error () :=
  leaseRow ← run_mq lease_lost (Mysqlc.GetRemoteLease remoteID);
  if negb (String.eqb (lr_Holder leaseRow) holder) then throw ErrLeaseLost
  else
    headRow ← run_m (Mysqlc.GetRemoteChainHead remoteID);
    let currentHead := headRow.1 in
    (if bytesEqual currentHead witness then
       rows ← run_m (Mysqlc.AdvanceRemoteChainHead newHead newLen remoteID witness headRow.2);
       if rows =? 1 then mret () else throw ErrChainCAS
     else if bytesEqual currentHead newHead then mret ()
     else throw ErrChainCAS);;
    run_m (Mysqlc.DeleteRemoteLease srv remoteID holder).
End store.
