(* ===== verification/MysqlTx.v ===== *)
(** [internal/store/mysql/tx.go]: the write transaction of the MySQL store.  Its state is
    the uncommitted tables and the id of the sync row written in it. *)
From S2P Require Import Prelude GoStrings Model Chain Sqlc Mysqlc MysqlStore.
#[local] Open Scope Z_scope.

Record mysqlTx (srv : server) : Type := mkMysqlTx {
  q : db;
  syncID : Z;
}.
#[global] Arguments mkMysqlTx {srv} _ _.
#[global] Arguments q {srv} _.
#[global] Arguments syncID {srv} _.

Section tx.
Context {srv : server}.

(** A statement of the transaction. *)
Definition on_q {A} (m : SE db error A) : SE (mysqlTx srv) error A := λ t,
  match m (q t) with
  | Ok (a, d) => Ok (a, mkMysqlTx d (syncID t))
  | Err e => Err e
  end.

(** A rollback restores the tables and leaves the AUTO_INCREMENT counters where they got to. *)
Definition rolled_back (d : db) : db :=
  mkDb (t_remotes d) (t_refs d) (t_syncs d) (t_observations d) (t_taint_events d) (t_remote_lease d)
    (seq_remotes d + lost srv (seq_remotes d)) (seq_refs d + lost srv (seq_refs d))
    (seq_syncs d + lost srv (seq_syncs d)) (seq_observations d + lost srv (seq_observations d))
    (seq_taint_events d + lost srv (seq_taint_events d)).

(** No constraint is left to the commit. *)
Definition WithTx {A} (fn : SE (mysqlTx srv) error A) (d : db) : res A * db :=
  match fn (mkMysqlTx d 0) with
  | Err fnErr => (Err fnErr, rolled_back d)
  | Ok (a, t) => (Ok a, q t)
  end.

Definition with_chain (o : Observation) (id seq : Z) (prevHash rowHash : bytes) : Observation :=
  mkObservation id (ob_RemoteID o) (ob_RefID o) (ob_SyncID o) seq (ob_EventType o)
    (ob_PrevOID o) (ob_NewOID o) (ob_PrevPeeledOID o) (ob_NewPeeledOID o) (ob_ObservedAtNS o)
    prevHash rowHash (ob_CanonicalMeta o).

Definition observation_params (o : Observation) (effectiveSyncID id : Z) : MObservation :=
  mkMObservation id (ob_RemoteID o) (ob_RefID o) effectiveSyncID (ob_Seq o) (ob_EventType o)
    (nullStringFromBytes (Raw (ob_PrevOID o))) (nullStringFromBytes (Raw (ob_NewOID o)))
    (nullStringFromBytes (Raw (ob_PrevPeeledOID o))) (nullStringFromBytes (Raw (ob_NewPeeledOID o)))
    (ob_ObservedAtNS o) (ob_PrevHash o) (ob_RowHash o) (nullStringFromStr (ob_CanonicalMeta o)).

(** Returns the sequence number and the observation as the method leaves it. *)
Definition AppendObservation (o : Observation) : SE (mysqlTx srv) error (Z * Observation) :=
  t ← get_state;
  if (syncID t =? 0) && (ob_SyncID o =? 0)
  then throw (ErrOther "store: AppendObservation called without a prior WriteSync (sync_id is 0)")
  else
    let effectiveSyncID := if negb (ob_SyncID o =? 0) then ob_SyncID o else syncID t in
    headRow ← on_q (run_m (Mysqlc.GetRemoteChainHead (ob_RemoteID o)));
    let prevHash := headRow.1 in
    if negb (length prevHash =? ChainHashLen)%nat
    then throw (ErrOther "chain_head malformed")
    else
      let seq := headRow.2 + 1 in
      let rowHash := RowHash prevHash (with_chain o (ob_ID o) seq prevHash (ob_RowHash o)) in
      let o := with_chain o (ob_ID o) seq prevHash rowHash in
      id ← on_q (run_m (Mysqlc.InsertObservation srv (observation_params o effectiveSyncID)));
      let o := with_chain o id seq prevHash rowHash in
      let newLen := headRow.2 + 1 in
      rows ← on_q (run_m (Mysqlc.AdvanceRemoteChainHead rowHash newLen (ob_RemoteID o) prevHash headRow.2));
      if negb (rows =? 1) then throw ErrChainCAS else mret (seq, o).

Definition ref_params (ref : Ref) (id : Z) : MRef :=
  mkMRef id (rf_RemoteID ref) (rf_TagName ref) (nullStringFromBytes (Raw (rf_CurrentOID ref)))
    (nullStringFromBytes (Raw (rf_CurrentPeeledOID ref))) (boolToInt32 (rf_IsAnnotatedTag ref))
    (nullStringFromBytes (Raw (rf_FirstOID ref))) (rf_FirstSeenNS ref) (rf_LastSeenNS ref) (rf_LastChangedNS ref)
    (boolToInt32 (rf_Deleted ref)) (boolToInt32 (rf_Tainted ref)) (nullInt64FromPtr (rf_TaintFirstNS ref))
    (rf_ObservationCount ref).

Definition with_ids (ref : Ref) (id remoteID : Z) : Ref :=
  mkRef id remoteID (rf_TagName ref) (rf_CurrentOID ref) (rf_CurrentPeeledOID ref) (rf_IsAnnotatedTag ref)
    (rf_FirstOID ref) (rf_FirstSeenNS ref) (rf_LastSeenNS ref) (rf_LastChangedNS ref) (rf_Deleted ref)
    (rf_Tainted ref) (rf_TaintFirstNS ref) (rf_ObservationCount ref).

(** The id is read back by the name. *)
Definition UpsertRefProjection (ref : Ref) : SE (mysqlTx srv) error Ref :=
  on_q (run_m (Mysqlc.UpsertRef srv (ref_params ref)));;
  idRow ← on_q (run_m (Mysqlc.GetRefIDByName srv (rf_RemoteID ref) (rf_TagName ref)));
  mret (with_ids ref idRow.1 idRow.2).

Definition sync_params (s : Sync) (id : Z) : MSync :=
  mkMSync id (sy_RemoteID s) (sy_Trigger s) (sy_StartedNS s) (sy_FinishedNS s) (sy_Status s)
    (int32 (sy_TagsSeen s)) (int32 (sy_TagsChanged s)) (sy_Error s)
    (nullStringFromBytes (sy_ChainHeadBefore s)) (nullStringFromBytes (sy_ChainHeadAfter s)).

Definition WriteSync (s : Sync) : SE (mysqlTx srv) error Z :=
  id ← on_q (run_m (Mysqlc.InsertSync srv (sync_params s)));
  t ← get_state;
  put_state (mkMysqlTx (q t) id);;
  mret id.

Definition PruneSyncs (remoteID keep : Z) : SE (mysqlTx srv) error () :=
  on_q (run_m (Mysqlc.PruneSyncs remoteID remoteID (int32 keep) remoteID)).

Definition AdvanceChainHead (remoteID : Z) (newHead : bytes) (newLen : Z) : SE (mysqlTx srv) error () :=
  on_q (run_m (Mysqlc.AdvanceChainHead newHead newLen remoteID)).

Definition CreateRemote (r : Remote) : SE (mysqlTx srv) error Z :=
  on_q (run_mq conflict_mysql (Mysqlc.CreateRemote srv (remote_params r))).

Definition CountAllRemotes : SE (mysqlTx srv) error Z := on_q (run_m Mysqlc.CountAllRemotes).

Definition AppendTaintEvent (e : TaintEvent) : SE (mysqlTx srv) error Z := on_q (insertTaintEventMySQL srv e).
End tx.
