(* ===== verification/MysqlSpec.v ===== *)
(** The MySQL store meets the promise of the persistence seam on a server that compares
    texts byte by byte: on the shared tables its statements do what the SQLite ones do,
    under whatever ids the server draws. *)
From S2P Require Import Prelude GoStrings Sha256 Model Chain Sqlc StoreSpec SqliteStore SqliteTx SqliteSpec.
From S2P Require Import Mysqlc MysqlStore MysqlTx.
#[local] Open Scope Z_scope.

(** * Servers and tables *)

(** A server whose default collation is binary, and whose columns hold the words of the
    program. *)
Class BinaryServer (srv : server) : Prop := {
  binary_ok : server_ok srv;
  binary_eq a b : coll_eq srv a b = String.eqb a b;
}.

(** The rows a statement of [Mysqlc] writes. *)
Definition typed_remote (r : RemoteRow) : Prop := remote_cells (scan_remote r) = r.
Definition typed_ref (r : RefRow) : Prop := ref_cells (scan_ref r) = r.

(** The invariant of the tables: keys, typed cells, names that fit their column, and every
    observation has its sync. *)
Record mysql_ok (srv : server) (d : db) : Prop := {
  mok_db : db_ok d;
  mok_remotes : Forall typed_remote (t_remotes d);
  mok_refs : Forall typed_ref (t_refs d);
  mok_names : Forall (λ r, varchar_fits srv 512 (fr_TagName r) = true) (t_refs d);
  mok_syncs : syncs_ok (db_abs d);
  mok_taint_seq : 0 ≤ seq_taint_events d;
}.

(** The store: the tables of a server. *)
Record mysqlStore (srv : server) : Type := mkMysqlStore { sdb : db }.
#[global] Arguments mkMysqlStore {srv} _.
#[global] Arguments sdb {srv} _.

Definition on_db {srv A} (m : SE db error A) : SE (mysqlStore srv) error A := λ s,
  match m (sdb s) with
  | Ok (a, d) => Ok (a, mkMysqlStore d)
  | Err e => Err e
  end.

(** * Instances of the interfaces *)

#[global] Instance mysql_tx srv : Tx (mysqlTx srv) := {
  tx_AppendObservation := MysqlTx.AppendObservation;
  tx_UpsertRefProjection := MysqlTx.UpsertRefProjection;
  tx_WriteSync := MysqlTx.WriteSync;
  tx_AdvanceChainHead := MysqlTx.AdvanceChainHead;
  tx_AppendTaintEvent := MysqlTx.AppendTaintEvent;
  tx_CreateRemote := MysqlTx.CreateRemote;
  tx_CountAllRemotes := MysqlTx.CountAllRemotes;
  tx_PruneSyncs := MysqlTx.PruneSyncs;
}.

#[global] Instance mysql_store srv : Store (mysqlStore srv) (mysqlTx srv) := {
  st_CreateRemote := λ r, on_db (MysqlStore.CreateRemote srv r);
  st_GetRemote := λ id, on_db (MysqlStore.GetRemote id);
  st_GetRemoteByURL := λ u, on_db (MysqlStore.GetRemoteByURL srv u);
  st_ListRemotes := λ limit cursor, on_db (MysqlStore.ListRemotes limit cursor);
  st_CountAllRemotes := on_db MysqlStore.CountAllRemotes;
  st_UpdateRemote := λ r, on_db (MysqlStore.UpdateRemote srv r);
  st_SoftDeleteRemote := λ id atNS, on_db (MysqlStore.SoftDeleteRemote id atNS);
  st_SelectDueRemotes := λ now limit, on_db (MysqlStore.SelectDueRemotes srv now limit);
  st_SetRemoteHealth := λ now id status lastErr lastOk, on_db (MysqlStore.SetRemoteHealth srv now id status lastErr lastOk);
  st_GetRef := λ rid name, on_db (MysqlStore.GetRef srv rid name);
  st_ListTags := λ rid, on_db (MysqlStore.ListTags srv rid);
  st_SetRefTaint := λ id ns, on_db (MysqlStore.SetRefTaint id ns);
  st_GetChainHead := λ id, on_db (MysqlStore.GetChainHead id);
  st_ReplayObservations := λ rid seq limit, on_db (MysqlStore.ReplayObservations rid seq limit);
  st_LatestObservationForRef := λ id, on_db (MysqlStore.LatestObservationForRef id);
  st_AppendTaintEvent := λ e, on_db (MysqlStore.AppendTaintEvent srv e);
  st_ListTaintEvents := λ rid limit cursor, on_db (MysqlStore.ListTaintEvents rid limit cursor);
  st_AckTaintEvent := λ id by_ note atNS, on_db (MysqlStore.AckTaintEvent srv id by_ note atNS);
  st_ListSyncs := λ rid limit cursor, on_db (MysqlStore.ListSyncs rid limit cursor);
  st_TryAcquireLease := λ rid holder now expires, on_db (MysqlStore.TryAcquireLease srv rid holder now expires);
  st_ReleaseLeaseCAS := λ rid holder witness newHead newLen, on_db (MysqlStore.ReleaseLeaseCAS srv rid holder witness newHead newLen);
  st_WithTx := λ A fn s, ((MysqlTx.WithTx fn (sdb s)).1, mkMysqlStore (MysqlTx.WithTx fn (sdb s)).2);
}.

(** * Lemmas *)

Lemma run_mq_ok {A} f (m : MQ A) d r : run_mq f m d = Ok r ↔ m d = Ok r.
Proof. unfold run_mq. destruct (m d); naive_solver. Qed.

Lemma mon_q_ok {srv A} (m : SE db error A) (t : mysqlTx srv) a t' :
  MysqlTx.on_q m t = Ok (a, t') ↔ ∃ d, m (MysqlTx.q t) = Ok (a, d) ∧ t' = mkMysqlTx d (MysqlTx.syncID t).
Proof. unfold MysqlTx.on_q. destruct (m (MysqlTx.q t)) as [[a' d]|]; naive_solver. Qed.

Lemma mrequire_ok c e d r : Mysqlc.require c e d = Ok r ↔ c = true ∧ r = ((), d).
Proof. unfold Mysqlc.require. destruct c; naive_solver. Qed.

Lemma select_one_ok {A} (f : db → option A) d r : select_one f d = Ok r ↔ ∃ a, f d = Some a ∧ r = (a, d).
Proof. unfold select_one. destruct (f d); naive_solver. Qed.

Lemma MGetRemoteChainHead_ok id d r :
  Mysqlc.GetRemoteChainHead id d = Ok r ↔
  ∃ row, List.find (λ r, rr_ID r =? id) (t_remotes d) = Some row ∧ r = ((rr_ChainHeadHash row, rr_ChainLen row), d).
Proof.
  unfold Mysqlc.GetRemoteChainHead. rewrite select_one_ok. destruct (List.find _ _); cbn; naive_solver.
Qed.

Lemma MGetRemoteLease_ok rid d r :
  Mysqlc.GetRemoteLease rid d = Ok r ↔ ∃ l, List.find (λ l, lr_RemoteID l =? rid) (t_remote_lease d) = Some l ∧ r = (l, d).
Proof. unfold Mysqlc.GetRemoteLease. by rewrite select_one_ok. Qed.

(** Take a successful statement apart. *)
Ltac mstep H :=
  repeat first
    [ apply SE_bind_ok in H as (? & ? & [= <- <-] & H)
    | apply SE_bind_ok in H as (? & ? & [?Hreq [= -> ->]]%mrequire_ok & H) ].

Lemma find_ext {A} (c1 c2 : A → bool) l : (∀ r, c1 r = c2 r) → List.find c1 l = List.find c2 l.
Proof. intros Hc. induction l as [|x l IH]; cbn; [done|]. by rewrite Hc, IH. Qed.

(** ** Parameters are the cells of the SQLite rows *)

Lemma bin_cell_bytes b : bin_cell (nullStringFromBytes b) = nullBytes b.
Proof. destruct b; [done|]. cbn. by rewrite Ascii.byte_of_ascii_of_byte, bytes_of_string_of_bytes. Qed.

Lemma text_cell_str s : text_cell (nullStringFromStr s) = if String.eqb s "" then INil else IString s.
Proof. unfold nullStringFromStr. by destruct (String.eqb s ""). Qed.

Lemma int_cell_ptr p : int_cell (nullInt64FromPtr p) = nullInt64Interface p.
Proof. by destruct p. Qed.

Lemma bytesFromNullString_cell s : toBytes (bin_cell s) = bytesFromNullString s.
Proof. by destruct s. Qed.

Lemma scan_bin_cell s : scan_string (bin_cell s) = s.
Proof. destruct s; cbn; [|done]. by rewrite string_of_bytes_of_string. Qed.

Lemma oid_of_cell s : oid_of s = oid_col (bin_cell s).
Proof. unfold oid_of, oid_col. by rewrite bytesFromNullString_cell. Qed.

Lemma scan_text_cell s : scan_string (text_cell s) = s.
Proof. by destruct s. Qed.

Lemma scan_int_cell n : scan_int (int_cell n) = n.
Proof. by destruct n. Qed.

Create Rewrite HintDb cells.
#[local] Hint Rewrite bin_cell_bytes text_cell_str int_cell_ptr scan_bin_cell scan_text_cell scan_int_cell : cells.

Lemma remote_cells_typed r : typed_remote (remote_cells r).
Proof. destruct r. unfold typed_remote, remote_cells, scan_remote. cbn. by autorewrite with cells. Qed.

Lemma ref_cells_typed r : typed_ref (ref_cells r).
Proof. destruct r. unfold typed_ref, ref_cells, scan_ref. cbn. by autorewrite with cells. Qed.

Lemma remoteFromMySQLRow_cells r : remoteFromMySQLRow r = remoteFromRow (remote_cells r).
Proof.
  destruct r as [? ? ? ? ? ? ? h ? ? ? ? ? ? n]. unfold remoteFromMySQLRow, remoteFromRow. cbn.
  f_equal; [by destruct h|by destruct n].
Qed.

Lemma refFromMySQLRow_cells r : refFromMySQLRow r = refFromRow (ref_cells r).
Proof.
  destruct r as [? ? ? ? ? ? ? ? ? ? ? ? n]. unfold refFromMySQLRow, refFromRow. cbn.
  rewrite !oid_of_cell. f_equal. by destruct n.
Qed.

Lemma typed_remote_read r : typed_remote r → remoteFromMySQLRow (scan_remote r) = remoteFromRow r.
Proof. intros Ht. by rewrite remoteFromMySQLRow_cells, Ht. Qed.

Lemma typed_ref_read r : typed_ref r → refFromMySQLRow (scan_ref r) = refFromRow r.
Proof. intros Ht. by rewrite refFromMySQLRow_cells, Ht. Qed.

Lemma observation_cells_params o sync id :
  observation_cells (observation_params o sync id) = observation_row o sync id.
Proof. unfold observation_cells, observation_params, observation_row. cbn. by autorewrite with cells. Qed.

Lemma ref_cells_params ref id : ref_cells (ref_params ref id) = ref_row ref id.
Proof. unfold ref_cells, ref_params, ref_row. cbn. by autorewrite with cells. Qed.

Lemma taint_cells_params e id : taint_cells (taint_params e id) = taint_row e id.
Proof. unfold taint_cells, taint_params, taint_row. cbn. by autorewrite with cells. Qed.

Lemma int32_id n : int32_ok n → int32 n = n.
Proof. unfold int32_ok, int32. intros ?. rewrite Z.mod_small; lia. Qed.

Lemma sync_cells_params s id :
  int32_ok (sy_TagsSeen s) → int32_ok (sy_TagsChanged s) → sync_cells (sync_params s id) = sync_row s id.
Proof. intros. unfold sync_cells, sync_params, sync_row. cbn. rewrite !int32_id by done. by autorewrite with cells. Qed.

Lemma length_string_of_bytes b : String.length (string_of_bytes b) = length b.
Proof. rewrite <- length_bytes_of_string. by rewrite bytes_of_string_of_bytes. Qed.

(** Ids and hashes fit their columns. *)
Lemma bytes_fit b : (length b ≤ 32)%nat → null_bin32 (nullStringFromBytes b) = true.
Proof. destruct b as [|x b]; [done|]. intros H. unfold nullStringFromBytes, null_bin32. apply Nat.leb_le. by rewrite length_string_of_bytes. Qed.

Lemma oid_fits o : storable o → null_bin32 (nullStringFromBytes (Raw o)) = true.
Proof.
  intros Hst. apply bytes_fit. destruct Hst as [->|[Hv Hlen]]; [cbn; lia|].
  rewrite Hlen. apply HashAlgo_Valid_cases in Hv as [-> | ->]; cbn; lia.
Qed.

(** A row with a new head is the row of the SQLite update. *)
Lemma Advance_ok head len id h2 l2 d r :
  Mysqlc.AdvanceRemoteChainHead head len id h2 l2 d = Ok r → Sqlc.AdvanceRemoteChainHead head len id h2 l2 d = Ok r.
Proof. intros H. unfold Mysqlc.AdvanceRemoteChainHead in H. mstep H. unfold mret, SE_ret in H. by injection H as <-. Qed.

Lemma Advance_fits head len id h2 l2 d r :
  Sqlc.AdvanceRemoteChainHead head len id h2 l2 d = Ok r → (length head ≤ 32)%nat →
  Mysqlc.AdvanceRemoteChainHead head len id h2 l2 d = Ok r.
Proof.
  intros H Hlen. unfold Mysqlc.AdvanceRemoteChainHead, Mysqlc.require, mbind, SE_bind, get_state, put_state, bin32.
  apply Nat.leb_le in Hlen. rewrite Hlen, orb_true_r. by injection H as <-.
Qed.

Lemma Advance_typed head len id h2 l2 d n d' :
  Sqlc.AdvanceRemoteChainHead head len id h2 l2 d = Ok (n, d') → Forall typed_remote (t_remotes d) →
  Forall typed_remote (t_remotes d') ∧ t_refs d' = t_refs d ∧ t_observations d' = t_observations d ∧ t_syncs d' = t_syncs d ∧
  seq_taint_events d' = seq_taint_events d.
Proof.
  intros [= <- <-] Ht. split; [|done]. cbn. unfold UPDATE. apply Forall_map. eapply Forall_impl; [exact Ht|].
  intros r Hr. destruct (_ && _); [|done]. unfold typed_remote, remote_cells, scan_remote in *.
  destruct r. cbn in *. injection Hr as H1 H2. by rewrite H1, H2.
Qed.

Lemma syncs_ok_tables d d' :
  t_observations d' = t_observations d → t_syncs d' = t_syncs d → syncs_ok (db_abs d) → syncs_ok (db_abs d').
Proof. intros Ho Hs. unfold syncs_ok, has_sync_id, db_abs. cbn. by rewrite Ho, Hs. Qed.

Lemma has_sync_abs d id : has_sync d id = true ↔ has_sync_id (db_abs d) id.
Proof.
  unfold has_sync, has_sync_id. rewrite existsb_elem. split.
  - intros (s & Hs & E%Z.eqb_eq). exists (syncFromRow s). split; [by apply list_elem_of_fmap_2|done].
  - intros (s & (row & -> & Hin)%list_elem_of_fmap & E). exists row. cbn in E. by rewrite E, Z.eqb_refl.
Qed.

(** ** The transaction *)

Section binary.
Context (srv : server) `{HB : BinaryServer srv}.

Lemma in_words_binary s l : in_words srv s l = in_list s l.
Proof. unfold in_words, in_list. induction l as [|w l IH]; cbn; [done|]. by rewrite binary_eq, IH. Qed.

Lemma ref_named_binary rid name r : ref_named srv rid name r = ref_key rid name r.
Proof. unfold ref_named, ref_key. by rewrite binary_eq. Qed.

Lemma taint_dup_binary e id r : taint_dup srv (taint_params e id) r = taint_key (taint_row e id) r.
Proof.
  apply eq_true_iff_eq. unfold taint_dup, taint_key. rewrite <- taint_cells_params. cbn.
  rewrite !andb_true_iff, !Z.eqb_eq, binary_eq, !String.eqb_eq, !bool_decide_eq_true, !negb_true_iff.
  split; intros [[[[[[? ?] ?] Hf] ?] Ht] ?]; rewrite Hf, Ht in *; by split_and!.
Qed.

Lemma next_id_lt n : n < next_id srv n.
Proof. pose proof (srv_gap _ binary_ok n). unfold next_id. lia. Qed.

Lemma mysql_ok_insert_ref d l n :
  mysql_ok srv d → db_ok (with_refs d l n) → Forall typed_ref l → Forall (λ r, varchar_fits srv 512 (fr_TagName r) = true) l →
  mysql_ok srv (with_refs d l n).
Proof. intros [] ???. by split. Qed.

Lemma ref_duplicate_typed row r : typed_ref row → typed_ref r → typed_ref (ref_duplicate row r).
Proof.
  destruct row, r. unfold typed_ref, ref_duplicate, ref_cells, scan_ref. cbn.
  intros [= H1 H2 H3 H4] [= H5 H6 H7 H8]. by rewrite H1, H2, H4, H7.
Qed.

(** What the upsert leaves in the tables, and the id it reads back. *)
Lemma UpsertRef_spec ref d r d' :
  mysql_ok srv d → ref_storable ref → Mysqlc.UpsertRef srv (ref_params ref) d = Ok (r, d') →
  ∃ id, Mysqlc.GetRefIDByName srv (rf_RemoteID ref) (rf_TagName ref) d' = Ok ((id, rf_RemoteID ref), d') ∧
    mysql_ok srv d' ∧ upsert_spec (db_abs d) ref (ref_with_id ref id) (db_abs d').
Proof.
  intros Hok Hst H. unfold Mysqlc.UpsertRef in H. mstep H. cbn [qf_RemoteID qf_TagName ref_params] in H, Hreq.
  set (id := next_id srv (seq_refs d)) in *. pose proof (next_id_lt (seq_refs d)) as Hid. fold id in Hid.
  rewrite (find_ext _ _ _ (ref_named_binary (rf_RemoteID ref) (rf_TagName ref))) in H.
  rewrite !andb_true_iff in Hreq. destruct Hreq as [[[Hfit _] _] _].
  assert (∀ d' row, List.find (ref_key (rf_RemoteID ref) (rf_TagName ref)) (t_refs d') = Some row →
    Mysqlc.GetRefIDByName srv (rf_RemoteID ref) (rf_TagName ref) d' = Ok ((fr_ID row, rf_RemoteID ref), d')) as Hget.
  { intros d2 row Hrow. apply select_one_ok. exists (fr_ID row, rf_RemoteID ref). split; [|done].
    rewrite (find_ext _ _ _ (ref_named_binary (rf_RemoteID ref) (rf_TagName ref))), Hrow.
    apply find_row in Hrow as [_ Hk%selects_ref]. injection Hk as Hr _. cbn. by rewrite Hr. }
  destruct (List.find _ (t_refs d)) as [old|] eqn:Hf.
  - injection H as _ <-. rewrite ref_cells_params.
    destruct (find_row _ _ _ Hf) as [Hin Hk]. apply selects_ref in Hk.
    assert (UPDATE (ref_named srv (rf_RemoteID ref) (rf_TagName ref)) (ref_duplicate (ref_row ref id)) (t_refs d) =
            UPDATE (ref_key (rf_RemoteID ref) (rf_TagName ref)) (ref_excluded (ref_row ref id)) (t_refs d)) as ->.
    { apply UPDATE_ext. intros x _. apply ref_named_binary. }
    destruct (upsert_found (d) ref id old (mok_db _ _ Hok) Hst ltac:(lia) Hf) as [Hok' Hspec].
    exists (fr_ID old). split; [|split; [|done]].
    + apply (Hget _ (ref_excluded (ref_row ref id) old)). cbn. clear -Hf.
      induction (t_refs d) as [|x l IH]; [done|]. rewrite UPDATE_cons. cbn in *.
      destruct (ref_key _ _ x) eqn:E; [by injection Hf as ->; unfold ref_key in *; cbn; rewrite E|]. rewrite E. by apply IH.
    + apply mysql_ok_insert_ref; [done|done| |].
      * unfold UPDATE. apply Forall_map. eapply Forall_impl; [apply (mok_refs _ _ Hok)|]. intros x Hx. destruct (ref_key _ _ x); [|done].
        apply ref_duplicate_typed; [|done]. rewrite <- ref_cells_params. apply ref_cells_typed.
      * unfold UPDATE. apply Forall_map. eapply Forall_impl; [apply (mok_names _ _ Hok)|]. intros x Hx. by destruct (ref_key _ _ x).
  - mstep H. injection H as _ <-. rewrite ref_cells_params.
    destruct (upsert_fresh d ref id (mok_db _ _ Hok) Hst ltac:(lia) Hf) as [Hok' Hspec].
    exists id. split; [|split; [|done]].
    + apply (Hget _ (ref_row ref id)). cbn. rewrite find_none in Hf. clear -Hf.
      induction (t_refs d) as [|x l IH]; cbn.
      * unfold ref_key. cbn. by rewrite Z.eqb_refl, String.eqb_refl.
      * rewrite (Hf x) by left. apply IH. intros y Hy. apply Hf. by right.
    + apply mysql_ok_insert_ref; [done|done| |]; apply Forall_app; (split; [apply Hok|]); repeat constructor; [|done].
      rewrite <- ref_cells_params. apply ref_cells_typed.
Qed.

Lemma mysql_upsert_refines (t : mysqlTx srv) ref r t' :
  mysql_ok srv (MysqlTx.q t) → ref_storable ref → MysqlTx.UpsertRefProjection ref t = Ok (r, t') →
  mysql_ok srv (MysqlTx.q t') ∧ MysqlTx.syncID t' = MysqlTx.syncID t ∧
  upsert_spec (db_abs (MysqlTx.q t)) ref r (db_abs (MysqlTx.q t')).
Proof.
  intros Hok Hst H. unfold MysqlTx.UpsertRefProjection in H.
  apply SE_bind_ok in H as (u & t1 & (d1 & H1 & ->)%mon_q_ok & H). apply run_mq_ok in H1.
  apply SE_bind_ok in H as (idRow & t2 & (d2 & H2 & ->)%mon_q_ok & [= <- <-]). apply run_mq_ok in H2. cbn [MysqlTx.q MysqlTx.syncID] in *.
  destruct (UpsertRef_spec ref _ _ _ Hok Hst H1) as (id & Hget & Hok1 & Hspec).
  rewrite Hget in H2. injection H2 as <- <-. done.
Qed.

Lemma mysql_upsert_total (t : mysqlTx srv) ref :
  mysql_ok srv (MysqlTx.q t) → ref_storable ref → is_Some (a_remotes (db_abs (MysqlTx.q t)) !! rf_RemoteID ref) →
  varchar_fits srv 512 (rf_TagName ref) = true → ∃ r, MysqlTx.UpsertRefProjection ref t = Ok r.
Proof.
  intros Hok Hst Hrem%has_remote_abs Hfit.
  assert (∃ d', Mysqlc.UpsertRef srv (ref_params ref) (MysqlTx.q t) = Ok ((), d')) as [d' Hup].
  { unfold Mysqlc.UpsertRef, mbind, SE_bind, get_state, put_state, Mysqlc.require. cbn [qf_TagName qf_RemoteID qf_CurrentOid qf_CurrentPeeledOid qf_FirstOid ref_params].
    destruct Hst as (? & ? & ?). rewrite Hfit, !oid_fits by done. cbn [andb]. destruct (List.find _ _); [by eauto|].
    rewrite Hrem. eauto. }
  destruct (UpsertRef_spec ref _ _ _ Hok Hst Hup) as (id & Hget & _).
  exists (MysqlTx.with_ids ref id (rf_RemoteID ref), mkMysqlTx d' (MysqlTx.syncID t)). unfold MysqlTx.UpsertRefProjection.
  apply SE_bind_ok. exists (), (mkMysqlTx d' (MysqlTx.syncID t)). split.
  { apply mon_q_ok. exists d'. split; [|done]. by apply run_mq_ok. }
  apply SE_bind_ok. exists (id, rf_RemoteID ref), (mkMysqlTx d' (MysqlTx.syncID t)). split; [|done].
  apply mon_q_ok. exists d'. split; [|done]. by apply run_mq_ok.
Qed.

(** The insert of an observation, with its sync in the table. *)
Lemma MInsertObservation_ok o sync d id d' :
  Mysqlc.InsertObservation srv (observation_params o sync) d = Ok (id, d') →
  id = next_id srv (seq_observations d) ∧ has_sync d sync = true ∧
  d' = with_observations d (t_observations d ++ [observation_row o sync id]) id.
Proof.
  intros H. unfold Mysqlc.InsertObservation in H. mstep H. injection H as <- <-.
  rewrite observation_cells_params. rewrite !andb_true_iff in Hreq2. split; [done|]. split; [|done]. apply Hreq2.
Qed.

Lemma mysql_ok_insert_obs d o sync id :
  mysql_ok srv d → has_sync d sync = true → mysql_ok srv (with_observations d (t_observations d ++ [observation_row o sync id]) id).
Proof.
  intros [Hdb ? ? ? Hs] Hsync. split; try done; [by apply with_observations_ok|].
  intros x. cbn. rewrite fmap_app. cbn. rewrite elem_of_app, list_elem_of_singleton. intros [Hx| ->]; [by apply Hs|].
  by apply has_sync_abs.
Qed.

Lemma mysql_append_refines (t : mysqlTx srv) o r t' :
  mysql_ok srv (MysqlTx.q t) → obs_storable o → MysqlTx.AppendObservation o t = Ok (r, t') →
  mysql_ok srv (MysqlTx.q t') ∧ MysqlTx.syncID t' = MysqlTx.syncID t ∧
  append_spec (db_abs (MysqlTx.q t)) (MysqlTx.syncID t) o r (db_abs (MysqlTx.q t')).
Proof.
  intros Hok Hst H. unfold MysqlTx.AppendObservation in H.
  apply SE_bind_ok in H as (t0 & t1 & [= <- <-] & H). destruct (_ && _) eqn:Hz; [done|].
  apply SE_bind_ok in H as (hd & t2 & (d2 & Hh & ->)%mon_q_ok & H).
  apply run_mq_ok, MGetRemoteChainHead_ok in Hh as (row & Hfind & [= -> ->]). cbn [fst snd] in H.
  destruct (negb _) eqn:Hlen in H; [done|]. apply negb_false_iff, Nat.eqb_eq in Hlen.
  apply SE_bind_ok in H as (id & t3 & (d3 & Hins & ->)%mon_q_ok & H).
  apply run_mq_ok, MInsertObservation_ok in Hins as (-> & Hsync & ->). cbn [MysqlTx.q MysqlTx.syncID] in *.
  apply SE_bind_ok in H as (rows & t4 & (d4 & Hadv & ->)%mon_q_ok & H).
  apply run_mq_ok, Advance_ok in Hadv. cbn [MysqlTx.q MysqlTx.syncID] in *. rewrite if_negb in Hadv, Hsync.
  destruct (append_db (MysqlTx.q t) (MysqlTx.syncID t) o row (next_id srv (seq_observations (MysqlTx.q t))) (mok_db _ _ Hok) Hst Hfind Hlen)
    as (d' & Hadv' & Hok' & Hspec).
  { rewrite andb_false_iff, !Z.eqb_neq in Hz. naive_solver. }
  change MysqlTx.with_chain with SqliteTx.with_chain in *. cbn [ob_RemoteID SqliteTx.with_chain] in Hadv.
  pose proof (mysql_ok_insert_obs _ (SqliteTx.with_chain o (ob_ID o) (rr_ChainLen row + 1) (rr_ChainHeadHash row)
    (RowHash (rr_ChainHeadHash row) (SqliteTx.with_chain o (ob_ID o) (rr_ChainLen row + 1) (rr_ChainHeadHash row) (ob_RowHash o))))
    _ (next_id srv (seq_observations (MysqlTx.q t))) Hok Hsync) as [_ Hm1 Hm2 Hm3 Hm4 Hm5].
  destruct (Advance_typed _ _ _ _ _ _ _ _ Hadv' Hm1) as (Hm1' & Hrefs & Hobs & Hsyncs & Hseq).
  rewrite Hadv' in Hadv. injection Hadv as <- <-. cbn [Z.eqb Pos.eqb negb] in H. injection H as <- <-.
  split; [|split; [done|exact Hspec]]. cbn [MysqlTx.q]. split; [done|done| | |by eapply syncs_ok_tables|]; [by rewrite Hrefs..|].
  by rewrite Hseq.
Qed.

Lemma mysql_append_total (t : mysqlTx srv) o :
  mysql_ok srv (MysqlTx.q t) → abs_ok (db_abs (MysqlTx.q t)) → obs_storable o →
  is_Some (a_remotes (db_abs (MysqlTx.q t)) !! ob_RemoteID o) →
  has_ref_id (db_abs (MysqlTx.q t)) (ob_RefID o) → EventType_Valid (ob_EventType o) = true → ob_SyncID o ≠ 0 →
  has_sync_id (db_abs (MysqlTx.q t)) (ob_SyncID o) → text_fits srv (ob_CanonicalMeta o) = true →
  ∃ r, MysqlTx.AppendObservation o t = Ok r.
Proof.
  intros Hok Habs Hst Hrem Href Hev Hsync Hs Hmeta. set (d := MysqlTx.q t) in *.
  pose proof Hrem as Hrem'. destruct Hrem' as [rem Hl]. pose proof Hl as Hl'.
  rewrite db_remote_lookup in Hl'. destruct (List.find _ _) as [row|] eqn:Hrow; [|done]. cbn in Hl'.
  destruct (ok_chain _ Habs _ _ Hl) as (Hr & Hh & Hn).
  assert (length (rr_ChainHeadHash row) = 32%nat) as Hlen.
  { injection Hl' as <-. cbn in Hh. rewrite Hh. by eapply length_ledger_head. }
  assert (rr_ChainLen row = Z.of_nat (length (ledger (db_abs d) (ob_RemoteID o)))) as Hn' by (injection Hl' as <-; done).
  set (hash := RowHash (rr_ChainHeadHash row)
    (MysqlTx.with_chain o (ob_ID o) (rr_ChainLen row + 1) (rr_ChainHeadHash row) (ob_RowHash o))).
  set (o' := MysqlTx.with_chain o (ob_ID o) (rr_ChainLen row + 1) (rr_ChainHeadHash row) hash).
  set (id := next_id srv (seq_observations d)).
  set (d3 := with_observations d (t_observations d ++ [observation_row o' (ob_SyncID o) id]) id).
  assert (length hash = 32%nat) as Hhash by apply length_RowHash.
  assert (Mysqlc.InsertObservation srv (observation_params o' (ob_SyncID o)) d = Ok (id, d3)) as Hins.
  { unfold Mysqlc.InsertObservation, mbind, SE_bind, get_state, put_state, Mysqlc.require. fold id.
    rewrite observation_cells_params. cbn [qo_PrevOid qo_NewOid qo_PrevPeeledOid qo_NewPeeledOid qo_PrevHash qo_RowHash qo_CanonicalMeta
      qo_EventType qo_RemoteID qo_RefID qo_SyncID qo_Seq observation_params o' MysqlTx.with_chain ob_PrevOID ob_NewOID ob_PrevPeeledOID
      ob_NewPeeledOID ob_PrevHash ob_RowHash ob_CanonicalMeta ob_EventType ob_RemoteID ob_RefID ob_Seq].
    destruct Hst as (? & ? & ? & ?). rewrite !oid_fits, in_words_binary, in_list_event, Hev by done.
    unfold bin32. rewrite Hlen, Hhash. cbn [andb Nat.leb].
    assert (null_text srv (nullStringFromStr (ob_CanonicalMeta o)) = true) as ->.
    { unfold nullStringFromStr. destruct (String.eqb _ _); [done|]. exact Hmeta. }
    rewrite (ledger_seq_fresh d _ _ Hr Hn'). cbn [negb].
    apply has_remote_abs in Hrem as ->. apply has_ref_abs in Href as ->; [|apply (mok_db _ _ Hok)].
    by apply has_sync_abs in Hs as ->. }
  destruct (AdvanceRemoteChainHead_same d3 (ob_RemoteID o) row hash (rr_ChainLen row + 1)) as (d4 & Hadv & _).
  { apply with_observations_ok, Hok. } { done. }
  apply Advance_fits in Hadv; [|by rewrite Hhash].
  exists ((rr_ChainLen row + 1, MysqlTx.with_chain o' id (rr_ChainLen row + 1) (rr_ChainHeadHash row) hash), mkMysqlTx d4 (MysqlTx.syncID t)).
  apply Z.eqb_neq in Hsync. unfold MysqlTx.AppendObservation.
  apply SE_bind_ok. exists t, t. split; [done|]. rewrite Hsync, andb_false_r. cbn [negb].
  apply SE_bind_ok. exists (rr_ChainHeadHash row, rr_ChainLen row), t. split.
  { apply mon_q_ok. exists d. split; [|by destruct t]. apply run_mq_ok, MGetRemoteChainHead_ok. eauto. }
  cbn [fst snd]. rewrite Hlen. cbn [Nat.eqb negb ChainHashLen].
  apply SE_bind_ok. exists id, (mkMysqlTx d3 (MysqlTx.syncID t)). split.
  { apply mon_q_ok. exists d3. split; [|done]. apply run_mq_ok. exact Hins. }
  apply SE_bind_ok. exists 1, (mkMysqlTx d4 (MysqlTx.syncID t)). split; [|done].
  apply mon_q_ok. exists d4. split; [|done]. apply run_mq_ok. exact Hadv.
Qed.

(** A duplicate is there to be read back: its cells are not NULL. *)
Lemma GetTaintEventID_dup e id d r :
  List.find (taint_key (taint_row e id)) (t_taint_events d) = Some r →
  ∃ r', Mysqlc.GetTaintEventID srv (te_RemoteID e) (te_RefID e) (te_Reason e)
      (nullStringFromBytes (Raw (te_FromOID e))) (nullStringFromBytes (Raw (te_ToOID e))) d = Ok (tr_ID r', d) ∧
    List.find (taint_key (taint_row e id)) (t_taint_events d) = Some r'.
Proof.
  intros Hf. exists r. split; [|done]. apply select_one_ok. exists (tr_ID r). split; [|done].
  rewrite (find_ext _ (taint_key (taint_row e id))); [by rewrite Hf|].
  destruct (find_row _ _ _ Hf) as [_ Hk]. unfold taint_key in Hk. rewrite !andb_true_iff, !negb_true_iff in Hk.
  destruct Hk as [[[_ Hn1] _] Hn2]. intros x. apply eq_true_iff_eq. unfold taint_key.
  rewrite !andb_true_iff, binary_eq, !Z.eqb_eq, !String.eqb_eq, !bool_decide_eq_true, !negb_true_iff. cbn in *.
  rewrite !bin_cell_bytes. naive_solver.
Qed.

Lemma mysql_ok_taints d l n :
  mysql_ok srv d → db_ok (with_taint_events d l n) → seq_taint_events d ≤ n → mysql_ok srv (with_taint_events d l n).
Proof. intros [] ??. split; try done. cbn. lia. Qed.

Lemma insertTaint_spec e d id d' :
  mysql_ok srv d → storable (te_FromOID e) → storable (te_ToOID e) →
  insertTaintEventMySQL srv e d = Ok (id, d') → mysql_ok srv d' ∧ taint_spec (db_abs d) e id (db_abs d').
Proof.
  intros Hok Hf Ht H. pose proof (mok_taint_seq _ _ Hok) as Hpos. unfold insertTaintEventMySQL in H. apply SE_bind_ok in H as (id1 & d1 & H1%run_mq_ok & H).
  unfold Mysqlc.InsertTaintEvent in H1. mstep H1. pose proof (next_id_lt (seq_taint_events d)) as Hid.
  set (n := next_id srv (seq_taint_events d)) in *.
  rewrite (find_ext _ _ _ (taint_dup_binary e n)), taint_cells_params in H1.
  destruct (List.find _ (t_taint_events d)) as [r|] eqn:Hfind.
  - apply SE_bind_ok in H1 as (? & ? & [= <- <-] & [= <- <-]).
    destruct (taint_found d e n r (mok_db _ _ Hok) Hf Ht Hfind) as [Hdb Hspec].
    assert (mysql_ok srv (with_taint_events d (t_taint_events d) n)) as Hok1 by (apply mysql_ok_taints; [done..|lia]).
    destruct (negb _) eqn:E.
    + injection H as <- <-. split; [done|]. destruct (srv_dup _ binary_ok (tr_ID r)) as [Hz|Hz].
      * rewrite Hz in E. done.
      * by rewrite Hz.
    + apply run_mq_ok in H. destruct (GetTaintEventID_dup e n (with_taint_events d (t_taint_events d) n) r Hfind) as (r' & Hget & Hfind').
      rewrite Hget in H. injection H as <- <-. cbn in Hfind'. rewrite Hfind in Hfind'. by injection Hfind' as <-.
  - mstep H1. injection H1 as <- <-. destruct (negb _) eqn:E.
    + injection H as <- <-. destruct (taint_fresh d e n (mok_db _ _ Hok) Hf Ht Hfind) as [Hdb Hspec].
      split; [apply mysql_ok_taints; [done..|lia]|done].
    + apply negb_false_iff, Z.eqb_eq in E. lia.
Qed.

Lemma mysql_taint_refines (t : mysqlTx srv) e id t' :
  mysql_ok srv (MysqlTx.q t) → storable (te_FromOID e) → storable (te_ToOID e) → MysqlTx.AppendTaintEvent e t = Ok (id, t') →
  mysql_ok srv (MysqlTx.q t') ∧ MysqlTx.syncID t' = MysqlTx.syncID t ∧
  taint_spec (db_abs (MysqlTx.q t)) e id (db_abs (MysqlTx.q t')).
Proof.
  intros Hok Hf Ht (d & H & ->)%mon_q_ok. by destruct (insertTaint_spec e _ _ _ Hok Hf Ht H).
Qed.

Lemma mysql_taint_total (t : mysqlTx srv) e :
  mysql_ok srv (MysqlTx.q t) → storable (te_FromOID e) → storable (te_ToOID e) →
  is_Some (a_remotes (db_abs (MysqlTx.q t)) !! te_RemoteID e) → has_ref_id (db_abs (MysqlTx.q t)) (te_RefID e) →
  (∀ id, te_ObservationID e = Some id → has_obs_id (db_abs (MysqlTx.q t)) id) → TaintReason_Valid (te_Reason e) = true →
  text_fits srv (te_Detail e) = true → ∃ r, MysqlTx.AppendTaintEvent e t = Ok r.
Proof.
  intros Hok Hf Ht Hrem%has_remote_abs Href%has_ref_abs Hobs Hreason Htext; [|apply (mok_db _ _ Hok)].
  set (d := MysqlTx.q t) in *.
  assert (has_observation d (int_cell (nullInt64FromPtr (te_ObservationID e))) = true) as Ho.
  { destruct (te_ObservationID e) as [id|]; [|done]. cbn. destruct (Hobs id eq_refl) as (o & Hin & <-).
    apply list_elem_of_fmap in Hin as (row & -> & Hin). apply existsb_elem. exists row. by rewrite Z.eqb_refl. }
  assert (∃ r, insertTaintEventMySQL srv e d = Ok r) as [[id d'] Hr].
  { unfold insertTaintEventMySQL, Mysqlc.InsertTaintEvent. unfold mbind at 1, SE_bind at 1, run_mq at 1.
    unfold mbind at 1, SE_bind at 1, get_state. unfold mbind at 1, SE_bind at 1, Mysqlc.require at 1.
    cbn [qt_FromOid qt_ToOid qt_Detail taint_params]. rewrite !oid_fits, Htext by done. cbn [andb].
    unfold mbind at 1, SE_bind at 1, Mysqlc.require at 1. cbn [qt_Reason taint_params].
    assert (in_words srv (te_Reason e) ["tag_oid_changed"; "tag_deleted_recreated"] = true) as ->.
    { rewrite in_words_binary. unfold in_list. cbn. by rewrite orb_false_r. }
    set (n := next_id srv (seq_taint_events d)). rewrite (find_ext _ _ _ (taint_dup_binary e n)).
    destruct (List.find _ (t_taint_events d)) as [r|] eqn:Hfind.
    - unfold mbind, SE_bind, put_state, mret, SE_ret. destruct (negb _); [by eauto|].
      destruct (GetTaintEventID_dup e n (with_taint_events d (t_taint_events d) n) r Hfind) as (r' & Hget & _).
      eexists. by apply run_mq_ok.
    - unfold mbind, SE_bind, put_state, mret, SE_ret, Mysqlc.require. cbn [qt_RemoteID qt_RefID qt_ObservationID taint_params].
      rewrite Hrem, Href, Ho. cbn [andb].
      pose proof (next_id_lt (seq_taint_events d)) as Hlt. pose proof (mok_taint_seq _ _ Hok) as Hpos. fold n in Hlt.
      destruct (Z.eqb_spec n 0) as [E|_]; [fold d in Hpos; lia|]. cbn [negb]. by eauto. }
  exists (id, mkMysqlTx d' (MysqlTx.syncID t)). apply mon_q_ok. by exists d'.
Qed.

Lemma mysql_sync_refines (t : mysqlTx srv) s id t' :
  mysql_ok srv (MysqlTx.q t) → int32_ok (sy_TagsSeen s) → int32_ok (sy_TagsChanged s) → MysqlTx.WriteSync s t = Ok (id, t') →
  mysql_ok srv (MysqlTx.q t') ∧ MysqlTx.syncID t' = id ∧ write_sync_spec (db_abs (MysqlTx.q t)) s id (db_abs (MysqlTx.q t')).
Proof.
  intros Hok H1 H2 H. unfold MysqlTx.WriteSync in H.
  apply SE_bind_ok in H as (id' & t1 & (d1 & Hins & ->)%mon_q_ok & H). apply run_mq_ok in Hins.
  apply SE_bind_ok in H as (? & ? & [= <- <-] & H). apply SE_bind_ok in H as (? & ? & [= <- <-] & [= <- <-]).
  cbn [MysqlTx.q MysqlTx.syncID]. set (d := MysqlTx.q t) in *. clearbody d. unfold Mysqlc.InsertSync in Hins. mstep Hins.
  injection Hins as <- <-. rewrite sync_cells_params by done.
  destruct (sync_fresh d s (next_id srv (seq_syncs d)) (mok_db _ _ Hok) (next_id_lt _)) as [Hdb Hspec].
  split; [|split; [done|done]]. destruct Hok as [_ ? ? ? Hs ?]. split; try done.
  intros o Ho. destruct (Hs o Ho) as (s0 & Hs0 & E). exists s0. split; [|done]. cbn. rewrite fmap_app. apply elem_of_app. by left.
Qed.

Lemma mysql_sync_total (t : mysqlTx srv) s :
  is_Some (a_remotes (db_abs (MysqlTx.q t)) !! sy_RemoteID s) →
  sy_Trigger s ∈ [TriggerRegister; TriggerScheduled; TriggerManual] →
  sy_Status s ∈ [SyncOk; SyncPartial; SyncFailed] → text_fits srv (sy_Error s) = true →
  (length (sy_ChainHeadBefore s) ≤ 32)%nat → (length (sy_ChainHeadAfter s) ≤ 32)%nat →
  ∃ r, MysqlTx.WriteSync s t = Ok r.
Proof.
  intros Hrem%has_remote_abs Ht%in_list_elem Hs%in_list_elem Htext Hb Ha.
  unfold MysqlTx.WriteSync, Mysqlc.InsertSync, MysqlTx.on_q, run_mq, mbind, SE_bind, get_state, put_state, Mysqlc.require.
  cbn [qs_Error qs_ChainHeadBefore qs_ChainHeadAfter qs_Trigger qs_Status qs_RemoteID sync_params].
  rewrite Htext, !bytes_fit, !in_words_binary by done.
  change ["register"; "scheduled"; "manual"] with [TriggerRegister; TriggerScheduled; TriggerManual].
  change ["ok"; "partial"; "failed"] with [SyncOk; SyncPartial; SyncFailed].
  rewrite Ht, Hs, Hrem. cbn. eauto.
Qed.

(** The rows a prune deletes. *)
Lemma MPruneSyncs_eq rid keep d :
  0 ≤ keep → int32_ok keep →
  (existsb (λ s, (sr_RemoteID s =? rid) && negb (existsb (Z.eqb (sr_ID s)) (map sr_ID (LIMIT keep (newest_first d rid))))
      && negb (existsb (Z.eqb (sr_ID s)) (map or_SyncID (List.filter (λ o, or_RemoteID o =? rid) (t_observations d))))
      && existsb (λ o, or_SyncID o =? sr_ID s) (t_observations d)) (t_syncs d) = false ∧
   ∃ d', Mysqlc.PruneSyncs rid rid (int32 keep) rid d = Ok ((), d') ∧ Sqlc.PruneSyncs rid keep d = Ok ((), d')) ∨
  Mysqlc.PruneSyncs rid rid (int32 keep) rid d = Err RowIsReferenced.
Proof.
  intros Hk Hi. rewrite int32_id by done.
  unfold Mysqlc.PruneSyncs, Sqlc.PruneSyncs, mbind, SE_bind, get_state, put_state, Mysqlc.require, LIMIT.
  assert (0 <=? keep = true) as -> by lia. assert (keep <? 0 = false) as -> by lia.
  destruct (existsb _ (t_syncs d)) eqn:E; cbn [negb]; [by right|]. left. split; [done|]. eauto.
Qed.

Lemma mysql_prune_refines (t : mysqlTx srv) rid keep r t' :
  mysql_ok srv (MysqlTx.q t) → 0 ≤ keep → int32_ok keep → MysqlTx.PruneSyncs rid keep t = Ok (r, t') →
  mysql_ok srv (MysqlTx.q t') ∧ MysqlTx.syncID t' = MysqlTx.syncID t ∧ prune_spec (db_abs (MysqlTx.q t)) rid keep (db_abs (MysqlTx.q t')).
Proof.
  intros Hok Hk Hi (d' & H & ->)%mon_q_ok. apply run_mq_ok in H. cbn [MysqlTx.q MysqlTx.syncID].
  set (d := MysqlTx.q t) in *. clearbody d.
  destruct (MPruneSyncs_eq rid keep d Hk Hi) as [(Hnone & d1 & H1 & H2)|H1]; rewrite H1 in H; [|done]. injection H as _ <-.
  destruct (sqlite_prune_refines (mkSqliteTx d 0) rid keep () (mkSqliteTx d1 0) (mok_db _ _ Hok)) as (Hdb & _ & Hspec).
  { unfold SqliteTx.PruneSyncs, SqliteTx.on_q, run_with. cbn [SqliteTx.q]. by rewrite H2. }
  split; [|by split]. destruct Hok as [_ ? ? ? Hs ?]. injection H2 as <-. split; try done.
  intros o (row & -> & Hrow)%list_elem_of_fmap. destruct (Hs (observationFromRow row)) as (s0 & Hs0 & E); [by apply list_elem_of_fmap_2|].
  apply list_elem_of_fmap in Hs0 as (srow & -> & Hs0). exists (syncFromRow srow). split; [|done].
  apply list_elem_of_fmap_2, list_elem_of_In, filter_In. split; [by apply list_elem_of_In|].
  rewrite existsb_none in Hnone. specialize (Hnone srow Hs0). apply andb_false_iff in Hnone as [->|Hn]; [done|].
  exfalso. rewrite existsb_none in Hn. specialize (Hn row Hrow). cbn in E. rewrite E, Z.eqb_refl in Hn. done.
Qed.

Lemma mysql_prune_total (t : mysqlTx srv) rid keep :
  mysql_ok srv (MysqlTx.q t) → owner_ok (db_abs (MysqlTx.q t)) → 0 ≤ keep → int32_ok keep →
  ∃ r, MysqlTx.PruneSyncs rid keep t = Ok r.
Proof.
  intros Hok Hown Hk Hi. set (d := MysqlTx.q t) in *.
  assert (∃ d', Mysqlc.PruneSyncs rid rid (int32 keep) rid d = Ok ((), d')) as [d' Hd].
  { rewrite int32_id by done. unfold Mysqlc.PruneSyncs, mbind, SE_bind, get_state, put_state, Mysqlc.require.
    apply Z.leb_le in Hk as ->. destruct (existsb _ (t_syncs d)) eqn:E; cbn [negb]; [|by eauto]. exfalso.
    apply existsb_elem in E as (s & Hs & E). rewrite !andb_true_iff, !negb_true_iff in E.
    destruct E as [[[Hrid _] Hpin] Href]. apply existsb_elem in Href as (o & Ho & E%Z.eqb_eq).
    apply Z.eqb_eq in Hrid. pose proof (Hown (observationFromRow o) (syncFromRow s)) as Howner. cbn in Howner.
    rewrite <- not_true_iff_false in Hpin. apply Hpin, existsb_Zeqb, list_elem_of_fmap. exists o. split; [done|].
    apply list_elem_of_In, filter_In. split; [by apply list_elem_of_In|]. apply Z.eqb_eq.
    rewrite <- Hrid. symmetry. apply Howner; [by apply list_elem_of_fmap_2|by apply list_elem_of_fmap_2|done]. }
  exists ((), mkMysqlTx d' (MysqlTx.syncID t)). apply mon_q_ok. exists d'. split; [|done]. by apply run_mq_ok.
Qed.

#[global, refine] Instance mysql_tx_spec : TxSpec (mysqlTx srv) := {
  t_ok := λ t, mysql_ok srv (MysqlTx.q t);
  t_abs := λ t, db_abs (MysqlTx.q t);
  t_sync := MysqlTx.syncID;
  name_ok := λ n, varchar_fits srv 512 n = true;
  text_ok := λ s, text_fits srv s = true;
  count_ok := int32_ok;
}.
Proof.
  - apply binary_ok.
  - unfold int32_ok. lia.
  - intros t k r Hok (row & Hin & <- & _)%tmap_inv. pose proof (mok_names _ _ Hok) as Hn. rewrite Forall_forall in Hn.
    by apply Hn.
  - apply mysql_append_refines.
  - intros. by apply mysql_append_total.
  - apply mysql_upsert_refines.
  - intros. by apply mysql_upsert_total.
  - apply mysql_taint_refines.
  - intros. by apply mysql_taint_total.
  - apply mysql_sync_refines.
  - intros. by apply mysql_sync_total.
  - apply mysql_prune_refines.
  - intros. by apply mysql_prune_total.
Defined.

(** ** The store *)

Lemma on_db_ok {A} (m : SE db error A) (s : mysqlStore srv) a s' :
  on_db m s = Ok (a, s') ↔ ∃ d, m (sdb s) = Ok (a, d) ∧ s' = mkMysqlStore d.
Proof. unfold on_db. destruct (m (sdb s)) as [[a' d]|]; naive_solver. Qed.

Lemma find_remote_typed d id row :
  mysql_ok srv d → List.find (λ r, rr_ID r =? id) (t_remotes d) = Some row → typed_remote row.
Proof. intros Hok [Hin _]%find_row. pose proof (mok_remotes _ _ Hok) as Ht. rewrite Forall_forall in Ht. by apply Ht. Qed.

Lemma MGetRemote_spec (s : mysqlStore srv) id :
  mysql_ok srv (sdb s) → on_db (MysqlStore.GetRemote id) s = match a_remotes (db_abs (sdb s)) !! id with
                               | Some r => Ok (r, s)
                               | None => Err ErrNotFound
                               end.
Proof.
  intros Hok. rewrite db_remote_lookup. unfold on_db, MysqlStore.GetRemote, Mysqlc.GetRemote, mbind, SE_bind, run_mq, select_one.
  destruct (List.find _ _) as [row|] eqn:E; cbn; [|done]. rewrite typed_remote_read by (by eapply find_remote_typed). by destruct s.
Qed.

Lemma MGetChainHead_spec (s : mysqlStore srv) id :
  on_db (MysqlStore.GetChainHead id) s = match a_remotes (db_abs (sdb s)) !! id with
                                  | Some r => Ok ((rm_ChainHeadHash r, rm_ChainLen r), s)
                                  | None => Err ErrNotFound
                                  end.
Proof.
  rewrite db_remote_lookup. unfold on_db, MysqlStore.GetChainHead, Mysqlc.GetChainHead, run_mq, select_one.
  destruct (List.find _ _); cbn; [by destruct s|done].
Qed.

Lemma MGetRemoteByURL_spec (s : mysqlStore srv) u :
  mysql_ok srv (sdb s) → match on_db (MysqlStore.GetRemoteByURL srv u) s with
            | Ok (r, s') => s' = s ∧ a_remotes (db_abs (sdb s)) !! rm_ID r = Some r ∧
                            rm_NormalizedURL r = u ∧ rm_RemovedAtNS r = None
            | Err e => e = ErrNotFound ∧ ∀ id r, a_remotes (db_abs (sdb s)) !! id = Some r →
                         rm_NormalizedURL r = u → rm_RemovedAtNS r ≠ None
            end.
Proof.
  intros Hok. pose proof (GetRemoteByURL_spec (sdb s) u (mok_db _ _ Hok)) as Hs.
  unfold SqliteStore.GetRemoteByURL, Sqlc.GetRemoteByURL, mbind, SE_bind, run_with, one in Hs.
  unfold on_db, MysqlStore.GetRemoteByURL, Mysqlc.GetRemoteByURL, mbind, SE_bind, run_mq, select_one.
  rewrite (find_ext _ (λ r, String.eqb (rr_NormalizedUrl r) u && is_null (rr_RemovedAtNs r))) by (intros r; by rewrite binary_eq).
  destruct (List.find _ _) as [row|] eqn:E; cbn [fmap option_fmap option_map] in *; [|done]. cbn in Hs.
  apply find_row in E as [Hin _]. pose proof (mok_remotes _ _ Hok) as Ht. rewrite Forall_forall in Ht.
  unfold mret, SE_ret. rewrite typed_remote_read by (by apply Ht). destruct Hs as (_ & Hs). split; [by destruct s|done].
Qed.

Lemma MGetRef_spec (s : mysqlStore srv) rid name :
  mysql_ok srv (sdb s) → on_db (MysqlStore.GetRef srv rid name) s = match a_refs (db_abs (sdb s)) !! (rid, name) with
                                  | Some r => Ok (r, s)
                                  | None => Err ErrNotFound
                                  end.
Proof.
  intros Hok. rewrite db_ref_lookup. unfold on_db, MysqlStore.GetRef, Mysqlc.GetRef, mbind, SE_bind, run_mq, select_one.
  rewrite (find_ext _ _ _ (ref_named_binary rid name)). destruct (List.find _ _) as [row|] eqn:E; cbn; [|done].
  apply find_row in E as [Hin _]. pose proof (mok_refs _ _ Hok) as Ht. rewrite Forall_forall in Ht.
  rewrite typed_ref_read by (by apply Ht). by destruct s.
Qed.

Lemma MListTags_spec (s : mysqlStore srv) rid :
  mysql_ok srv (sdb s) → ∃ l, on_db (MysqlStore.ListTags srv rid) s = Ok (l, s) ∧ NoDup (rf_TagName <$> l) ∧
    (∀ r, r ∈ l ↔ a_refs (db_abs (sdb s)) !! (rid, rf_TagName r) = Some r).
Proof.
  intros Hok. destruct (ListTags_spec (sdb s) rid (mok_db _ _ Hok)) as (l & Hl & Hnd & Hin).
  unfold SqliteStore.ListTags, Sqlc.ListTags, gets, run_with, mbind, SE_bind, mret, SE_ret in Hl. injection Hl as Hl.
  set (rows := List.filter (λ r, fr_RemoteID r =? rid) (t_refs (sdb s))) in *.
  exists (map refFromMySQLRow (scan_ref <$> merge_sort (coll_order srv fr_TagName) rows)).
  split; [unfold on_db; by destruct s|].
  assert (map refFromMySQLRow (scan_ref <$> merge_sort (coll_order srv fr_TagName) rows) ≡ₚ l) as HP.
  { rewrite <- Hl. change (map refFromRow ?x) with (refFromRow <$> x). change (map refFromMySQLRow ?x) with (refFromMySQLRow <$> x).
    rewrite ORDER_BY_name_Permutation, merge_sort_Permutation, <- list_fmap_compose.
    erewrite list_fmap_ext; [done|]. intros i x Hx. cbn. apply typed_ref_read. pose proof (mok_refs _ _ Hok) as Ht.
    rewrite Forall_forall in Ht. apply Ht. apply list_elem_of_lookup_2, list_elem_of_In, filter_In in Hx as [Hx _]. by apply list_elem_of_In. }
  split; [by rewrite HP|]. intros r. rewrite HP. apply Hin.
Qed.

Lemma mysql_ok_remotes d l :
  mysql_ok srv d → db_ok (with_remotes d l) → Forall typed_remote l → mysql_ok srv (with_remotes d l).
Proof. intros [] ??. by split. Qed.

Lemma MSetRemoteHealth_spec (s : mysqlStore srv) now id status lastErr lastOk :
  mysql_ok srv (sdb s) → status ∈ [RemoteActive; RemoteDegraded; RemotePaused] → text_fits srv lastErr = true →
  ∃ s', on_db (MysqlStore.SetRemoteHealth srv now id status lastErr lastOk) s = Ok ((), s') ∧ mysql_ok srv (sdb s') ∧
    db_abs (sdb s') = with_a_remotes (db_abs (sdb s))
      (alter (λ r, set_health r status lastErr lastOk now) id (a_remotes (db_abs (sdb s)))).
Proof.
  intros Hok Hs Ht. destruct (SetRemoteHealth_spec (sdb s) now id status lastErr lastOk (mok_db _ _ Hok) Hs) as (d' & Hd & Hdb & Habs).
  apply in_list_elem in Hs. unfold SqliteStore.SetRemoteHealth, run_with, Sqlc.SetRemoteHealth, mbind, SE_bind, get_state, Sqlc.require, put_state in Hd.
  change ["active"; "degraded"; "paused"] with [RemoteActive; RemoteDegraded; RemotePaused] in Hd.
  rewrite Hs, orb_true_r in Hd. injection Hd as <-.
  eexists (mkMysqlStore _). split; [|split; [|exact Habs]].
  - apply on_db_ok. eexists. split; [|reflexivity].
    unfold MysqlStore.SetRemoteHealth, run_mq, Mysqlc.SetRemoteHealth, mbind, SE_bind, get_state, Mysqlc.require, put_state.
    rewrite Ht, in_words_binary. change ["active"; "degraded"; "paused"] with [RemoteActive; RemoteDegraded; RemotePaused].
    rewrite Hs, !orb_true_r. reflexivity.
  - cbn [sdb]. apply mysql_ok_remotes; [done|done|]. unfold UPDATE. apply Forall_map.
    eapply Forall_impl; [apply (mok_remotes _ _ Hok)|]. intros r Hr. destruct (_ =? _); [|done].
    unfold typed_remote, remote_cells, scan_remote in *. destruct r. cbn in *. injection Hr as H1 H2. by rewrite H1, H2.
Qed.

(** The guarded assignments of the lease upsert are the guarded update of SQLite. *)
Lemma upsertLease_same rid holder now expires d :
  UPDATE (λ l, lr_RemoteID l =? rid)
    (λ l, mkLeaseRow (lr_RemoteID l) (if lr_ExpiresAtNs l <? now then holder else lr_Holder l)
       (if lr_ExpiresAtNs l <? now then now else lr_AcquiredAtNs l)
       (if lr_ExpiresAtNs l <? now then expires else lr_ExpiresAtNs l)) (t_remote_lease d) =
  UPDATE (λ l, (lr_RemoteID l =? rid) && (lr_ExpiresAtNs l <? now)) (λ _, mkLeaseRow rid holder now expires) (t_remote_lease d).
Proof.
  apply map_ext. intros l. destruct (Z.eqb_spec (lr_RemoteID l) rid) as [<-|]; [|done].
  destruct (lr_ExpiresAtNs l <? now); [done|]. by destruct l.
Qed.

Lemma upsertLeaseMySQL_ok rid holder now expires d r :
  upsertLeaseMySQL srv rid holder now expires now d = Ok r ↔
  varchar_fits srv 255 holder = true ∧ r.1 = () ∧ ∃ n, upsertLease rid holder now expires now d = Ok (n, r.2).
Proof.
  destruct r as [[] d']. unfold upsertLeaseMySQL, upsertLease, mbind, SE_bind, get_state, put_state, Mysqlc.require, Sqlc.require.
  destruct (varchar_fits srv 255 holder); [|by split; [|intros [? _]]]. rewrite upsertLease_same. cbn [fst snd].
  destruct (List.find _ _); [|destruct (has_remote d rid)]; cbn.
  - split; [intros [= <-]; eauto|]. by intros (_ & _ & n & [= _ <-]).
  - split; [intros [= <-]; eauto|]. by intros (_ & _ & n & [= _ <-]).
  - split; [done|]. by intros (_ & _ & n & ?).
Qed.

Lemma upsertLease_tables rid holder now expires d n d' :
  upsertLease rid holder now expires now d = Ok (n, d') →
  ∃ l, d' = with_lease d l.
Proof.
  unfold upsertLease, mbind, SE_bind, get_state, put_state, Sqlc.require.
  destruct (List.find _ _); [intros [= _ <-]; by eexists|]. destruct (has_remote d rid); [|done]. intros [= _ <-]. by eexists.
Qed.

Lemma mysql_ok_lease d l : mysql_ok srv d → db_ok (with_lease d l) → mysql_ok srv (with_lease d l).
Proof. intros [] ?. by split. Qed.

Lemma mysql_acquire_refines (s : mysqlStore srv) rid holder now expires r s' :
  mysql_ok srv (sdb s) → on_db (MysqlStore.TryAcquireLease srv rid holder now expires) s = Ok (r, s') →
  mysql_ok srv (sdb s') ∧ acquire_spec true (db_abs (sdb s)) rid holder now expires r (db_abs (sdb s')).
Proof.
  intros Hok (d' & H & ->)%on_db_ok. set (d := sdb s) in *. clearbody d. cbn [sdb]. unfold MysqlStore.TryAcquireLease in H.
  apply SE_bind_ok in H as (hd & d1 & (row & Hrow & [= -> ->])%run_mq_ok%MGetRemoteChainHead_ok & H).
  apply SE_bind_ok in H as ([] & d2 & (_ & _ & n & Hup)%run_mq_ok%upsertLeaseMySQL_ok & H). cbn in Hup.
  apply SE_bind_ok in H as (l & d3 & (lrow & Hl & [= -> ->])%run_mq_ok%MGetRemoteLease_ok & [= <- <-]).
  destruct (upsertLease_tables _ _ _ _ _ _ _ Hup) as [rows ->].
  apply upsertLease_spec in Hup as [Hdb Hcase]; [|apply Hok].
  split; [by apply mysql_ok_lease|]. exists (remoteFromRow row). rewrite db_remote_lookup, Hrow. split; [done|].
  pose proof (lease_lookup (with_lease d rows) rid) as Hll. rewrite Hl in Hll. cbn [fmap option_fmap option_map] in Hll.
  assert (∀ a, a_leases a !! rid = Some (mkAbsLease holder now expires) → db_abs (with_lease d rows) = a →
    lr_Holder lrow = holder ∧ lr_ExpiresAtNs lrow = expires) as Hmine.
  { intros a Ha Heq. rewrite Heq, Ha in Hll. by injection Hll as <- _ <-. }
  destruct (a_leases (db_abs d) !! rid) as [l|] eqn:Ho; [destruct (al_expires l <? now) eqn:Ee|].
  - destruct Hcase as [_ Heq]. rewrite Heq. destruct (Hmine _ (lookup_insert_eq _ _ _) Heq) as [-> ->].
    by rewrite String.eqb_refl, Z.eqb_refl.
  - destruct Hcase as [_ Heq]. rewrite Heq. split; [done|]. rewrite Heq, Ho in Hll. injection Hll as ->.
    destruct (String.eqb_spec (lr_Holder lrow) holder), (Z.eqb_spec (lr_ExpiresAtNs lrow) expires); cbn; auto.
  - destruct Hcase as [_ Heq]. rewrite Heq. destruct (Hmine _ (lookup_insert_eq _ _ _) Heq) as [-> ->].
    by rewrite String.eqb_refl, Z.eqb_refl.
Qed.

Lemma mysql_acquire_total (s : mysqlStore srv) rid holder now expires :
  mysql_ok srv (sdb s) → is_Some (a_remotes (db_abs (sdb s)) !! rid) → varchar_fits srv 255 holder = true →
  ∃ r, on_db (MysqlStore.TryAcquireLease srv rid holder now expires) s = Ok r.
Proof.
  intros Hok Hrem Hfit. destruct (sqlite_acquire_total (sdb s) rid holder now expires Hrem) as [[r d'] H].
  unfold SqliteStore.TryAcquireLease in H.
  apply SE_bind_ok in H as (hd & d1 & (row & Hrow & [= -> ->])%run_with_ok%GetRemoteChainHead_ok & H).
  apply SE_bind_ok in H as (n & d2 & Hup%run_with_ok & [= _ _]).
  pose proof (upsertLease_spec _ _ _ _ _ _ _ (mok_db _ _ Hok) Hup) as [_ Hcase].
  assert (is_Some (a_leases (db_abs d2) !! rid)) as [al Hal].
  { destruct (a_leases (db_abs (sdb s)) !! rid) as [l|] eqn:E; [destruct (al_expires l <? now)|]; destruct Hcase as [_ ->]; cbn;
      rewrite ?lookup_insert_eq, ?E; eauto. }
  rewrite lease_lookup in Hal. destruct (List.find _ (t_remote_lease d2)) as [lrow|] eqn:Hl; [|done].
  eexists (_, _). apply on_db_ok. eexists. split; [|reflexivity]. unfold MysqlStore.TryAcquireLease.
  apply SE_bind_ok. eexists _, (sdb s). split; [apply run_mq_ok, MGetRemoteChainHead_ok; eauto|].
  apply SE_bind_ok. exists (), d2. split; [apply run_mq_ok, upsertLeaseMySQL_ok; eauto|].
  apply SE_bind_ok. exists lrow, d2. split; [|reflexivity]. apply run_mq_ok, MGetRemoteLease_ok. eauto.
Qed.

Lemma bytesEqual_same a b : MysqlStore.bytesEqual a b = SqliteStore.bytesEqual a b.
Proof. revert b. by induction a as [|x a IH]; intros [|y b]; cbn; rewrite ?IH. Qed.

Lemma MDelete_eq rid holder d : run_m (Mysqlc.DeleteRemoteLease srv rid holder) d = run_q (Sqlc.DeleteRemoteLease rid holder) d.
Proof.
  unfold run_mq, run_with, Mysqlc.DeleteRemoteLease, Sqlc.DeleteRemoteLease, mbind, SE_bind, get_state, put_state.
  do 3 f_equal. apply filter_ext. intros l. by rewrite binary_eq.
Qed.

(** A release MySQL grants is one SQLite grants; MySQL also wants the lease to be the
    holder's, and the new head to fit. *)
Lemma MRelease_ok rid holder witness newHead newLen d d' :
  mysql_ok srv d → MysqlStore.ReleaseLeaseCAS srv rid holder witness newHead newLen d = Ok ((), d') →
  SqliteStore.ReleaseLeaseCAS rid holder witness newHead newLen d = Ok ((), d') ∧ Forall typed_remote (t_remotes d') ∧
  t_refs d' = t_refs d ∧ t_observations d' = t_observations d ∧ t_syncs d' = t_syncs d ∧ seq_taint_events d' = seq_taint_events d.
Proof.
  intros Hok H. unfold MysqlStore.ReleaseLeaseCAS in H.
  apply SE_bind_ok in H as (lrow & d1 & (x & Hl & [= -> ->])%run_mq_ok%MGetRemoteLease_ok & H). destruct (negb _); [done|].
  apply SE_bind_ok in H as (hd & d2 & (row & Hrow & [= -> ->])%run_mq_ok%MGetRemoteChainHead_ok & H). cbn [fst snd] in H.
  apply SE_bind_ok in H as ([] & d3 & Hmid & H). rewrite MDelete_eq in H. rewrite (bytesEqual_same _ witness), (bytesEqual_same _ newHead) in Hmid.
  assert ((if SqliteStore.bytesEqual (rr_ChainHeadHash row) witness then
     (rows ← run_q (Sqlc.AdvanceRemoteChainHead newHead newLen rid witness (rr_ChainLen row));
     if rows =? 1 then mret () else throw ErrChainCAS)
   else if SqliteStore.bytesEqual (rr_ChainHeadHash row) newHead then mret ()
   else throw ErrChainCAS) d = Ok ((), d3) ∧ Forall typed_remote (t_remotes d3) ∧ t_refs d3 = t_refs d ∧
   t_observations d3 = t_observations d ∧ t_syncs d3 = t_syncs d ∧ seq_taint_events d3 = seq_taint_events d) as (Hmid' & Hkeep).
  { destruct (SqliteStore.bytesEqual _ witness).
    - apply SE_bind_ok in Hmid as (rows & d4 & Hadv%run_mq_ok%Advance_ok & Hmid).
      pose proof (Advance_typed _ _ _ _ _ _ _ _ Hadv (mok_remotes _ _ Hok)) as Hk.
      destruct (rows =? 1) eqn:E; [|done]. injection Hmid as <-. split; [|done].
      apply SE_bind_ok. exists rows, d4. split; [by apply run_with_ok|]. by rewrite E.
    - destruct (SqliteStore.bytesEqual _ newHead); [|done]. injection Hmid as <-. split; [done|]. split; [apply Hok|done]. }
  injection H as <-. cbn [t_remotes t_refs t_observations t_syncs seq_taint_events with_lease]. split; [|done].
  unfold SqliteStore.ReleaseLeaseCAS. apply SE_bind_ok. eexists _, d. split; [apply run_with_ok, GetRemoteChainHead_ok; eauto|].
  cbn [fst snd]. apply SE_bind_ok. exists (), d3. split; [exact Hmid'|done].
Qed.

Lemma mysql_release_refines (s : mysqlStore srv) rid holder witness newHead newLen s' :
  mysql_ok srv (sdb s) → on_db (MysqlStore.ReleaseLeaseCAS srv rid holder witness newHead newLen) s = Ok ((), s') →
  mysql_ok srv (sdb s') ∧ release_spec (db_abs (sdb s)) rid holder witness newHead newLen (db_abs (sdb s')).
Proof.
  intros Hok (d' & H & ->)%on_db_ok. destruct (MRelease_ok _ _ _ _ _ _ _ Hok H) as (H' & Ht & Hr & Ho & Hs & Hn).
  apply sqlite_release_refines in H' as [Hdb Hspec]; [|apply Hok]. split; [|done]. cbn [sdb].
  split; [done|done| | | |by rewrite Hn; apply Hok].
  - rewrite Hr. apply Hok.
  - rewrite Hr. apply Hok.
  - eapply syncs_ok_tables; [done|done|]. apply Hok.
Qed.

Lemma mysql_release_total (s : mysqlStore srv) rid holder witness newHead newLen rem l :
  mysql_ok srv (sdb s) → a_remotes (db_abs (sdb s)) !! rid = Some rem → a_leases (db_abs (sdb s)) !! rid = Some l →
  al_holder l = holder → rm_ChainHeadHash rem = witness ∨ rm_ChainHeadHash rem = newHead → (length newHead ≤ 32)%nat →
  ∃ r, on_db (MysqlStore.ReleaseLeaseCAS srv rid holder witness newHead newLen) s = Ok r.
Proof.
  intros Hok Hrem Hl Hh Hcase Hlen. rewrite db_remote_lookup in Hrem. rewrite lease_lookup in Hl.
  destruct (List.find _ (t_remotes (sdb s))) as [row|] eqn:Hrow; [|done]. cbn in Hrem. injection Hrem as <-. cbn in Hcase.
  destruct (List.find _ (t_remote_lease (sdb s))) as [lrow|] eqn:Hlrow; [|done]. cbn in Hl. injection Hl as <-. cbn in Hh.
  assert (∃ d3, (if MysqlStore.bytesEqual (rr_ChainHeadHash row) witness then
     (rows ← run_m (Mysqlc.AdvanceRemoteChainHead newHead newLen rid witness (rr_ChainLen row));
     if rows =? 1 then mret () else throw ErrChainCAS)
   else if MysqlStore.bytesEqual (rr_ChainHeadHash row) newHead then mret ()
   else throw ErrChainCAS) (sdb s) = Ok ((), d3)) as [d3 Hmid].
  { rewrite (bytesEqual_same _ witness), (bytesEqual_same _ newHead). destruct (SqliteStore.bytesEqual _ witness) eqn:E.
    - apply bytesEqual_spec in E as <-.
      destruct (AdvanceRemoteChainHead_same (sdb s) rid row newHead newLen (mok_db _ _ Hok) Hrow) as (d1 & Hadv & _).
      exists d1. apply SE_bind_ok. exists 1, d1. split; [|done]. apply run_mq_ok. by apply Advance_fits.
    - rewrite <- not_true_iff_false, bytesEqual_spec in E. destruct Hcase as [?|Hn]; [done|].
      apply bytesEqual_spec in Hn as ->. by eexists. }
  eexists ((), _). apply on_db_ok. eexists. split; [|reflexivity]. unfold MysqlStore.ReleaseLeaseCAS.
  apply SE_bind_ok. exists lrow, (sdb s). split; [apply run_mq_ok, MGetRemoteLease_ok; eauto|].
  rewrite Hh, String.eqb_refl. cbn [negb].
  apply SE_bind_ok. eexists _, (sdb s). split; [apply run_mq_ok, MGetRemoteChainHead_ok; eauto|]. cbn [fst snd].
  apply SE_bind_ok. exists (), d3. split; [exact Hmid|]. rewrite MDelete_eq. reflexivity.
Qed.

Lemma rolled_back_ok d : mysql_ok srv d → mysql_ok srv (rolled_back (srv := srv) d) ∧ db_abs (rolled_back (srv := srv) d) = db_abs d.
Proof.
  intros [[? Hr ? Hf ? [Hp Hs] ? ?] ? ? ? ? Ht]. pose proof (srv_lost _ binary_ok) as Hlost.
  assert (∀ A (f : A → Z) n l, Forall (λ x, f x ≤ n) l → Forall (λ x, f x ≤ n + lost srv n) l) as Hmono.
  { intros A f n l Hl. eapply Forall_impl; [exact Hl|]. cbn. intros x. specialize (Hlost n). lia. }
  split; [|done]. split; [split|..]; cbn; try done; [by apply Hmono..| |].
  - specialize (Hlost (seq_syncs d)). split; [lia|]. by apply Hmono.
  - specialize (Hlost (seq_taint_events d)). lia.
Qed.

Lemma mysql_with_tx_spec (s : mysqlStore srv) :
  mysql_ok srv (sdb s) → ∃ t0 : mysqlTx srv, mysql_ok srv (MysqlTx.q t0) ∧ db_abs (MysqlTx.q t0) = db_abs (sdb s) ∧ MysqlTx.syncID t0 = 0 ∧
    ∀ A (fn : SE (mysqlTx srv) error A),
      match fn t0 with
      | Err e => ∃ s', st_WithTx fn s = (Err e, s') ∧ mysql_ok srv (sdb s') ∧ db_abs (sdb s') = db_abs (sdb s)
      | Ok (a, t) => mysql_ok srv (MysqlTx.q t) →
          (syncs_ok (db_abs (MysqlTx.q t)) ∧ ∃ s', st_WithTx fn s = (Ok a, s') ∧ mysql_ok srv (sdb s') ∧ db_abs (sdb s') = db_abs (MysqlTx.q t)) ∨
          (¬ syncs_ok (db_abs (MysqlTx.q t)) ∧ ∃ e s', st_WithTx fn s = (Err e, s') ∧ mysql_ok srv (sdb s') ∧ db_abs (sdb s') = db_abs (sdb s))
      end.
Proof.
  intros Hok. exists (mkMysqlTx (sdb s) 0). split_and!; [done..|]. intros A fn. cbn [st_WithTx mysql_store]. unfold MysqlTx.WithTx.
  destruct (fn _) as [[a t]|e].
  - intros Ht. left. split; [apply Ht|]. by eexists.
  - destruct (rolled_back_ok _ Hok) as [? ?]. by eexists.
Qed.

#[global, refine] Instance mysql_store_spec : StoreSpec (mysqlStore srv) (mysqlTx srv) := {
  s_ok := λ s, mysql_ok srv (sdb s);
  s_abs := λ s, db_abs (sdb s);
  regrants := true;
  holder_ok := λ h, varchar_fits srv 255 h = true;
}.
Proof.
  - apply MGetRemote_spec.
  - apply MGetRemoteByURL_spec.
  - apply MGetRef_spec.
  - apply MListTags_spec.
  - intros s id _. apply MGetChainHead_spec.
  - apply MSetRemoteHealth_spec.
  - apply mysql_acquire_refines.
  - apply mysql_acquire_total.
  - apply mysql_release_refines.
  - apply mysql_release_total.
  - apply mysql_with_tx_spec.
Defined.
End binary.
