(* ===== verification/MysqlProps.v ===== *)
(** The properties of the MySQL store: the sync theorem carries over to a server that
    compares texts byte by byte, and what a server with another collation, a narrow
    count or two workers at once does. *)
From S2P Require Import Prelude GoStrings Sha256 Model Chain SyncDiff Sqlc StoreSpec SqliteStore SqliteTx SqliteSpec.
From S2P Require Import Lock SyncRemote SyncCorrect SyncProps Mysqlc MysqlStore MysqlTx MysqlSpec.
#[local] Open Scope Z_scope.

(** * Sample servers *)

Definition sample_server (eq : string → string → bool) : server :=
  mkServer eq (λ a b, negb (string_lt b a)) (λ n s, (String.length s <=? n)%nat) (λ s, len s <=? 65535)
    (λ _, 1) (λ _, 0) (λ _, 3).

(** A server whose databases have a binary default collation. *)
Definition binary_server : server := sample_server String.eqb.

(** On ASCII texts the default collation of MySQL 8, utf8mb4_0900_ai_ci, does not see case. *)
Definition default_server : server := sample_server EqualFold.

#[global] Instance binary_server_binary : BinaryServer binary_server.
Proof. split; [|done]. split; [cbn; lia..|by left|done|apply String.eqb_refl]. Qed.

(** The store is one the program can have written. *)
Definition mysql_good {srv} (s : mysqlStore srv) : Prop := mysql_ok srv (sdb s) ∧ good (db_abs (sdb s)).

Lemma mysql_sample_ok srv : mysql_ok srv sample_db.
Proof.
  split; [apply sample_db_good|..]; try apply Forall_nil; cbn; try done.
  - repeat constructor.
  - intros o Ho. by apply elem_of_nil in Ho.
Qed.

Lemma mysql_sample_good srv : mysql_good (srv := srv) (mkMysqlStore sample_db).
Proof. split; [apply mysql_sample_ok|apply sample_db_good]. Qed.

(** * Properties *)

(** C18. The second backend keeps the promise of the first: on a server that compares texts
    byte by byte, with tag names and the lease holder within their columns and the
    number of tags within 32 bits, a sync on MySQL succeeds with the effect a sync has on
    SQLite, whatever ids the server draws. *)
Theorem mysql_sync_success srv `{BinaryServer srv} LsRemote error_text range holder rd rid (s : mysqlStore srv) rem lsRefs :
  mysql_good s → a_remotes (db_abs (sdb s)) !! rid = Some rem → lease_free (db_abs (sdb s)) rid (rd_lease rd) →
  LsRemote (rm_URL rem) = Ok lsRefs → Forall ls_wf lsRefs → NoDup (ls_Name <$> lsRefs) →
  (∀ m, range m ≡ₚ map_to_list m) →
  varchar_fits srv 255 holder = true → Forall (λ n, varchar_fits srv 512 n = true) (ls_Name <$> lsRefs) →
  Z.of_nat (length lsRefs) < 2^31 →
  ∃ syncID n s' rem' prior a',
    SyncRemote LsRemote error_text range holder rd rid s =
      (Some (mkSyncResult syncID SyncOk (Z.of_nat (length lsRefs)) n (rm_ChainHeadHash rem) (rm_ChainHeadHash rem')),
       None, s') ∧
    mysql_good s' ∧ tags_of (db_abs (sdb s)) rid prior ∧
    sync_effect rid syncID (rd_tx rd) (rm_TaintAnyTagDeletion rem) prior lsRefs (db_abs (sdb s)) a' n ∧
    a_remotes a' !! rid = Some rem' ∧
    db_abs (sdb s') = mkAbs (alter (λ r, set_health r RemoteActive "" (rd_end rd) (rd_wall rd)) rid (a_remotes a'))
      (a_refs a') (a_obs a') (a_events a') (a_syncs a') (delete rid (a_leases (db_abs (sdb s)))).
Proof.
  intros [Hok Hgood] Hrem Hfree Hls Hwf Hnd Hrange Hholder Hnames Hcount.
  destruct (SyncRemote_run LsRemote error_text range holder rd rid s rem lsRefs)
    as (syncID & n & s' & rem' & prior & a' & Hrun & Hok' & Hgood' & Hprior & Heff & Hrem' & Habs); try done.
  { split; [exact Hnames|]. cbn. unfold int32_ok. lia. }
  exists syncID, n, s', rem', prior, a'. by split_and!.
Qed.

Lemma mysql_sync_success_witness :
  ∃ res s', SyncRemote (λ _, Ok (listing oid_a)) no_text map_to_list "w" (sample_readings 5) 1
      (mkMysqlStore sample_db : mysqlStore binary_server) = (Some res, None, s') ∧ sr_TagsSeen res = 1.
Proof.
  destruct (mysql_sync_success binary_server (λ _, Ok (listing oid_a)) no_text map_to_list "w" (sample_readings 5) 1
    (mkMysqlStore sample_db) sample_remote (listing oid_a)) as (syncID & n & s' & rem' & prior & a' & Hrun & _).
  - apply mysql_sample_good.
  - vm_compute. reflexivity.
  - intros l Hl. vm_compute in Hl. discriminate Hl.
  - reflexivity.
  - apply listing_wf, oid_a_wf.
  - apply listing_wf, oid_a_wf.
  - reflexivity.
  - reflexivity.
  - repeat constructor.
  - vm_compute. reflexivity.
  - eexists _, s'. split; [exact Hrun|reflexivity].
Defined.

(** A tag, the same tag moved, then a second tag whose name differs in case only.  Git
    lists in byte order, upper case first. *)
Definition laundering : list (list LsRemoteRef) :=
  [[mkLsRef "V1" oid_a zeroOID false]; [mkLsRef "V1" oid_b zeroOID false];
   [mkLsRef "V1" oid_b zeroOID false; mkLsRef "v1" oid_b zeroOID false]].

(** The tables after syncing the listings one after the other. *)
Definition synced_mysql (srv : server) (listings : list (list LsRemoteRef)) : db :=
  (foldl (λ '(t, d) l, (t + 400000000000,
     sdb (SyncRemote (T := mysqlTx srv) (λ _, Ok l) no_text map_to_list "w" (sample_readings t) 1 (mkMysqlStore d)).2))
   (5, sample_db) listings).2.
Definition synced_sqlite (listings : list (list LsRemoteRef)) : db :=
  (foldl (λ '(t, d) l, (t + 400000000000, synced l t d)) (5, sample_db) listings).2.

Definition taint_of (d : db) (name : string) : option bool := rf_Tainted <$> a_refs (db_abs d) !! (1, name).

(** On the default collation of MySQL 8 a taint can be laundered: names that differ in
    case share a row, so once a moved tag is tainted, a new tag of the same name in
    another case, listed after it, is written over it as freshly created and the row is
    clean again.  SQLite, and MySQL with a binary collation, keep the taint. *)
Theorem mysql_taint_laundered :
  (taint_of (synced_mysql default_server (take 2 laundering)) "V1" = Some true ∧
   taint_of (synced_mysql default_server laundering) "V1" = Some false) ∧
  taint_of (synced_mysql binary_server laundering) "V1" = Some true ∧
  taint_of (synced_sqlite laundering) "V1" = Some true.
Proof. vm_compute. done. Qed.

(** On the same collation a tag that never moved gets a taint event: two tags whose
    names differ in case, synced twice without any change, leave a recorded move
    between their ids. *)
Theorem mysql_case_false_event :
  let l := [mkLsRef "V1" oid_a zeroOID false; mkLsRef "v1" oid_b zeroOID false] in
  (λ e, (te_Reason e, te_FromOID e, te_ToOID e)) <$> a_events (db_abs (synced_mysql default_server [l; l])) =
    [(TaintTagOIDChanged, oid_b, oid_a)] ∧
  a_events (db_abs (synced_mysql binary_server [l; l])) = [] ∧ a_events (db_abs (synced_sqlite [l; l])) = [].
Proof. vm_compute. done. Qed.

Lemma fmap_typed_remotes srv d l :
  mysql_ok srv d → (∀ r, r ∈ l → r ∈ t_remotes d) →
  map remoteFromMySQLRow (scan_remote <$> l) = map remoteFromRow l ∧
  ∀ n, foldl (λ next r, if next <? qr_ID r then qr_ID r else next) n (scan_remote <$> l) =
       foldl (λ next r, if next <? rr_ID r then rr_ID r else next) n l.
Proof.
  intros Hok. pose proof (mok_remotes _ _ Hok) as Ht. rewrite Forall_forall in Ht.
  induction l as [|r l IH]; intros Hl; [done|]. destruct IH as [IH1 IH2]; [intros x Hx; apply Hl; by right|].
  split; [|intros n; apply IH2]. cbn. rewrite typed_remote_read by (apply Ht, Hl; left). f_equal. exact IH1.
Qed.

Lemma elem_of_page {A} (key : A → Z) (c : A → bool) n l r :
  r ∈ take n (ORDER_BY key (List.filter c l)) → r ∈ l.
Proof.
  intros (i & Hi & _)%elem_of_take. apply list_elem_of_lookup_2 in Hi. rewrite ORDER_BY_Permutation in Hi.
  apply list_elem_of_In, filter_In in Hi as [Hi _]. by apply list_elem_of_In.
Qed.

Lemma select_limit_eq {A} limit (f : db → list A) d :
  select_limit limit f d = if 0 <=? limit then Ok (take (Z.to_nat limit) (f d), d) else Err WrongArguments.
Proof. unfold select_limit, mbind, SE_bind, Mysqlc.require. by destruct (0 <=? limit). Qed.

(** The page size on MySQL is a 32-bit number: below 2^31 the page of remotes and its
    cursor are those of SQLite; from there to 2^32 the query is refused, and at 2^32 the
    page is empty.  (The handlers ask for at most 1000.) *)
Theorem mysql_page_bounds srv limit cursor d :
  mysql_ok srv d →
  (limit < 2^31 → MysqlStore.ListRemotes limit cursor d = SqliteStore.ListRemotes limit cursor d) ∧
  (2^31 ≤ limit < 2^32 → MysqlStore.ListRemotes limit cursor d = Err ErrSQL) ∧
  (limit = 2^32 → MysqlStore.ListRemotes limit cursor d = Ok (([], 0), d)).
Proof.
  intros Hok. unfold MysqlStore.ListRemotes, SqliteStore.ListRemotes, Mysqlc.ListRemotes, Sqlc.ListRemotes, gets.
  unfold mbind, SE_bind, run_mq, run_with. split_and!.
  - intros Hlt. set (n := if limit <=? 0 then 100 else limit).
    assert (0 < n ∧ int32 n = n) as [Hn ->].
    { unfold n. destruct (Z.leb_spec limit 0); [done|]. split; [lia|]. apply int32_id. unfold int32_ok. lia. }
    rewrite select_limit_eq. assert (0 <=? n = true) as -> by lia. unfold LIMIT. assert (n <? 0 = false) as -> by lia.
    rewrite <- fmap_take.
    destruct (fmap_typed_remotes srv d (take (Z.to_nat n) (ORDER_BY rr_ID (List.filter (λ r, cursor <? rr_ID r) (t_remotes d)))) Hok) as [H1 H2];
      [intros r; apply elem_of_page|]. unfold mret, SE_ret. by rewrite H1, H2.
  - intros Hlt. assert (limit <=? 0 = false) as -> by lia. rewrite select_limit_eq.
    assert (int32 limit < 0) as Hneg by (unfold int32; rewrite <- (Z_mod_plus_full _ (-1)), Z.mod_small; lia).
    by assert (0 <=? int32 limit = false) as -> by lia.
  - intros ->. rewrite select_limit_eq. reflexivity.
Qed.

Lemma mysql_page_bounds_witness :
  MysqlStore.ListRemotes 1000 0 sample_db = SqliteStore.ListRemotes 1000 0 sample_db ∧
  MysqlStore.ListRemotes (2^31) 0 sample_db = Err ErrSQL ∧ MysqlStore.ListRemotes (2^32) 0 sample_db = Ok (([], 0), sample_db).
Proof.
  split; [|split].
  - apply (mysql_page_bounds binary_server 1000 0 sample_db); [apply mysql_sample_ok|lia].
  - apply (mysql_page_bounds binary_server (2^31) 0 sample_db); [apply mysql_sample_ok|lia].
  - apply (mysql_page_bounds binary_server (2^32) 0 sample_db); [apply mysql_sample_ok|lia].
Defined.

(** An active remote. *)
Definition pollable (r : RemoteRow) : bool := String.eqb (rr_Status r) "active" && is_null (rr_RemovedAtNs r).

(** The query for due remotes on MySQL: while the next due time of every active remote
    is a 64-bit number it returns the remotes SQLite would; one active remote
    whose last success plus interval passes 2^63 makes it fail for all of them, at any
    time and batch size.  (The interval a client may set has a floor and no ceiling.) *)
Theorem mysql_due_bounds srv `{BinaryServer srv} now limit d :
  mysql_ok srv d → 0 ≤ limit < 2^31 →
  ((∀ r, r ∈ t_remotes d → pollable r = true → int64_ok (next_due r)) →
   MysqlStore.SelectDueRemotes srv now limit d = SqliteStore.SelectDueRemotes now limit d) ∧
  (∀ r, r ∈ t_remotes d → pollable r = true → ¬ int64_ok (next_due r) →
   MysqlStore.SelectDueRemotes srv now limit d = Err ErrSQL).
Proof.
  intros Hok Hlim. unfold MysqlStore.SelectDueRemotes, SqliteStore.SelectDueRemotes, Mysqlc.SelectDueRemotes, Sqlc.SelectDueRemotes, gets.
  unfold mbind, SE_bind, run_mq, run_with, get_state, Mysqlc.require. rewrite int32_id by (unfold int32_ok; lia).
  assert (0 <=? limit = true) as -> by lia.
  assert (∀ l, List.filter (λ r, coll_eq srv (rr_Status r) "active" && is_null (rr_RemovedAtNs r)) l = List.filter pollable l) as ->
    by (intros l; apply filter_ext; intros r; by rewrite binary_eq).
  assert (∀ r, in_bigint (next_due r) = true ↔ int64_ok (next_due r)) as Hbig
    by (intros r; unfold in_bigint, int64_ok; rewrite andb_true_iff, Z.leb_le, Z.ltb_lt; tauto).
  split.
  - intros Hall. assert (forallb (λ r, in_bigint (next_due r)) (List.filter pollable (t_remotes d)) = true) as ->.
    { apply forallb_forall. intros r [Hr Hp]%filter_In. apply Hbig, Hall; [by apply list_elem_of_In|done]. }
    assert (List.filter (λ r, next_due r <? now) (List.filter pollable (t_remotes d)) =
      List.filter (λ r, String.eqb (rr_Status r) "active" && is_null (rr_RemovedAtNs r) && (next_due r <? now)) (t_remotes d)) as ->.
    { clear. induction (t_remotes d) as [|r l IH]; [done|]. cbn. change (pollable r) with (String.eqb (rr_Status r) "active" && is_null (rr_RemovedAtNs r)).
      rewrite <- IH. destruct (_ && _); cbn; [|done]. by destruct (next_due r <? now). }
    unfold LIMIT. assert (limit <? 0 = false) as -> by lia. unfold mret, SE_ret.
    by edestruct (fmap_typed_remotes srv d) as [-> _]; [done|intros r; apply elem_of_page|].
  - intros r Hr Hp Hbad. destruct (forallb _ _) eqn:E; [|done]. exfalso. apply Hbad, Hbig. rewrite forallb_forall in E.
    apply E, filter_In. split; [by apply list_elem_of_In|done].
Qed.

(** The sample remote, polled once, with the longest interval a client can ask for. *)
Definition slow_remote : Remote :=
  mkRemote 1 "https://h/r.git" "https://h/r" TransportHTTPS (2^63 - 1) 0 true None RemoteActive 5 "" 0 genesis_head 0 None 1 1.
Definition slow_db : db := with_remotes (mkDb [] [] [] [] [] [] 1 0 0 0 0) [remote_row slow_remote 1].

Lemma slow_db_ok srv : mysql_ok srv slow_db.
Proof.
  split; [split; cbn; repeat constructor; try done; by intros ?%elem_of_nil|..]; try apply Forall_nil; cbn; try done; [by repeat constructor|].
  by intros o ?%elem_of_nil.
Qed.

Lemma mysql_due_bounds_witness :
  MysqlStore.SelectDueRemotes binary_server 1700000000000000000 4 slow_db = Err ErrSQL ∧
  MysqlStore.SelectDueRemotes binary_server 1700000000000000000 4 sample_db = SqliteStore.SelectDueRemotes 1700000000000000000 4 sample_db.
Proof.
  split.
  - apply (mysql_due_bounds binary_server _ 4 slow_db (slow_db_ok _) ltac:(lia)) with (r := remote_row slow_remote 1); [left|reflexivity|].
    intros [_ Hlt]. vm_compute in Hlt. discriminate Hlt.
  - apply (mysql_due_bounds binary_server _ 4 sample_db (mysql_sample_ok _) ltac:(lia)).
    intros r ->%list_elem_of_singleton _. split; vm_compute; [discriminate|reflexivity].
Defined.
