(* ===== verification/MysqlLease.v ===== *)
(** The lease on MySQL with several workers at once.  The pool is concurrent and
    [TryAcquireLease] is three statements outside a transaction, so other workers run
    between them: a machine interleaves the statements of any number of attempts on one
    remote, their releases, the clock and whatever else writes the tables. *)
From S2P Require Import Prelude GoStrings Sha256 Model Chain SyncDiff Sqlc StoreSpec SqliteStore SqliteTx SqliteSpec.
From S2P Require Import Lock SyncRemote SyncCorrect SyncProps Mysqlc MysqlStore MysqlTx MysqlSpec MysqlProps.
#[local] Open Scope Z_scope.
#[local] Open Scope go_scope.

(** * The machine *)

(** One call of [AcquireRemoteLease]: who calls, the clock it read, the expiry it asks for. *)
Record attempt : Type := mkAttempt {
  at_holder : string;
  at_now : Z;
  at_expires : Z;
}.

(** How far the call is, and whether the lease it got was given back. *)
Inductive phase : Type := Ready | Upserted | Granted | Refused | Released.
#[global] Instance phase_eq_dec : EqDecision phase.
Proof. solve_decision. Defined.

#[global] Instance LeaseRow_eq_dec : EqDecision LeaseRow.
Proof. solve_decision. Defined.

Record world : Type := mkWorld {
  w_clock : Z;
  w_db : db;
  w_att : gmap nat (attempt * phase);
}.

Inductive event : Type :=
  | Tick (clock : Z)                                        (* time passes *)
  | Begin (i : nat) (holder : string) (ttl : Z)             (* an attempt reads the clock *)
  | Upsert (i : nat)                                        (* its guarded upsert *)
  | ReadBack (i : nat)                                      (* its read-back of the row *)
  | Release (i : nat) (witness newHead : bytes) (newLen : Z)
  | Other (d : db).                                         (* statements that do not touch the leases *)

Section machine.
Context (srv : server) (rid : Z).

Definition set_phase (i : nat) (a : attempt) (p : phase) (d : db) (w : world) : world :=
  mkWorld (w_clock w) d (<[i := (a, p)]> (w_att w)).

(** [None] when the event cannot happen; a statement that fails changes nothing. *)
Definition exec (e : event) (w : world) : option world :=
  match e with
  | Tick clock => if w_clock w <=? clock then Some (mkWorld clock (w_db w) (w_att w)) else None
  | Begin i holder ttl =>
      match w_att w !! i with
      | Some _ => None
      | None => Some (set_phase i (mkAttempt holder (w_clock w) (w_clock w +w ttl)) Ready (w_db w) w)
      end
  | Upsert i =>
      match w_att w !! i with
      | Some (a, Ready) =>
          match upsertLeaseMySQL srv rid (at_holder a) (at_now a) (at_expires a) (at_now a) (w_db w) with
          | Ok (_, d) => Some (set_phase i a Upserted d w)
          | Err _ => Some w
          end
      | _ => None
      end
  | ReadBack i =>
      match w_att w !! i with
      | Some (a, Upserted) =>
          match Mysqlc.GetRemoteLease rid (w_db w) with
          | Ok (leaseRow, d) =>
              let mine := String.eqb (lr_Holder leaseRow) (at_holder a) && (lr_ExpiresAtNs leaseRow =? at_expires a) in
              Some (set_phase i a (if mine then Granted else Refused) d w)
          | Err _ => Some w
          end
      | _ => None
      end
  | Release i witness newHead newLen =>
      match w_att w !! i with
      | Some (a, Granted) =>
          match MysqlStore.ReleaseLeaseCAS srv rid (at_holder a) witness newHead newLen (w_db w) with
          | Ok (_, d) => Some (set_phase i a Released d w)
          | Err _ => Some w
          end
      | _ => None
      end
  | Other d =>
      if decide (t_remote_lease d = t_remote_lease (w_db w)) then Some (mkWorld (w_clock w) d (w_att w)) else None
  end.

Definition step (w w' : world) : Prop := ∃ e, exec e w = Some w'.

Fixpoint run (l : list event) (w : world) : option world :=
  match l with
  | [] => Some w
  | e :: l => w' ← exec e w; run l w'
  end.

(** * The invariant *)

(** Attempt [i] holds a lease that has not run out. *)
Definition holds (w : world) (i : nat) (a : attempt) : Prop :=
  w_att w !! i = Some (a, Granted) ∧ w_clock w ≤ at_expires a.

(** No two attempts go by the same name. *)
Definition distinct_holders (w : world) : Prop :=
  ∀ i j a b p p', w_att w !! i = Some (a, p) → w_att w !! j = Some (b, p') → at_holder a = at_holder b → i = j.

Definition lease_row (d : db) : option LeaseRow := List.find (λ l, lr_RemoteID l =? rid) (t_remote_lease d).

(** Clocks were read in the past, and a live lease is the row in the table. *)
Definition lease_inv (w : world) : Prop :=
  (∀ i a p, w_att w !! i = Some (a, p) → at_now a ≤ w_clock w) ∧
  (∀ i a, holds w i a → ∃ l, lease_row (w_db w) = Some l ∧ lr_Holder l = at_holder a ∧ lr_ExpiresAtNs l = at_expires a).

(** * Lemmas *)

(** A live row survives the upsert of another attempt. *)
Lemma upsert_keeps_live holder acquired expires now d d' l :
  upsertLeaseMySQL srv rid holder acquired expires now d = Ok ((), d') →
  lease_row d = Some l → now ≤ lr_ExpiresAtNs l → lease_row d' = Some l.
Proof.
  unfold upsertLeaseMySQL, mbind, SE_bind, get_state, put_state, Mysqlc.require, lease_row. destruct (varchar_fits _ _ _); [|done].
  intros H Hl Hlive. rewrite Hl in H. injection H as <-. cbn. clear -Hl Hlive.
  induction (t_remote_lease d) as [|x k IH]; [done|]. rewrite UPDATE_cons. cbn in *.
  destruct (Z.eqb_spec (lr_RemoteID x) rid) as [E|E]; cbn.
  - injection Hl as ->. rewrite E, Z.eqb_refl. assert (lr_ExpiresAtNs l <? now = false) as -> by lia. rewrite <- E. by destruct l.
  - apply Z.eqb_neq in E. rewrite E. by apply IH.
Qed.

(** Only the holder in the row can release. *)
Lemma release_owner holder witness newHead newLen d d' :
  MysqlStore.ReleaseLeaseCAS srv rid holder witness newHead newLen d = Ok ((), d') →
  ∃ l, lease_row d = Some l ∧ lr_Holder l = holder.
Proof.
  intros H. unfold MysqlStore.ReleaseLeaseCAS in H.
  apply SE_bind_ok in H as (lrow & d1 & (l & Hl & [= -> ->])%run_mq_ok%MGetRemoteLease_ok & H).
  destruct (String.eqb_spec (lr_Holder l) holder); [|done]. by exists l.
Qed.

Lemma set_phase_holds i a p d w j b :
  holds (set_phase i a p d w) j b → (j = i ∧ b = a ∧ p = Granted ∧ w_clock w ≤ at_expires a) ∨ (j ≠ i ∧ holds w j b).
Proof.
  intros [Ha Hc]. cbn in *. rewrite lookup_insert_Some in Ha. destruct Ha as [[<- [= -> ->]]|[Hne Ha]]; [by left|right].
  by split.
Qed.

Lemma exec_mono e w w' i a p :
  exec e w = Some w' → w_att w !! i = Some (a, p) → ∃ p', w_att w' !! i = Some (a, p').
Proof.
  intros He Hi.
  assert (∀ j b q d, (q' ← w_att w !! j; Some q'.1) = Some b ∨ w_att w !! j = None →
    ∃ p', w_att (set_phase j b q d w) !! i = Some (a, p')) as Hset.
  { intros j b q d Hj. cbn. destruct (decide (i = j)) as [<-|]; [|rewrite lookup_insert_ne by done; eauto].
    rewrite lookup_insert_eq, Hi in *. destruct Hj as [[= <-]|?]; [|done]. eauto. }
  destruct e; cbn in He.
  - destruct (_ <=? _); [|done]. injection He as <-. eauto.
  - destruct (w_att w !! i0) eqn:E; [done|]. injection He as <-. apply Hset. by right.
  - destruct (w_att w !! i0) as [[b []]|] eqn:E; try done. destruct (upsertLeaseMySQL _ _ _ _ _ _ _) as [[[] d]|]; injection He as <-; [|eauto].
    apply Hset. left. by rewrite E.
  - destruct (w_att w !! i0) as [[b []]|] eqn:E; try done. destruct (Mysqlc.GetRemoteLease _ _) as [[l d]|]; injection He as <-; [|eauto].
    apply Hset. left. by rewrite E.
  - destruct (w_att w !! i0) as [[b []]|] eqn:E; try done. destruct (MysqlStore.ReleaseLeaseCAS _ _ _ _ _ _ _) as [[[] d]|]; injection He as <-; [|eauto].
    apply Hset. left. by rewrite E.
  - destruct (decide _); [|done]. injection He as <-. eauto.
Qed.

Lemma exec_distinct e w w' : exec e w = Some w' → distinct_holders w' → distinct_holders w.
Proof.
  intros He Hd i j a b p p' Hi Hj Heq. destruct (exec_mono _ _ _ _ _ _ He Hi) as [q Hi'].
  destruct (exec_mono _ _ _ _ _ _ He Hj) as [q' Hj']. by eapply Hd.
Qed.

(** Writing back an attempt keeps the first half of the invariant. *)
Lemma set_phase_clock i a p d w :
  (∀ j b q, w_att w !! j = Some (b, q) → at_now b ≤ w_clock w) → at_now a ≤ w_clock w →
  ∀ j b q, w_att (set_phase i a p d w) !! j = Some (b, q) → at_now b ≤ w_clock w.
Proof. intros Hw Ha j b q. cbn. rewrite lookup_insert_Some. intros [[_ [= <- _]]|[_ Hj]]; [done|by eapply Hw]. Qed.

Lemma lease_inv_step e w w' : exec e w = Some w' → distinct_holders w → lease_inv w → lease_inv w'.
Proof.
  intros He Hd [Hclock Hlive]. destruct e; cbn in He.
  - destruct (Z.leb_spec (w_clock w) clock); [|done]. injection He as <-. split; cbn.
    + intros i a p Hi. specialize (Hclock i a p Hi). lia.
    + intros i a [Hi Hc]. cbn in *. apply (Hlive i). split; [done|lia].
  - destruct (w_att w !! i) eqn:E; [done|]. injection He as <-. split; [apply set_phase_clock; [done|cbn; lia]|].
    intros j b [(_ & _ & [=] & _)|[_ Hj]]%set_phase_holds. by apply (Hlive j).
  - destruct (w_att w !! i) as [[a []]|] eqn:E; try done.
    destruct (upsertLeaseMySQL _ _ _ _ _ _ _) as [[[] d]|] eqn:Hup; injection He as <-; [|done].
    split; [apply set_phase_clock; [done|by eapply Hclock]|].
    intros j b [(_ & _ & [=] & _)|[_ Hj]]%set_phase_holds. destruct (Hlive j b Hj) as (l & Hl & Hh & Hx).
    exists l. split; [|done]. eapply upsert_keeps_live; [exact Hup|exact Hl|]. specialize (Hclock i a Ready E). destruct Hj. lia.
  - destruct (w_att w !! i) as [[a []]|] eqn:E; try done.
    destruct (Mysqlc.GetRemoteLease _ _) as [[l d]|] eqn:Hg; injection He as <-; [|done].
    apply MGetRemoteLease_ok in Hg as (l' & Hl & [= <- ->]).
    split; [apply set_phase_clock; [done|by eapply Hclock]|].
    intros j b [(-> & -> & Hp & Hc)|[_ Hj]]%set_phase_holds; [|by apply (Hlive j)]. exists l. split; [exact Hl|].
    destruct (String.eqb_spec (lr_Holder l) (at_holder a)), (Z.eqb_spec (lr_ExpiresAtNs l) (at_expires a)); done.
  - destruct (w_att w !! i) as [[a []]|] eqn:E; try done.
    destruct (MysqlStore.ReleaseLeaseCAS _ _ _ _ _ _ _) as [[[] d]|] eqn:Hr; injection He as <-; [|done].
    split; [apply set_phase_clock; [done|by eapply Hclock]|].
    intros j b [(_ & _ & [=] & _)|[Hne Hj]]%set_phase_holds. exfalso. apply Hne.
    destruct (Hlive j b Hj) as (l & Hl & Hh & _). apply release_owner in Hr as (l' & Hl' & Hh').
    rewrite Hl in Hl'. injection Hl' as <-. destruct Hj as [Hj _]. eapply (Hd j i b a); [done|done|]. by rewrite <- Hh, <- Hh'.
  - destruct (decide _) as [Heq|]; [|done]. injection He as <-. split; [done|]. intros j b Hj. cbn.
    unfold lease_row. rewrite Heq. by apply (Hlive j).
Qed.

Lemma lease_inv_run l w w' : run l w = Some w' → distinct_holders w' → lease_inv w → lease_inv w' ∧ distinct_holders w.
Proof.
  revert w. induction l as [|e l IH]; intros w H Hd Hinv; [by injection H as <-|]. cbn in H.
  destruct (exec e w) as [w1|] eqn:He; [|done]. cbn in H.
  assert (distinct_holders w) as Hd0.
  { assert (distinct_holders w1) as Hd1; [|by eapply exec_distinct].
    clear -H Hd. revert w1 H. induction l as [|e l IH]; intros w1 H; [by injection H as <-|]. cbn in H.
    destruct (exec e w1) as [w2|] eqn:He; [|done]. eapply exec_distinct; [exact He|]. by apply IH. }
  split; [|done]. apply (IH w1 H Hd). by eapply lease_inv_step.
Qed.
End machine.

(** * Properties *)


(** Two attempts race: both upsert before either reads back. *)
Definition race : list event :=
  [Begin 0 "a" 100; Begin 1 "b" 100; Upsert 1; Upsert 0; ReadBack 0; ReadBack 1].
Definition race_end : world :=
  Eval vm_compute in default (mkWorld 0 empty_db ∅) (run binary_server 1 race (mkWorld 10 sample_db ∅)).


(** The lease of a slow worker runs out, a worker of the same name takes it over, the
    slow one releases, and a third worker acquires. *)
Definition shared_name : list event :=
  [Begin 0 "git-taintedd-1" leaseTTL; Upsert 0; ReadBack 0; Tick (10 + leaseTTL + 1);
   Begin 1 "git-taintedd-1" leaseTTL; Upsert 1; ReadBack 1;
   Release 0 genesis_head genesis_head 0;
   Begin 2 "git-taintedd-7" leaseTTL; Upsert 2; ReadBack 2].

(** The proviso is needed, and the server's names do not meet it: a holder is named after
    its process id alone, so workers of two containers (or two syncs of one process)
    can share a name; then the late release of one drops the live lease of the
    other, and two workers hold the lease at once. *)
Theorem mysql_lease_shared_name :
  ∃ w a b, run binary_server 1 shared_name (mkWorld 10 sample_db ∅) = Some w ∧ holds w 1 a ∧ holds w 2 b.
Proof.
  eexists _, _, _. split; [vm_compute; reflexivity|].
  split; (split; [vm_compute; reflexivity|vm_compute; discriminate]).
Qed.
