(* ===== verification/Cache.v ===== *)
(** [internal/store/cache/cache.go]: the caching decorator over a store.  Requests run
    concurrently and the decorator takes no lock, so a method is a program of atomic
    actions (a load or an increment of a generation, an access to one of the caches, a
    call of the inner store) that a machine interleaves with those of other requests.
    The caches drop entries when they like (size, TTL): that is an event of the machine.
    Values are not shared in the model, so the clones of the code are identities. *)
From S2P Require Import Prelude GoStrings Model StoreSpec.
#[local] Open Scope Z_scope.

(** * Keys *)

Definition key2 (prefix : string) (a b : Z) : string :=
  prefix +:+ "|" +:+ FormatInt a +:+ "|" +:+ FormatInt b.

(** [int64(gen)] of an unsigned generation. *)
Definition keyRemote (remoteID gen : Z) : string := key2 "remote" remoteID (wrap64 gen).
Definition keyTags (remoteID gen : Z) : string := key2 "tags" remoteID (wrap64 gen).
Definition keyLobs (refID remoteGen : Z) : string := key2 "lobs" refID (wrap64 remoteGen).
Definition keyURL (setGen : Z) (normURL : string) : string := "byurl|" +:+ FormatInt (wrap64 setGen) +:+ "|" +:+ normURL.
Definition keyRef (remoteID gen : Z) (tag : string) : string :=
  "ref|" +:+ FormatInt remoteID +:+ "|" +:+ FormatInt (wrap64 gen) +:+ "|" +:+ tag.

(** * The decorator's state and its atomic actions *)

Section cache.
Context {S T : Type} `{Store S T}.

(** [cachingStore].  The history of the inner store, the state it was in at every
    increment of a generation ([w_floor], as a position in the history) and the number of
    increments are ghosts: no action reads them. *)
Record world : Type := mkWorld {
  w_past : list S;
  w_inner : S;
  w_gens : gmap Z Z;
  w_setGen : Z;
  w_refRemote : gmap Z Z;
  w_urlID : gmap string Z;
  w_remoteByID : gmap string Remote;
  w_ref : gmap string Ref;
  w_lobs : gmap string ObservationProof;
  w_tags : gmap string (list Ref);
  w_floor : gmap (Z * Z) nat;
  w_bumps : Z;
}.

Definition new_world (s : S) : world := mkWorld [] s ∅ 0 ∅ ∅ ∅ ∅ ∅ ∅ ∅ 0.

(** A missing counter is 0. *)
Definition gen (w : world) (id : Z) : Z := default 0 (w_gens w !! id).

(** The states of the inner store so far, the current one last. *)
Definition hist (w : world) : list S := w_past w ++ [w_inner w].
Definition floor (w : world) (id g : Z) : nat := default 0%nat (w_floor w !! (id, g)).

Inductive action : Type → Type :=
  | GenLoad (id : Z) : action Z
  | GenAdd (id : Z) : action ()
  | SetGenLoad : action Z
  | SetGenAdd : action ()
  | RefLoad (refID : Z) : action (option Z)
  | RefLoadOrStore (refID remoteID : Z) : action ()
  | UrlGet (k : string) : action (option Z)
  | UrlSet (k : string) (id : Z) : action ()
  | RemoteGet (k : string) : action (option Remote)
  | RemoteSet (k : string) (r : Remote) : action ()
  | RemoteInvalidate (k : string) : action ()
  | RefGet (k : string) : action (option Ref)
  | RefSet (k : string) (r : Ref) : action ()
  | LobsGet (k : string) : action (option ObservationProof)
  | LobsSet (k : string) (p : ObservationProof) : action ()
  | TagsGet (k : string) : action (option (list Ref))
  | TagsSet (k : string) (l : list Ref) : action ()
  | Inner (X : Type) (m : S → X * S) : action X.

Definition set_gens (w : world) gens floors bumps : world :=
  mkWorld (w_past w) (w_inner w) gens (w_setGen w) (w_refRemote w) (w_urlID w) (w_remoteByID w) (w_ref w) (w_lobs w)
    (w_tags w) floors bumps.
Definition set_setGen (w : world) n : world :=
  mkWorld (w_past w) (w_inner w) (w_gens w) n (w_refRemote w) (w_urlID w) (w_remoteByID w) (w_ref w) (w_lobs w)
    (w_tags w) (w_floor w) (w_bumps w).
Definition set_refRemote (w : world) m : world :=
  mkWorld (w_past w) (w_inner w) (w_gens w) (w_setGen w) m (w_urlID w) (w_remoteByID w) (w_ref w) (w_lobs w)
    (w_tags w) (w_floor w) (w_bumps w).
Definition set_caches (w : world) urls remotes refs lobs tags : world :=
  mkWorld (w_past w) (w_inner w) (w_gens w) (w_setGen w) (w_refRemote w) urls remotes refs lobs tags (w_floor w) (w_bumps w).
Definition set_inner (w : world) (s : S) : world :=
  mkWorld (hist w) s (w_gens w) (w_setGen w) (w_refRemote w) (w_urlID w) (w_remoteByID w) (w_ref w) (w_lobs w)
    (w_tags w) (w_floor w) (w_bumps w).

(** What an action does; an [atomic.Uint64] wraps around. *)
Definition perform {X} (a : action X) (w : world) : X * world :=
  match a in action X return X * world with
  | GenLoad id => (gen w id, w)
  | GenAdd id =>
      let g := uint64 (gen w id + 1) in
      ((), set_gens w (<[id := g]> (w_gens w)) (<[(id, g) := length (w_past w)]> (w_floor w)) (w_bumps w + 1))
  | SetGenLoad => (w_setGen w, w)
  | SetGenAdd => ((), set_setGen w (uint64 (w_setGen w + 1)))
  | RefLoad refID => (w_refRemote w !! refID, w)
  | RefLoadOrStore refID remoteID =>
      ((), set_refRemote w (match w_refRemote w !! refID with
                            | Some _ => w_refRemote w
                            | None => <[refID := remoteID]> (w_refRemote w)
                            end))
  | UrlGet k => (w_urlID w !! k, w)
  | UrlSet k id => ((), set_caches w (<[k := id]> (w_urlID w)) (w_remoteByID w) (w_ref w) (w_lobs w) (w_tags w))
  | RemoteGet k => (w_remoteByID w !! k, w)
  | RemoteSet k r => ((), set_caches w (w_urlID w) (<[k := r]> (w_remoteByID w)) (w_ref w) (w_lobs w) (w_tags w))
  | RemoteInvalidate k => ((), set_caches w (w_urlID w) (delete k (w_remoteByID w)) (w_ref w) (w_lobs w) (w_tags w))
  | RefGet k => (w_ref w !! k, w)
  | RefSet k r => ((), set_caches w (w_urlID w) (w_remoteByID w) (<[k := r]> (w_ref w)) (w_lobs w) (w_tags w))
  | LobsGet k => (w_lobs w !! k, w)
  | LobsSet k p => ((), set_caches w (w_urlID w) (w_remoteByID w) (w_ref w) (<[k := p]> (w_lobs w)) (w_tags w))
  | TagsGet k => (w_tags w !! k, w)
  | TagsSet k l => ((), set_caches w (w_urlID w) (w_remoteByID w) (w_ref w) (w_lobs w) (<[k := l]> (w_tags w)))
  | Inner X m => let '(x, s) := m (w_inner w) in (x, set_inner w s)
  end.

(** * Programs *)

Inductive prog (A : Type) : Type :=
  | Ret (a : A)
  | Vis (X : Type) (a : action X) (k : X → prog A).
#[global] Arguments Ret {A} a.
#[global] Arguments Vis {A X} a k.

Fixpoint prog_bind {A B} (f : A → prog B) (p : prog A) : prog B :=
  match p with
  | Ret a => f a
  | Vis a k => Vis a (λ x, prog_bind f (k x))
  end.
#[local] Instance prog_ret : MRet prog := @Ret.
#[local] Instance prog_mbind : MBind prog := @prog_bind.
Definition act {X} (a : action X) : prog X := Vis a Ret.

(** A method of the inner store; a failing one leaves it as it was. *)
Definition inner {A} (m : SE S error A) : prog (res A) :=
  act (Inner (res A) (λ s, match m s with
                           | Ok (a, s') => (Ok a, s')
                           | Err e => (Err e, s)
                           end)).

Fixpoint each {A} (l : list A) (f : A → prog ()) : prog () :=
  match l with
  | [] => mret ()
  | x :: l => f x ≫= λ _, each l f
  end.

(** [Config] and what [newOtter] makes of it: the size, and an expiry when there is a TTL. *)
Record Config : Type := mkConfig {
  Enabled : bool;
  MaxEntries : Z;
  TTL : Z;
}.
Definition newOtter (cfg : Config) : Z * option Z :=
  (if MaxEntries cfg <=? 0 then 100000 else MaxEntries cfg, if 0 <? TTL cfg then Some (TTL cfg) else None).

(** The inner store itself, or the decorator with empty caches. *)
Definition Wrap (s : S) (cfg : Config) : S + world := if Enabled cfg then inr (new_world s) else inl s.

(** ** Generations and the ref index *)

Definition genOf (id : Z) : prog Z := act (GenLoad id).
Definition bump (id : Z) : prog () := act (GenAdd id).
Definition rememberRef (refID remoteID : Z) : prog () := act (RefLoadOrStore refID remoteID).
Definition remoteOfRef (refID : Z) : prog (option Z) := act (RefLoad refID).

(** ** Cached reads *)

Definition GetRemote (id : Z) : prog (res Remote) :=
  g ← genOf id;
  let k := keyRemote id g in
  hit ← act (RemoteGet k);
  match hit with
  | Some v => mret (Ok v)
  | None =>
      r ← inner (st_GetRemote id);
      match r with
      | Err e => mret (Err e)
      | Ok r => act (RemoteSet k r) ≫= λ _, mret (Ok r)
      end
  end.

Definition GetRemoteByURL (normalizedURL : string) : prog (res Remote) :=
  sg ← act SetGenLoad;
  let uk := keyURL sg normalizedURL in
  hit ← act (UrlGet uk);
  match hit with
  | Some id => GetRemote id
  | None =>
      r ← inner (st_GetRemoteByURL normalizedURL);
      match r with
      | Err e => mret (Err e)
      | Ok r =>
          act (UrlSet uk (rm_ID r)) ≫= λ _,
          g ← genOf (rm_ID r);
          let rk := keyRemote (rm_ID r) g in
          act (RemoteSet rk r) ≫= λ _,
          g' ← genOf (rm_ID r);
          (if negb (g' =? g) then act (RemoteInvalidate rk) else mret ()) ≫= λ _,
          mret (Ok r)
      end
  end.

Definition GetRef (remoteID : Z) (tagName : string) : prog (res Ref) :=
  g ← genOf remoteID;
  let k := keyRef remoteID g tagName in
  hit ← act (RefGet k);
  match hit with
  | Some v => mret (Ok v)
  | None =>
      r ← inner (st_GetRef remoteID tagName);
      match r with
      | Err e => mret (Err e)
      | Ok r =>
          rememberRef (rf_ID r) (rf_RemoteID r) ≫= λ _,
          act (RefSet k r) ≫= λ _, mret (Ok r)
      end
  end.

Definition ListTags (remoteID : Z) : prog (res (list Ref)) :=
  g ← genOf remoteID;
  let k := keyTags remoteID g in
  hit ← act (TagsGet k);
  match hit with
  | Some v => mret (Ok v)
  | None =>
      refs ← inner (st_ListTags remoteID);
      match refs with
      | Err e => mret (Err e)
      | Ok refs =>
          each refs (λ r, rememberRef (rf_ID r) (rf_RemoteID r)) ≫= λ _,
          act (TagsSet k refs) ≫= λ _, mret (Ok refs)
      end
  end.

Definition LatestObservationForRef (refID : Z) : prog (res ObservationProof) :=
  known ← remoteOfRef refID;
  match known with
  | None =>
      p ← inner (st_LatestObservationForRef refID);
      match p with
      | Err e => mret (Err e)
      | Ok p => rememberRef refID (pf_RemoteID p) ≫= λ _, mret (Ok p)
      end
  | Some rid =>
      g ← genOf rid;
      let k := keyLobs refID g in
      hit ← act (LobsGet k);
      match hit with
      | Some v => mret (Ok v)
      | None =>
          p ← inner (st_LatestObservationForRef refID);
          match p with
          | Err e => mret (Err e)
          | Ok p => act (LobsSet k p) ≫= λ _, mret (Ok p)
          end
      end
  end.

(** ** Invalidating writes *)

Definition CreateRemote (r : Remote) : prog (res Z) :=
  id ← inner (st_CreateRemote r);
  match id with
  | Err e => mret (Err e)
  | Ok id => act SetGenAdd ≫= λ _, mret (Ok id)
  end.

(** [after] runs when the inner write succeeded. *)
Definition then_ok (m : SE S error ()) (after : prog ()) : prog (res ()) :=
  r ← inner m;
  match r with
  | Err e => mret (Err e)
  | Ok _ => after ≫= λ _, mret (Ok ())
  end.

Definition UpdateRemote (r : Remote) : prog (res ()) := then_ok (st_UpdateRemote r) (bump (rm_ID r)).

Definition SoftDeleteRemote (id atNS : Z) : prog (res ()) :=
  then_ok (st_SoftDeleteRemote id atNS) (bump id ≫= λ _, act SetGenAdd).

(** [now] is the wall clock the inner store reads. *)
Definition SetRemoteHealth (now id : Z) (status : RemoteStatus) (lastErr : string) (lastOkNS : Z) : prog (res ()) :=
  then_ok (st_SetRemoteHealth now id status lastErr lastOkNS) (bump id).

Definition SetRefTaint (refID firstNS : Z) : prog (res ()) :=
  then_ok (st_SetRefTaint refID firstNS)
    (rid ← remoteOfRef refID;
     match rid with
     | Some rid => bump rid
     | None => mret ()
     end).

(** ** Transactions *)

(** [captureTx]: the transaction, the remotes it touched, whether it created one, and what
    it learnt for the ref index, in order. *)
Record captureTx : Type := mkCapture {
  ct_inner : T;
  ct_touched : gset Z;
  ct_createdRemote : bool;
  ct_learnt : list (Z * Z);
}.

Definition mark (id : Z) (c : captureTx) : captureTx :=
  mkCapture (ct_inner c) ({[id]} ∪ ct_touched c) (ct_createdRemote c) (ct_learnt c).

(** A method of the wrapped transaction. *)
Definition on_tx {A} (m : SE T error A) : SE captureTx error A := λ c,
  match m (ct_inner c) with
  | Ok (a, t) => Ok (a, mkCapture t (ct_touched c) (ct_createdRemote c) (ct_learnt c))
  | Err e => Err e
  end.
Definition marking {A} (id : Z) (m : SE T error A) : SE captureTx error A := λ c, on_tx m (mark id c).

(** The index learns a known ref before the inner call. *)
Definition capture_UpsertRefProjection `{Tx T} (ref : Ref) : SE captureTx error Ref := λ c,
  let c := mark (rf_RemoteID ref) c in
  let c := if negb (rf_ID ref =? 0)
           then mkCapture (ct_inner c) (ct_touched c) (ct_createdRemote c) (ct_learnt c ++ [(rf_ID ref, rf_RemoteID ref)])
           else c in
  on_tx (tx_UpsertRefProjection ref) c.

Definition capture_CreateRemote `{Tx T} (r : Remote) : SE captureTx error Z := λ c,
  match on_tx (tx_CreateRemote r) c with
  | Ok (id, c) => Ok (id, mkCapture (ct_inner c) (ct_touched c) true (ct_learnt c))
  | Err e => Err e
  end.

#[global] Instance capture_tx `{Tx T} : Tx captureTx := {
  tx_AppendObservation := λ o, marking (ob_RemoteID o) (tx_AppendObservation o);
  tx_UpsertRefProjection := capture_UpsertRefProjection;
  tx_WriteSync := λ s, marking (sy_RemoteID s) (tx_WriteSync s);
  tx_AdvanceChainHead := λ id head len, marking id (tx_AdvanceChainHead id head len);
  tx_AppendTaintEvent := λ e, marking (te_RemoteID e) (tx_AppendTaintEvent e);
  tx_CreateRemote := capture_CreateRemote;
  tx_CountAllRemotes := on_tx tx_CountAllRemotes;
  tx_PruneSyncs := λ id keep, on_tx (tx_PruneSyncs id keep);
}.

(** [flush]: the touched remotes in the order the map is ranged over. *)
Definition flush (touched : list Z) (createdRemote : bool) : prog () :=
  each touched bump ≫= λ _, if createdRemote then act SetGenAdd else mret ().

(** The body with what it captured; a body that fails captures nothing that counts. *)
Definition captured {A} (fn : SE captureTx error A) : SE T error (A * captureTx) := λ t,
  match fn (mkCapture t ∅ false []) with
  | Ok (a, c) => Ok ((a, c), ct_inner c)
  | Err e => Err e
  end.

(** The index entries of the body are stored once the transaction is over; those of a body
    that failed stay too, and are [Learn] events of the machine. *)
Definition WithTx {A} (fn : SE captureTx error A) : prog (res A) :=
  r ← act (Inner (res (A * captureTx)) (λ s, st_WithTx (captured fn) s));
  match r with
  | Err e => mret (Err e)
  | Ok (a, c) =>
      each (ct_learnt c) (λ '(refID, rid), rememberRef refID rid) ≫= λ _,
      flush (elements (ct_touched c)) (ct_createdRemote c) ≫= λ _,
      mret (Ok a)
  end.
End cache.
