(* ===== verification/CacheProps.v ===== *)
(** The freshness of cached reads, for any interleaving of requests on the decorator
    (Cache.v), by rely and guarantee: every atomic action of a request keeps the
    invariant of the caches and only moves the decorator forward. *)
From S2P Require Import Prelude GoStrings Model StoreSpec Cache.
#[local] Open Scope Z_scope.

(** * The machine *)

Section machine.
Context {S T : Type} `{Store S T}.

(** The requests; [CPass] is any method the decorator passes through. *)
Inductive call : Type :=
  | CGetRemote (id : Z)
  | CGetRemoteByURL (u : string)
  | CGetRef (id : Z) (name : string)
  | CListTags (id : Z)
  | CLatestObservationForRef (refID : Z)
  | CCreateRemote (r : Remote)
  | CUpdateRemote (r : Remote)
  | CSoftDeleteRemote (id atNS : Z)
  | CSetRemoteHealth (now id : Z) (status : RemoteStatus) (lastErr : string) (lastOkNS : Z)
  | CSetRefTaint (refID firstNS : Z)
  | CWithTx (fn : SE (captureTx (T := T)) error ())
  | CPass (m : S → S).

Inductive reply : Type :=
  | RRemote (r : res Remote)
  | RRef (r : res Ref)
  | RTags (r : res (list Ref))
  | RProof (r : res ObservationProof)
  | RId (r : res Z)
  | RUnit (r : res ()).

Definition program (c : call) : prog (S := S) reply :=
  match c with
  | CGetRemote id => prog_bind (λ r, Ret (RRemote r)) (GetRemote id)
  | CGetRemoteByURL u => prog_bind (λ r, Ret (RRemote r)) (GetRemoteByURL u)
  | CGetRef id name => prog_bind (λ r, Ret (RRef r)) (GetRef id name)
  | CListTags id => prog_bind (λ r, Ret (RTags r)) (ListTags id)
  | CLatestObservationForRef refID => prog_bind (λ r, Ret (RProof r)) (LatestObservationForRef refID)
  | CCreateRemote r => prog_bind (λ r, Ret (RId r)) (CreateRemote r)
  | CUpdateRemote r => prog_bind (λ r, Ret (RUnit r)) (UpdateRemote r)
  | CSoftDeleteRemote id atNS => prog_bind (λ r, Ret (RUnit r)) (SoftDeleteRemote id atNS)
  | CSetRemoteHealth now id status lastErr lastOk => prog_bind (λ r, Ret (RUnit r)) (SetRemoteHealth now id status lastErr lastOk)
  | CSetRefTaint refID ns => prog_bind (λ r, Ret (RUnit r)) (SetRefTaint refID ns)
  | CWithTx fn => prog_bind (λ r, Ret (RUnit r)) (WithTx fn)
  | CPass m => Vis (Inner () (λ s, ((), m s))) (λ _, Ret (RUnit (Ok ())))
  end.

(** A request in flight or answered, with the decorator as it was when it came in. *)
Record thread : Type := mkThread {
  th_call : call;
  th_begin : world (S := S);
  th_prog : prog (S := S) reply;
}.

Record config : Type := mkConf {
  c_world : world (S := S);
  c_threads : gmap nat thread;
}.

Inductive event : Type :=
  | Invoke (i : nat) (c : call)            (* a request comes in *)
  | Step (i : nat)                         (* one atomic action of a request *)
  | Evict (url remote ref lobs tags : list string)   (* the caches drop entries *)
  | Learn (refID remoteID : Z).            (* left in the index by a rolled back transaction *)

Definition drop {V} (ks : list string) (m : gmap string V) : gmap string V := foldr delete m ks.

Definition exec (e : event) (c : config) : option config :=
  match e with
  | Invoke i k =>
      match c_threads c !! i with
      | Some _ => None
      | None => Some (mkConf (c_world c) (<[i := mkThread k (c_world c) (program k)]> (c_threads c)))
      end
  | Step i =>
      match c_threads c !! i with
      | Some (mkThread k w0 (Vis a p)) =>
          let '(x, w) := perform a (c_world c) in
          Some (mkConf w (<[i := mkThread k w0 (p x)]> (c_threads c)))
      | _ => None
      end
  | Evict url remote ref lobs tags =>
      let w := c_world c in
      Some (mkConf (set_caches w (drop url (w_urlID w)) (drop remote (w_remoteByID w)) (drop ref (w_ref w))
        (drop lobs (w_lobs w)) (drop tags (w_tags w))) (c_threads c))
  | Learn refID rid => Some (mkConf (perform (RefLoadOrStore refID rid) (c_world c)).2 (c_threads c))
  end.

Fixpoint run (l : list event) (c : config) : option config :=
  match l with
  | [] => Some c
  | e :: l => c' ← exec e c; run l c'
  end.

Definition start (s : S) : config := mkConf (new_world s) ∅.

(** The reply of an answered request. *)
Definition replied (c : config) (i : nat) (k : call) (a : reply) : Prop :=
  ∃ w0, c_threads c !! i = Some (mkThread k w0 (Ret a)).

(** * The invariant *)

(** [v] is what [m] answered in a state of the inner store at or after position [n0]. *)
Definition read_since {A} (w : world) (n0 : nat) (m : SE S error A) (v : A) : Prop :=
  ∃ n s s', hist w !! n = Some s ∧ (n0 ≤ n)%nat ∧ m s = Ok (v, s').

(** Generations that fit their counter. *)
Definition gen_ok (g : Z) : Prop := 0 ≤ g < 2^64.

Record inv (w : world (S := S)) : Prop := {
  inv_gens id : 0 ≤ gen w id ≤ w_bumps w;
  inv_floor id g : (floor w id g ≤ length (w_past w))%nat;
  inv_mono id g g' : 0 ≤ g ≤ g' → g' ≤ gen w id → (floor w id g ≤ floor w id g')%nat;
  inv_ref id g name r : gen_ok g → w_ref w !! keyRef id g name = Some r →
    g ≤ gen w id ∧ read_since w (floor w id g) (st_GetRef id name) r;
  inv_tags id g l : gen_ok g → w_tags w !! keyTags id g = Some l →
    g ≤ gen w id ∧ read_since w (floor w id g) (st_ListTags id) l;
  inv_lobs refID g p : gen_ok g → w_lobs w !! keyLobs refID g = Some p →
    ∃ rid, w_refRemote w !! refID = Some rid ∧ g ≤ gen w rid ∧
      read_since w (floor w rid g) (st_LatestObservationForRef refID) p;
}.

(** How the decorator moves: the history grows, generations increase, past floors and
    learnt refs stay. *)
Record later (w w' : world (S := S)) : Prop := {
  later_hist : hist w `prefix_of` hist w';
  later_gens id : gen w id ≤ gen w' id;
  later_floor id g : 0 ≤ g ≤ gen w id → floor w' id g = floor w id g;
  later_refs : w_refRemote w ⊆ w_refRemote w';
  later_bumps : w_bumps w ≤ w_bumps w';
}.

(** Fewer increments than a counter can count. *)
Definition small (w : world (S := S)) : Prop := w_bumps w < 2^64.

(** Every action of the program keeps the invariant and moves the decorator forward,
    whatever others do in between, and the answer satisfies [Q]. *)
Fixpoint safe {A} (p : prog (S := S) A) (Q : world → A → Prop) (w : world) : Prop :=
  match p with
  | Ret a => Q w a
  | Vis a k => ∀ w1, later w w1 → inv w1 →
      let '(x, w2) := perform a w1 in
      small w2 → inv w2 ∧ later w1 w2 ∧ safe (k x) Q w2
  end.

(** * Lemmas *)

(** ** Keys *)

Lemma wrap64_gen g g' : gen_ok g → gen_ok g' → wrap64 g = wrap64 g' → g = g'.
Proof.
  unfold gen_ok, wrap64. intros Hg Hg' E.
  assert ((g + 2^63) mod 2^64 = (g' + 2^63) mod 2^64) as E' by lia.
  rewrite !Z.mod_eq in E' by lia. nia.
Qed.

Lemma keyRef_inj id g name id' g' name' :
  gen_ok g → gen_ok g' → keyRef id g name = keyRef id' g' name' → id = id' ∧ g = g' ∧ name = name'.
Proof.
  intros Hg Hg' E. unfold keyRef in E. cbn in E. injection E as E.
  apply FormatInt_split in E as [-> [E ->]%FormatInt_split]. split; [done|]. split; [by apply wrap64_gen|done].
Qed.

Lemma key2_inj prefix a b a' b' : key2 prefix a b = key2 prefix a' b' → a = a' ∧ b = b'.
Proof.
  unfold key2. intros E. apply (inj _) in E. cbn in E. injection E as E. apply FormatInt_split in E as [-> E]. split; [done|by apply FormatInt_inj].
Qed.

Lemma keyTags_inj id g id' g' : gen_ok g → gen_ok g' → keyTags id g = keyTags id' g' → id = id' ∧ g = g'.
Proof. intros ?? [-> E]%key2_inj. split; [done|by apply wrap64_gen]. Qed.

Lemma keyLobs_inj id g id' g' : gen_ok g → gen_ok g' → keyLobs id g = keyLobs id' g' → id = id' ∧ g = g'.
Proof. intros ?? [-> E]%key2_inj. split; [done|by apply wrap64_gen]. Qed.

(** ** Moving forward *)

Lemma later_refl w : later w w.
Proof. by split. Qed.

Lemma later_trans w1 w2 w3 : (∀ id, 0 ≤ gen w1 id) → later w1 w2 → later w2 w3 → later w1 w3.
Proof.
  intros Hpos [h1 g1 f1 r1 b1] [h2 g2 f2 r2 b2]. split.
  - by etrans.
  - intros id. specialize (g1 id). specialize (g2 id). lia.
  - intros id g Hg. specialize (g1 id). rewrite f2 by lia. by apply f1.
  - by etrans.
  - lia.
Qed.

Lemma later_length w w' : later w w' → (length (w_past w) ≤ length (w_past w'))%nat.
Proof. intros [Hh _ _ _ _]. apply prefix_length in Hh. unfold hist in Hh. rewrite !length_app in Hh. cbn in Hh. lia. Qed.

Lemma read_since_later {A} w w' n (m : SE S error A) v : later w w' → read_since w n m v → read_since w' n m v.
Proof.
  intros Hl (i & s & s' & Hi & Hn & Hm). exists i, s, s'. split_and!; [|done|done]. eapply prefix_lookup_Some; [done|apply Hl].
Qed.

Lemma read_since_le {A} w n n' (m : SE S error A) v : (n' ≤ n)%nat → read_since w n m v → read_since w n' m v.
Proof. intros Hle (i & s & s' & Hi & Hn & Hm). exists i, s, s'. split_and!; [done|lia|done]. Qed.

(** The floor of the current generation only rises. *)
Lemma floor_rises w w' id : (∀ id, 0 ≤ gen w id) → later w w' → inv w' → (floor w id (gen w id) ≤ floor w' id (gen w' id))%nat.
Proof.
  intros Hpos Hl Hi. rewrite <- (later_floor _ _ Hl id (gen w id)) by (split; [apply Hpos|done]).
  apply (inv_mono _ Hi); [|done]. split; [apply Hpos|apply Hl].
Qed.

(** A step that changes no generation and adds no entry. *)
Record quiet (w w' : world (S := S)) : Prop := {
  q_hist : hist w `prefix_of` hist w';
  q_gens : w_gens w' = w_gens w;
  q_floor : w_floor w' = w_floor w;
  q_bumps : w_bumps w' = w_bumps w;
  q_refs : w_refRemote w ⊆ w_refRemote w';
  q_ref : w_ref w' ⊆ w_ref w;
  q_lobs : w_lobs w' ⊆ w_lobs w;
  q_tags : w_tags w' ⊆ w_tags w;
}.

Lemma quiet_later w w' : quiet w w' → later w w'.
Proof. intros [Hh Hg Hf Hb Hr _ _ _]. unfold gen, floor. split; [done| |by intros; unfold floor; rewrite Hf|done|lia]. intros id. unfold gen. by rewrite Hg. Qed.

Lemma quiet_inv w w' : quiet w w' → inv w → inv w'.
Proof.
  intros Hq [h1 h2 h3 h4 h5 h6]. pose proof (quiet_later _ _ Hq) as Hl. pose proof (later_length _ _ Hl) as Hlen.
  destruct Hq as [Hh Hg Hf Hb Hr Hc1 Hc2 Hc3].
  assert (∀ id, gen w' id = gen w id) as Hgen by (intros; unfold gen; by rewrite Hg).
  assert (∀ id g, floor w' id g = floor w id g) as Hfl by (intros; unfold floor; by rewrite Hf). split.
  - intros id. by rewrite Hgen, Hb.
  - intros id g. rewrite Hfl. specialize (h2 id g). lia.
  - intros id g g'. rewrite Hgen, !Hfl. apply h3.
  - intros id g name r Hok Hin. rewrite Hgen, Hfl. destruct (h4 id g name r Hok (lookup_weaken _ _ _ _ Hin Hc1)) as [? ?].
    split; [done|by eapply read_since_later].
  - intros id g l Hok Hin. rewrite Hgen, Hfl. destruct (h5 id g l Hok (lookup_weaken _ _ _ _ Hin Hc3)) as [? ?].
    split; [done|by eapply read_since_later].
  - intros refID g p Hok Hin. destruct (h6 refID g p Hok (lookup_weaken _ _ _ _ Hin Hc2)) as (rid & ? & ? & ?).
    exists rid. rewrite Hgen, Hfl. split; [by eapply lookup_weaken|]. split; [done|by eapply read_since_later].
Qed.

Lemma drop_subseteq {V} ks (m : gmap string V) : drop ks m ⊆ m.
Proof. induction ks as [|k ks IH]; cbn; [done|]. etrans; [apply delete_subseteq|done]. Qed.

(** The actions that are quiet. *)
Definition is_quiet {X} (a : action (S := S) X) : bool :=
  match a with
  | GenAdd _ | RefSet _ _ | LobsSet _ _ | TagsSet _ _ => false
  | _ => true
  end.

Lemma perform_quiet {X} (a : action X) w : is_quiet a = true → quiet w (perform a w).2.
Proof.
  destruct a as [| | | | | | | | | | | | | | | | |X m]; cbn; intros Hq; try done;
    try (destruct (m (w_inner w)) as [x s]; cbn); split; cbn; try done.
  - destruct (w_refRemote w !! refID) eqn:E; [done|]. by apply insert_subseteq.
  - unfold hist at 2. cbn. by eexists.
Qed.

(** The increment of a generation: the new one starts where the history is. *)
Lemma bump_inv id w :
  inv w → small (perform (GenAdd id) w).2 →
  let w' := (perform (GenAdd id) w).2 in
  inv w' ∧ later w w' ∧ floor w' id (gen w' id) = length (w_past w).
Proof.
  intros [h1 h2 h3 h4 h5 h6] Hs. unfold small in Hs. cbn in *.
  assert (uint64 (gen w id + 1) = gen w id + 1) as Hu by (unfold uint64; specialize (h1 id); apply Z.mod_small; lia).
  rewrite Hu. set (w' := set_gens _ _ _ _).
  assert (∀ i, gen w' i = if decide (i = id) then gen w id + 1 else gen w i) as Hgen.
  { intros i. unfold gen, w'. cbn. destruct (decide (i = id)) as [->|]; [by rewrite lookup_insert_eq|by rewrite lookup_insert_ne]. }
  assert (∀ i g, g ≤ gen w i → floor w' i g = floor w i g) as Hold.
  { intros i g Hg. unfold floor, w'. cbn. rewrite lookup_insert_ne; [done|]. intros [= <- E]. lia. }
  assert (floor w' id (gen w id + 1) = length (w_past w)) as Hnew by (unfold floor, w'; cbn; by rewrite lookup_insert_eq).
  assert (later w w') as Hl.
  { split; [done| | |done|cbn; lia].
    - intros i. rewrite Hgen. destruct (decide (i = id)) as [->|]; lia.
    - intros i g [_ Hg]. by apply Hold. }
  split; [|split; [done|rewrite Hgen, decide_True by done; done]]. split.
  - intros i. rewrite Hgen. cbn. specialize (h1 i). destruct (decide (i = id)) as [->|]; lia.
  - intros i g. unfold floor, w'. cbn. destruct (decide ((i, g) = (id, gen w id + 1))) as [[= -> ->]|Hne];
      [by rewrite lookup_insert_eq|]. rewrite lookup_insert_ne by done. apply h2.
  - intros i g g' Hg Hg'. rewrite Hgen in Hg'. destruct (decide (i = id)) as [->|].
    + destruct (decide (g' = gen w id + 1)) as [->|].
      * rewrite Hnew. destruct (decide (g = gen w id + 1)) as [->|]; [by rewrite Hnew|]. rewrite Hold by lia. apply h2.
      * rewrite !Hold by lia. by apply h3; [|lia].
    + rewrite !Hold by lia. by apply h3.
  - intros i g name r Hok Hin. destruct (h4 i g name r Hok Hin) as [? ?]. rewrite Hold by done.
    split; [pose proof (later_gens _ _ Hl i); lia|by eapply read_since_later].
  - intros i g l Hok Hin. destruct (h5 i g l Hok Hin) as [? ?]. rewrite Hold by done.
    split; [pose proof (later_gens _ _ Hl i); lia|by eapply read_since_later].
  - intros refID g p Hok Hin. destruct (h6 refID g p Hok Hin) as (rid & ? & ? & ?). exists rid. rewrite Hold by done.
    split; [done|]. split; [pose proof (later_gens _ _ Hl rid); lia|by eapply read_since_later].
Qed.

(** The fills: an entry under a generation not past the current one, read at or after
    its floor. *)
Lemma fill_later w w' :
  w_past w' = w_past w → w_inner w' = w_inner w → w_gens w' = w_gens w → w_floor w' = w_floor w → w_bumps w' = w_bumps w →
  w_refRemote w' = w_refRemote w → later w w'.
Proof. intros H1 H2 H3 H4 H5 H6. split; unfold hist, gen, floor; rewrite ?H1, ?H2, ?H3, ?H4, ?H5, ?H6; done. Qed.

Lemma fill_ref id g name r w :
  inv w → gen_ok g → g ≤ gen w id → read_since w (floor w id g) (st_GetRef id name) r →
  let w' := (perform (RefSet (keyRef id g name) r) w).2 in inv w' ∧ later w w'.
Proof.
  intros [h1 h2 h3 h4 h5 h6] Hok Hle Hr w'. assert (later w w') as Hl by by apply fill_later. split; [|done].
  split; try done. intros id' g' name' r' Hok'. cbn. rewrite lookup_insert_Some. intros [[E <-]|[_ Hin]].
  - apply keyRef_inj in E as (-> & -> & ->); [|done..]. split; [done|exact Hr].
  - by apply h4.
Qed.

Lemma fill_tags id g l w :
  inv w → gen_ok g → g ≤ gen w id → read_since w (floor w id g) (st_ListTags id) l →
  let w' := (perform (TagsSet (keyTags id g) l) w).2 in inv w' ∧ later w w'.
Proof.
  intros [h1 h2 h3 h4 h5 h6] Hok Hle Hr w'. assert (later w w') as Hl by by apply fill_later. split; [|done].
  split; try done. intros id' g' l' Hok'. cbn. rewrite lookup_insert_Some. intros [[E <-]|[_ Hin]].
  - apply keyTags_inj in E as (-> & ->); [|done..]. split; [done|exact Hr].
  - by apply h5.
Qed.

Lemma fill_lobs refID rid g p w :
  inv w → gen_ok g → w_refRemote w !! refID = Some rid → g ≤ gen w rid →
  read_since w (floor w rid g) (st_LatestObservationForRef refID) p →
  let w' := (perform (LobsSet (keyLobs refID g) p) w).2 in inv w' ∧ later w w'.
Proof.
  intros [h1 h2 h3 h4 h5 h6] Hok Hrid Hle Hr w'. assert (later w w') as Hl by by apply fill_later. split; [|done].
  split; try done. intros refID' g' p' Hok'. cbn. rewrite lookup_insert_Some. intros [[E <-]|[_ Hin]].
  - apply keyLobs_inj in E as (-> & ->); [|done..]. exists rid. split_and!; [done|done|exact Hr].
  - by apply h6.
Qed.

(** ** Programs *)

Lemma inv_pos w : inv w → ∀ id, 0 ≤ gen w id.
Proof. intros Hi id. apply (inv_gens _ Hi id). Qed.

Lemma safe_bind {A B} (p : prog A) (f : A → prog B) Q w :
  safe p (λ w a, safe (f a) Q w) w → safe (prog_bind f p) Q w.
Proof.
  revert w. induction p as [a|X a k IH]; intros w Hp; [exact Hp|]. cbn in *.
  intros w1 Hl Hi. specialize (Hp w1 Hl Hi). destruct (perform a w1) as [x w2]. intros Hs.
  destruct (Hp Hs) as (? & ? & ?). split_and!; [done|done|by apply IH].
Qed.

Lemma safe_weaken {A} (p : prog A) (Q Q' : world → A → Prop) w :
  (∀ w a, Q w a → Q' w a) → safe p Q w → safe p Q' w.
Proof.
  intros HQ. revert w. induction p as [a|X a k IH]; intros w Hp; [by apply HQ|]. cbn in *.
  intros w1 Hl Hi. specialize (Hp w1 Hl Hi). destruct (perform a w1) as [x w2]. intros Hs.
  destruct (Hp Hs) as (? & ? & ?). split_and!; [done|done|by apply IH].
Qed.

(** What others do does not make a program unsafe. *)
Lemma safe_later {A} (p : prog A) (Q : world → A → Prop) w w' :
  (∀ w w' a, inv w → inv w' → later w w' → Q w a → Q w' a) → inv w → inv w' → later w w' → safe p Q w → safe p Q w'.
Proof.
  intros HQ Hi Hi' Hl. destruct p as [a|X a k]; cbn; [by apply HQ|]. intros Hp w1 Hl1 Hi1. apply Hp; [|done].
  eapply later_trans; [by apply inv_pos|done|done].
Qed.

(** A quiet action. *)
Lemma safe_quiet {A X} (a : action X) (k : X → prog A) Q w :
  is_quiet a = true →
  (∀ w1, later w w1 → inv w1 → small w1 → safe (k (perform a w1).1) Q (perform a w1).2) →
  safe (Vis a k) Q w.
Proof.
  intros Hq Hk. cbn. intros w1 Hl Hi. pose proof (perform_quiet a w1 Hq) as Hqq. specialize (Hk w1 Hl Hi).
  destruct (perform a w1) as [x w2]. cbn in *. intros Hs. split; [by eapply quiet_inv|]. split; [by apply quiet_later|].
  apply Hk. unfold small in *. by rewrite <- (q_bumps _ _ Hqq).
Qed.

(** Learning refs, one after the other. *)
Lemma safe_each {A X} (l : list X) (f : X → prog ()) (k : prog A) Q w :
  (∀ x, ∃ a, f x = Vis a Ret ∧ is_quiet a = true) → inv w →
  (∀ w1, later w w1 → inv w1 → safe k Q w1) → safe (prog_bind (λ _, k) (each l f)) Q w.
Proof.
  intros Hf. revert w. induction l as [|x l IH]; intros w Hi Hk; cbn; [by apply Hk; [apply later_refl|]|].
  destruct (Hf x) as (a & Hx & Hq). unfold mbind, prog_mbind. rewrite Hx. cbn [prog_bind].
  apply safe_quiet; [done|]. intros w1 Hl Hi1 _. pose proof (perform_quiet a w1 Hq) as Hqq.
  apply IH; [by eapply quiet_inv|]. intros w2 Hl2 Hi2. apply Hk; [|done].
  eapply later_trans; [by apply inv_pos|exact Hl|]. eapply later_trans; [by apply inv_pos|by apply quiet_later|done].
Qed.

(** A read of the inner store: the answer is that of the state at the end of the history. *)
Lemma safe_inner {A B} (m : SE S error A) (k : res A → prog B) Q w :
  (∀ w1 w2, later w w1 → inv w1 → inv w2 → small w1 → later w1 w2 → hist w2 = hist w1 ++ [w_inner w2] →
     match m (w_inner w1) with
     | Ok (a, s) => w_inner w2 = s → read_since w2 (length (w_past w1)) m a → safe (k (Ok a)) Q w2
     | Err e => safe (k (Err e)) Q w2
     end) → safe (prog_bind k (inner m)) Q w.
Proof.
  intros Hk. unfold inner, act. cbn [prog_bind]. apply safe_quiet; [done|]. intros w1 Hl Hi Hs.
  pose proof (perform_quiet (Inner (res A) (λ s, match m s with Ok (a, s') => (Ok a, s') | Err e => (Err e, s) end)) w1 eq_refl) as Hq.
  cbn in *. destruct (m (w_inner w1)) as [[a s]|e] eqn:E; cbn in *; specialize (Hk w1 _ Hl Hi (quiet_inv _ _ Hq Hi) Hs (quiet_later _ _ Hq));
    cbn in Hk; rewrite E in Hk; apply Hk; try done.
  exists (length (w_past w1)), (w_inner w1), s. split_and!; [|done|done].
  unfold hist. cbn. rewrite lookup_app_l; [|unfold hist; rewrite length_app; cbn; lia]. unfold hist.
  rewrite lookup_app_r by done. by rewrite Nat.sub_diag.
Qed.

(** ** The methods *)

#[local] Arguments safe : simpl never.

Lemma safe_ret {A} (a : A) (Q : world → A → Prop) w : Q w a → safe (Ret a) Q w.
Proof. done. Qed.

Ltac later_chain :=
  match goal with
  | |- later ?w ?w => apply later_refl
  | Hl : later ?w ?w' |- later ?w ?w' => exact Hl
  | Hl : later ?w ?w1, Hi : inv ?w |- later ?w _ => apply (later_trans w w1 _ (inv_pos _ Hi) Hl); later_chain
  end.

Lemma small_gen w id : inv w → small w → gen_ok (gen w id).
Proof. intros Hi. unfold small, gen_ok. pose proof (inv_gens _ Hi id). lia. Qed.

(** A generation read after the request came in has a floor no lower than the one current
    then, and a read of the inner store after that is no older either. *)
Lemma floor_since w0 w1 w2 id : inv w0 → inv w1 → later w0 w1 → later w1 w2 →
  (floor w0 id (gen w0 id) ≤ floor w2 id (gen w1 id))%nat.
Proof.
  intros H0 H1 Hl1 Hl2. rewrite (later_floor _ _ Hl2) by (split; [by apply inv_pos|done]).
  apply floor_rises; [by apply inv_pos|done|done].
Qed.

Lemma floor_before w0 w1 id g : inv w0 → later w0 w1 → (floor w0 id g ≤ length (w_past w1))%nat.
Proof. intros H0 Hl. etrans; [apply (inv_floor _ H0)|by apply later_length]. Qed.

(** A miss: what the inner store answered may be filed under the generation read before,
    and is no older than the request. *)
Lemma miss_since {A} (m : SE S error A) v id w0 w1 w3 w4 w :
  inv w0 → inv w1 → inv w3 → inv w4 → later w0 w1 → later w1 w3 → later w3 w4 → later w4 w →
  read_since w4 (length (w_past w3)) m v →
  gen w1 id ≤ gen w id ∧ read_since w (floor w id (gen w1 id)) m v ∧ read_since w (floor w0 id (gen w0 id)) m v.
Proof.
  intros Hi0 Hi1 Hi3 Hi4 Hl1 Hl3 Hl4 Hl Hr. assert (later w1 w) as Hl1w by later_chain.
  assert (later w0 w3) as Hl03 by later_chain.
  assert (read_since w (length (w_past w3)) m v) as Hrw by (eapply read_since_later; [|exact Hr]; done).
  split; [apply Hl1w|]. split; (eapply read_since_le; [|exact Hrw]); [|by apply floor_before].
  rewrite (later_floor _ _ Hl1w) by (split; [by apply inv_pos|done]). by apply floor_before.
Qed.

Lemma GetRef_safe id name w0 :
  inv w0 →
  safe (GetRef id name) (λ w r, ∀ v, r = Ok v → read_since w (floor w0 id (gen w0 id)) (st_GetRef id name) v) w0.
Proof.
  intros Hi0. apply safe_quiet; [done|]. intros w1 Hl1 Hi1 Hs1. cbn.
  apply safe_quiet; [done|]. intros w2 Hl2 Hi2 Hs2. cbn. pose proof (small_gen _ id Hi1 Hs1) as Hok.
  destruct (w_ref w2 !! _) as [v|] eqn:Hhit.
  - apply safe_ret. intros ? [= <-]. destruct (inv_ref _ Hi2 _ _ _ _ Hok Hhit) as [_ Hr].
    eapply read_since_le; [|exact Hr]. by apply floor_since.
  - apply safe_inner. intros w3 w4 Hl3 Hi3 Hi4 Hs3 Hl4 _. destruct (st_GetRef id name _) as [[r s]|e]; [|by apply safe_ret; intros ? [=]].
    intros _ Hr. apply safe_quiet; [done|]. intros w5 Hl5 Hi5 _. cbn.
    pose proof (perform_quiet (RefLoadOrStore (rf_ID r) (rf_RemoteID r)) w5 eq_refl) as Hq. cbn in Hq.
    set (w6 := set_refRemote w5 _) in *. pose proof (quiet_inv _ _ Hq Hi5) as Hi6. pose proof (quiet_later _ _ Hq) as Hl6.
    intros w7 Hl7 Hi7 Hs7.
    destruct (miss_since (st_GetRef id name) r id w0 w1 w3 w4 w7 Hi0 Hi1 Hi3 Hi4 Hl1) as (Hg & Hr1 & Hr0); [later_chain..|done|].
    destruct (fill_ref id (gen w1 id) name r w7 Hi7 Hok Hg Hr1) as [Hi8 Hl8].
    split_and!; [done|done|]. intros ? [= <-]. by eapply read_since_later.
Qed.

Lemma ListTags_safe id w0 :
  inv w0 →
  safe (ListTags id) (λ w r, ∀ v, r = Ok v → read_since w (floor w0 id (gen w0 id)) (st_ListTags id) v) w0.
Proof.
  intros Hi0. apply safe_quiet; [done|]. intros w1 Hl1 Hi1 Hs1. cbn.
  apply safe_quiet; [done|]. intros w2 Hl2 Hi2 Hs2. cbn. pose proof (small_gen _ id Hi1 Hs1) as Hok.
  destruct (w_tags w2 !! _) as [v|] eqn:Hhit.
  - apply safe_ret. intros ? [= <-]. destruct (inv_tags _ Hi2 _ _ _ Hok Hhit) as [_ Hr].
    eapply read_since_le; [|exact Hr]. by apply floor_since.
  - apply safe_inner. intros w3 w4 Hl3 Hi3 Hi4 Hs3 Hl4 _. destruct (st_ListTags id _) as [[l s]|e]; [|by apply safe_ret; intros ? [=]].
    intros _ Hr. apply safe_each; [by intros; eexists|done|]. intros w5 Hl5 Hi5 w7 Hl7 Hi7 Hs7.
    destruct (miss_since (st_ListTags id) l id w0 w1 w3 w4 w7 Hi0 Hi1 Hi3 Hi4 Hl1) as (Hg & Hr1 & Hr0); [later_chain..|done|].
    destruct (fill_tags id (gen w1 id) l w7 Hi7 Hok Hg Hr1) as [Hi8 Hl8].
    split_and!; [done|done|]. intros ? [= <-]. by eapply read_since_later.
Qed.

Lemma learn_known refID rid (w : world (S := S)) : ∃ rid', w_refRemote (perform (RefLoadOrStore refID rid) w).2 !! refID = Some rid'.
Proof. cbn. destruct (w_refRemote w !! refID) as [rid'|] eqn:E; [by eexists|]. exists rid. by rewrite lookup_insert_eq. Qed.

Lemma LatestObservationForRef_safe refID w0 :
  inv w0 →
  safe (LatestObservationForRef refID) (λ w r, ∀ v, r = Ok v → ∃ rid, w_refRemote w !! refID = Some rid ∧
    read_since w (floor w0 rid (gen w0 rid)) (st_LatestObservationForRef refID) v) w0.
Proof.
  intros Hi0. apply safe_quiet; [done|]. intros wa Hla Hia _. cbn. destruct (w_refRemote wa !! refID) as [id|] eqn:Hknown.
  - apply safe_quiet; [done|]. intros w1 Hl1' Hi1 Hs1. cbn. assert (later w0 w1) as Hl1 by later_chain.
    assert (∀ w, later w1 w → w_refRemote w !! refID = Some id) as Hid.
    { intros w Hl. eapply lookup_weaken; [exact Hknown|]. etrans; [apply Hl1'|apply Hl]. }
    apply safe_quiet; [done|]. intros w2 Hl2 Hi2 Hs2. cbn. pose proof (small_gen _ id Hi1 Hs1) as Hok.
    destruct (w_lobs w2 !! _) as [v|] eqn:Hhit.
    + apply safe_ret. intros ? [= <-]. destruct (inv_lobs _ Hi2 _ _ _ Hok Hhit) as (rid & Hrid & _ & Hr).
      rewrite Hid in Hrid by done. injection Hrid as <-. exists id. split; [by apply Hid|].
      eapply read_since_le; [|exact Hr]. by apply floor_since.
    + apply safe_inner. intros w3 w4 Hl3 Hi3 Hi4 Hs3 Hl4 _.
      destruct (st_LatestObservationForRef refID _) as [[p s]|e]; [|by apply safe_ret; intros ? [=]].
      intros _ Hr w7 Hl7 Hi7 Hs7.
      destruct (miss_since (st_LatestObservationForRef refID) p id w0 w1 w3 w4 w7 Hi0 Hi1 Hi3 Hi4 Hl1) as (Hg & Hr1 & Hr0); [later_chain..|done|].
      assert (w_refRemote w7 !! refID = Some id) as Hid7 by (apply Hid; later_chain).
      destruct (fill_lobs refID id (gen w1 id) p w7 Hi7 Hok Hid7 Hg Hr1) as [Hi8 Hl8].
      split_and!; [done|done|]. intros ? [= <-]. exists id. split; [done|]. by eapply read_since_later.
  - apply safe_inner. intros w3 w4 Hl3 Hi3 Hi4 Hs3 Hl4 _.
    destruct (st_LatestObservationForRef refID _) as [[p s]|e]; [|by apply safe_ret; intros ? [=]].
    intros _ Hr. apply safe_quiet; [done|]. intros w5 Hl5 Hi5 _.
    pose proof (perform_quiet (RefLoadOrStore refID (pf_RemoteID p)) w5 eq_refl) as Hq.
    destruct (learn_known refID (pf_RemoteID p) w5) as [rid Hrid]. apply safe_ret. intros ? [= <-]. exists rid. split; [done|].
    eapply read_since_later; [|eapply read_since_le; [|exact Hr]].
    + apply quiet_later in Hq. later_chain.
    + apply floor_before; [done|]. later_chain.
Qed.

(** Any call of the inner store. *)
Lemma safe_call {A X} (m : S → X * S) (k : X → prog A) Q w :
  (∀ w1 w2 x, later w w1 → inv w1 → inv w2 → later w1 w2 → m (w_inner w1) = (x, w_inner w2) →
     hist w2 !! length (w_past w1) = Some (w_inner w1) → hist w2 !! (1 + length (w_past w1))%nat = Some (w_inner w2) →
     (1 + length (w_past w1) = length (w_past w2))%nat → safe (k x) Q w2) → safe (Vis (Inner X m) k) Q w.
Proof.
  intros Hk. apply safe_quiet; [done|]. intros w1 Hl Hi _. pose proof (perform_quiet (Inner X m) w1 eq_refl) as Hq.
  cbn in *. destruct (m (w_inner w1)) as [x s] eqn:E. cbn in *.
  apply (Hk w1); [done|done|by eapply quiet_inv|by apply quiet_later|done|..].
  - unfold hist. cbn. rewrite lookup_app_l; [|unfold hist; rewrite length_app; cbn; lia]. unfold hist. by apply list_lookup_middle.
  - unfold hist. cbn. apply list_lookup_middle. unfold hist. rewrite length_app. cbn. lia.
  - cbn. unfold hist. rewrite length_app. cbn. lia.
Qed.

(** An increment: the current generation is no older than the history was. *)
Lemma safe_bump {A} id (k : () → prog A) Q w n :
  inv w → (n ≤ length (w_past w))%nat →
  (∀ w', later w w' → inv w' → (n ≤ floor w' id (gen w' id))%nat → safe (k ()) Q w') →
  safe (Vis (GenAdd id) k) Q w.
Proof.
  intros Hi Hn Hk w1 Hl Hi1. cbn -[uint64]. intros Hs. destruct (bump_inv id w1 Hi1 Hs) as (Hi2 & Hl2 & Hf).
  cbn -[uint64] in *. split_and!; [done|done|]. apply Hk; [later_chain|done|]. rewrite Hf. etrans; [done|by apply later_length].
Qed.

Lemma safe_bumps {A} ids (k : prog A) Q w n :
  inv w → (n ≤ length (w_past w))%nat →
  (∀ w', later w w' → inv w' → (∀ id, id ∈ ids → n ≤ floor w' id (gen w' id))%nat → safe k Q w') →
  safe (prog_bind (λ _, k) (each ids bump)) Q w.
Proof.
  revert w. induction ids as [|i ids IH]; intros w Hi Hn Hk; cbn.
  { apply Hk; [apply later_refl|done|by intros id ?%elem_of_nil]. }
  apply (safe_bump _ _ _ _ n); [done|done|]. intros w1 Hl1 Hi1 Hf1. apply IH; [done|by etrans; [|by apply later_length]|].
  intros w2 Hl2 Hi2 Hf2. apply Hk; [later_chain|done|]. intros id [->|?]%elem_of_cons; [|by apply Hf2].
  etrans; [exact Hf1|]. by apply floor_rises; [apply inv_pos|..].
Qed.

(** The write [P] is in the history, and the generations of the remotes [ids] are newer. *)
Definition wrote (w : world (S := S)) (n : nat) (P : S → S → Prop) (ids : list Z) : Prop :=
  ∃ s s', hist w !! n = Some s ∧ hist w !! (1 + n)%nat = Some s' ∧ P s s' ∧
    ∀ id, id ∈ ids → (1 + n ≤ floor w id (gen w id))%nat.

Lemma wrote_later w w' n P ids : inv w → inv w' → later w w' → wrote w n P ids → wrote w' n P ids.
Proof.
  intros Hi Hi' Hl (s & s' & Hs & Hs' & HP & Hf). exists s, s'.
  split_and!; [by eapply prefix_lookup_Some; [|apply Hl]..|done|]. intros id Hid. etrans; [by apply Hf|].
  by apply floor_rises; [apply inv_pos|..].
Qed.

Lemma then_ok_safe m id (after : prog ()) w0 :
  inv w0 → (∃ k, after = Vis (GenAdd id) k ∧ ∀ w, inv w → safe (k ()) (λ w' _, inv w' ∧ later w w') w) →
  safe (then_ok m after) (λ w r, r = Ok () → ∃ n, wrote w n (λ s s', m s = Ok ((), s')) [id]) w0.
Proof.
  intros Hi0 (k & -> & Hk). unfold then_ok, mbind, prog_mbind, inner, act. cbn [prog_bind]. apply safe_call.
  intros w1 w2 x Hl1 Hi1 Hi2 Hl2 Hm Hh1 Hh2 Hlen. destruct (m (w_inner w1)) as [[[] s]|e] eqn:E; injection Hm as <- Hm; [|by apply safe_ret].
  cbn. apply (safe_bump _ _ _ _ (1 + length (w_past w1))%nat); [done|lia|]. intros w3 Hl3 Hi3 Hf3.
  apply safe_bind. eapply safe_weaken; [|by apply Hk]. cbn. intros w4 _ [Hi4 Hl4] _. exists (length (w_past w1)).
  apply (wrote_later w3); [done..|]. exists (w_inner w1), (w_inner w2). split_and!; [by eapply prefix_lookup_Some; [|apply Hl3]..| |].
  - rewrite E. by rewrite Hm.
  - intros i ->%list_elem_of_singleton. done.
Qed.

Lemma WithTx_safe (fn : SE (captureTx (T := T)) error ()) w0 :
  inv w0 →
  safe (WithTx fn) (λ w r, r = Ok () → ∃ n c, wrote w n (λ s s', st_WithTx (captured fn) s = (Ok ((), c), s'))
    (elements (ct_touched c))) w0.
Proof.
  intros Hi0. unfold WithTx, mbind, prog_mbind, act. cbn [prog_bind]. apply safe_call.
  intros w1 w2 x Hl1 Hi1 Hi2 Hl2 Hm Hh1 Hh2 Hlen. destruct x as [[[] c]|e]; [|by apply safe_ret].
  apply safe_each; [by intros [??]; eexists|done|]. intros w3 Hl3 Hi3. apply safe_bind. unfold flush, mbind, prog_mbind.
  assert (length (w_past w2) ≤ length (w_past w3))%nat by by apply later_length.
  apply (safe_bumps _ _ _ _ (1 + length (w_past w1))%nat); [done|lia|]. intros w4 Hl4 Hi4 Hf.
  assert (later w2 w4) as Hl24 by later_chain.
  assert (wrote w4 (length (w_past w1)) (λ s s', st_WithTx (captured fn) s = (Ok ((), c), s')) (elements (ct_touched c))) as Hw.
  { exists (w_inner w1), (w_inner w2). split_and!; [by eapply prefix_lookup_Some; [|apply Hl24]..|done|done]. }
  destruct (ct_createdRemote c); [|by apply safe_ret; intros _; eexists _, c].
  apply safe_quiet; [done|]. intros w5 Hl5 Hi5 _. apply safe_ret. apply safe_ret. intros _. eexists _, c.
  pose proof (perform_quiet SetGenAdd w5 eq_refl) as Hq. apply (wrote_later w5); [done|by eapply quiet_inv|by apply quiet_later|].
  by apply (wrote_later w4).
Qed.

(** The programs that fill none of the caches of refs, tags and observations. *)
Definition no_fill {X} (a : action (S := S) X) : bool :=
  match a with
  | RefSet _ _ | LobsSet _ _ | TagsSet _ _ => false
  | _ => true
  end.
Fixpoint plain {A} (p : prog (S := S) A) : Prop :=
  match p with
  | Ret _ => True
  | Vis a k => no_fill a = true ∧ ∀ x, plain (k x)
  end.

Lemma plain_safe {A} (p : prog A) (Q : world → A → Prop) w : plain p → (∀ w a, Q w a) → inv w → safe p Q w.
Proof.
  intros Hp HQ. revert w. induction p as [a|X a k IH]; intros w Hi; [by apply safe_ret|]. destruct Hp as [Ha Hk].
  destruct (is_quiet a) eqn:Hq.
  - apply safe_quiet; [done|]. intros w1 Hl1 Hi1 _. apply IH; [apply Hk|].
    by eapply quiet_inv; [apply perform_quiet|].
  - destruct a; try done. apply (safe_bump _ _ _ _ 0%nat); [done|lia|]. intros w1 Hl1 Hi1 _. apply IH; [apply Hk|done].
Qed.

Ltac plain := repeat (first [progress cbn | case_match | split | intros ?]; try done).

(** * Requests *)

(** The writes that invalidate, what they do to the inner store, and the remotes whose
    reads they invalidate. *)
Definition invalidates (k : call) : bool :=
  match k with
  | CUpdateRemote _ | CSoftDeleteRemote _ _ | CSetRemoteHealth _ _ _ _ _ | CWithTx _ => true
  | _ => false
  end.
Definition effect (k : call) (ids : list Z) (s s' : S) : Prop :=
  match k with
  | CUpdateRemote r => st_UpdateRemote r s = Ok ((), s') ∧ ids = [rm_ID r]
  | CSoftDeleteRemote id atNS => st_SoftDeleteRemote id atNS s = Ok ((), s') ∧ ids = [id]
  | CSetRemoteHealth now id status lastErr lastOk => st_SetRemoteHealth now id status lastErr lastOk s = Ok ((), s') ∧ ids = [id]
  | CWithTx fn => ∃ c, st_WithTx (captured fn) s = (Ok ((), c), s') ∧ ids = elements (ct_touched c)
  | _ => False
  end.

(** What a request that came in at [w0] may have been answered. *)
Definition answer (k : call) (w0 w : world (S := S)) (a : reply) : Prop :=
  match a with
  | RRef (Ok v) => ∀ id name, k = CGetRef id name → read_since w (floor w0 id (gen w0 id)) (st_GetRef id name) v
  | RTags (Ok v) => ∀ id, k = CListTags id → read_since w (floor w0 id (gen w0 id)) (st_ListTags id) v
  | RProof (Ok v) => ∀ refID, k = CLatestObservationForRef refID →
      ∃ rid, w_refRemote w !! refID = Some rid ∧ read_since w (floor w0 rid (gen w0 rid)) (st_LatestObservationForRef refID) v
  | RUnit (Ok _) => invalidates k = true → ∃ n ids, wrote w n (effect k ids) ids
  | _ => True
  end.

Lemma answer_later k w0 w w' a : inv w → inv w' → later w w' → answer k w0 w a → answer k w0 w' a.
Proof.
  intros Hi Hi' Hl. destruct a as [r|[v|]|[v|]|[v|]|r|[v|]]; cbn; try done.
  - intros Ha id name E. eapply read_since_later; [done|by apply Ha].
  - intros Ha id E. eapply read_since_later; [done|by apply Ha].
  - intros Ha refID E. destruct (Ha _ E) as (rid & Hrid & Hr). exists rid.
    split; [eapply lookup_weaken; [exact Hrid|apply Hl]|]. eapply read_since_later; [done|exact Hr].
  - intros Ha E. destruct (Ha E) as (n & ids & Hw). exists n, ids. by apply (wrote_later w).
Qed.

Lemma wrote_weaken w n (P P' : S → S → Prop) ids : (∀ s s', P s s' → P' s s') → wrote w n P ids → wrote w n P' ids.
Proof. intros HP (s & s' & ? & ? & ? & ?). exists s, s'. split_and!; [done|done|by apply HP|done]. Qed.

(** A write followed by the increment of [id]. *)
Lemma write_answer k m id (after : prog ()) w :
  inv w → (∃ p, after = Vis (GenAdd id) p ∧ ∀ w, inv w → safe (p ()) (λ w' _, inv w' ∧ later w w') w) →
  (∀ s s', m s = Ok ((), s') → effect k [id] s s') →
  safe (prog_bind (λ r, Ret (RUnit r)) (then_ok m after)) (answer k w) w.
Proof.
  intros Hi Hafter Heff. apply safe_bind. eapply safe_weaken; [|by apply then_ok_safe].
  intros w' [[]|] Ha; apply safe_ret; [|done]. intros _. destruct (Ha eq_refl) as [n Hn]. exists n, [id].
  eapply wrote_weaken; [|exact Hn]. exact Heff.
Qed.

Lemma program_safe k w : inv w → safe (program k) (answer k w) w.
Proof.
  intros Hi. assert (∀ w', inv w' → safe (Ret ()) (λ w'' _, inv w'' ∧ later w' w'') w') as Hret
    by (intros; apply safe_ret; split; [done|apply later_refl]).
  destruct k as [id|u|id name|id|refID|r|r|id atNS|now id st le lo|refID ns|fn|m]; cbn [program].
  - apply safe_bind. apply plain_safe; [plain|by intros ? []|done].
  - apply safe_bind. apply plain_safe; [plain|by intros ? []|done].
  - apply safe_bind. eapply safe_weaken; [|by apply GetRef_safe]. intros w' [v|] Ha; apply safe_ret; [|done].
    intros ?? [= <- <-]. by apply Ha.
  - apply safe_bind. eapply safe_weaken; [|by apply ListTags_safe]. intros w' [v|] Ha; apply safe_ret; [|done].
    intros ? [= <-]. by apply Ha.
  - apply safe_bind. eapply safe_weaken; [|by apply LatestObservationForRef_safe]. intros w' [v|] Ha; apply safe_ret; [|done].
    intros ? [= <-]. by apply Ha.
  - apply safe_bind. apply plain_safe; [plain|by intros ? []|done].
  - apply write_answer with (id := rm_ID r); [done|by eexists|done].
  - apply write_answer with (id := id); [done| |done]. eexists. split; [reflexivity|]. intros w1 Hi1.
    apply safe_quiet; [done|]. intros w2 Hl2 Hi2 _. apply safe_ret.
    pose proof (perform_quiet SetGenAdd w2 eq_refl) as Hq. pose proof (quiet_later _ _ Hq) as Hl3.
    split; [by eapply quiet_inv|later_chain].
  - apply write_answer with (id := id); [done|by eexists|done].
  - apply safe_bind. apply plain_safe; [plain| |done]. by intros ? [[]|].
  - apply safe_bind. eapply safe_weaken; [|by apply WithTx_safe]. intros w' [[]|] Ha; apply safe_ret; [|done].
    intros _. destruct (Ha eq_refl) as (n & c & Hn). exists n, (elements (ct_touched c)).
    eapply wrote_weaken; [|exact Hn]. cbn. by eexists.
  - intros w1 Hl1 Hi1. cbn. intros _. pose proof (perform_quiet (Inner () (λ s, ((), m s))) w1 eq_refl) as Hq.
    split; [by eapply quiet_inv|]. split; [by apply quiet_later|]. done.
Qed.

(** * Configurations *)

(** The requests in flight are safe, and those that are not in [old] came in after [wb]. *)
Record cinv (wb : world (S := S)) (old : gmap nat thread) (c : config) : Prop := {
  ci_inv : inv (c_world c);
  ci_later : later wb (c_world c);
  ci_thread j t : c_threads c !! j = Some t →
    inv (th_begin t) ∧ later (th_begin t) (c_world c) ∧
    safe (th_prog t) (answer (th_call t) (th_begin t)) (c_world c) ∧
    (old !! j = None → later wb (th_begin t));
}.

Lemma perform_bumps {X} (a : action X) (w : world (S := S)) : w_bumps w ≤ w_bumps (perform a w).2.
Proof. destruct a as [| | | | | | | | | | | | | | | | |X m]; cbn; try done; [lia|]. by destruct (m (w_inner w)). Qed.

Lemma exec_bumps e c c' : exec e c = Some c' → w_bumps (c_world c) ≤ w_bumps (c_world c').
Proof.
  destruct e as [i k|i|u r rf lo tg|refID rid]; cbn; [| |by intros [= <-]..].
  - destruct (c_threads c !! i); [done|]. by intros [= <-].
  - destruct (c_threads c !! i) as [[k w0 [a|X a p]]|]; [done| |done]. pose proof (perform_bumps a (c_world c)) as Hb.
    destruct (perform a (c_world c)) as [x w]. by intros [= <-].
Qed.

Lemma run_bumps l c c' : run l c = Some c' → w_bumps (c_world c) ≤ w_bumps (c_world c').
Proof.
  revert c. induction l as [|e l IH]; cbn; intros c; [by intros [= <-]|].
  intros (c1 & He & Hr)%bind_Some. apply exec_bumps in He. apply IH in Hr. lia.
Qed.

(** A step of the environment of a request. *)
Lemma thread_later wb old c w' j t :
  cinv wb old c → inv w' → later (c_world c) w' → c_threads c !! j = Some t →
  inv (th_begin t) ∧ later (th_begin t) w' ∧ safe (th_prog t) (answer (th_call t) (th_begin t)) w' ∧
  (old !! j = None → later wb (th_begin t)).
Proof.
  intros [Hi Hl Ht] Hi' Hl' Hj. destruct (Ht j t Hj) as (Hi0 & Hl0 & Hs & Hold). split_and!; [done|later_chain| |done].
  apply (safe_later _ _ (c_world c)); [|done..]. intros w1 w2 a ????. by apply (answer_later _ _ w1).
Qed.

Lemma cinv_quiet wb old c w' :
  inv wb → cinv wb old c → quiet (c_world c) w' → cinv wb old (mkConf w' (c_threads c)).
Proof.
  intros Hb Hc Hq. pose proof (quiet_later _ _ Hq) as Hl. pose proof (ci_inv _ _ _ Hc) as Hi. pose proof (quiet_inv _ _ Hq Hi) as Hi'.
  pose proof (ci_later _ _ _ Hc) as Hlb. split; cbn; [done|later_chain|]. intros j t. by apply thread_later.
Qed.

Lemma exec_cinv wb old e c c' :
  inv wb → exec e c = Some c' → small (c_world c') → cinv wb old c → cinv wb old c'.
Proof.
  intros Hb He Hs Hc. pose proof Hc as [Hi Hl Ht]. destruct e as [i k|i|u r rf lo tg|refID rid]; cbn in He.
  - destruct (c_threads c !! i) eqn:E; [done|]. injection He as <-. split; cbn; [done|done|].
    intros j t [[<- <-]|[_ Hj]]%lookup_insert_Some; [|by apply Ht]. cbn.
    split_and!; [done|apply later_refl|by apply program_safe|done].
  - destruct (c_threads c !! i) as [[k w0 [a|X a p]]|] eqn:E; [done| |done].
    destruct (Ht _ _ E) as (Hi0 & Hl0 & Hsafe & Hold). cbn in *. unfold safe in Hsafe.
    specialize (Hsafe (c_world c) (later_refl _) Hi). destruct (perform a (c_world c)) as [x w]. injection He as <-. cbn in *.
    destruct (Hsafe Hs) as (Hi' & Hl' & Hsafe'). split; cbn; [done|later_chain|].
    intros j t [[<- <-]|[_ Hj]]%lookup_insert_Some; [|by eapply thread_later]. cbn. split_and!; [done|later_chain|done|done].
  - injection He as <-. apply cinv_quiet; [done|done|]. split; cbn; try done; apply drop_subseteq.
  - injection He as <-. apply cinv_quiet; [done|done|]. by apply (perform_quiet (RefLoadOrStore refID rid)).
Qed.

Lemma run_cinv wb old l c c' :
  inv wb → run l c = Some c' → small (c_world c') → cinv wb old c → cinv wb old c'.
Proof.
  intros Hb. revert c. induction l as [|e l IH]; cbn; intros c; [by intros [= <-]|].
  intros (c1 & He & Hr)%bind_Some Hs Hc. eapply IH; [done|done|]. eapply exec_cinv; [done|done| |done].
  apply run_bumps in Hr. unfold small in *. lia.
Qed.

Lemma inv_new s : inv (new_world s).
Proof. split; try done; intros; unfold floor, gen in *; cbn in *; lia || done. Qed.

(** Every configuration the decorator reaches, seen from itself. *)
Lemma reached_cinv s l c :
  run l (start s) = Some c → small (c_world c) → cinv (c_world c) (c_threads c) c.
Proof.
  intros Hr Hs. destruct (run_cinv (new_world s) ∅ l (start s) c) as [Hi Hl Ht]; [apply inv_new|done|done| |].
  { split; [apply inv_new|apply later_refl|done]. }
  split; [done|apply later_refl|]. intros j t Hj. destruct (Ht j t Hj) as (? & ? & ? & _). split_and!; [done|done|done|].
  by rewrite Hj.
Qed.

End machine.
