(* ===== verification/CacheRaces.v ===== *)
(** The cached SQLite store on concrete interleavings: the read after a write of
    CacheProps.v at work, and two interleavings that leave a stale entry under a live
    generation. *)
From S2P Require Import Prelude GoStrings Model StoreSpec Sqlc SqliteStore SqliteTx SqliteSpec SyncProps Cache CacheProps.
#[local] Open Scope Z_scope.

Abbreviation sqlite_event := (event (S := db) (T := sqliteTx)).
Abbreviation sqlite_config := (config (S := db) (T := sqliteTx)).

(** The configuration the events lead to. *)
Definition reached (l : list sqlite_event) (c : sqlite_config) : sqlite_config := default c (run l c).

Definition runs (l : list sqlite_event) (c : sqlite_config) : bool := if run l c then true else false.
Lemma run_reached l c : runs l c = true → run l c = Some (reached l c).
Proof. unfold runs, reached. by destruct (run l c). Qed.

Definition steps (n i : nat) : list sqlite_event := replicate n (Step i).

(** The sample tag with a taint, and the transaction that writes it. *)
Definition tainted_tag1 : Ref :=
  let r := sample_tag1 in
  mkRef (rf_ID r) (rf_RemoteID r) (rf_TagName r) (rf_CurrentOID r) (rf_CurrentPeeledOID r) (rf_IsAnnotatedTag r)
    (rf_FirstOID r) (rf_FirstSeenNS r) (rf_LastSeenNS r) (rf_LastChangedNS r) (rf_Deleted r) true (Some 900) 1.
Definition taint_tx : SE (captureTx (T := sqliteTx)) error () := tx_UpsertRefProjection tainted_tag1 ≫= λ _, mret ().

(** A read that fills the cache, the transaction, then the read again, twice. *)
Definition fresh_before : list sqlite_event :=
  Invoke 0 (CGetRef 1 "v1") :: steps 5 0 ++ Invoke 1 (CWithTx taint_tx) :: steps 3 1.
Definition fresh_after : list sqlite_event :=
  Invoke 2 (CGetRef 1 "v1") :: steps 5 2 ++ Invoke 3 (CGetRef 1 "v1") :: steps 2 3.

Lemma upsert_touches (r : Ref) (c c' : captureTx (T := sqliteTx)) x :
  capture_UpsertRefProjection r c = Ok (x, c') → rf_RemoteID r ∈ ct_touched c'.
Proof.
  unfold capture_UpsertRefProjection, on_tx. cbn. destruct (SqliteTx.UpsertRefProjection r (ct_inner _)) as [[y t]|]; [|done].
  intros [= _ <-]. destruct (negb (rf_ID r =? 0)); cbn; set_solver.
Qed.

Lemma taint_tx_touches s s' c : st_WithTx (captured taint_tx) s = (Ok ((), c), s') → 1 ∈ elements (ct_touched c).
Proof.
  intros Hw. cbn in Hw. unfold SqliteTx.WithTx, captured, taint_tx in Hw.
  apply elem_of_elements. unfold mbind, SE_bind in Hw.
  destruct (capture_UpsertRefProjection tainted_tag1 _) as [[x c1]|] eqn:E; [|done]. apply upsert_touches in E. cbn in Hw.
  destruct (deferred_ok _); [|done]. by injection Hw as <- _.
Qed.


(** An update of the sample remote. *)
Definition updated_remote1 : Remote :=
  let r := sample_remote1 in
  mkRemote (rm_ID r) (rm_URL r) (rm_NormalizedURL r) (rm_Transport r) (rm_SyncInterval r) 7200000000000
    (rm_TaintAnyTagDeletion r) (rm_HashAlgo r) (rm_Status r) (rm_LastOkNS r) (rm_LastErr r) (rm_ConsecutiveFailures r)
    (rm_ChainHeadHash r) (rm_ChainLen r) (rm_RemovedAtNS r) (rm_CreatedAtNS r) (rm_UpdatedAtNS r).

(** A lookup by URL has fetched the remote and not yet seeded the other cache when the
    update runs to its end; then it seeds, and a third request comes in. *)
Definition seed_before : list sqlite_event :=
  Invoke 0 (CGetRemoteByURL "https://h/r") :: steps 3 0 ++ Invoke 1 (CUpdateRemote updated_remote1) :: steps 2 1.
Definition seed_after : list sqlite_event := steps 4 0 ++ Invoke 2 (CGetRemote 1) :: steps 2 2.

(** A stale remote survives under a live generation: [GetRemoteByURL] seeds the entry of
    [GetRemote] under a generation it reads after the fetch, so an update that commits and
    increments in between is not noticed by its check, and a [GetRemote] that comes in after
    the update was answered answers the old remote. *)
Theorem cache_remote_stale :
  let c1 := reached seed_before (start sample_db1) in
  let c2 := reached seed_after c1 in
  run seed_before (start sample_db1) = Some c1 ∧ run seed_after c1 = Some c2 ∧
  replied c1 1 (CUpdateRemote updated_remote1) (RUnit (Ok ())) ∧ c_threads c1 !! 2%nat = None ∧
  replied c2 2 (CGetRemote 1) (RRemote (Ok sample_remote1)) ∧
  st_GetRemote 1 (w_inner (c_world c1)) = Ok (updated_remote1, w_inner (c_world c2)) ∧
  rm_StalenessBudget sample_remote1 ≠ rm_StalenessBudget updated_remote1.
Proof.
  cbn zeta. split_and!.
  - apply run_reached. vm_compute. reflexivity.
  - apply run_reached. vm_compute. reflexivity.
  - eexists. vm_compute. reflexivity.
  - vm_compute. reflexivity.
  - eexists. vm_compute. reflexivity.
  - vm_compute. reflexivity.
  - done.
Qed.

(** A lookup of the tag has read it and not yet told the index when the taint is set; then
    it fills the cache, and a third request comes in. *)
Definition index_before : list sqlite_event :=
  Invoke 0 (CGetRef 1 "v1") :: steps 3 0 ++ Invoke 1 (CSetRefTaint 1 900) :: steps 2 1.
Definition index_after : list sqlite_event := steps 2 0 ++ Invoke 2 (CGetRef 1 "v1") :: steps 2 2.

(** A taint can stay hidden: [SetRefTaint] increments nothing when the index does not know
    the ref, but a [GetRef] may have read it and not yet recorded it, so its entry is filed
    under the live generation and a [GetRef] that comes in after the taint was answered
    answers the ref without it. *)
Theorem cache_taint_hidden :
  let c1 := reached index_before (start sample_db1) in
  let c2 := reached index_after c1 in
  run index_before (start sample_db1) = Some c1 ∧ run index_after c1 = Some c2 ∧
  replied c1 1 (CSetRefTaint 1 900) (RUnit (Ok ())) ∧ c_threads c1 !! 2%nat = None ∧
  replied c2 2 (CGetRef 1 "v1") (RRef (Ok sample_tag1)) ∧ rf_Tainted sample_tag1 = false ∧
  st_GetRef 1 "v1" (w_inner (c_world c1)) = Ok (tainted_tag1, w_inner (c_world c2)).
Proof.
  cbn zeta. split_and!.
  - apply run_reached. vm_compute. reflexivity.
  - apply run_reached. vm_compute. reflexivity.
  - eexists. vm_compute. reflexivity.
  - vm_compute. reflexivity.
  - eexists. vm_compute. reflexivity.
  - reflexivity.
  - vm_compute. reflexivity.
Qed.
