(* ===== verification/Handlers.v ===== *)
(** internal/api/handlers.go: the HTTP API over a [Store].

    A handler is a transaction-free computation on the store ([SE S error]): an
    [Err] is the [nil, err] return that the router turns into a 500, a [Refused]
    response is one of the declared 4xx bodies.  [catch] is Go's inspection of an
    error result; no handler writes before an error it inspects, so the store is
    as it was.  The clock reading is the argument [now], the authenticated
    principal of the request context the argument [principal], and
    [NormalizeURL] (internal/git) a parameter.  Audit log lines are not modelled. *)
From S2P Require Import Prelude GoStrings Sha256 Model Chain StoreSpec.
#[local] Open Scope Z_scope.

(** * Wire types (oapi/server.gen.go) *)

Record oRemote : Type := mkORemote {
  orm_Id : Z;
  orm_Url : string;
  orm_NormalizedUrl : string;
  orm_Transport : string;
  orm_SyncIntervalNs : Z;
  orm_StalenessBudgetNs : Z;
  orm_TaintAnyTagDeletion : bool;
  orm_Status : string;
  orm_LastOkNs : Z;
  orm_LastErr : string;
  orm_ConsecutiveFailures : Z;
  orm_ChainLen : Z;
  orm_CreatedAtNs : Z;
  orm_UpdatedAtNs : Z;
  orm_HashAlgo : option string;
  orm_RemovedAtNs : option Z;
}.

Record oTag : Type := mkOTag {
  otg_Id : Z;
  otg_RemoteId : Z;
  otg_TagName : string;
  otg_Deleted : bool;
  otg_Tainted : bool;
  otg_FirstSeenNs : Z;
  otg_LastSeenNs : Z;
  otg_LastChangedNs : option Z;
  otg_ObservationCount : Z;
  otg_IsAnnotated : option bool;
  otg_CurrentOid : option string;
  otg_CurrentPeeledOid : option string;
  otg_FirstOid : option string;
  otg_TaintFirstNs : option Z;
}.

Record oSyncEntry : Type := mkOSyncEntry {
  osy_Id : Z;
  osy_RemoteId : Z;
  osy_Trigger : string;
  osy_StartedNs : Z;
  osy_FinishedNs : Z;
  osy_Status : string;
  osy_TagsSeen : Z;
  osy_TagsChanged : Z;
  osy_Error : option string;
  osy_ChainHeadBefore : option string;
  osy_ChainHeadAfter : option string;
}.

Record oTaintEvent : Type := mkOTaintEvent {
  ote_Id : Z;
  ote_RemoteId : Z;
  ote_RefId : Z;
  ote_Reason : string;
  ote_DetectedAtNs : Z;
  ote_Detail : option string;
  ote_ObservationId : option Z;
  ote_FromOid : option string;
  ote_ToOid : option string;
  ote_AckedAtNs : option Z;
  ote_AckedBy : option string;
  ote_AckNote : option string;
}.

(** [RemoteList], [TagList], [TaintEventList] and [SyncAuditList]. *)
Record page (A : Type) : Type := mkPage { Items : list A; NextCursor : option Z }.
Arguments mkPage {A}.
Arguments Items {A}.
Arguments NextCursor {A}.

Record CreateRemoteRequest : Type := mkCreateRemoteRequest {
  cr_Url : string;
  cr_Transport : string;
  cr_SyncIntervalNs : option Z;
  cr_StalenessBudgetNs : option Z;
  cr_TaintAnyTagDeletion : option bool;
}.

Record UpdateRemoteRequest : Type := mkUpdateRemoteRequest {
  ur_SyncIntervalNs : option Z;
  ur_StalenessBudgetNs : option Z;
  ur_TaintAnyTagDeletion : option bool;
  ur_Status : option string;
}.

Record AckRequest : Type := mkAckRequest { ak_AckedBy : string; ak_AckNote : option string }.

Record ListTagsParams : Type := mkListTagsParams {
  lt_Q : option string;
  lt_Tainted : option string;
  lt_Limit : option Z;
  lt_Cursor : option Z;
}.

Record VerifyParams : Type := mkVerifyParams { vp_Remote : string; vp_Tag : string; vp_Commit : option string }.

Record VerifyRecorded : Type := mkVerifyRecorded {
  vc_FirstSeenNs : option Z;
  vc_LastSeenNs : option Z;
  vc_RefOid : option string;
  vc_PeeledCommitOid : option string;
}.
Record VerifyTaint : Type := mkVerifyTaint {
  vt_FirstTaintedAtNs : option Z;
  vt_FromOid : option string;
  vt_ToOid : option string;
  vt_Reason : option string;
}.
Record VerifyProof : Type := mkVerifyProof { vl_RemoteId : Z; vl_RowHash : string; vl_Seq : Z }.

Record VerifyResponse : Type := mkVerifyResp {
  vr_Status : VerifyStatus;
  vr_Confidence : Confidence;
  vr_Tag : string;
  vr_Remote : option (Z * string);
  vr_Recorded : option VerifyRecorded;
  vr_SuppliedCommit : option string;
  vr_LastSyncedNs : option Z;
  vr_SyncOutcome : option string;
  vr_Taint : option VerifyTaint;
  vr_LedgerProof : option VerifyProof;
}.

(** A declared response: its status code with a body or with an error message. *)
Inductive response (A : Type) : Type :=
  | Success (code : Z) (body : A)
  | Refused (code : Z) (msg : string).
Arguments Success {A} code body.
Arguments Refused {A} code msg.

(** * Conversions *)

Definition nonzero_hex (o : OID) : option string := if IsZero o then None else Some (Hex o).
Definition nonempty (s : string) : option string := if String.eqb s "" then None else Some s.

Definition remoteToOAPI (r : Remote) : oRemote :=
  mkORemote (rm_ID r) (rm_URL r) (rm_NormalizedURL r) (rm_Transport r) (rm_SyncInterval r) (rm_StalenessBudget r)
    (rm_TaintAnyTagDeletion r) (rm_Status r) (rm_LastOkNS r) (rm_LastErr r) (rm_ConsecutiveFailures r)
    (rm_ChainLen r) (rm_CreatedAtNS r) (rm_UpdatedAtNS r) (rm_HashAlgo r) (rm_RemovedAtNS r).

Definition tagToOAPI (r : Ref) : oTag :=
  mkOTag (rf_ID r) (rf_RemoteID r) (rf_TagName r) (rf_Deleted r) (rf_Tainted r) (rf_FirstSeenNS r) (rf_LastSeenNS r)
    (Some (rf_LastChangedNS r)) (rf_ObservationCount r) (Some (rf_IsAnnotatedTag r))
    (nonzero_hex (rf_CurrentOID r)) (nonzero_hex (rf_CurrentPeeledOID r)) (nonzero_hex (rf_FirstOID r))
    (rf_TaintFirstNS r).

Definition hex_bytes (b : bytes) : option string :=
  match b with
  | [] => None
  | _ => Some (EncodeToString b)
  end.

Definition syncToOAPI (s : Sync) : oSyncEntry :=
  mkOSyncEntry (sy_ID s) (sy_RemoteID s) (sy_Trigger s) (sy_StartedNS s) (sy_FinishedNS s) (sy_Status s)
    (sy_TagsSeen s) (sy_TagsChanged s) (nonempty (sy_Error s)) (hex_bytes (sy_ChainHeadBefore s))
    (hex_bytes (sy_ChainHeadAfter s)).

Definition taintEventToOAPI (e : TaintEvent) : oTaintEvent :=
  mkOTaintEvent (te_ID e) (te_RemoteID e) (te_RefID e) (te_Reason e) (te_DetectedAtNS e) (Some (te_Detail e))
    (te_ObservationID e) (nonzero_hex (te_FromOID e)) (nonzero_hex (te_ToOID e)) (te_AckedAtNS e)
    (nonempty (te_AckedBy e)) (nonempty (te_AckNote e)).

(** * Limits and parameter checks *)

Definition minSyncInterval : Z := 60 * 1000000000.
Definition minForcedSyncInterval : Z := 30 * 1000000000.
Definition maxRemoteParamLen : Z := 2048.
Definition maxTagNameLen : Z := 255.
Definition maxAckedByLen : Z := 256.
Definition maxAckNoteLen : Z := 2048.
Definition maxGlobLen : Z := 256.

Definition AnonymousPrincipal : string := "anonymous".

Definition principalOf (principal : option string) : string :=
  match principal with
  | Some p => if String.eqb p "" then AnonymousPrincipal else p
  | None => AnonymousPrincipal
  end.

Definition validTagName (s : string) : bool :=
  if String.eqb s "" || (maxTagNameLen <? len s) || HasPrefix s "refs/" then false
  else string_forall (λ r, negb ((N_of_ascii r <=? 32) || (N_of_ascii r =? 127))%N) s.

(** [^[0-9a-f]{40}$|^[0-9a-f]{64}$] *)
Definition reOID (s : string) : bool :=
  ((len s =? 40) || (len s =? 64)) && string_forall lower_hex_byte s.

(** The loop of [matchGlob] over the middle parts: leftmost occurrence of each. *)
Fixpoint match_parts (parts : list string) (name : string) : option string :=
  match parts with
  | [] => Some name
  | p :: parts =>
      match Index name p with
      | None => None
      | Some idx => match_parts parts (sdrop (idx + String.length p) name)
      end
  end.

Definition matchGlob (pattern name : string) : bool :=
  if String.eqb pattern "*" || String.eqb pattern "" then true
  else match Split pattern "*" with
       | [] | [_] => String.eqb name pattern
       | p0 :: rest =>
           if negb (HasPrefix name p0) then false
           else match match_parts (removelast rest) (sdrop (String.length p0) name) with
                | None => false
                | Some name => HasSuffix name (List.last rest "")
                end
       end.

(** [id*10 + int64(ch-'0')] wraps. *)
Fixpoint parse_digits (s : string) (id : Z) : option Z :=
  match s with
  | EmptyString => Some id
  | String ch s =>
      let n := Z.of_N (N_of_ascii ch) in
      if (n <? 48) || (57 <? n) then None else parse_digits s (wrap64 (id * 10) +w (n - 48))%go
  end.

Definition parseID (s : string) : option Z :=
  match parse_digits s 0 with
  | None => None
  | Some id => if String.eqb s "" then None else Some id
  end.

Definition page_limit (limit : option Z) : Z :=
  let l := match limit with
           | Some l => if 0 <? l then l else 100
           | None => 100
           end in
  if 1000 <? l then 1000 else l.

(** * Handlers *)

(** Inspect the error of a call. *)
Definition catch {S A} (m : SE S error A) : SE S error (res A) := λ s,
  match m s with
  | Ok (a, s') => Ok (Ok a, s')
  | Err e => Ok (Err e, s)
  end.

Section handlers.
  Context {S T : Type} `{Store S T}.
  Variable NormalizeURL : string → res string.

(** Every handler under [/v1/remotes/{remoteId}] starts by reading the remote. *)
Definition with_remote {A} (id : Z) (k : Remote → SE S error (response A)) : SE S error (response A) :=
  r ← catch (st_GetRemote id);
  match r with
  | Ok r => k r
  | Err ErrNotFound => mret (Refused 404 "remote not found")
  | Err e => throw e
  end.

Definition ListRemotes (url : option string) (limit cursor : option Z) : SE S error (response (page oRemote)) :=
  match url ≫= nonempty with
  | Some u =>
      let normURL := match NormalizeURL u with Ok n => n | Err _ => u end in
      r ← catch (st_GetRemoteByURL normURL);
      match r with
      | Ok r => mret (Success 200 (mkPage [remoteToOAPI r] None))
      | Err ErrNotFound => mret (Success 200 (mkPage [] None))
      | Err e => throw e
      end
  | None =>
      p ← st_ListRemotes (page_limit limit) (default 0 cursor);
      mret (Success 200 (mkPage (map remoteToOAPI p.1) (Some p.2)))
  end.

Definition CreateRemote (now : Z) (body : option CreateRemoteRequest) : SE S error (response oRemote) :=
  match body with
  | None => mret (Refused 422 "url is required")
  | Some body =>
      if String.eqb (cr_Url body) "" then mret (Refused 422 "url is required")
      else if String.eqb (cr_Transport body) "" then mret (Refused 422 "transport is required")
      else match NormalizeURL (cr_Url body) with
           | Err ErrBadURL => mret (Refused 422 "bad url")
           | Err e => throw e
           | Ok normURL =>
               let transport := cr_Transport body in
               if negb (String.eqb transport TransportHTTPS || String.eqb transport TransportSSH)
               then mret (Refused 422 "transport must be https or ssh")
               else
                 let syncInterval := match cr_SyncIntervalNs body with
                                     | Some i => if 0 <? i then i else 5 * 60 * 1000000000
                                     | None => 5 * 60 * 1000000000
                                     end in
                 let syncInterval := if syncInterval <? minSyncInterval then minSyncInterval else syncInterval in
                 let stalenessBudget := match cr_StalenessBudgetNs body with
                                        | Some b => if 0 <? b then b else 60 * 60 * 1000000000
                                        | None => 60 * 60 * 1000000000
                                        end in
                 let taintAnyDeletion := default true (cr_TaintAnyTagDeletion body) in
                 let r id := mkRemote id (cr_Url body) normURL transport syncInterval stalenessBudget taintAnyDeletion
                               None RemoteActive 0 "" 0 genesis_head 0 None now now in
                 id ← catch (st_CreateRemote (r 0));
                 match id with
                 | Ok id => mret (Success 201 (remoteToOAPI (r id)))
                 | Err ErrConflict => mret (Refused 409 "normalized_url already exists")
                 | Err e => throw e
                 end
           end
  end.

Definition GetRemote (id : Z) : SE S error (response oRemote) :=
  with_remote id (λ r, mret (Success 200 (remoteToOAPI r))).

(** The fields of [r] the request names, and the time of the update. *)
Definition apply_update (body : UpdateRemoteRequest) (now : Z) (r : Remote) : Remote :=
  let syncInterval := match ur_SyncIntervalNs body with
                      | Some i => if 0 <? i then (if i <? minSyncInterval then minSyncInterval else i)
                                  else rm_SyncInterval r
                      | None => rm_SyncInterval r
                      end in
  let stalenessBudget := match ur_StalenessBudgetNs body with
                         | Some b => if 0 <? b then b else rm_StalenessBudget r
                         | None => rm_StalenessBudget r
                         end in
  mkRemote (rm_ID r) (rm_URL r) (rm_NormalizedURL r) (rm_Transport r) syncInterval stalenessBudget
    (default (rm_TaintAnyTagDeletion r) (ur_TaintAnyTagDeletion body)) (rm_HashAlgo r)
    (default (rm_Status r) (ur_Status body)) (rm_LastOkNS r) (rm_LastErr r) (rm_ConsecutiveFailures r)
    (rm_ChainHeadHash r) (rm_ChainLen r) (rm_RemovedAtNS r) (rm_CreatedAtNS r) now.

(** The write half of the PATCH handler, on the row [r] it has read. *)
Definition update_remote_write (now : Z) (body : UpdateRemoteRequest) (r : Remote) : SE S error (response oRemote) :=
  let r' := apply_update body now r in
  u ← catch (st_UpdateRemote r');
  match u with
  | Ok _ => mret (Success 200 (remoteToOAPI r'))
  | Err ErrNotFound => mret (Refused 404 "remote not found")
  | Err e => throw e
  end.

Definition UpdateRemote (now id : Z) (body : option UpdateRemoteRequest) : SE S error (response oRemote) :=
  with_remote id (λ r,
    match body with
    | None => mret (Success 200 (remoteToOAPI r))
    | Some body => update_remote_write now body r
    end).

Definition DeleteRemote (now id : Z) : SE S error (response ()) :=
  with_remote id (λ _,
    _ ← st_SoftDeleteRemote id now;
    mret (Success 204 ())).

(** ** Forced syncs: the in-memory cooldown map *)

Definition allowForcedSync (last : gmap Z Z) (remoteID nowNS : Z) : bool * gmap Z Z :=
  match last !! remoteID with
  | Some l => if (nowNS -w l <? minForcedSyncInterval)%go then (false, last) else (true, <[remoteID := nowNS]> last)
  | None => (true, <[remoteID := nowNS]> last)
  end.

(** The response, whether a background sync starts, and the cooldown map. *)
Definition TriggerSync (has_syncer : bool) (last : gmap Z Z) (now id : Z)
    : SE S error (response () * bool * gmap Z Z) :=
  r ← catch (st_GetRemote id);
  match r with
  | Err ErrNotFound => mret (Refused 404 "remote not found", false, last)
  | Err e => throw e
  | Ok _ =>
      if has_syncer then
        let '(ok, last') := allowForcedSync last id now in
        if ok then mret (Success 202 (), true, last')
        else mret (Refused 429 "forced sync rate-limited; cooldown not elapsed", false, last')
      else mret (Success 202 (), false, last)
  end.

Definition ListSyncs (id : Z) (limit cursor : option Z) : SE S error (response (page oSyncEntry)) :=
  with_remote id (λ _,
    p ← st_ListSyncs id (page_limit limit) (default 0 cursor);
    mret (Success 200 (mkPage (map syncToOAPI p.1) (if 0 <? p.2 then Some p.2 else None)))).

(** ** Tags *)

Definition tag_selected (glob taintedFilter : string) (r : Ref) : bool :=
  negb (negb (String.eqb glob "") && negb (matchGlob glob (rf_TagName r)))
  && (if String.eqb taintedFilter "only" then rf_Tainted r
      else if String.eqb taintedFilter "never" then negb (rf_Tainted r) else true).

(** Cursor and limit are applied after filtering. *)
Definition tag_page (limit cursor : Z) (items : list oTag) : page oTag :=
  let filtered := List.filter (λ it, cursor <? otg_Id it) items in
  if limit <? Z.of_nat (length filtered) then
    mkPage (take (Z.to_nat limit) filtered)
      (Some (match filtered !! Z.to_nat (limit - 1) with Some it => otg_Id it | None => 0 end))
  else mkPage filtered (Some 0).

Definition ListTags (id : Z) (params : ListTagsParams) : SE S error (response (page oTag)) :=
  with_remote id (λ _,
    if match lt_Q params with Some q => maxGlobLen <? len q | None => false end
    then mret (Refused 422 "q exceeds 256 bytes")
    else
      refs ← st_ListTags id;
      let items := map tagToOAPI
        (List.filter (tag_selected (default "" (lt_Q params)) (default "any" (lt_Tainted params))) refs) in
      mret (Success 200 (tag_page (page_limit (lt_Limit params)) (default 0 (lt_Cursor params)) items))).

Definition GetTag (id : Z) (tagName : string) : SE S error (response oTag) :=
  with_remote id (λ _,
    if negb (validTagName tagName) then mret (Refused 404 "tag not found")
    else
      ref ← catch (st_GetRef id tagName);
      match ref with
      | Ok ref => mret (Success 200 (tagToOAPI ref))
      | Err ErrNotFound => mret (Refused 404 "tag not found")
      | Err e => throw e
      end).

(** ** Taint events *)

Definition ListTaintEvents (id : Z) (limit cursor : option Z) : SE S error (response (page oTaintEvent)) :=
  with_remote id (λ _,
    p ← st_ListTaintEvents id (page_limit limit) (default 0 cursor);
    mret (Success 200 (mkPage (map taintEventToOAPI p.1) (Some p.2)))).

Definition AckTaintEvent (now : Z) (principal : option string) (id eventId : Z) (body : option AckRequest)
    : SE S error (response ()) :=
  with_remote id (λ _,
    let ackedBy := match body with
                   | Some b => if String.eqb (ak_AckedBy b) "" then principalOf principal else ak_AckedBy b
                   | None => principalOf principal
                   end in
    let note := default "" (body ≫= ak_AckNote) in
    if (maxAckedByLen <? len ackedBy) || (maxAckNoteLen <? len note)
    then mret (Refused 422 "acked_by must be <=256 and ack_note <=2048 bytes")
    else
      a ← catch (st_AckTaintEvent eventId ackedBy note now);
      match a with
      | Ok _ => mret (Success 204 ())
      | Err ErrNotFound => mret (Refused 404 "taint event not found")
      | Err ErrConflict => mret (Refused 409 "already acknowledged")
      | Err e => throw e
      end).

(** ** Verify *)

(** How fresh the server's knowledge of [remote] is. *)
Definition confidence_of (now : Z) (remote : Remote) : Confidence :=
  if (0 <? rm_StalenessBudget remote) && (0 <? rm_LastOkNS remote) then
    if (rm_StalenessBudget remote <? now -w rm_LastOkNS remote)%go || (0 <? rm_ConsecutiveFailures remote)
    then ConfStale else ConfAuthoritative
  else if rm_LastOkNS remote =? 0 then ConfStale
  else ConfAuthoritative.

Definition sync_outcome_of (remote : Remote) : string :=
  if 0 <? rm_ConsecutiveFailures remote then "failed"
  else if 0 <? rm_LastOkNS remote then "ok" else "never".

Definition status_of (ref : Ref) (suppliedCommit : string) : VerifyStatus :=
  if rf_Tainted ref then StatusTainted
  else if negb (String.eqb suppliedCommit "") then
    let recordedCommit :=
      if negb (IsZero (rf_CurrentPeeledOID ref)) then Hex (rf_CurrentPeeledOID ref)
      else if negb (IsZero (rf_CurrentOID ref)) then Hex (rf_CurrentOID ref) else "" in
    if negb (String.eqb recordedCommit "") && negb (String.eqb recordedCommit suppliedCommit)
    then StatusMismatch else StatusOK
  else StatusOK.

(** The remote a request names: a numeric id first, then a (normalized) url.  An
    error of the store counts as not found. *)
Definition resolve_remote (remoteParam : string) : SE S error (option Remote) :=
  byID ← match parseID remoteParam with
         | Some id => catch (st_GetRemote id)
         | None => mret (Err ErrNotFound)
         end;
  match byID with
  | Ok r => mret (Some r)
  | Err _ =>
      let normURL := match NormalizeURL remoteParam with Ok n => n | Err _ => "" end in
      let normURL := if String.eqb normURL "" then remoteParam else normURL in
      r ← catch (st_GetRemoteByURL normURL);
      mret (match r with Ok r => Some r | Err _ => None end)
  end.

(** The answer once remote and commit are resolved. *)
Definition verify_tag (now : Z) (remote : Remote) (tag suppliedCommit : string) : SE S error (response VerifyResponse) :=
  let confidence := confidence_of now remote in
  let remoteInfo := Some (rm_ID remote, rm_NormalizedURL remote) in
  let lastSynced := Some (rm_LastOkNS remote) in
  let outcome := Some (sync_outcome_of remote) in
  ref ← catch (st_GetRef (rm_ID remote) tag);
  match ref with
  | Err ErrNotFound =>
      mret (Success 200 (mkVerifyResp StatusDoesntExist confidence tag remoteInfo None None lastSynced outcome None None))
  | Err e => throw e
  | Ok ref =>
      let recorded := mkVerifyRecorded (Some (rf_FirstSeenNS ref)) (Some (rf_LastSeenNS ref))
                        (nonzero_hex (rf_CurrentOID ref)) (nonzero_hex (rf_CurrentPeeledOID ref)) in
      let taint := if rf_Tainted ref then Some (mkVerifyTaint (rf_TaintFirstNS ref) None None None) else None in
      proof ← catch (st_LatestObservationForRef (rf_ID ref));
      let ledgerProof := match proof with
                         | Ok p => Some (mkVerifyProof (pf_RemoteID p) (EncodeToString (pf_RowHash p)) (pf_Seq p))
                         | Err _ => None
                         end in
      mret (Success 200 (mkVerifyResp (status_of ref suppliedCommit) confidence tag remoteInfo (Some recorded)
                           (nonempty suppliedCommit) lastSynced outcome taint ledgerProof))
  end.

Definition Verify (now : Z) (p : VerifyParams) : SE S error (response VerifyResponse) :=
  if negb (validTagName (vp_Tag p)) then mret (Refused 422 "invalid tag name")
  else if maxRemoteParamLen <? len (vp_Remote p) then mret (Refused 422 "remote exceeds 2048 bytes")
  else
    let commit := match vp_Commit p ≫= nonempty with
                  | None => Some ""
                  | Some c => let c := ToLower c in if reOID c then Some c else None
                  end in
    match commit with
    | None => mret (Refused 422 "commit must be 40 or 64 hex chars")
    | Some suppliedCommit =>
        if String.eqb (vp_Remote p) "" then mret (Refused 422 "remote is required")
        else
          remote ← resolve_remote (vp_Remote p);
          match remote with
          | None =>
              mret (Success 200 (mkVerifyResp StatusNotTracked ConfAuthoritative (vp_Tag p) None None None None None None None))
          | Some remote => verify_tag now remote (vp_Tag p) suppliedCommit
          end
    end.

End handlers.
