(* ===== verification/HandlersProps.v ===== *)
(** Properties of the HTTP API: the verdict of GET /v1/verify on the SQLite store,
    end to end with the syncer; tag globs, numeric ids, listing pages, the forced
    sync cooldown, and the PATCH handler's race with a sync. *)
From S2P Require Import Prelude GoStrings Sha256 Model Chain SyncDiff Sqlc StoreSpec SqliteStore SqliteTx SqliteSpec.
From S2P Require Import Lock SyncRemote SyncCorrect SyncProps Handlers.
#[local] Open Scope Z_scope.

(** * Globs *)

(** The usual meaning of a glob whose only wildcard is the star. *)
Inductive glob_match : string → string → Prop :=
  | glob_nil : glob_match "" ""
  | glob_char c p s : c ≠ "*"%char → glob_match p s → glob_match (String c p) (String c s)
  | glob_star_stop p s : glob_match p s → glob_match (String "*" p) s
  | glob_star_skip p c s : glob_match (String "*" p) s → glob_match (String "*" p) (String c s).

(** The parts occur one after the other, the last one at the end. *)
Fixpoint spread (parts : list string) (s : string) : Prop :=
  match parts with
  | [] => s = ""
  | p :: parts => ∃ gap rest, s = gap +:+ p +:+ rest ∧ spread parts rest
  end.

Lemma glob_star_iff p s : glob_match (String "*" p) s ↔ ∃ gap rest, s = gap +:+ rest ∧ glob_match p rest.
Proof.
  split.
  - remember (String "*" p) as q eqn:Eq. induction 1 as [|c q s Hc H IH|q s H IH|q c s H IH]; try done.
    + injection Eq as -> _. done.
    + injection Eq as ->. by exists "", s.
    + destruct (IH Eq) as (gap & rest & -> & ?). by exists (String c gap), rest.
  - intros (gap & rest & -> & H). induction gap as [|c gap IH]; cbn; [by apply glob_star_stop|by apply glob_star_skip].
Qed.

Lemma glob_match_parts pattern name :
  glob_match pattern name ↔
  match Split pattern "*" with
  | [] => False
  | p0 :: rest => ∃ t, name = p0 +:+ t ∧ spread rest t
  end.
Proof.
  revert name. induction pattern as [|c pattern IH]; intros name.
  - cbn. split; [inversion 1; by exists ""|]. intros (t & -> & ->). constructor.
  - cbn [Split]. destruct (Ascii.eqb_spec c "*") as [->|Hc].
    + rewrite glob_star_iff. pose proof (Split_ne pattern "*"). destruct (Split pattern "*") as [|p0 rest]; [done|]. cbn [spread].
      split.
      * intros (gap & s & -> & Hs). apply IH in Hs as (t & -> & Ht). exists (gap +:+ p0 +:+ t). split; [done|]. eauto.
      * intros (t & -> & gap & s & -> & Hs). exists gap, (p0 +:+ s). split; [done|]. apply IH. eauto.
    + pose proof (Split_ne pattern "*"). destruct (Split pattern "*") as [|p0 rest]; [done|]. split.
      * inversion 1 as [|c' q s' Hc' Hm| |]; subst; try done. apply IH in Hm as (t & -> & Ht). by exists t.
      * intros (t & -> & Ht). cbn. apply glob_char; [done|]. apply IH. eauto.
Qed.

Lemma spread_prepend parts x s : parts ≠ [] → spread parts s → spread parts (x +:+ s).
Proof.
  destruct parts as [|p parts]; [done|]. intros _ (gap & rest & -> & H). exists (x +:+ gap), rest.
  by rewrite append_assoc.
Qed.

(** Taking the leftmost occurrence of each part loses no match. *)
Lemma match_parts_spec mids last s :
  spread (mids ++ [last]) s ↔
  match match_parts mids s with
  | Some s' => HasSuffix s' last = true
  | None => False
  end.
Proof.
  revert s. induction mids as [|p mids IH]; intros s; cbn [app match_parts spread].
  - rewrite HasSuffix_spec. split.
    + intros (gap & rest & -> & ->). exists gap. by rewrite append_nil_r.
    + intros (t & ->). exists t, "". by rewrite append_nil_r.
  - split.
    + intros (gap & rest & Hs & Hrest). destruct (Index_leftmost s p gap rest Hs) as (i & Hi & Hle). rewrite Hi. apply IH.
      destruct (Index_Some _ _ _ Hi) as (pre & post & Hs' & Hlen & Hd). rewrite Hd.
      assert (∃ x, post = x +:+ rest) as (x & ->); [|apply spread_prepend; [by destruct mids|done]].
      exists (sdrop (String.length pre + String.length p) (gap +:+ p)).
      assert (post = sdrop (String.length pre + String.length p) s) as -> by (by rewrite Hlen).
      rewrite Hs, append_assoc. apply sdrop_app_le. rewrite append_length. lia.
    + destruct (Index s p) as [i|] eqn:Hi; [|done]. rewrite <- IH.
      destruct (Index_Some _ _ _ Hi) as (pre & post & Hs' & Hlen & Hd). rewrite Hd. eauto.
Qed.

(** * Numeric ids *)

(** Decimal digits, most significant first. *)
Lemma parse_digits_app a b acc : parse_digits (a +:+ b) acc = parse_digits a acc ≫= parse_digits b.
Proof. revert acc. induction a as [|c a IH]; intros acc; [done|]. cbn. destruct (_ || _); [done|]. apply IH. Qed.

Lemma parse_digits_char n acc :
  (n < 10)%N → parse_digits (String (pretty_N_char n) "") acc = Some (wrap64 (acc * 10) +w Z.of_N n)%go.
Proof.
  intros Hn. assert (n ∈ [0;1;2;3;4;5;6;7;8;9]%N) as H by (rewrite !elem_of_cons; lia).
  rewrite !elem_of_cons in H. destruct_or?; subst; try done. by apply elem_of_nil in H.
Qed.

Lemma parse_digits_pretty_go x s :
  (0 < x)%N → (Z.of_N x < 2 ^ 63) → parse_digits (pretty_N_go x s) 0 = parse_digits s (Z.of_N x).
Proof.
  revert s. induction (N.lt_wf_0 x) as [x _ IH]. intros s Hpos Hlt.
  rewrite pretty_N_go_step by done.
  assert (x mod 10 < 10)%N as Hm by (apply N.mod_lt; done).
  assert (x = 10 * (x / 10) + x mod 10)%N as Hx by (apply N.div_mod'; done).
  assert (∀ q m, (m < 10)%N → x = (10 * q + m)%N →
    parse_digits (String (pretty_N_char m) "" +:+ s) (Z.of_N q) = parse_digits s (Z.of_N x)) as Hstep.
  { intros q m Hm' Hx'. rewrite parse_digits_app, parse_digits_char by done. cbn [mbind option_bind]. f_equal.
    rewrite (wrap64_id (Z.of_N q * 10)) by (unfold int64_ok; lia). rewrite wrap64_id by (unfold int64_ok; lia). lia. }
  destruct (decide (x / 10 = 0)%N) as [Hz|Hz].
  - rewrite Hz, pretty_N_go_0. rewrite Hz in Hx. apply (Hstep 0%N (x mod 10)%N); done.
  - assert (x / 10 < x)%N by (apply N.div_lt; lia).
    rewrite IH by lia. apply (Hstep (x / 10)%N (x mod 10)%N); done.
Qed.

Lemma parseID_FormatInt z : 0 ≤ z < 2 ^ 63 → parseID (FormatInt z) = Some z.
Proof.
  intros Hz. unfold parseID, FormatInt. destruct z as [|x|x]; [done| |lia].
  change (pretty (Z.pos x)) with (pretty_N_go (N.pos x) "").
  rewrite parse_digits_pretty_go by lia. cbn [parse_digits].
  destruct (String.eqb_spec (pretty_N_go (N.pos x) "") "") as [E|]; [|done].
  assert (parse_digits (pretty_N_go (N.pos x) "") 0 = Some (Z.pos x)) as H by (by apply parse_digits_pretty_go; lia).
  rewrite E in H. done.
Qed.

(** * Forced syncs *)

(** Requests [(remote, time)] in arrival order; the accepted ones. *)
Fixpoint forced_run (last : gmap Z Z) (reqs : list (Z * Z)) : list (Z * Z) :=
  match reqs with
  | [] => []
  | (id, now) :: reqs =>
      let '(ok, last') := allowForcedSync last id now in
      if ok then (id, now) :: forced_run last' reqs else forced_run last' reqs
  end.

Definition spaced (last : gmap Z Z) (accepted : list (Z * Z)) : Prop :=
  ∀ id t, last !! id = Some t → ∀ t', (id, t') ∈ accepted → t + minForcedSyncInterval ≤ t'.

Lemma forced_run_spaced last reqs :
  (∀ id t, last !! id = Some t → 0 ≤ t < 2 ^ 62) → (∀ id t, (id, t) ∈ reqs → 0 ≤ t < 2 ^ 62) →
  spaced last (forced_run last reqs) ∧
  ∀ id l1 t1 l2 t2 l3, forced_run last reqs = l1 ++ (id, t1) :: l2 ++ (id, t2) :: l3 → t1 + minForcedSyncInterval ≤ t2.
Proof.
  revert last. induction reqs as [|[id now] reqs IH]; intros last Hlast Hreq.
  { split; [intros ???? ?%elem_of_nil; done|]. intros ? []; done. }
  assert (0 ≤ now < 2 ^ 62) as Hnow by (apply (Hreq id); left).
  assert (∀ id t, (id, t) ∈ reqs → 0 ≤ t < 2 ^ 62) as Hreq' by (intros i t Hi; apply (Hreq i); by right).
  assert (∀ i t, <[id := now]> last !! i = Some t → 0 ≤ t < 2 ^ 62) as Hlast'.
  { intros i t [[<- <-]|[_ Hi]]%lookup_insert_Some; [done|]. by apply (Hlast i). }
  assert ((∀ t, last !! id = Some t → t + minForcedSyncInterval ≤ now) →
    spaced last ((id, now) :: forced_run (<[id := now]> last) reqs) ∧
    ∀ i l1 t1 l2 t2 l3, (id, now) :: forced_run (<[id := now]> last) reqs = l1 ++ (i, t1) :: l2 ++ (i, t2) :: l3 →
      t1 + minForcedSyncInterval ≤ t2) as Haccept.
  { intros Hgap. destruct (IH _ Hlast' Hreq') as [Hsp Hpair]. split.
    - intros i t Hi t' [[= -> ->]|Hin]%elem_of_cons; [by apply Hgap|]. destruct (decide (i = id)) as [->|Hne].
      + specialize (Hgap _ Hi). specialize (Hsp id now ltac:(apply lookup_insert_eq) t' Hin). unfold minForcedSyncInterval in *. lia.
      + apply (Hsp i t); [by rewrite lookup_insert_ne|done].
    - intros i [|x l1] t1 l2 t2 l3 E; cbn in E.
      + injection E as <- <- E. apply (Hsp id now); [apply lookup_insert_eq|]. rewrite E. set_solver.
      + injection E as <- E. by eapply Hpair. }
  cbn [forced_run]. unfold allowForcedSync. destruct (last !! id) as [t|] eqn:Et; [|apply Haccept; done].
  pose proof (Hlast id t Et). rewrite wrap64_id by (unfold int64_ok; lia).
  destruct (Z.ltb_spec (now - t) minForcedSyncInterval); [apply IH; done|].
  apply Haccept. intros t0 [= <-]. lia.
Qed.

(** * Verify on the SQLite store *)

Lemma remote_key d id r : a_remotes (db_abs d) !! id = Some r → rm_ID r = id.
Proof. intros (x & _ & <- & <-)%tmap_inv. reflexivity. Qed.

(** Reading the latest ledger row changes nothing, found or not. *)
Lemma catch_latest id d : ∃ r, catch (SqliteStore.LatestObservationForRef id) d = Ok (r, d).
Proof.
  unfold catch, SqliteStore.LatestObservationForRef, Sqlc.LatestObservationForRef, run_with, one, mbind, SE_bind.
  destruct (head _) as [o|]; cbn; eauto.
Qed.

(** The commit a request supplies, in lower case; none when it is not an object id. *)
Definition commit_of (c : option string) : option string :=
  match c ≫= nonempty with
  | None => Some ""
  | Some c => if reOID (ToLower c) then Some (ToLower c) else None
  end.

(** The request passes the parameter checks. *)
Definition well_formed (p : VerifyParams) : Prop :=
  validTagName (vp_Tag p) = true ∧ len (vp_Remote p) ≤ maxRemoteParamLen ∧ vp_Remote p ≠ "" ∧
  is_Some (commit_of (vp_Commit p)).

Lemma Verify_resolved NormalizeURL now p d rem c :
  db_ok d → well_formed p → commit_of (vp_Commit p) = Some c →
  resolve_remote (S := db) (T := sqliteTx) NormalizeURL (vp_Remote p) d = Ok (Some rem, d) →
  Verify (S := db) (T := sqliteTx) NormalizeURL now p d = verify_tag (S := db) (T := sqliteTx) now rem (vp_Tag p) c d.
Proof.
  intros Hok (Ht & Hl & Hne & _) Hc Hr. unfold Verify. rewrite Ht. cbn [negb].
  destruct (Z.ltb_spec maxRemoteParamLen (len (vp_Remote p))); [lia|]. unfold commit_of in Hc. rewrite Hc.
  destruct (String.eqb_spec (vp_Remote p) ""); [done|]. unfold mbind, SE_bind. by rewrite Hr.
Qed.

Lemma resolve_by_id NormalizeURL param d id rem :
  db_ok d → parseID param = Some id → a_remotes (db_abs d) !! id = Some rem →
  resolve_remote (S := db) (T := sqliteTx) NormalizeURL param d = Ok (Some rem, d).
Proof.
  intros Hok Hp Hrem. unfold resolve_remote. rewrite Hp. unfold catch, mbind, SE_bind.
  rewrite (get_remote_spec (S := db) (T := sqliteTx)) by done. cbn [s_abs sqlite_store_spec]. by rewrite Hrem.
Qed.

Lemma verify_tag_run now rem d tag c :
  db_ok d → 
  ∃ resp, verify_tag (S := db) (T := sqliteTx) now rem tag c d = Ok (Success 200 resp, d) ∧
    vr_Confidence resp = confidence_of now rem ∧ vr_SyncOutcome resp = Some (sync_outcome_of rem) ∧
    vr_Status resp = match a_refs (db_abs d) !! (rm_ID rem, tag) with
                     | None => StatusDoesntExist
                     | Some ref => status_of ref c
                     end.
Proof.
  intros Hok. unfold verify_tag, mbind, SE_bind. unfold catch at 1.
  rewrite (get_ref_spec (S := db) (T := sqliteTx)) by done. change (s_abs d) with (db_abs d).
  destruct (a_refs (db_abs d) !! (rm_ID rem, tag)) as [ref|]; [|by eexists].
  destruct (catch_latest (rf_ID ref) d) as [r Hr]. cbn [st_LatestObservationForRef sqlite_store]. rewrite Hr. by eexists.
Qed.

(** The commit the store holds for a tag: the peeled id, or the id of the ref itself. *)
Definition recorded_commit (ref : Ref) : option OID :=
  if IsZero (rf_CurrentPeeledOID ref) then if IsZero (rf_CurrentOID ref) then None else Some (rf_CurrentOID ref)
  else Some (rf_CurrentPeeledOID ref).

Lemma Hex_nonempty o : IsZero o = false → Hex o ≠ "".
Proof.
  unfold IsZero, Hex. destruct (Raw o) as [|b l] eqn:E; [done|]. intros _ H.
  apply (f_equal String.length) in H. rewrite length_EncodeToString in H. cbn in H. lia.
Qed.

Lemma status_of_cases ref c :
  (status_of ref c = StatusTainted ↔ rf_Tainted ref = true) ∧
  (status_of ref c = StatusMismatch ↔ rf_Tainted ref = false ∧ c ≠ "" ∧ ∃ o, recorded_commit ref = Some o ∧ Hex o ≠ c) ∧
  (status_of ref c = StatusOK ↔ rf_Tainted ref = false ∧ (c = "" ∨ ∀ o, recorded_commit ref = Some o → Hex o = c)) ∧
  status_of ref c ≠ StatusDoesntExist.
Proof.
  unfold status_of, recorded_commit. destruct (rf_Tainted ref); [naive_solver|].
  destruct (String.eqb_spec c "") as [->|Hc]; cbn [negb]; [naive_solver|].
  destruct (IsZero (rf_CurrentPeeledOID ref)) eqn:E1; cbn [negb].
  - destruct (IsZero (rf_CurrentOID ref)) eqn:E2; cbn; [naive_solver|]. apply Hex_nonempty in E2.
    destruct (String.eqb_spec (Hex (rf_CurrentOID ref)) ""); [done|].
    destruct (String.eqb_spec (Hex (rf_CurrentOID ref)) c); cbn; naive_solver.
  - apply Hex_nonempty in E1. destruct (String.eqb_spec (Hex (rf_CurrentPeeledOID ref)) ""); [done|].
    destruct (String.eqb_spec (Hex (rf_CurrentPeeledOID ref)) c); cbn; naive_solver.
Qed.

(** One more sync, of any remote, with any outcome of git. *)
Definition sync_step (d d' : db) : Prop :=
  ∃ LsRemote error_text range holder rd rid res e,
    (∀ u lsRefs, LsRemote u = Ok lsRefs → Forall ls_wf lsRefs ∧ NoDup (ls_Name <$> lsRefs)) ∧
    (∀ m, range m ≡ₚ map_to_list m) ∧
    SyncRemote (T := sqliteTx) LsRemote error_text range holder rd rid d = (res, e, d').

Lemma sync_steps_keep_taint d d' k r :
  rtc sync_step d d' → db_good d → a_refs (db_abs d) !! k = Some r → rf_Tainted r = true →
  db_good d' ∧ ∃ r', a_refs (db_abs d') !! k = Some r' ∧ rf_Tainted r' = true.
Proof.
  intros Hsteps. revert r. induction Hsteps as [d|d d1 d' Hstep _ IH]; intros r Hgood Hr Ht; [eauto|].
  destruct Hstep as (LsRemote & et & range & holder & rd & rid & res & e & Hgit & Hrange & Hrun).
  destruct (sync_preserves LsRemote et range holder rd rid d res e d1 Hgood Hgit Hrange Hrun) as (Hgood1 & _ & _ & Hkeep).
  destruct (Hkeep k r Hr Ht) as (r1 & Hr1 & Ht1 & _). by apply (IH r1).
Qed.

(** * Properties *)


Definition sample_params : VerifyParams := mkVerifyParams "1" "v1" (Some (Hex oid_a)).


(** A rewritten tag is reported forever: after a sync that saw the tag's id
    change, and after any number of further syncs of any remotes with any outcome,
    GET /v1/verify says [tainted], whatever commit the caller supplies. *)
Theorem moved_tag_reported_forever LsRemote error_text range holder rd rid d rem lsRefs now p d' norm t params :
  db_good d → a_remotes (db_abs d) !! rid = Some rem → lease_free (db_abs d) rid (rd_lease rd) →
  LsRemote (rm_URL rem) = Ok lsRefs → Forall ls_wf lsRefs → NoDup (ls_Name <$> lsRefs) →
  (∀ m, range m ≡ₚ map_to_list m) →
  now ∈ lsRefs → a_refs (db_abs d) !! (rid, ls_Name now) = Some p → ls_OID now ≠ rf_CurrentOID p →
  rtc sync_step (SyncRemote (T := sqliteTx) LsRemote error_text range holder rd rid d).2 d' →
  well_formed params → vp_Tag params = ls_Name now → parseID (vp_Remote params) = Some rid →
  ∃ resp, Verify (S := db) (T := sqliteTx) norm t params d' = Ok (Success 200 resp, d') ∧ vr_Status resp = StatusTainted.
Proof.
  intros Hgood Hrem Hfree Hls Hwf Hnd Hrange Hnow Hp Hmoved Hlater Hparams Htag Hid.
  destruct (sync_moved LsRemote error_text range holder rd rid d rem lsRefs now p)
    as (res & d1 & ref & Hrun & Hgood1 & Href & Ht & _); [done..|]. rewrite Hrun in Hlater.
  destruct (sync_steps_keep_taint d1 d' _ _ Hlater Hgood1 Href Ht) as (Hgood' & ref' & Href' & Ht').
  destruct (db_good_ref_remote _ _ _ _ Hgood' Href') as [rem' Hrem']. pose proof Hparams as (_ & _ & _ & c & Hc).
  rewrite (Verify_resolved _ _ _ _ rem' c (proj1 Hgood') Hparams Hc) by (eapply resolve_by_id; [apply Hgood'|done..]).
  destruct (verify_tag_run t rem' d' (vp_Tag params) c (proj1 Hgood')) as (resp & Hv & _ & _ & Hst).
  exists resp. split; [done|]. rewrite Hst, (remote_key _ _ _ Hrem'), Htag, Href'. by apply status_of_cases.
Qed.

Lemma moved_tag_reported_forever_witness : ∃ resp d',
  Verify (S := db) (T := sqliteTx) (λ _, Err ErrBadURL) 20 sample_params d' = Ok (Success 200 resp, d') ∧
  vr_Status resp = StatusTainted.
Proof.
  destruct (moved_tag_reported_forever (λ _, Ok (listing oid_b)) no_text map_to_list "w" (sample_readings 500000000000) 1
    sample_db1 sample_remote1 (listing oid_b) (mkLsRef "v1" oid_b zeroOID false) sample_tag1
    (SyncRemote (T := sqliteTx) (λ _, Ok (listing oid_b)) no_text map_to_list "w" (sample_readings 500000000000) 1 sample_db1).2
    (λ _, Err ErrBadURL) 20 sample_params) as (resp & Hrun & Hst).
  - apply sample_db1_good.
  - vm_compute. reflexivity.
  - intros l Hl. vm_compute in Hl. discriminate Hl.
  - reflexivity.
  - apply listing_wf, oid_b_wf.
  - apply listing_wf, oid_b_wf.
  - intros m. reflexivity.
  - left.
  - vm_compute. reflexivity.
  - vm_compute. discriminate.
  - apply rtc_refl.
  - split; [reflexivity|]. split; [vm_compute; discriminate|]. split; [discriminate|]. eexists. vm_compute. reflexivity.
  - reflexivity.
  - reflexivity.
  - eexists resp, _. exact (conj Hrun Hst).
Defined.

(** [matchGlob] decides the glob relation: a star stands for any run of
    characters (separators included), every other character for itself; the empty
    pattern matches everything. *)
Theorem match_glob_correct pattern name :
  matchGlob pattern name = true ↔ pattern = "" ∨ glob_match pattern name.
Proof.
  unfold matchGlob. destruct (String.eqb_spec pattern "*") as [->|Hstar]; cbn [orb].
  { split; [|done]. intros _. right. apply glob_star_iff. exists name, "". rewrite append_nil_r. split; [done|constructor]. }
  destruct (String.eqb_spec pattern "") as [->|Hne]; [tauto|].
  trans (glob_match pattern name); [|naive_solver]. rewrite glob_match_parts.
  pose proof (Join_Split pattern "*") as Hj. pose proof (Split_ne pattern "*").
  destruct (Split pattern "*") as [|p0 [|p1 rest]]; [done| |].
  - cbn in Hj. subst p0. rewrite String.eqb_eq. cbn [spread]. split; [intros ->; exists ""; by rewrite append_nil_r|].
    intros (t & -> & ->). by rewrite append_nil_r.
  - assert (∃ mids last, p1 :: rest = mids ++ [last]) as (mids & last & E).
    { destruct (exists_last (l := p1 :: rest)) as (m & x & ->); [done|]. eauto. }
    rewrite E, removelast_last, last_last.
    assert (HasPrefix name p0 = true ↔ ∃ t, name = p0 +:+ t) as Hpre by apply HasPrefix_spec.
    destruct (HasPrefix name p0); cbn [negb].
    + destruct (proj1 Hpre eq_refl) as [t ->]. rewrite sdrop_append.
      trans (spread (mids ++ [last]) t).
      * rewrite match_parts_spec. by destruct (match_parts mids t).
      * split; [eauto|]. intros (t' & Ht & ?). apply append_inj_l in Ht. by subst.
    + split; [done|]. intros (t & Ht & _). assert (false = true) by (apply Hpre; eauto). done.
Qed.

(** A numeric remote parameter in canonical decimal form names the remote with
    that id; from 2^64 on the digits wrap around, so that a number that is no
    [int64] names another remote. *)
Theorem parse_id_canonical :
  (∀ z, 0 ≤ z < 2 ^ 63 → parseID (FormatInt z) = Some z) ∧ parseID (FormatInt (2 ^ 64 + 1)) = Some 1.
Proof. split; [apply parseID_FormatInt|]. vm_compute. reflexivity. Qed.

(** Whatever the order and the remotes of the forced sync requests, two
    accepted requests for one remote are at least the cooldown apart. *)
Theorem forced_sync_cooldown reqs id l1 t1 l2 t2 l3 :
  (∀ i t, (i, t) ∈ reqs → 0 ≤ t < 2 ^ 62) →
  forced_run ∅ reqs = l1 ++ (id, t1) :: l2 ++ (id, t2) :: l3 → t1 + minForcedSyncInterval ≤ t2.
Proof.
  intros Hreq. apply (proj2 (forced_run_spaced ∅ reqs ltac:(intros i t Hi; by rewrite lookup_empty in Hi) Hreq)).
Qed.

Lemma forced_sync_cooldown_witness : 5 + minForcedSyncInterval ≤ 40000000000.
Proof.
  apply (forced_sync_cooldown [(7, 5); (7, 9); (7, 40000000000)] 7 [] 5 [] 40000000000 []).
  - intros i t Hi. rewrite !elem_of_cons in Hi. destruct Hi as [Hi|[Hi|[Hi|Hi]]].
    + injection Hi as _ ->. lia.
    + injection Hi as _ ->. lia.
    + injection Hi as _ ->. lia.
    + apply elem_of_nil in Hi. destruct Hi.
  - vm_compute. reflexivity.
Defined.

(** Two tags whose names sort against the order of their ids. *)
Definition two_tags : list LsRemoteRef := [mkLsRef "b" oid_a zeroOID false; mkLsRef "a" oid_b zeroOID false].
Definition two_tags_db : db := Eval vm_compute in synced two_tags 5 sample_db.

(** Following the cursors of GET .../tags misses tags: the rows come ordered by
    name and the cursor is an id.  With tags [b] (id 1) and [a] (id 2) and pages of
    one, the first page is [a] with cursor 2 and the next page is empty. *)
Theorem tag_pages_skip :
  ∃ pg1 pg2,
    ListTags (S := db) (T := sqliteTx) 1 (mkListTagsParams None None (Some 1) None) two_tags_db = Ok (Success 200 pg1, two_tags_db) ∧
    otg_TagName <$> Items pg1 = ["a"] ∧
    ListTags (S := db) (T := sqliteTx) 1 (mkListTagsParams None None (Some 1) (NextCursor pg1)) two_tags_db
      = Ok (Success 200 pg2, two_tags_db) ∧
    Items pg2 = [] ∧ NextCursor pg2 = Some 0 ∧
    is_Some (a_refs (db_abs two_tags_db) !! (1, "b")).
Proof.
  eexists _, _. split; [vm_compute; reflexivity|]. split; [vm_compute; reflexivity|]. split; [vm_compute; reflexivity|].
  split; [reflexivity|]. split; [reflexivity|]. eexists. vm_compute. reflexivity.
Qed.

(** A PATCH that changes nothing. *)
Definition empty_patch : UpdateRemoteRequest := mkUpdateRemoteRequest None None None None.

(** PATCH /v1/remotes/{id} can undo a sync's ledger head: it writes back the
    whole row it read.  When a sync commits between its read and its write, the
    remote's chain length falls behind its ledger, the next sync that has a tag
    movement to record fails, and GET /v1/verify keeps saying [ok] for the moved tag. *)
Theorem patch_rewinds_chain :
  ∃ r resp d2 res e d3 verified,
    st_GetRemote (S := db) (T := sqliteTx) 1 sample_db = Ok (r, sample_db) ∧
    update_remote_write (S := db) (T := sqliteTx) 30 empty_patch r sample_db1 = Ok (Success 200 resp, d2) ∧
    ¬ chain_ok (db_abs d2) ∧
    SyncRemote (T := sqliteTx) (λ _, Ok (listing oid_b)) no_text map_to_list "w" (sample_readings 500000000000) 1 d2
      = (res, Some e, d3) ∧
    Verify (S := db) (T := sqliteTx) (λ _, Err ErrBadURL) 20 sample_params d3 = Ok (Success 200 verified, d3) ∧
    vr_Status verified = StatusOK.
Proof.
  eexists _, _, _, _, _, _, _. split; [vm_compute; reflexivity|]. split; [vm_compute; reflexivity|].
  split. { intros Hc. destruct (Hc 1 _ ltac:(vm_compute; reflexivity)) as (_ & _ & Hl). vm_compute in Hl. discriminate Hl. }
  split; [vm_compute; reflexivity|]. split; [vm_compute; reflexivity|]. reflexivity.
Qed.

(** A failed sync makes the server's answer look fresh: when [git ls-remote]
    fails, GET /v1/verify afterwards reports confidence [authoritative] and sync
    outcome [ok] until the staleness budget has passed since the failed attempt,
    however old the last successful sync is. *)
Theorem failed_sync_looks_fresh LsRemote error_text range holder rd rid d rem e norm now params c :
  db_good d → a_remotes (db_abs d) !! rid = Some rem → lease_free (db_abs d) rid (rd_lease rd) →
  LsRemote (rm_URL rem) = Err e →
  rm_ConsecutiveFailures rem = 0 → 0 < rd_start rd ≤ now → now - rd_start rd ≤ rm_StalenessBudget rem → now < 2 ^ 63 →
  0 < rm_StalenessBudget rem →
  well_formed params → commit_of (vp_Commit params) = Some c → parseID (vp_Remote params) = Some rid →
  ∃ res d' resp, SyncRemote (T := sqliteTx) LsRemote error_text range holder rd rid d = (res, Some e, d') ∧
    Verify (S := db) (T := sqliteTx) norm now params d' = Ok (Success 200 resp, d') ∧
    vr_Confidence resp = ConfAuthoritative ∧ vr_SyncOutcome resp = Some "ok".
Proof.
  intros [Hok Hgood] Hrem Hfree Hls Hcf Hstart Hbud Hnow Hpos Hwf Hc Hid.
  destruct (SyncRemote_ls_failure (S := db) (T := sqliteTx) LsRemote error_text range holder rd rid d rem e)
    as (d' & Hrun & Hok' & _ & _ & Hrems); try done.
  change (s_abs d') with (db_abs d') in Hrems. change (s_abs d) with (db_abs d) in Hrems.
  set (rem' := set_health rem RemoteDegraded (error_text e) (rd_start rd) (rd_wall rd)).
  assert (a_remotes (db_abs d') !! rid = Some rem') as Hrem' by (by rewrite Hrems, lookup_alter_eq, Hrem).
  destruct (verify_tag_run now rem' d' (vp_Tag params) c Hok') as (resp & Hv & Hconf & Hout & _).
  exists (Some (mkSyncResult 0 SyncFailed 0 0 (rm_ChainHeadHash rem) (rm_ChainHeadHash rem))), d', resp. split; [exact Hrun|].
  rewrite (Verify_resolved _ _ _ _ rem' c Hok' Hwf Hc) by (by eapply resolve_by_id). split; [exact Hv|].
  rewrite Hconf, Hout. unfold confidence_of, sync_outcome_of, rem'. cbn [set_health rm_ConsecutiveFailures rm_LastOkNS rm_StalenessBudget].
  rewrite Hcf. rewrite wrap64_id by (unfold int64_ok; lia).
  destruct (Z.ltb_spec 0 (rm_StalenessBudget rem)), (Z.ltb_spec 0 (rd_start rd)), (Z.ltb_spec (rm_StalenessBudget rem) (now - rd_start rd)); try lia. done.
Qed.

(** The sample remote with a staleness budget of an hour. *)
Definition budget_remote : Remote :=
  mkRemote 1 "https://h/r.git" "https://h/r" TransportHTTPS 300000000000 3600000000000 true None RemoteActive 0 "" 0
    genesis_head 0 None 1 1.
Definition budget_db : db := with_remotes (mkDb [] [] [] [] [] [] 1 0 0 0 0) [remote_row budget_remote 1].

Lemma budget_db_good : db_good budget_db.
Proof.
  assert (SqliteStore.CreateRemote budget_remote empty_db = Ok (1, budget_db)) as H by (vm_compute; reflexivity).
  by apply (CreateRemote_good budget_remote empty_db 1 budget_db empty_db_good eq_refl eq_refl) in H as [? _].
Qed.

Lemma failed_sync_looks_fresh_witness : ∃ res d' resp,
  SyncRemote (T := sqliteTx) (λ _, Err (ErrOther "down")) no_text map_to_list "w" (sample_readings 5) 1 budget_db
    = (res, Some (ErrOther "down"), d') ∧
  Verify (S := db) (T := sqliteTx) (λ _, Err ErrBadURL) 20 sample_params d' = Ok (Success 200 resp, d') ∧
  vr_Confidence resp = ConfAuthoritative ∧ vr_SyncOutcome resp = Some "ok".
Proof.
  apply (failed_sync_looks_fresh (λ _, Err (ErrOther "down")) no_text map_to_list "w" (sample_readings 5) 1 budget_db
    budget_remote (ErrOther "down") (λ _, Err ErrBadURL) 20 sample_params (Hex oid_a)).
  - apply budget_db_good.
  - vm_compute. reflexivity.
  - intros l Hl. vm_compute in Hl. discriminate Hl.
  - reflexivity.
  - reflexivity.
  - cbn. lia.
  - cbn. lia.
  - lia.
  - cbn. lia.
  - split; [reflexivity|]. split; [vm_compute; discriminate|]. split; [discriminate|]. eexists. vm_compute. reflexivity.
  - vm_compute. reflexivity.
  - reflexivity.
Defined.
