(* ===== verification/Consolidate.v ===== *)
(** cmd/git-tainted/main.go: the command line tool.

    [fanOut] asks every configured server, [consolidate] reduces the answers to
    one verdict in one of four modes, and [verdict], [emitMultiHuman] and
    [emitMultiJSON] turn it into output and an exit code.

    [range] is the order of the loops over the tally maps (GoMaps.v).  The reading
    of the clock that [time.Since] takes is the argument [now]. *)
From S2P Require Import Prelude GoStrings GoMaps GoTime.
#[local] Open Scope Z_scope.

(** * Wire types *)

Record remoteInfo : Type := mkRemoteInfo {
  vi_ID : option Z;
  vi_NormalizedURL : option string;
}.
Record recordedInfo : Type := mkRecordedInfo {
  vi_RefOID : option string;
  vi_PeeledCommitOID : option string;
  vi_FirstSeenNS : option Z;
  vi_LastSeenNS : option Z;
}.
Record taintInfo : Type := mkTaintInfo {
  vi_Reason : option string;
  vi_FirstTaintedAtNS : option Z;
  vi_FromOID : option string;
  vi_ToOID : option string;
}.
Record verifyResponse : Type := mkVerifyResponse {
  v_Status : string;
  v_Confidence : string;
  v_Tag : string;
  v_Remote : option remoteInfo;
  v_Recorded : option recordedInfo;
  v_SuppliedCommit : option string;
  v_Taint : option taintInfo;
  v_LastSyncedNS : option Z;
  v_SyncOutcome : option string;
}.

Inductive Mode : Type := ModeQuorum | ModeUnanimous | ModeAnyBad | ModeFirst.

Definition mode_string (m : Mode) : string :=
  match m with
  | ModeQuorum => "quorum"
  | ModeUnanimous => "unanimous"
  | ModeAnyBad => "any-bad"
  | ModeFirst => "first"
  end.

(** [Err] is the text of the error, absent for nil. *)
Record ServerResult : Type := mkServerResult {
  ServerURL : string;
  Reachable : bool;
  Status : string;
  Confidence : string;
  LastSyncedNS : Z;
  SErr : option string;
  resp : option verifyResponse;
}.

Record Consolidated : Type := mkConsolidated {
  FinalStatus : string;
  ExitCode : Z;
  Reason : string;
  Dissent : list ServerResult;
  PerServer : list ServerResult;
  staleOK : bool;
}.

(** * Verdict classes *)

Definition isBad (status : string) : bool := String.eqb status "tainted" || String.eqb status "mismatch".
Definition isGood (status : string) : bool := String.eqb status "ok".
Definition isInconclusive (status : string) : bool :=
  String.eqb status "doesnt_exist" || String.eqb status "not_tracked".

Definition badSeverity (status : string) : Z :=
  if String.eqb status "tainted" then 2 else if String.eqb status "mismatch" then 1 else 0.

Definition statusToExitCode (status : string) : Z :=
  if String.eqb status "ok" then 0
  else if String.eqb status "mismatch" then 3
  else if String.eqb status "tainted" then 4
  else if String.eqb status "doesnt_exist" then 5
  else if String.eqb status "not_tracked" then 6
  else if String.eqb status "no_consensus" then 7
  else 2.

Definition maxLastSynced (servers : list ServerResult) : Z :=
  foldl (λ max r, if max <? LastSyncedNS r then LastSyncedNS r else max) 0 servers.

(** [best] is [servers[0]] and [rest] is [servers[1:]]. *)
Definition freshestBadServer (best : ServerResult) (rest : list ServerResult) : ServerResult :=
  foldl (λ best r,
    if (LastSyncedNS best <? LastSyncedNS r)
       || (LastSyncedNS r =? LastSyncedNS best) && (badSeverity (Status best) <? badSeverity (Status r))
    then r else best) best rest.

(** * Durations in messages *)

Definition format_hms (d : Z) : string :=
  let h := int_of_float64 (Hours d) in
  let m := Z.rem (int_of_float64 (Minutes d)) 60 in
  let s := Z.rem (int_of_float64 (Seconds d)) 60 in
  if 0 <? h then FormatInt h +:+ "h" +:+ FormatInt m +:+ "m"
  else if 0 <? m then FormatInt m +:+ "m" +:+ FormatInt s +:+ "s"
  else FormatInt s +:+ "s".

Definition staleDuration (now : Z) (lastSyncedNS : option Z) : string :=
  match lastSyncedNS with
  | None => "never"
  | Some ns =>
      if ns =? 0 then "never"
      else let d := sub_saturating now ns in
           format_hms (if d <? 0 then 0 else d)
  end.

Definition syncAgeStr (now ns : Z) : string :=
  if ns =? 0 then "never" else staleDuration now (Some ns).

(** [-d] of the least duration is itself. *)
Definition formatDurNS (ns : Z) : string := format_hms (if ns <? 0 then wrap64 (- ns) else ns).

(** * Consolidation *)

Definition plain (status : string) (code : Z) (reason : string) (results : list ServerResult) : Consolidated :=
  mkConsolidated status code reason [] results false.

(** [tally[r.Status]++] over [l]. *)
Definition tally_of (l : list ServerResult) : gmap string Z := counts_of (map Status l).

Definition tally_text (bindings : list (string * Z)) : string :=
  Join (sort_Strings (map (λ b, b.1 +:+ "×" +:+ FormatInt b.2) bindings)) ", ".

Definition any_stale (l : list ServerResult) : bool := existsb (λ r, String.eqb (Confidence r) "stale") l.

Section consolidation.
  Variable range : Range Z.
  Variable now : Z.

Definition consolidateQuorum (results reachable : list ServerResult) (configuredTotal freshnessWindow : Z)
    : Consolidated :=
  let badServers := List.filter (λ r, isBad (Status r)) reachable in
  let goodServers := List.filter (λ r, negb (isBad (Status r)) && isGood (Status r)) reachable in
  let badFreshMax := maxLastSynced badServers in
  let goodFreshMax := maxLastSynced goodServers in
  let majority_part :=
    let tally := tally_of reachable in
    let majority :=
      match List.find (λ b, configuredTotal <? b.2 * 2) (range 0%nat tally) with
      | Some (status, _) => status
      | None => ""
      end in
    if negb (String.eqb majority "") then
      mkConsolidated majority (statusToExitCode majority)
        ("majority " +:+ majority +:+ " (" +:+ FormatInt (default 0 (tally !! majority)) +:+ "/" +:+
           FormatInt configuredTotal +:+ " configured; tally: " +:+ tally_text (range 1%nat tally) +:+ ")")
        ((if isBad majority then [] else badServers) ++ (if isGood majority then [] else goodServers))
        results
        (String.eqb majority "ok" && any_stale goodServers)
    else
      plain "no_consensus" 7
        ("no majority among " +:+ FormatInt configuredTotal +:+ " configured servers (tally: " +:+
           tally_text (range 2%nat tally) +:+ ")") results in
  match badServers, goodServers with
  | b :: bs, _ :: _ =>
      if (0 <? badFreshMax) && (goodFreshMax +w freshnessWindow <? badFreshMax)%go then
        let freshestBad := freshestBadServer b bs in
        mkConsolidated (Status freshestBad) (statusToExitCode (Status freshestBad))
          ("fresh " +:+ Status freshestBad +:+ " at " +:+ ServerURL freshestBad +:+ " (synced " +:+
             syncAgeStr now badFreshMax +:+ " ago) newer than freshest clean sync (" +:+
             syncAgeStr now goodFreshMax +:+ " ago) by " +:+ formatDurNS (badFreshMax -w goodFreshMax)%go +:+
             " > window " +:+ formatDurNS freshnessWindow)
          goodServers results false
      else majority_part
  | _, _ => majority_part
  end.

Definition consolidateUnanimous (results reachable : list ServerResult) (configuredTotal : Z) : Consolidated :=
  let n := Z.of_nat (length reachable) in
  if n <? configuredTotal then
    plain "no_consensus" 7
      ("unanimous requires all " +:+ FormatInt configuredTotal +:+ " servers reachable; " +:+
         FormatInt (configuredTotal - n) +:+ " unreachable") results
  else
    match reachable with
    | [] => plain "" 0 "" results (* [reachable[0]] would panic; [consolidate] has returned before *)
    | r0 :: rest =>
        let verdict := Status r0 in
        if existsb (λ r, negb (String.eqb (Status r) verdict)) rest then
          mkConsolidated "no_consensus" 7
            ("servers disagree (tally: " +:+ tally_text (range 3%nat (tally_of reachable)) +:+ ")")
            reachable results false
        else
          mkConsolidated verdict (statusToExitCode verdict)
            ("unanimous: all " +:+ FormatInt configuredTotal +:+ " servers agree") [] results
            (String.eqb verdict "ok" && any_stale reachable)
    end.

Definition consolidateMostCommonInconclusive (results reachable : list ServerResult) : Consolidated :=
  let tally := tally_of (List.filter (λ r, isInconclusive (Status r)) reachable) in
  if bool_decide (tally = ∅) then
    plain "no_consensus" 7 "no reachable server returned a usable verdict" results
  else
    let best := foldl (λ best b,
      if String.eqb best "" || (default 0 (tally !! best) <? b.2) then b.1 else best) "" (range 4%nat tally) in
    plain best (statusToExitCode best) ("most common inconclusive verdict: " +:+ best) results.

Definition consolidateAnyBad (results reachable : list ServerResult) : Consolidated :=
  match List.filter (λ r, isBad (Status r)) reachable with
  | b :: bs =>
      let best := freshestBadServer b bs in
      plain (Status best) (statusToExitCode (Status best))
        ("any-bad: " +:+ Status best +:+ " reported by " +:+ ServerURL best) results
  | [] =>
      let goodList := List.filter (λ r, isGood (Status r)) reachable in
      match goodList with
      | _ :: _ =>
          mkConsolidated "ok" 0
            ("any-bad: no bad verdict from " +:+ FormatInt (Z.of_nat (length reachable)) +:+ " reachable server(s)")
            [] results (any_stale goodList)
      | [] => consolidateMostCommonInconclusive results reachable
      end
  end.

Definition consolidateFirst (results : list ServerResult) : Consolidated :=
  match List.find (λ r, Reachable r && (isGood (Status r) || isBad (Status r))) results with
  | Some r =>
      mkConsolidated (Status r) (statusToExitCode (Status r))
        ("first conclusive verdict from " +:+ ServerURL r) [] results
        (String.eqb (Status r) "ok" && String.eqb (Confidence r) "stale")
  | None =>
      match List.find (λ r, Reachable r && isInconclusive (Status r)) results with
      | Some r =>
          plain (Status r) (statusToExitCode (Status r))
            ("first inconclusive verdict from " +:+ ServerURL r) results
      | None =>
          plain "all_unreachable" 2
            ("all " +:+ FormatInt (Z.of_nat (length results)) +:+ " servers unreachable") results
      end
  end.

Definition consolidate (results : list ServerResult) (mode : Mode) (freshnessWindow : Z) : Consolidated :=
  let total := Z.of_nat (length results) in
  let reachable := List.filter Reachable results in
  match reachable with
  | [] => plain "all_unreachable" 2 ("all " +:+ FormatInt total +:+ " servers unreachable") results
  | _ :: _ =>
      match mode with
      | ModeFirst => consolidateFirst results
      | ModeAnyBad => consolidateAnyBad results reachable
      | ModeUnanimous => consolidateUnanimous results reachable total
      | ModeQuorum => consolidateQuorum results reachable total freshnessWindow
      end
  end.

End consolidation.

(** * Asking the servers

    Goroutine [i] stores its answer in [results[i]]; [order] is the order in
    which the goroutines finish, and [callVerify] the HTTP exchange. *)

Section fan_out.
  Variable callVerify : string → result string verifyResponse.

Definition zero_result : ServerResult := mkServerResult "" false "" "" 0 None None.

Definition server_result (srv : string) : ServerResult :=
  match callVerify srv with
  | Err e => mkServerResult srv false "" "" 0 (Some e) None
  | Ok r => mkServerResult srv true (v_Status r) (v_Confidence r) (default 0 (v_LastSyncedNS r)) None (Some r)
  end.

Definition fanOut (order : list nat) (servers : list string) : list ServerResult :=
  foldl (λ results i,
    match servers !! i with
    | Some srv => <[i := server_result srv]> results
    | None => results
    end) (replicate (length servers) zero_result) order.

End fan_out.

(** * The server list *)

Fixpoint envValue (environ : list string) (key : string) : string :=
  match environ with
  | [] => ""
  | e :: environ =>
      let prefix := key +:+ "=" in
      if HasPrefix e prefix then sdrop (String.length prefix) e else envValue environ key
  end.

Definition envBool (environ : list string) (key : string) : bool :=
  let v := ToLower (TrimSpace (envValue environ key)) in
  String.eqb v "1" || String.eqb v "true" || String.eqb v "yes" || String.eqb v "on".

(** The de-duplication loop: [seen] and [out] as in the source. *)
Fixpoint dedup (seen : gset string) (raw out : list string) : list string :=
  match raw with
  | [] => out
  | s :: raw =>
      if bool_decide (s ∈ seen) then dedup seen raw out
      else dedup ({[s]} ∪ seen) raw (out ++ [s])
  end.

Definition resolveServers (flagServers environ : list string) : list string :=
  let raw := flagServers in
  let sv := envValue environ "GT_SERVERS" in
  let raw := if String.eqb sv "" then raw
             else raw ++ List.filter (λ part, negb (String.eqb part ""))
                           (FieldsFunc sv (λ r, Ascii.eqb r "," || Ascii.eqb r " ")) in
  let sv := envValue environ "GT_SERVER" in
  let raw := if String.eqb sv "" then raw else raw ++ [sv] in
  match dedup ∅ raw [] with
  | [] => ["http://127.0.0.1:8080"]
  | out => out
  end.

(** * Output: what is written to stdout and stderr, and the exit code *)

Record output : Type := mkOutput {
  stdout : list string;
  stderr : list string;
  code : Z;
}.

Definition last_sync_age (now : Z) (r : ServerResult) : string :=
  if 0 <? LastSyncedNS r then staleDuration now (Some (LastSyncedNS r)) else "?".

Definition emitMultiHuman (now : Z) (con : Consolidated) (results : list ServerResult) (mode : Mode) (strict : bool)
    : output :=
  mkOutput
    (map (λ r,
       if Reachable r then
         "  " +:+ ServerURL r +:+ " → " +:+ Status r +:+ " (confidence=" +:+ Confidence r +:+ ", last_sync=" +:+
           last_sync_age now r +:+ ", seq=?)" +:+ nl
       else
         "  " +:+ ServerURL r +:+ " → UNREACHABLE (" +:+ default "<nil>" (SErr r) +:+ ")" +:+ nl) results
     ++ map (λ d, "  dissent: " +:+ ServerURL d +:+ " → " +:+ Status d +:+ " (last_sync=" +:+
                    last_sync_age now d +:+ ")" +:+ nl) (Dissent con)
     ++ [mode_string mode +:+ ": " +:+ ToUpper (FinalStatus con) +:+ " — " +:+ Reason con +:+ nl])
    []
    (if String.eqb (FinalStatus con) "ok" && staleOK con && strict then 10 else ExitCode con).

Record serverJSONEntry : Type := mkServerJSONEntry {
  j_URL : string;
  j_Reachable : bool;
  j_Status : string;
  j_Confidence : string;
  j_LastSyncedNS : Z;
  j_Error : string;
}.
Record multiJSONOutput : Type := mkMultiJSONOutput {
  j_Mode : Mode;
  j_FreshnessWindowNS : Z;
  j_FinalStatus : string;
  j_ExitCode : Z;
  j_Reason : string;
  j_Servers : list serverJSONEntry;
  j_Dissent : list serverJSONEntry;
}.

Definition toServerJSONEntry (r : ServerResult) : serverJSONEntry :=
  mkServerJSONEntry (ServerURL r) (Reachable r) (Status r) (Confidence r) (LastSyncedNS r) (default "" (SErr r)).

(** The value handed to the JSON encoder, and the exit code. *)
Definition emitMultiJSON (con : Consolidated) (mode : Mode) (freshnessWindow : Z) : multiJSONOutput * Z :=
  (mkMultiJSONOutput mode freshnessWindow (FinalStatus con) (ExitCode con) (Reason con)
     (map toServerJSONEntry (PerServer con)) (map toServerJSONEntry (Dissent con)),
   ExitCode con).

(** ** One server

    [quote] is the [%q] verb, which only the message about an unknown status uses. *)

Section one_server.
  Variable quote : string → string.

Definition exitCode (resp : verifyResponse) (strict : bool) : Z :=
  let st := v_Status resp in
  if String.eqb st "ok" then (if strict && String.eqb (v_Confidence resp) "stale" then 10 else 0)
  else if String.eqb st "mismatch" then 3
  else if String.eqb st "tainted" then 4
  else if String.eqb st "doesnt_exist" then 5
  else if String.eqb st "not_tracked" then 6
  else 2.

Definition verdict_human (now : Z) (resp : verifyResponse) (remoteURL commit : string) (strict : bool) : output :=
  let normalizedURL := default remoteURL (v_Remote resp ≫= vi_NormalizedURL) in
  let isStale := String.eqb (v_Confidence resp) "stale" in
  let out line c := mkOutput [line +:+ nl] [] c in
  let st := v_Status resp in
  if String.eqb st "ok" then
    if isStale then
      out ("ok (stale: last sync " +:+ staleDuration now (v_LastSyncedNS resp) +:+ " ago): " +:+ v_Tag resp +:+
             " matches " +:+ normalizedURL +:+ " at " +:+ commit) (if strict then 10 else 0)
    else out ("ok: " +:+ v_Tag resp +:+ " matches " +:+ normalizedURL +:+ " at " +:+ commit) 0
  else if String.eqb st "mismatch" then
    let recorded :=
      match v_Recorded resp with
      | None => "<unknown>"
      | Some i =>
          match vi_PeeledCommitOID i, vi_RefOID i with
          | Some o, _ => o
          | None, Some o => o
          | None, None => "<unknown>"
          end
      end in
    out ("MISMATCH: " +:+ v_Tag resp +:+ " on " +:+ normalizedURL +:+ " records " +:+ recorded +:+ ", you have " +:+
           commit) 3
  else if String.eqb st "tainted" then
    let reason := default "<unknown>" (v_Taint resp ≫= vi_Reason) in
    let when := default "<unknown>" (FormatRFC3339 <$> (v_Taint resp ≫= vi_FirstTaintedAtNS)) in
    out ("TAINTED: " +:+ v_Tag resp +:+ " on " +:+ normalizedURL +:+ " was rewritten (" +:+ reason +:+ " at " +:+
           when +:+ ")") 4
  else if String.eqb st "doesnt_exist" then
    out ("not found: " +:+ v_Tag resp +:+ " is not a tag on " +:+ normalizedURL) 5
  else if String.eqb st "not_tracked" then
    out ("not tracked: " +:+ normalizedURL +:+ " is not registered with the server (ask an operator to add it)") 6
  else mkOutput [] ["error: unexpected status " +:+ quote st +:+ " from server" +:+ nl] 2.

(** The [--json] path prints the response itself and returns [exitCode]. *)
Definition verdict (now : Z) (resp : verifyResponse) (remoteURL commit : string) (jsonOut strict : bool)
    : (verifyResponse * Z) + output :=
  if jsonOut then inl (resp, exitCode resp strict)
  else inr (verdict_human now resp remoteURL commit strict).

End one_server.
