(* ===== verification/ConsolidateProps.v ===== *)
(** What the command line tool's verdict means: the four consolidation modes of
    Consolidate.v characterised by counting and comparing the servers' answers,
    independence of Go's map iteration order and of the order in which the
    servers answer, and the exit codes. *)
From S2P Require Import Prelude GoStrings GoMaps GoTime Consolidate.
#[local] Open Scope Z_scope.

(** * Definitions *)

(** The servers that answered. *)
Definition answered (results : list ServerResult) (r : ServerResult) : Prop := r ∈ results ∧ Reachable r = true.

(** How many of the answers are [s]. *)
Definition votes (s : string) (results : list ServerResult) : Z :=
  Z.of_nat (length (List.filter (λ r, String.eqb (Status r) s) (List.filter Reachable results))).

(** A tampering verdict that is newer than every clean one by more than [w]. *)
Definition fresh_tamper (results : list ServerResult) (w : Z) : Prop :=
  ∃ b, answered results b ∧ isBad (Status b) = true ∧
    (∃ g, answered results g ∧ Status g = "ok") ∧
    ∀ g, answered results g → Status g = "ok" → LastSyncedNS g + w < LastSyncedNS b.

(** Timestamps and window for which the sums stay inside [int64]. *)
Definition sane (results : list ServerResult) (w : Z) : Prop :=
  0 ≤ w < 2 ^ 62 ∧ ∀ r, r ∈ results → 0 ≤ LastSyncedNS r < 2 ^ 62.

(** [b] is no older than any tampering answer, and no milder at equal age. *)
Definition freshest_bad (results : list ServerResult) (b : ServerResult) : Prop :=
  answered results b ∧ isBad (Status b) = true ∧
  ∀ r, answered results r → isBad (Status r) = true →
    LastSyncedNS r < LastSyncedNS b ∨
    LastSyncedNS r = LastSyncedNS b ∧ badSeverity (Status r) ≤ badSeverity (Status b).

(** * Lemmas *)

Lemma tally_text_perm l l' : l ≡ₚ l' → tally_text l = tally_text l'.
Proof. intros HP. unfold tally_text. f_equal. apply sort_Strings_perm. by rewrite HP. Qed.

(** ** Tallies *)

Lemma occurrences_status s l :
  occurrences s (map Status l) = length (List.filter (λ r, String.eqb (Status r) s) l).
Proof.
  unfold occurrences. induction l as [|r l IH]; [done|]. cbn. rewrite String.eqb_sym.
  destruct (String.eqb (Status r) s); cbn; by rewrite IH.
Qed.

Lemma tally_of_Some l s n :
  tally_of l !! s = Some n ↔ n = Z.of_nat (length (List.filter (λ r, String.eqb (Status r) s) l)) ∧ 0 < n.
Proof. unfold tally_of. by rewrite counts_of_Some, occurrences_status. Qed.

(** Two verdicts share the electorate. *)
Lemma votes_disjoint s s' l :
  s ≠ s' →
  (length (List.filter (λ r, String.eqb (Status r) s) l) + length (List.filter (λ r, String.eqb (Status r) s') l)
     ≤ length l)%nat.
Proof.
  intros Hs. induction l as [|r l IH]; [done|]. cbn.
  destruct (String.eqb_spec (Status r) s), (String.eqb_spec (Status r) s'); cbn; subst; try done; lia.
Qed.

(** At most one verdict has a strict majority. *)
Lemma majority_unique results s s' :
  Z.of_nat (length results) < votes s results * 2 → Z.of_nat (length results) < votes s' results * 2 → s = s'.
Proof.
  intros H1 H2. destruct (decide (s = s')) as [|Hne]; [done|].
  pose proof (votes_disjoint s s' (List.filter Reachable results) Hne).
  pose proof (filter_length_bool Reachable results). unfold votes in *. lia.
Qed.

Lemma find_majority range results i :
  range_ok range →
  match List.find (λ b : string * Z, Z.of_nat (length results) <? b.2 * 2)
          (range i (tally_of (List.filter Reachable results))) with
  | Some (s, _) => Z.of_nat (length results) < votes s results * 2
  | None => ∀ s, votes s results * 2 ≤ Z.of_nat (length results)
  end.
Proof.
  intros Hr. destruct (List.find _ _) as [[s n]|] eqn:E.
  - apply List.find_some in E as [Hin%list_elem_of_In Hn]. rewrite (Hr i), elem_of_map_to_list in Hin.
    apply tally_of_Some in Hin as [-> _]. cbn in Hn. unfold votes. lia.
  - intros s. destruct (decide (votes s results = 0)) as [->|Hpos]; [lia|].
    assert (tally_of (List.filter Reachable results) !! s = Some (votes s results)) as Hl.
    { apply tally_of_Some. unfold votes in *. lia. }
    rewrite <- elem_of_map_to_list, <- (Hr i), list_elem_of_In in Hl.
    pose proof (List.find_none _ _ E _ Hl) as Hf. cbn in Hf. lia.
Qed.

(** ** Freshness *)

Lemma foldl_max_ge l acc :
  acc ≤ foldl (λ max r, if max <? LastSyncedNS r then LastSyncedNS r else max) acc l ∧
  (∀ r, r ∈ l → LastSyncedNS r ≤ foldl (λ max r, if max <? LastSyncedNS r then LastSyncedNS r else max) acc l) ∧
  (foldl (λ max r, if max <? LastSyncedNS r then LastSyncedNS r else max) acc l = acc ∨
   ∃ r, r ∈ l ∧ foldl (λ max r, if max <? LastSyncedNS r then LastSyncedNS r else max) acc l = LastSyncedNS r).
Proof.
  revert acc. induction l as [|x l IH]; intros acc; cbn.
  { repeat split; [lia|set_solver|by left]. }
  destruct (IH (if acc <? LastSyncedNS x then LastSyncedNS x else acc)) as (Hge & Hall & Hex).
  destruct (Z.ltb_spec acc (LastSyncedNS x)).
  - split; [lia|]. split; [set_solver|]. destruct Hex as [He|(r & Hr & He)]; right; [exists x|exists r]; set_solver.
  - split; [lia|]. split; [|destruct Hex as [?|(r & ? & ?)]; [by left|right; exists r; set_solver]].
    intros r [->|Hin]%elem_of_cons; [lia|auto].
Qed.

Lemma maxLastSynced_spec l :
  (∀ r, r ∈ l → LastSyncedNS r ≤ maxLastSynced l) ∧
  (maxLastSynced l = 0 ∨ ∃ r, r ∈ l ∧ maxLastSynced l = LastSyncedNS r) ∧ 0 ≤ maxLastSynced l.
Proof. destruct (foldl_max_ge l 0) as (? & ? & ?). repeat split; auto. Qed.

Lemma freshestBadServer_spec b bs :
  let best := freshestBadServer b bs in
  best ∈ b :: bs ∧
  ∀ r, r ∈ b :: bs → LastSyncedNS r < LastSyncedNS best ∨
    LastSyncedNS r = LastSyncedNS best ∧ badSeverity (Status r) ≤ badSeverity (Status best).
Proof.
  revert b. induction bs as [|x bs IH]; intros b; cbn [freshestBadServer foldl].
  { split; [left|]. intros r ->%list_elem_of_singleton. right. lia. }
  unfold freshestBadServer in *. cbn zeta in *.
  destruct ((LastSyncedNS b <? LastSyncedNS x) || _) eqn:E.
  - destruct (IH x) as [Hin Hall]. split; [set_solver|].
    intros r Hr. rewrite !elem_of_cons in Hr. destruct Hr as [->|Hr]; [|apply Hall; set_solver].
    destruct (Hall x ltac:(left)); lia.
  - destruct (IH b) as [Hin Hall]. split; [set_solver|].
    intros r Hr. rewrite !elem_of_cons in Hr. destruct Hr as [->|[->|Hr]]; try (apply Hall; set_solver).
    destruct (Hall b ltac:(left)); lia.
Qed.

(** ** The quorum *)

Lemma good_servers results r :
  r ∈ List.filter (λ r, negb (isBad (Status r)) && isGood (Status r)) (List.filter Reachable results) ↔
  answered results r ∧ Status r = "ok".
Proof.
  rewrite !elem_of_filter_bool. unfold answered, isGood. split.
  - intros [[??] [_ ?%String.eqb_eq]%andb_true_iff]. done.
  - intros [[??] ->]. done.
Qed.

Lemma bad_servers results r :
  r ∈ List.filter (λ r, isBad (Status r)) (List.filter Reachable results) ↔
  answered results r ∧ isBad (Status r) = true.
Proof. by rewrite !elem_of_filter_bool. Qed.

(** The comparison of the newest timestamps is [fresh_tamper]. *)
Lemma override_iff results w :
  let bad := List.filter (λ r, isBad (Status r)) (List.filter Reachable results) in
  let good := List.filter (λ r, negb (isBad (Status r)) && isGood (Status r)) (List.filter Reachable results) in
  sane results w → good ≠ [] →
  (0 <? maxLastSynced bad) && (maxLastSynced good +w w <? maxLastSynced bad)%go = true ↔ fresh_tamper results w.
Proof.
  intros bad good [Hw Hts] Hgood.
  destruct (maxLastSynced_spec bad) as (Hb & Hbex & Hb0), (maxLastSynced_spec good) as (Hg & Hgex & Hg0).
  assert (∀ r, r ∈ good → 0 ≤ LastSyncedNS r < 2 ^ 62) as Hgts.
  { intros r [[? _] _]%good_servers. auto. }
  assert (0 ≤ maxLastSynced good < 2 ^ 62) as Hgr.
  { destruct Hgex as [->|(r & Hr & ->)]; [lia|auto]. }
  rewrite wrap64_id by (unfold int64_ok; lia). rewrite andb_true_iff, !Z.ltb_lt. split.
  - intros [Hpos Hlt]. destruct Hbex as [|(b & [Hba Hbb]%bad_servers & Hbe)]; [lia|].
    exists b. split; [done|]. split; [done|]. split.
    + destruct good as [|g t] eqn:E; [done|]. exists g. apply good_servers. fold good. rewrite E. left.
    + intros g Hga Hok. assert (LastSyncedNS g ≤ maxLastSynced good) by (by apply Hg, good_servers). lia.
  - intros (b & Hba & Hbb & (g0 & Hg0a & Hg0ok) & Hall).
    assert (LastSyncedNS b ≤ maxLastSynced bad) by (by apply Hb, bad_servers).
    pose proof (Hall g0 Hg0a Hg0ok). pose proof (Hgts g0 ltac:(by apply good_servers)).
    destruct Hgex as [?|(g & [Hga Hgok]%good_servers & ?)]; [lia|]. pose proof (Hall g Hga Hgok). lia.
Qed.

Lemma freshest_bad_of results b bs :
  List.filter (λ r, isBad (Status r)) (List.filter Reachable results) = b :: bs →
  freshest_bad results (freshestBadServer b bs).
Proof.
  intros E. destruct (freshestBadServer_spec b bs) as [Hin Hall].
  rewrite <- E in Hin. apply bad_servers in Hin as [??]. split; [done|]. split; [done|].
  intros r Hr Hb. apply Hall. rewrite <- E. by apply bad_servers.
Qed.

(** The outcomes of [consolidateQuorum]. *)
Inductive quorum_outcome (results : list ServerResult) (w : Z) (c : Consolidated) : Prop :=
  | quorum_fresh b :
      fresh_tamper results w → freshest_bad results b → FinalStatus c = Status b →
      quorum_outcome results w c
  | quorum_majority s :
      ¬ fresh_tamper results w → s ≠ "" → Z.of_nat (length results) < votes s results * 2 → FinalStatus c = s →
      quorum_outcome results w c
  | quorum_none :
      ¬ fresh_tamper results w → (∀ s, s ≠ "" → votes s results * 2 ≤ Z.of_nat (length results)) →
      FinalStatus c = "no_consensus" → quorum_outcome results w c.

Lemma consolidateQuorum_outcome range now results w :
  range_ok range → sane results w →
  quorum_outcome results w
    (consolidateQuorum range now results (List.filter Reachable results) (Z.of_nat (length results)) w).
Proof.
  intros Hr Hs. unfold consolidateQuorum.
  match goal with |- context [if negb (String.eqb ?m "") then ?a else ?b] =>
    set (rest := if negb (String.eqb m "") then a else b) end.
  assert (¬ fresh_tamper results w → quorum_outcome results w rest) as Hrest.
  { intros Hf. pose proof (find_majority range results 0 Hr) as Hm. unfold rest.
    destruct (List.find _ _) as [[s n]|].
    - destruct (String.eqb_spec s "") as [->|]; cbn.
      + apply quorum_none; try done. intros s Hs'. destruct (Z.le_gt_cases (votes s results * 2) (Z.of_nat (length results))); [done|].
        destruct Hs'. eapply majority_unique; [|exact Hm]. lia.
      + by apply (quorum_majority _ _ _ s).
    - cbn. by apply quorum_none; [|intros; apply Hm|]. }
  pose proof (override_iff results w Hs) as Ho. cbn zeta in Ho.
  destruct (List.filter (λ r, isBad (Status r)) _) as [|b bs] eqn:Eb.
  { apply Hrest. intros (b & Hba & Hbb & _). assert (b ∈ [] : Prop) as Hn; [|by apply elem_of_nil in Hn].
    rewrite <- Eb. by apply bad_servers. }
  destruct (List.filter (λ r, negb _ && _) _) as [|g gs] eqn:Eg.
  { apply Hrest. intros (_ & _ & _ & (g & Hga & Hgok) & _). assert (g ∈ [] : Prop) as Hn; [|by apply elem_of_nil in Hn].
    rewrite <- Eg. by apply good_servers. }
  specialize (Ho ltac:(done)). destruct ((0 <? _) && _).
  - apply (quorum_fresh _ _ _ (freshestBadServer b bs)); [by apply Ho|by apply freshest_bad_of|done].
  - apply Hrest. intros Hf%Ho. done.
Qed.

Lemma consolidate_reach range now results mode w :
  FinalStatus (consolidate range now results mode w) ≠ "all_unreachable" → List.filter Reachable results ≠ [].
Proof. unfold consolidate. by destruct (List.filter Reachable results). Qed.

Lemma votes_pos s results : 0 < votes s results ↔ ∃ r, answered results r ∧ Status r = s.
Proof.
  unfold votes. split.
  - destruct (List.filter (λ r, String.eqb (Status r) s) _) as [|r t] eqn:E; [cbn; lia|]. intros _.
    assert (r ∈ List.filter (λ r, String.eqb (Status r) s) (List.filter Reachable results)) as H by (rewrite E; left).
    rewrite !elem_of_filter_bool, String.eqb_eq in H. exists r. unfold answered. tauto.
  - intros (r & [Hr Hre] & Hs).
    assert (r ∈ List.filter (λ r, String.eqb (Status r) s) (List.filter Reachable results)) as H.
    { rewrite !elem_of_filter_bool, String.eqb_eq. done. }
    destruct (List.filter _ (List.filter _ _)); [by apply elem_of_nil in H|cbn; lia].
Qed.

Lemma answered_reach results r : answered results r → List.filter Reachable results ≠ [].
Proof. intros [H1 H2] E. pose proof (proj1 (filter_nil_iff _ _) E r H1). congruence. Qed.

(** ** The other modes *)

Lemma best_inconclusive (tally : gmap string Z) l best :
  (∀ b, b ∈ l → isInconclusive b.1 = true) → l ≠ [] ∨ isInconclusive best = true → best = "" ∨ isInconclusive best = true →
  isInconclusive (foldl (λ best b,
    if String.eqb best "" || (default 0 (tally !! best) <? b.2) then b.1 else best) best l) = true.
Proof.
  revert best. induction l as [|b l IH]; intros best Hl H1 H2; cbn; [naive_solver|].
  assert (isInconclusive b.1 = true) as Hb by (apply Hl; left).
  apply IH; [intros; apply Hl; by right|right|right];
    (destruct (String.eqb_spec best "") as [->|]; [done|]; destruct (default 0 _ <? _); cbn; naive_solver).
Qed.

Lemma consolidateMostCommonInconclusive_status range results reachable :
  range_ok range →
  let c := consolidateMostCommonInconclusive range results reachable in
  isInconclusive (FinalStatus c) = true ∨ FinalStatus c = "no_consensus".
Proof.
  intros Hr. unfold consolidateMostCommonInconclusive. case_bool_decide as Ht; [by right|]. left. cbn [FinalStatus plain].
  apply best_inconclusive; [|left|by left].
  - intros [s n] Hb. rewrite (Hr 4%nat), elem_of_map_to_list in Hb. apply tally_of_Some in Hb as [Hn Hpos]. cbn.
    destruct (List.filter (λ r, String.eqb (Status r) s) _) as [|r t] eqn:E; [cbn in Hn; lia|].
    assert (r ∈ r :: t) as Hin by left. rewrite <- E in Hin.
    rewrite !elem_of_filter_bool, String.eqb_eq in Hin. destruct Hin as [[_ ?] <-]. done.
  - intros E. apply Ht. apply map_to_list_empty_iff. apply Permutation_nil. rewrite <- E. apply Hr.
Qed.

Lemma consolidateAnyBad_status range results :
  range_ok range →
  let c := consolidateAnyBad range results (List.filter Reachable results) in
  (∃ b, freshest_bad results b ∧ FinalStatus c = Status b) ∨
  (∀ r, answered results r → isBad (Status r) = false) ∧
    ((∃ r, answered results r ∧ Status r = "ok") ∧ FinalStatus c = "ok" ∨
     (∀ r, answered results r → Status r ≠ "ok") ∧
       (isInconclusive (FinalStatus c) = true ∨ FinalStatus c = "no_consensus")).
Proof.
  intros Hr. unfold consolidateAnyBad.
  destruct (List.filter (λ r, isBad (Status r)) _) as [|b bs] eqn:Eb.
  - right. split.
    { intros r [H1 H2]. apply (proj1 (filter_nil_iff _ _) Eb). by apply elem_of_filter_bool. }
    destruct (List.filter (λ r, isGood (Status r)) _) as [|g gs] eqn:Eg.
    + right. split; [|by apply consolidateMostCommonInconclusive_status].
      intros r [H1 H2] Hok. pose proof (proj1 (filter_nil_iff _ _) Eg r ltac:(by apply elem_of_filter_bool)) as Hf.
      cbv beta in Hf. by rewrite Hok in Hf.
    + left. split; [|done]. assert (g ∈ g :: gs) as Hin by left. rewrite <- Eg in Hin.
      unfold isGood in Hin. rewrite !elem_of_filter_bool, String.eqb_eq in Hin. exists g. unfold answered. tauto.
  - left. exists (freshestBadServer b bs). split; [by apply freshest_bad_of|done].
Qed.

Lemma consolidateUnanimous_status range results s :
  List.filter Reachable results ≠ [] → s ≠ "no_consensus" →
  FinalStatus (consolidateUnanimous range results (List.filter Reachable results) (Z.of_nat (length results))) = s ↔
  ∀ r, r ∈ results → Reachable r = true ∧ Status r = s.
Proof.
  intros Hne Hs. unfold consolidateUnanimous.
  assert (length (List.filter Reachable results) = length results ↔ ∀ r, r ∈ results → Reachable r = true) as Hlen.
  { clear Hne. induction results as [|x l IH]; cbn; [set_solver|]. pose proof (filter_length_bool Reachable l).
    destruct (Reachable x) eqn:Ex; cbn.
    - rewrite Nat.succ_inj_wd, IH. set_solver.
    - split; [lia|]. intros Hall. specialize (Hall x ltac:(left)). congruence. }
  pose proof (filter_length_bool Reachable results). destruct (Z.ltb_spec (Z.of_nat (length (List.filter Reachable results))) (Z.of_nat (length results))).
  { cbn. split; [naive_solver|]. intros Hall.
    assert (length (List.filter Reachable results) = length results) by (apply Hlen; naive_solver). lia. }
  assert (∀ r, r ∈ results → Reachable r = true) as Hall by (apply Hlen; lia).
  assert (∀ r, r ∈ List.filter Reachable results ↔ r ∈ results) as Hiff by (intros; rewrite elem_of_filter_bool; naive_solver).
  clear Hlen. destruct (List.filter Reachable results) as [|r0 rest]; [done|].
  destruct (existsb _ rest) eqn:E; cbn [FinalStatus].
  - split; [naive_solver|]. intros Hst. apply existsb_exists in E as (r & Hr%list_elem_of_In & Hn).
    rewrite (proj2 (Hst r ltac:(apply Hiff; by right))), (proj2 (Hst r0 ltac:(apply Hiff; left))), String.eqb_refl in Hn. done.
  - split.
    + intros <- r Hr. split; [auto|]. apply Hiff in Hr as [->|Hr]%elem_of_cons; [done|].
      destruct (String.eqb_spec (Status r) (Status r0)) as [|Hn]; [done|].
      enough (existsb (λ r, negb (String.eqb (Status r) (Status r0))) rest = true) by congruence.
      apply existsb_exists. exists r. rewrite <- list_elem_of_In. split; [done|]. by apply String.eqb_neq in Hn as ->.
    + intros Hst. apply Hst, Hiff. left.
Qed.

(** [List.find] returns the first element that fits. *)
Lemma find_first {A} (p : A → bool) (l : list A) x :
  List.find p l = Some x ↔ ∃ l1 l2, l = l1 ++ x :: l2 ∧ p x = true ∧ ∀ y, y ∈ l1 → p y = false.
Proof.
  induction l as [|y l IH]; cbn; [split; [done|intros ([] & ? & [=] & _)]|].
  destruct (p y) eqn:E.
  - split; [intros [= ->]; exists [], l; set_solver|].
    intros ([|z l1] & l2 & [= -> ->] & Hp & Hall); [done|]. rewrite (Hall z ltac:(left)) in E. done.
  - rewrite IH. split.
    + intros (l1 & l2 & -> & Hp & Hall). exists (y :: l1), l2. split; [done|]. split; [done|].
      intros z [->|Hz]%elem_of_cons; auto.
    + intros ([|z l1] & l2 & [= -> ->] & Hp & Hall); [congruence|]. exists l1, l2. set_solver.
Qed.

Lemma consolidateFirst_status results :
  FinalStatus (consolidateFirst results) = "ok" ↔
  ∃ l1 r l2, results = l1 ++ r :: l2 ∧ Reachable r = true ∧ Status r = "ok" ∧
    ∀ x, x ∈ l1 → Reachable x = true → isGood (Status x) || isBad (Status x) = false.
Proof.
  unfold consolidateFirst. split.
  - destruct (List.find _ results) as [r|] eqn:E.
    + apply find_first in E as (l1 & l2 & -> & [Hre _]%andb_true_iff & Hall). cbn. intros Hok.
      exists l1, r, l2. repeat split; try done. intros x Hx Hxr. specialize (Hall x Hx). by rewrite Hxr in Hall.
    + destruct (List.find (λ r, Reachable r && isInconclusive (Status r)) results) as [r|] eqn:E'; cbn; [|done].
      intros Hok. apply find_first in E' as (_ & _ & _ & Hp & _). rewrite Hok in Hp. cbn in Hp. by rewrite andb_false_r in Hp.
  - intros (l1 & r & l2 & -> & Hre & Hok & Hall).
    assert (List.find (λ r, Reachable r && (isGood (Status r) || isBad (Status r))) (l1 ++ r :: l2) = Some r) as ->; [|done].
    apply find_first. exists l1, l2. split; [done|]. split; [by rewrite Hre, Hok|].
    intros y Hy. destruct (Reachable y) eqn:E; [|done]. by apply Hall.
Qed.

(** ** Exit codes *)

Lemma statusToExitCode_zero s : statusToExitCode s = 0 ↔ s = "ok".
Proof. unfold statusToExitCode. split; [|by intros ->]. destruct (String.eqb_spec s "ok"); [done|]. by repeat case_match. Qed.

Lemma consolidate_exit range now results mode w :
  ExitCode (consolidate range now results mode w) = statusToExitCode (FinalStatus (consolidate range now results mode w)).
Proof.
  unfold consolidate. destruct (List.filter Reachable results) as [|r rs] eqn:E; [done|]. rewrite <- E.
  destruct mode; unfold consolidateQuorum, consolidateUnanimous, consolidateAnyBad, consolidateFirst,
    consolidateMostCommonInconclusive; cbv zeta; rewrite ?E; repeat case_match; done.
Qed.

Lemma any_stale_spec l : any_stale l = true ↔ ∃ r, r ∈ l ∧ Confidence r = "stale".
Proof.
  unfold any_stale. rewrite existsb_exists.
  split; intros (r & Hr & Hc); exists r; [rewrite list_elem_of_In, <- String.eqb_eq|rewrite <- list_elem_of_In, String.eqb_eq]; done.
Qed.

(** With an [ok] verdict, [staleOK] records whether a clean answer was stale. *)
Lemma consolidate_stale range now results mode w :
  mode ≠ ModeFirst → FinalStatus (consolidate range now results mode w) = "ok" →
  staleOK (consolidate range now results mode w) = true ↔
  ∃ r, answered results r ∧ Status r = "ok" ∧ Confidence r = "stale".
Proof.
  intros Hm. unfold consolidate. destruct (List.filter Reachable results) as [|x xs] eqn:Ex; [done|]. rewrite <- Ex. clear Ex x xs.
  destruct mode; [| | |done].
  - unfold consolidateQuorum. cbv zeta.
    set (good := List.filter (λ r, negb _ && _) _).
    assert (any_stale good = true ↔ ∃ r, answered results r ∧ Status r = "ok" ∧ Confidence r = "stale") as Hg.
    { rewrite any_stale_spec. unfold good. setoid_rewrite good_servers. naive_solver. }
    match goal with |- context [if negb (String.eqb ?m "") then ?a else ?b] =>
      set (rest := if negb (String.eqb m "") then a else b) end.
    assert (FinalStatus rest = "ok" → (staleOK rest = true ↔ any_stale good = true)) as Hrest.
    { unfold rest. destruct (List.find _ _) as [[s n]|]; [|done]. destruct (negb _); cbn; [|done]. by intros ->. }
    rewrite <- Hg. clearbody rest. destruct (List.filter (λ r, isBad (Status r)) _) as [|b bs] eqn:Eb; [done|].
    destruct good; [done|]. destruct ((0 <? _) && _); [|done]. cbn. intros Hok.
    destruct (freshest_bad_of _ _ _ Eb) as (_ & Hbad & _). by rewrite Hok in Hbad.
  - unfold consolidateUnanimous. destruct (_ <? _); [done|].
    destruct (List.filter Reachable results) as [|r0 rest] eqn:E; [done|].
    destruct (existsb _ rest) eqn:Ed; [done|]. cbn [FinalStatus staleOK]. intros Hok. rewrite Hok in Ed |- *. rewrite String.eqb_refl. cbn [andb].
    rewrite any_stale_spec, <- E. setoid_rewrite elem_of_filter_bool. unfold answered. split; [|naive_solver].
    intros (r & [Hr1 Hr2] & Hc). exists r. split; [done|]. split; [|done].
    assert (r ∈ r0 :: rest) as [->|Hin]%elem_of_cons by (rewrite <- E; by apply elem_of_filter_bool); [done|].
    destruct (String.eqb_spec (Status r) "ok") as [|Hn]; [done|].
    enough (existsb (λ r, negb (String.eqb (Status r) "ok")) rest = true) by congruence.
    apply existsb_exists. exists r. rewrite <- list_elem_of_In. split; [done|]. by apply String.eqb_neq in Hn as ->.
  - unfold consolidateAnyBad. destruct (List.filter (λ r, isBad (Status r)) _) as [|b bs] eqn:Eb.
    + destruct (List.filter (λ r, isGood (Status r)) _) as [|g gs] eqn:Eg.
      * unfold consolidateMostCommonInconclusive. intros Hok. case_bool_decide; [done|]. cbn [staleOK plain]. split; [done|].
        intros (r & [Hr1 Hr2] & Hst & _). pose proof (proj1 (filter_nil_iff _ _) Eg r ltac:(by apply elem_of_filter_bool)) as Hf.
        cbv beta in Hf. by rewrite Hst in Hf.
      * intros _. cbn [staleOK]. rewrite <- Eg, any_stale_spec. unfold isGood. setoid_rewrite elem_of_filter_bool.
        setoid_rewrite elem_of_filter_bool. setoid_rewrite String.eqb_eq. unfold answered. naive_solver.
    + cbn [FinalStatus plain]. intros Hok. destruct (freshest_bad_of _ _ _ Eb) as (_ & Hbad & _). by rewrite Hok in Hbad.
Qed.

(** ** Order of loops and of answers *)

Lemma quorum_perm range range' now results w :
  range_ok range → range_ok range' →
  consolidateQuorum range now results (List.filter Reachable results) (Z.of_nat (length results)) w =
  consolidateQuorum range' now results (List.filter Reachable results) (Z.of_nat (length results)) w.
Proof.
  intros H1 H2. assert (∀ i m, range i m ≡ₚ range' i m) as HP by (intros; by apply range_perm).
  unfold consolidateQuorum. cbv zeta.
  rewrite (find_perm _ _ _ (HP 0%nat (tally_of (List.filter Reachable results)))).
  2:{ intros [s n] [s' n'] Hx Hy Px Py. rewrite (H1 0%nat), elem_of_map_to_list in Hx, Hy.
      apply tally_of_Some in Hx as [Hn _], Hy as [Hn' _]. cbn in Px, Py.
      assert (s = s') as -> by (apply (majority_unique results); unfold votes; lia). congruence. }
  by rewrite (tally_text_perm _ _ (HP 1%nat _)), (tally_text_perm _ _ (HP 2%nat _)).
Qed.

Lemma fanOut_spec call order servers results :
  length results = length servers →
  (∀ i, (i < length servers)%nat → i ∈ order ∨ results !! i = server_result call <$> servers !! i) →
  foldl (λ results i, match servers !! i with Some srv => <[i := server_result call srv]> results | None => results end)
    results order = map (server_result call) servers.
Proof.
  revert results. induction order as [|i order IH]; intros results Hlen Hall; cbn.
  - apply list_eq. intros i. rewrite list_lookup_fmap.
    destruct (decide (i < length servers)%nat) as [Hi|Hi].
    + destruct (Hall i Hi) as [Hn|]; [by apply elem_of_nil in Hn|done].
    + rewrite lookup_ge_None_2, lookup_ge_None_2 by lia. done.
  - destruct (servers !! i) as [srv|] eqn:Es.
    + apply IH; [by rewrite length_insert|]. intros j Hj. destruct (decide (i = j)) as [->|Hne].
      * right. rewrite Es. apply list_lookup_insert_eq. lia.
      * rewrite list_lookup_insert_ne by done. destruct (Hall j Hj) as [[?|?]%elem_of_cons|?]; [congruence|by left|by right].
    + apply lookup_ge_None_1 in Es. apply IH; [done|]. intros j Hj.
      destruct (Hall j Hj) as [[->|?]%elem_of_cons|?]; [lia|by left|by right].
Qed.

(** ** The server list *)

Lemma dedup_spec seen raw out :
  (∀ s, s ∈ seen ↔ s ∈ out) → NoDup out →
  NoDup (dedup seen raw out) ∧ (∀ s, s ∈ dedup seen raw out ↔ s ∈ out ∨ s ∈ raw) ∧
  ∃ kept, dedup seen raw out = out ++ kept ∧ kept `sublist_of` raw.
Proof.
  revert seen out. induction raw as [|s raw IH]; intros seen out Hseen Hnd; cbn.
  - split; [done|]. split; [set_solver|]. exists []. by rewrite app_nil_r.
  - case_bool_decide as Hin.
    + destruct (IH seen out Hseen Hnd) as (H1 & H2 & kept & H3 & H4). split; [done|]. split; [set_solver|].
      exists kept. split; [done|]. by apply sublist_cons.
    + destruct (IH ({[s]} ∪ seen) (out ++ [s])) as (H1 & H2 & kept & H3 & H4); [set_solver|apply NoDup_app; set_solver by eauto using NoDup_singleton|].
      split; [done|]. split; [set_solver|]. exists (s :: kept). rewrite H3, <- app_assoc. split; [done|]. by apply sublist_skip.
Qed.

(** The servers named by the flags and the environment, in that order. *)
Definition named_servers (flagServers environ : list string) : list string :=
  flagServers
  ++ (if String.eqb (envValue environ "GT_SERVERS") "" then []
      else List.filter (λ part, negb (String.eqb part ""))
             (FieldsFunc (envValue environ "GT_SERVERS") (λ r, Ascii.eqb r "," || Ascii.eqb r " ")))
  ++ (if String.eqb (envValue environ "GT_SERVER") "" then [] else [envValue environ "GT_SERVER"]).

Lemma resolveServers_named flagServers environ :
  resolveServers flagServers environ =
  match dedup ∅ (named_servers flagServers environ) [] with
  | [] => ["http://127.0.0.1:8080"]
  | out => out
  end.
Proof.
  unfold resolveServers, named_servers. cbv zeta.
  destruct (String.eqb (envValue environ "GT_SERVERS") ""), (String.eqb (envValue environ "GT_SERVER") "");
    by rewrite ?app_nil_l, ?app_nil_r, <- ?app_assoc.
Qed.

(** * Properties *)

(** When a mode says [ok], in terms of the servers' answers. *)
Definition ok_condition (results : list ServerResult) (mode : Mode) (w : Z) : Prop :=
  match mode with
  | ModeQuorum => Z.of_nat (length results) < votes "ok" results * 2 ∧ ¬ fresh_tamper results w
  | ModeUnanimous => results ≠ [] ∧ ∀ r, r ∈ results → Reachable r = true ∧ Status r = "ok"
  | ModeAnyBad => (∃ r, answered results r ∧ Status r = "ok") ∧ ∀ r, answered results r → isBad (Status r) = false
  | ModeFirst => ∃ l1 r l2, results = l1 ++ r :: l2 ∧ Reachable r = true ∧ Status r = "ok" ∧
      ∀ x, x ∈ l1 → Reachable x = true → isGood (Status x) || isBad (Status x) = false
  end.

(** C13. The tool reports [ok] exactly when its mode's condition holds: a strict
    majority of the configured servers says ok and no tampering verdict is newer
    than every clean one by more than the window (quorum); every configured server
    answers ok (unanimous); some server says ok and none reports tampering
    (any-bad); the first conclusive answer in configured order is ok (first).
    This holds for every order in which Go may range over its maps. *)
Theorem ok_verdict_meaning range now results mode w :
  range_ok range → sane results w →
  FinalStatus (consolidate range now results mode w) = "ok" ↔ ok_condition results mode w.
Proof.
  intros Hr Hs. unfold consolidate. destruct (List.filter Reachable results) as [|x xs] eqn:E.
  - split; [done|]. intros Hok. exfalso.
    assert (∀ r, answered results r → False) as Hn by (intros r Hr'; by apply (answered_reach _ _ Hr')).
    destruct mode; cbn in Hok.
    + destruct Hok as [Hm _]. destruct (proj1 (votes_pos "ok" results)) as (r & Hr' & _); [lia|eauto].
    + destruct Hok as [Hne Hall]. destruct results as [|r l]; [done|]. apply (Hn r). split; [left|]. apply Hall. left.
    + destruct Hok as [(r & ? & _) _]. eauto.
    + destruct Hok as (l1 & r & l2 & -> & Hre & _). apply (Hn r). split; [set_solver|done].
  - assert (List.filter Reachable results ≠ []) as Hne by (by rewrite E). rewrite <- E. destruct mode; cbn [ok_condition].
    + destruct (consolidateQuorum_outcome range now results w Hr Hs) as [b Hf (_ & Hb & _) ->|s Hf Hs' Hm ->|Hf Hm ->].
      * split; [|tauto]. intros Hok. by rewrite Hok in Hb.
      * split; [intros ->; done|]. intros [Hm' _]. by eapply majority_unique.
      * split; [done|]. intros [Hm' _]. specialize (Hm "ok" ltac:(done)). lia.
    + rewrite consolidateUnanimous_status by done. split; [|tauto]. intros H. split; [|done]. by intros ->.
    + destruct (consolidateAnyBad_status range results Hr) as [(b & (Hb1 & Hb2 & _) & ->)|(Hb & [[Hg ->]|[Hg Hst]])].
      * split; [by intros Hok; rewrite Hok in Hb2|]. intros [_ Hall]. by rewrite (Hall b Hb1) in Hb2.
      * tauto.
      * split; [intros Hok; rewrite Hok in Hst; by destruct Hst|]. intros [(r & Hr1 & Hr2) _]. by destruct (Hg r Hr1).
    + apply consolidateFirst_status.
Qed.

Definition sample_server (url status confidence : string) (last : Z) : ServerResult :=
  mkServerResult url true status confidence last None None.
Definition sample_down (url : string) : ServerResult := mkServerResult url false "" "" 0 (Some "timeout") None.
Definition sample_range : Range Z := λ _ m, map_to_list m.

Lemma sample_range_ok : range_ok sample_range.
Proof. intros i m. reflexivity. Qed.

Definition sample_results : list ServerResult :=
  [sample_server "a" "ok" "authoritative" 100; sample_server "b" "ok" "stale" 90; sample_server "c" "tainted" "stale" 110].

Lemma sample_sane w : 0 ≤ w < 2 ^ 62 → sane sample_results w.
Proof.
  intros Hw. split; [done|]. intros r Hr. unfold sample_results in Hr. rewrite !elem_of_cons in Hr.
  destruct Hr as [->|[->|[->|Hr]]]; [cbn; lia..|]. by apply elem_of_nil in Hr.
Qed.

Lemma ok_verdict_meaning_witness : ok_condition sample_results ModeQuorum 50.
Proof.
  apply (ok_verdict_meaning sample_range 0 sample_results ModeQuorum 50 sample_range_ok).
  - apply sample_sane. lia.
  - vm_compute. reflexivity.
Defined.

(** C14. A tampering verdict is not lost: in any-bad mode one reachable server
    that reports tampering decides the verdict, and in quorum mode it does so
    against any number of clean answers once it is newer than all of them by more
    than the window.  The verdict is that of a freshest tampering answer, the more
    severe one at equal age, and the exit code is 3 or 4. *)
Theorem tampering_wins range now results mode w :
  range_ok range → sane results w →
  mode = ModeAnyBad ∧ (∃ r, answered results r ∧ isBad (Status r) = true) ∨ mode = ModeQuorum ∧ fresh_tamper results w →
  ∃ b, freshest_bad results b ∧ FinalStatus (consolidate range now results mode w) = Status b ∧
    ExitCode (consolidate range now results mode w) = if String.eqb (Status b) "tainted" then 4 else 3.
Proof.
  intros Hr Hs Hmode.
  assert (∃ b, freshest_bad results b ∧ FinalStatus (consolidate range now results mode w) = Status b) as (b & Hb & Hst).
  { destruct Hmode as [[-> (r & Hr1 & Hr2)]|[-> Hf]]; unfold consolidate.
    - pose proof (answered_reach _ _ Hr1). destruct (List.filter Reachable results) eqn:E; [done|]. rewrite <- E.
      destruct (consolidateAnyBad_status range results Hr) as [?|(Hb & _)]; [done|]. by rewrite (Hb r Hr1) in Hr2.
    - pose proof Hf as (b & Hb1 & _). pose proof (answered_reach _ _ Hb1). destruct (List.filter Reachable results) eqn:E; [done|].
      rewrite <- E. destruct (consolidateQuorum_outcome range now results w Hr Hs) as [b' Hf' Hb' Hst'|s' Hn|Hn]; [eauto|done|done]. }
  exists b. split; [done|]. split; [done|]. rewrite consolidate_exit, Hst. destruct Hb as (_ & Hb & _).
  unfold isBad in Hb. apply orb_true_iff in Hb as [Hb|Hb]; apply String.eqb_eq in Hb; by rewrite Hb.
Qed.

Lemma tampering_wins_witness : ∃ b, freshest_bad sample_results b ∧
  FinalStatus (consolidate sample_range 0 sample_results ModeQuorum 5) = Status b ∧
  ExitCode (consolidate sample_range 0 sample_results ModeQuorum 5) = if String.eqb (Status b) "tainted" then 4 else 3.
Proof.
  apply (tampering_wins sample_range 0 sample_results ModeQuorum 5 sample_range_ok).
  - apply sample_sane. lia.
  - right. split; [reflexivity|]. exists (sample_server "c" "tainted" "stale" 110).
    split; [split; [set_solver|reflexivity]|]. split; [reflexivity|]. split.
    + exists (sample_server "a" "ok" "authoritative" 100). split; [split; [set_solver|reflexivity]|reflexivity].
    + intros g [Hg _] Hok. unfold sample_results in Hg. rewrite !elem_of_cons in Hg.
      destruct Hg as [->|[->|[->|Hg]]]; [cbn; lia..|discriminate Hok|]. by apply elem_of_nil in Hg.
Defined.

(** In quorum, unanimous and first mode the whole result, its reason text and
    its dissent list included, is the same for every order in which the runtime
    may range over the tally map. *)
Theorem verdict_order_independent range range' now results mode w :
  range_ok range → range_ok range' → mode ≠ ModeAnyBad →
  consolidate range now results mode w = consolidate range' now results mode w.
Proof.
  intros H1 H2 Hm. unfold consolidate. destruct (List.filter Reachable results) as [|x xs] eqn:E; [done|]. rewrite <- E.
  destruct mode; [by apply quorum_perm| |done|done].
  assert (∀ i m, range i m ≡ₚ range' i m) as HP by (intros; by apply range_perm).
  unfold consolidateUnanimous. by rewrite (tally_text_perm _ _ (HP 3%nat _)).
Qed.

Lemma verdict_order_independent_witness :
  consolidate sample_range 0 sample_results ModeQuorum 50 =
  consolidate (λ _ m, reverse (map_to_list m)) 0 sample_results ModeQuorum 50.
Proof.
  apply (verdict_order_independent sample_range (λ _ m, reverse (map_to_list m))).
  - exact sample_range_ok.
  - intros i m. apply reverse_Permutation.
  - discriminate.
Defined.

(** In any-bad mode the verdict is not determined by the answers: with one
    [doesnt_exist] and one [not_tracked] the exit code is 5 or 6 depending on the
    order in which the runtime ranges over the tally map. *)
Theorem inconclusive_tie_unstable : ∃ range range' results,
  range_ok range ∧ range_ok range' ∧
  ExitCode (consolidate range 0 results ModeAnyBad 0) = 5 ∧ ExitCode (consolidate range' 0 results ModeAnyBad 0) = 6.
Proof.
  exists (λ _ m, reverse (map_to_list m)), sample_range,
    [sample_server "a" "doesnt_exist" "authoritative" 1; sample_server "b" "not_tracked" "authoritative" 1].
  split; [intros i m; apply reverse_Permutation|]. split; [apply sample_range_ok|]. split; vm_compute; reflexivity.
Qed.

(** Without [--json], outside first mode, the tool exits 0 under [--strict]
    exactly when the verdict is [ok] and no clean answer is stale, and without
    [--strict] exactly when the verdict is [ok]; a stale [ok] exits 10. *)
Theorem strict_exit_code range now results mode w strict :
  mode ≠ ModeFirst →
  let con := consolidate range now results mode w in
  let stale := ∃ r, answered results r ∧ Status r = "ok" ∧ Confidence r = "stale" in
  (code (emitMultiHuman now con results mode strict) = 0 ↔ FinalStatus con = "ok" ∧ (strict = true → ¬ stale)) ∧
  (code (emitMultiHuman now con results mode strict) = 10 ↔ FinalStatus con = "ok" ∧ strict = true ∧ stale).
Proof.
  intros Hm con stale. assert (FinalStatus con = "ok" → (staleOK con = true ↔ stale)) as Hst by (by apply consolidate_stale).
  assert (ExitCode con = statusToExitCode (FinalStatus con)) as Hex by apply consolidate_exit.
  cbn [emitMultiHuman code]. rewrite Hex. destruct (String.eqb_spec (FinalStatus con) "ok") as [Hok|Hok]; cbn [andb].
  - specialize (Hst Hok). rewrite Hok. destruct (staleOK con), strict; cbn; naive_solver.
  - assert (statusToExitCode (FinalStatus con) ≠ 0) by (by rewrite statusToExitCode_zero).
    assert (statusToExitCode (FinalStatus con) ≠ 10) by (unfold statusToExitCode; by repeat case_match).
    naive_solver.
Qed.

Lemma strict_exit_code_witness :
  code (emitMultiHuman 0 (consolidate sample_range 0 sample_results ModeQuorum 50) sample_results ModeQuorum true) = 10.
Proof.
  apply (strict_exit_code sample_range 0 sample_results ModeQuorum 50 true); [discriminate|].
  split; [vm_compute; reflexivity|]. split; [reflexivity|].
  exists (sample_server "b" "ok" "stale" 90). split; [split; [set_solver|reflexivity]|]. split; reflexivity.
Defined.

(** With several servers [--json] ignores [--strict]: the same consolidated
    result that makes the human output exit 10 makes the JSON output exit 0. *)
Theorem json_ignores_strict : ∃ results,
  let con := consolidate sample_range 0 results ModeQuorum 50 in
  code (emitMultiHuman 0 con results ModeQuorum true) = 10 ∧ (emitMultiJSON con ModeQuorum 50).2 = 0.
Proof. exists sample_results. split; vm_compute; reflexivity. Qed.

(** With one server the human and the JSON output return the same exit code,
    whatever the server answered, and it is 0 exactly for an [ok] that is not
    both stale and refused by [--strict]. *)
Theorem single_server_exit quote now resp remoteURL commit strict :
  code (verdict_human quote now resp remoteURL commit strict) = exitCode resp strict ∧
  (exitCode resp strict = 0 ↔ v_Status resp = "ok" ∧ ¬ (strict = true ∧ v_Confidence resp = "stale")).
Proof.
  unfold verdict_human, exitCode. cbv zeta.
  destruct (String.eqb_spec (v_Status resp) "ok") as [->|Hok].
  - destruct (String.eqb_spec (v_Confidence resp) "stale"), strict; cbn; naive_solver.
  - split; [by repeat (destruct (String.eqb (v_Status resp) _); [done|])|].
    split; [|naive_solver]. by repeat case_match.
Qed.

(** The answers come back in configured order, each from its own server,
    whatever the order in which the requests finish. *)
Theorem fan_out_order call order servers :
  order ≡ₚ seq 0 (length servers) → fanOut call order servers = map (server_result call) servers.
Proof.
  intros HP. apply fanOut_spec; [apply length_replicate|]. intros i Hi. left. rewrite HP, elem_of_seq. lia.
Qed.

Lemma fan_out_order_witness :
  fanOut (λ s, Err s) [1; 0]%nat ["x"; "y"] = map (server_result (λ s, Err s)) ["x"; "y"].
Proof. apply (fan_out_order (λ s, Err s) [1; 0]%nat ["x"; "y"]). apply Permutation_swap. Defined.

(** The server list has no duplicates, is never empty, and lists the servers
    of the flags, [GT_SERVERS] and [GT_SERVER] in the order they are first named;
    the loopback default appears only when none is named. *)
Theorem resolve_servers_spec flagServers environ :
  let out := resolveServers flagServers environ in
  let named := named_servers flagServers environ in
  out ≠ [] ∧ NoDup out ∧
  (named ≠ [] → out `sublist_of` named ∧ ∀ s, s ∈ out ↔ s ∈ named) ∧
  (named = [] → out = ["http://127.0.0.1:8080"]).
Proof.
  intros out named. unfold out. rewrite resolveServers_named. fold named.
  destruct (dedup_spec ∅ named []) as (Hnd & Hin & kept & Hk & Hsub); [set_solver|apply NoDup_nil_2|].
  destruct (dedup ∅ named []) as [|s l] eqn:E.
  - assert (named = []) as Hn by (destruct named as [|x t]; [done|]; specialize (Hin x); set_solver).
    split; [done|]. split; [apply NoDup_singleton|]. done.
  - split; [done|]. split; [done|]. split.
    + intros _. split; [|intros x; rewrite Hin; set_solver]. cbn in Hk. by rewrite Hk.
    + intros Hn. rewrite Hn in E. done.
Qed.
