(* ===== verification/SeedMerge.v ===== *)
(** internal/seed/merge.go: the in-memory quorum merge of the peers' views, and the
    wire types of internal/seed/client.go it works on.

    [range] is the order in which Go ranges over a map, (GoMaps.v); a
    quarantine reason keeps the case and the text built from counts, and drops
    the text of wrapped errors. *)
From S2P Require Import Prelude GoStrings GoMaps Model.
#[local] Open Scope Z_scope.

(** * Wire types (client.go) *)

Record wireRemote : Type := mkWireRemote {
  wr_ID : Z;
  wr_URL : string;
  wr_NormalizedURL : string;
  wr_Transport : string;
  wr_TaintAnyTagDeletion : bool;
}.

Record wireTag : Type := mkWireTag {
  wt_ID : Z;
  wt_RemoteID : Z;
  wt_TagName : string;
  wt_CurrentOID : option string;
  wt_CurrentPeeledOID : option string;
  wt_IsAnnotated : option bool;
  wt_FirstOID : option string;
  wt_FirstSeenNS : Z;
  wt_LastSeenNS : Z;
  wt_Deleted : bool;
  wt_Tainted : bool;
  wt_TaintFirstNS : option Z;
}.

Record wireTaintEvent : Type := mkWireTaintEvent {
  we_ID : Z;
  we_RemoteID : Z;
  we_RefID : Z;
  we_Reason : string;
  we_FromOID : option string;
  we_ToOID : option string;
  we_DetectedAtNS : Z;
}.

(** * Merge inputs and outputs *)

Record peerRemoteView : Type := mkPeerRemoteView {
  pv_peer : string;
  pv_remote : wireRemote;
  pv_tags : list wireTag;
  pv_taintEvents : list wireTaintEvent;
}.

Record taggedView : Type := mkTaggedView {
  tv_peer : string;
  tv_tag : wireTag;
  tv_events : list wireTaintEvent;
}.

Record mergedEvent : Type := mkMergedEvent {
  me_eventType : ObservationEventType;
  me_taintReason : option TaintReason;
  me_fromOID : OID;
  me_toOID : OID;
  me_detectedAtNS : Z;
}.

Record mergedTag : Type := mkMergedTag {
  mt_name : string;
  mt_firstOID : OID;
  mt_isAnnotated : bool;
  mt_genesisPeeledOID : OID;
  mt_firstSeenNS : Z;
  mt_events : list mergedEvent;
  mt_currentOID : OID;
  mt_currentPeeledOID : OID;
  mt_lastSeenNS : Z;
  mt_deleted : bool;
  mt_tainted : bool;
  mt_taintFirstNS : option Z;
}.

Record mergedRemote : Type := mkMergedRemote {
  mr_url : string;
  mr_normalizedURL : string;
  mr_transport : Transport;
  mr_taintAnyTagDeletion : bool;
  mr_tags : list mergedTag;
}.

(** Why an event sequence is refused, with the index of the event. *)
Inductive discontinuity : Type :=
  | ChangedWithoutTo (i : Z)
  | DeletedWithTo (i : Z)
  | RecreatedWithoutTo (i : Z)
  | CreatedTwice (i : Z)
  | UnknownEventType (i : Z)
  | EmptyFrom (i : Z)
  | Unchained (i : Z).

Inductive quarantine : Type :=
  | NoQuorum (counts : string)
  | FirstOIDInvalid (hex : string)
  | TaintEventInvalid
  | Discontinuous (d : discontinuity).

Record quarantineLog : Type := mkQuarantineLog { ql_remoteURL : string; ql_tagName : string; ql_reason : quarantine }.

Record mergeResult : Type := mkMergeResult {
  res_remotes : list mergedRemote;
  res_totalObs : Z;
  res_quarantinedTags : Z;
  res_quarantineLogs : list quarantineLog;
}.

(** * Small utilities *)

Definition short (hex : string) : string := if 12 <? len hex then stake 12 hex else hex.
Definition strDeref (p : option string) : string := default "" p.

Definition parseHexOID (hexStr : string) : res OID :=
  let hexStr := TrimSpace (ToLower hexStr) in
  let algo := AlgoForRawLen (String.length hexStr / 2) in
  if String.eqb algo "" then Err (ErrOther "unsupported width") else ParseOID hexStr algo.

Definition oidEqualLoose (a b : OID) : bool :=
  if String.eqb (Algo a) (Algo b) then OID_Equal a b
  else if negb (length (Raw a) =? length (Raw b))%nat then false
  else forallb (λ p, Byte.eqb p.1 p.2) (combine (Raw a) (Raw b)).

(** The two loops pick the highest count, the least string among equals. *)
Definition pick_loop (keep : Z → bool) (bindings : list (string * Z)) (start : string * Z) : string * Z :=
  foldl (λ best b,
    if negb (keep b.2) then best
    else if (best.2 <? b.2) || (b.2 =? best.2) && string_lt b.1 best.1 then b else best) start bindings.

Definition pickQuorumValue (bindings : list (string * Z)) (quorum : Z) : option string :=
  let '(best, bestN) := pick_loop (λ n, negb (n <? quorum)) bindings ("", 0) in
  if quorum <=? bestN then Some best else None.

Definition pickMostCommon (bindings : list (string * Z)) : string * Z :=
  pick_loop (λ _, true) bindings ("", -1).

Definition describeCounts (bindings : list (string * Z)) : string :=
  match bindings with
  | [] => "(no peer reported a first_oid)"
  | _ => Join (sort_Strings (map (λ b, short b.1 +:+ "×" +:+ FormatInt b.2) bindings)) ", "
  end.

(** * Per-fact adoption *)

Definition adoptTaintPolicy (views : list peerRemoteView) : bool :=
  let trueCount := length (List.filter (λ v, wr_TaintAnyTagDeletion (pv_remote v)) views) in
  let falseCount := length (List.filter (λ v, negb (wr_TaintAnyTagDeletion (pv_remote v))) views) in
  (falseCount <=? trueCount)%nat.

Definition adoptIsAnnotated (cohort : list taggedView) : bool :=
  let annotated v := default false (wt_IsAnnotated (tv_tag v)) in
  let trueCount := length (List.filter annotated cohort) in
  let falseCount := length (List.filter (λ v, negb (annotated v)) cohort) in
  (falseCount <? trueCount)%nat.

Definition minFirstSeenNS (cohort : list taggedView) : Z :=
  match cohort with
  | [] => 0
  | v :: cohort => foldl (λ min v, if wt_FirstSeenNS (tv_tag v) <? min then wt_FirstSeenNS (tv_tag v) else min)
                     (wt_FirstSeenNS (tv_tag v)) cohort
  end.

(** [best] is [cohort[0]]. *)
Definition freshestView (best : taggedView) (rest : list taggedView) : taggedView :=
  foldl (λ best v, if wt_LastSeenNS (tv_tag best) <? wt_LastSeenNS (tv_tag v) then v else best) best rest.

Definition earliestTaintFirstNS (views : list taggedView) : option Z :=
  foldl (λ earliest v,
    match wt_Tainted (tv_tag v), wt_TaintFirstNS (tv_tag v) with
    | true, Some t =>
        match earliest with
        | None => Some t
        | Some e => if t <? e then Some t else earliest
        end
    | _, _ => earliest
    end) None views.

(** * Taint events *)

Definition event_key (e : wireTaintEvent) : string :=
  strDeref (we_FromOID e) +:+ "|" +:+ strDeref (we_ToOID e) +:+ "|" +:+ FormatInt (we_DetectedAtNS e).

Fixpoint dedup_events (seen : gset string) (events out : list wireTaintEvent) : list wireTaintEvent :=
  match events with
  | [] => out
  | e :: events =>
      if bool_decide (event_key e ∈ seen) then dedup_events seen events out
      else dedup_events ({[event_key e]} ∪ seen) events (out ++ [e])
  end.

(** The comparison of [sort.SliceStable]. *)
Definition event_less (a b : wireTaintEvent) : bool :=
  if negb (we_DetectedAtNS a =? we_DetectedAtNS b) then we_DetectedAtNS a <? we_DetectedAtNS b
  else if negb (String.eqb (strDeref (we_FromOID a)) (strDeref (we_FromOID b)))
  then string_lt (strDeref (we_FromOID a)) (strDeref (we_FromOID b))
  else string_lt (strDeref (we_ToOID a)) (strDeref (we_ToOID b)).

(** The merge sort is stable: [a] stays before [b] unless [b] is less. *)
Definition event_le (a b : wireTaintEvent) : Prop := event_less b a = false.
#[global] Instance event_le_dec : RelDecision event_le := λ a b, decide (event_less b a = false).

Definition unionTaintEvents (views : list taggedView) : list wireTaintEvent :=
  merge_sort event_le (dedup_events ∅ (concat (map tv_events views)) []).

Definition optional_oid (hex : option string) : res OID :=
  match hex with
  | Some h => if String.eqb h "" then Ok zeroOID else parseHexOID h
  | None => Ok zeroOID
  end.

Definition taintEventToMerged (e : wireTaintEvent) : res mergedEvent :=
  fromOID ← optional_oid (we_FromOID e);
  toOID ← optional_oid (we_ToOID e);
  let reason := we_Reason e in
  let eventType :=
    if IsZero toOID then EventTagDeleted
    else if IsZero fromOID then EventTagRecreated
    else if String.eqb reason TaintTagDeletedRecreated then EventTagRecreated
    else EventTagOIDChanged in
  Ok (mkMergedEvent eventType (Some reason) fromOID toOID (we_DetectedAtNS e)).

(** * Continuity *)

Definition event_type_error (i : Z) (e : mergedEvent) : option discontinuity :=
  let t := me_eventType e in
  if String.eqb t EventTagOIDChanged then if IsZero (me_toOID e) then Some (ChangedWithoutTo i) else None
  else if String.eqb t EventTagDeleted then if negb (IsZero (me_toOID e)) then Some (DeletedWithTo i) else None
  else if String.eqb t EventTagRecreated then if IsZero (me_toOID e) then Some (RecreatedWithoutTo i) else None
  else if String.eqb t EventTagCreated then Some (CreatedTwice i)
  else Some (UnknownEventType i).

Fixpoint continuity_loop (i : Z) (prevTo : OID) (prevWasDeletion : bool) (events : list mergedEvent)
    : option discontinuity :=
  match events with
  | [] => None
  | e :: events =>
      match event_type_error i e with
      | Some d => Some d
      | None =>
          let next := continuity_loop (i + 1) (me_toOID e) (String.eqb (me_eventType e) EventTagDeleted) events in
          if IsZero (me_fromOID e) then
            if negb (String.eqb (me_eventType e) EventTagRecreated) || negb prevWasDeletion
            then Some (EmptyFrom i) else next
          else if negb (oidEqualLoose (me_fromOID e) prevTo) then Some (Unchained i) else next
      end
  end.

Definition validateContinuity (firstOID : OID) (events : list mergedEvent) : option discontinuity :=
  continuity_loop 0 firstOID false events.

(** * The merge *)

Definition quorum_events (tainted_views : list taggedView) : res (list mergedEvent) :=
  foldr (λ e rest, me ← taintEventToMerged e; l ← rest; Ok (me :: l)) (Ok []) (unionTaintEvents tainted_views).

(** The earliest time among the union's events. *)
Definition earliest_detected (union : list wireTaintEvent) : option Z :=
  foldl (λ earliest e,
    match earliest with
    | None => Some (we_DetectedAtNS e)
    | Some t => if we_DetectedAtNS e <? t then Some (we_DetectedAtNS e) else earliest
    end) None union.

(** A hex id that does not parse leaves the field unset. *)
Definition lenient_oid (hex : option string) : OID :=
  match hex with
  | Some h => if String.eqb h "" then zeroOID else match parseHexOID h with Ok o => o | Err _ => zeroOID end
  | None => zeroOID
  end.

Section merge.
  Variable range : ∀ {A}, Range A.

Definition adoptRemoteURL (views : list peerRemoteView) : string :=
  (pickMostCommon (range 0%nat (counts_of (map (λ v, wr_URL (pv_remote v)) views)))).1.

Definition adoptTransport (views : list peerRemoteView) : Transport :=
  let t := (pickMostCommon (range 1%nat (counts_of (map (λ v, wr_Transport (pv_remote v)) views)))).1 in
  if negb (String.eqb t TransportHTTPS) && negb (String.eqb t TransportSSH) then TransportHTTPS else t.

(** The first_oid values the peers report. *)
Definition first_hexes (views : list taggedView) : list string :=
  omap (λ v, match wt_FirstOID (tv_tag v) with
             | Some h => if String.eqb h "" then None else Some h
             | None => None
             end) views.

Definition mergeTag (name : string) (views : list taggedView) (quorum : Z) : mergedTag + quarantine :=
  let firstHexCount := counts_of (first_hexes views) in
  match pickQuorumValue (range 2%nat firstHexCount) quorum with
  | None => inr (NoQuorum (describeCounts (range 3%nat firstHexCount)))
  | Some firstHex =>
      match parseHexOID firstHex with
      | Err _ => inr (FirstOIDInvalid firstHex)
      | Ok firstOID =>
          match List.filter (λ v, bool_decide (wt_FirstOID (tv_tag v) = Some firstHex)) views with
          | [] => inr (FirstOIDInvalid firstHex) (* [cohort[0]] would panic; a picked value has a cohort *)
          | c0 :: cs =>
              let cohort := c0 :: cs in
              let fresh := tv_tag (freshestView c0 cs) in
              let currentOID := lenient_oid (wt_CurrentOID fresh) in
              let currentPeeledOID := lenient_oid (wt_CurrentPeeledOID fresh) in
              let tainted_views := List.filter (λ v, wt_Tainted (tv_tag v)) views in
              let adoptTainted := quorum <=? Z.of_nat (length tainted_views) in
              match (if adoptTainted then quorum_events tainted_views else Ok []) with
              | Err _ => inr TaintEventInvalid
              | Ok events =>
                  let taintFirst :=
                    if adoptTainted then
                      match earliest_detected (unionTaintEvents tainted_views) with
                      | Some t => Some t
                      | None => earliestTaintFirstNS views
                      end
                    else None in
                  let genesisPeeledOID :=
                    match events with
                    | [] => if negb (IsZero currentPeeledOID) then currentPeeledOID else zeroOID
                    | _ => zeroOID
                    end in
                  match validateContinuity firstOID events with
                  | Some d => inr (Discontinuous d)
                  | None =>
                      inl (mkMergedTag name firstOID (adoptIsAnnotated cohort) genesisPeeledOID (minFirstSeenNS cohort)
                             events currentOID currentPeeledOID (wt_LastSeenNS fresh) (wt_Deleted fresh)
                             adoptTainted taintFirst)
                  end
              end
          end
      end
  end.

(** One peer's taint events, by the ref they belong to. *)
Definition eventsByRef (events : list wireTaintEvent) : gmap Z (list wireTaintEvent) :=
  foldl (λ m e, <[we_RefID e := default [] (m !! we_RefID e) ++ [e]]> m) ∅ events.

(** Every view of every tag of a remote, by tag name. *)
Definition add_tag (peer : string) (byRef : gmap Z (list wireTaintEvent)) (m : gmap string (list taggedView)) (t : wireTag)
    : gmap string (list taggedView) :=
  <[wt_TagName t := default [] (m !! wt_TagName t) ++ [mkTaggedView peer t (default [] (byRef !! wt_ID t))]]> m.

Definition add_view (m : gmap string (list taggedView)) (v : peerRemoteView) : gmap string (list taggedView) :=
  foldl (add_tag (pv_peer v) (eventsByRef (pv_taintEvents v))) m (pv_tags v).

Definition tagViews (views : list peerRemoteView) : gmap string (list taggedView) := foldl add_view ∅ views.

(** One iteration of the loop over the tag names of a remote. *)
Definition merge_name (normURL : string) (byName : gmap string (list taggedView)) (quorum : Z)
    (acc : list mergedTag * mergeResult) (name : string) : list mergedTag * mergeResult :=
  let '(tags, res) := acc in
  match mergeTag name (default [] (byName !! name)) quorum with
  | inr q =>
      (tags, mkMergeResult (res_remotes res) (res_totalObs res) (res_quarantinedTags res + 1)
               (res_quarantineLogs res ++ [mkQuarantineLog normURL name q]))
  | inl mt =>
      (tags ++ [mt], mkMergeResult (res_remotes res) (res_totalObs res + 1 + Z.of_nat (length (mt_events mt)))
                       (res_quarantinedTags res) (res_quarantineLogs res))
  end.

Definition merge_tags (normURL : string) (views : list peerRemoteView) (quorum : Z) (res : mergeResult)
    : list mergedTag * mergeResult :=
  let byName := tagViews views in
  foldl (merge_name normURL byName quorum) ([], res) (sort_Strings (map fst (range 4%nat byName))).

(** One iteration of the loop over the remotes. *)
Definition merge_url (byURL : gmap string (list peerRemoteView)) (quorum : Z) (res : mergeResult) (normURL : string)
    : mergeResult :=
  let views := default [] (byURL !! normURL) in
  if Z.of_nat (length views) <? quorum then res
  else
    let '(tags, res) := merge_tags normURL views quorum res in
    mkMergeResult
      (res_remotes res ++ [mkMergedRemote (adoptRemoteURL views) normURL (adoptTransport views)
                             (adoptTaintPolicy views) tags])
      (res_totalObs res) (res_quarantinedTags res) (res_quarantineLogs res).

Definition mergeQuorum (byURL : gmap string (list peerRemoteView)) (quorum : Z) : mergeResult :=
  foldl (merge_url byURL quorum) (mkMergeResult [] 0 0 []) (sort_Strings (map fst (range 5%nat byURL))).

End merge.
