(* ===== verification/SeedProps.v ===== *)
(** What the quorum merge of SeedMerge.v adopts: facts that enough views report,
    histories that chain, the same result whatever the order of Go's maps. *)
From S2P Require Import Prelude GoStrings GoMaps Model SeedMerge.
#[local] Open Scope Z_scope.

(** * Definitions *)

(** Every row for tag [name] in the views of a remote. *)
Definition reports (views : list peerRemoteView) (name : string) : list wireTag :=
  List.filter (λ t, String.eqb (wt_TagName t) name) (concat (map pv_tags views)).

Definition saying_first (hex : string) (rows : list wireTag) : Z :=
  Z.of_nat (length (List.filter (λ t, bool_decide (wt_FirstOID t = Some hex)) rows)).
Definition saying_tainted (rows : list wireTag) : Z := Z.of_nat (length (List.filter wt_Tainted rows)).

(** A history that chains: every event starts from where the tag was. *)
Inductive chained_from : OID → bool → list mergedEvent → Prop :=
  | chained_nil prev del : chained_from prev del []
  | chained_changed prev del e l :
      me_eventType e = EventTagOIDChanged → IsZero (me_fromOID e) = false → Raw (me_fromOID e) = Raw prev →
      IsZero (me_toOID e) = false → chained_from (me_toOID e) false l → chained_from prev del (e :: l)
  | chained_deleted prev del e l :
      me_eventType e = EventTagDeleted → IsZero (me_fromOID e) = false → Raw (me_fromOID e) = Raw prev →
      IsZero (me_toOID e) = true → chained_from (me_toOID e) true l → chained_from prev del (e :: l)
  | chained_recreated prev del e l :
      me_eventType e = EventTagRecreated →
      IsZero (me_fromOID e) = false ∧ Raw (me_fromOID e) = Raw prev ∨ IsZero (me_fromOID e) = true ∧ del = true →
      IsZero (me_toOID e) = false → chained_from (me_toOID e) false l → chained_from prev del (e :: l).

(** * Lemmas *)

(** ** Picking a value *)

Definition better (b a : string * Z) : bool := (a.2 <? b.2) || (b.2 =? a.2) && string_lt b.1 a.1.

Lemma string_lt_leb a b : string_lt a b = negb (String.leb b a).
Proof. unfold string_lt, String.leb. rewrite (String.compare_antisym b a). by destruct (String.compare a b). Qed.

Lemma string_lt_spec a b : string_lt a b = true ↔ (a ≤ b)%string ∧ a ≠ b.
Proof.
  rewrite string_lt_leb, negb_true_iff. unfold String.le. rewrite !Is_true_true. split.
  - intros H. split; [|intros ->].
    + destruct (String.leb_total a b); congruence.
    + destruct (String.leb_total b b); congruence.
  - intros [H1 Hne]. destruct (String.leb b a) eqn:E; [|done]. by destruct Hne, (String.leb_antisym a b).
Qed.

Lemma string_lt_trans a b c : string_lt a b = true → string_lt b c = true → string_lt a c = true.
Proof.
  rewrite !string_lt_spec. intros [H1 N1] [H2 N2]. split; [by trans b|]. intros ->.
  apply N1. by apply (anti_symm String.le).
Qed.

Lemma string_lt_total a b : a = b ∨ string_lt a b = true ∨ string_lt b a = true.
Proof. rewrite !string_lt_spec. destruct (decide (a = b)); [by left|]. right. destruct (String.le_total a b); auto. Qed.

Lemma string_lt_asym a b : string_lt a b = true → string_lt b a = false.
Proof.
  intros H1. destruct (string_lt b a) eqn:H2; [|done]. pose proof (string_lt_trans _ _ _ H1 H2) as H.
  apply string_lt_spec in H as [_ []]. done.
Qed.

Lemma better_trans a b c : better a b = true → better b c = true → better a c = true.
Proof.
  unfold better. rewrite !orb_true_iff, !andb_true_iff, !Z.ltb_lt, !Z.eqb_eq.
  intros [H1|[E1 L1]] [H2|[E2 L2]]; try (left; lia). right. split; [lia|]. by eapply string_lt_trans.
Qed.

Lemma better_total a b : a = b ∨ better a b = true ∨ better b a = true.
Proof.
  destruct a as [s n], b as [s' n']. unfold better. rewrite !orb_true_iff, !andb_true_iff, !Z.ltb_lt, !Z.eqb_eq. cbn.
  destruct (Z.lt_trichotomy n n') as [?|[->|?]]; [by auto| |by auto].
  destruct (string_lt_total s s') as [->|[?|?]]; auto.
Qed.

Lemma better_irrefl a : better a a = false.
Proof.
  unfold better. rewrite Z.ltb_irrefl. cbn. destruct (string_lt a.1 a.1) eqn:E; [|by rewrite andb_false_r].
  apply string_lt_spec in E as [_ []]. done.
Qed.

Lemma better_asym a b : better a b = true → better b a = false.
Proof.
  intros H1. destruct (better b a) eqn:H2; [|done]. pose proof (better_trans _ _ _ H1 H2). by rewrite better_irrefl in H.
Qed.

(** One step of the loop; two steps commute. *)
Definition pick_step (keep : Z → bool) (best b : string * Z) : string * Z :=
  if negb (keep b.2) then best else if better b best then b else best.

Lemma pick_step_comm keep a x y : pick_step keep (pick_step keep a x) y = pick_step keep (pick_step keep a y) x.
Proof.
  unfold pick_step. destruct (keep x.2), (keep y.2); cbn; try done.
  destruct (better x a) eqn:Exa, (better y a) eqn:Eya; rewrite ?Exa, ?Eya; try done.
  - destruct (better_total x y) as [->|[E|E]]; [done| |].
    + by rewrite E, (better_asym _ _ E).
    + by rewrite E, (better_asym _ _ E).
  - destruct (better y x) eqn:E; [|done]. pose proof (better_trans _ _ _ E Exa). congruence.
  - destruct (better x y) eqn:E; [|done]. pose proof (better_trans _ _ _ E Eya). congruence.
Qed.

Lemma pick_loop_perm keep l l' start : l ≡ₚ l' → pick_loop keep l start = pick_loop keep l' start.
Proof.
  intros HP. unfold pick_loop. revert start. induction HP as [|x l l' _ IH|x y l|l1 l2 l3 _ IH1 _ IH2]; intros start; cbn; [done| | |].
  - apply IH.
  - f_equal. apply (pick_step_comm keep start y x).
  - by rewrite IH1, IH2.
Qed.

(** What the loop returns is the start or a kept binding. *)
Lemma pick_loop_elem keep l start :
  pick_loop keep l start = start ∨ pick_loop keep l start ∈ l ∧ keep (pick_loop keep l start).2 = true.
Proof.
  unfold pick_loop. revert start. induction l as [|b l IH]; intros start; cbn; [by left|].
  match goal with |- context [foldl _ ?x l] => destruct (IH x) as [->|[H1 H2]] end; [|right; split; [by right|done]].
  destruct (keep b.2) eqn:E; cbn; [|by left]. destruct (_ || _); [right|by left]. split; [left|done].
Qed.

Lemma pickQuorumValue_Some l quorum v : 0 < quorum → pickQuorumValue l quorum = Some v → ∃ n, (v, n) ∈ l ∧ quorum ≤ n.
Proof.
  intros Hq. unfold pickQuorumValue. destruct (pick_loop_elem (λ n, negb (n <? quorum)) l ("", 0)) as [E|[E1 E2]].
  - rewrite E. destruct (Z.leb_spec quorum 0); [lia|done].
  - destruct (pick_loop _ l _) as [best n]. destruct (Z.leb_spec quorum n); [|done]. intros [= <-]. eauto.
Qed.

(** ** Continuity *)

Lemma oidEqualLoose_raw a b : oidEqualLoose a b = true ↔ Raw a = Raw b.
Proof.
  unfold oidEqualLoose. destruct (String.eqb_spec (Algo a) (Algo b)) as [Ha|Ha].
  - unfold OID_Equal. rewrite Ha, String.eqb_refl. cbn. apply subtleConstEq_spec.
  - destruct (Nat.eqb_spec (length (Raw a)) (length (Raw b))) as [Hl|Hl]; cbn [negb]; [|split; [done|intros H; by rewrite H in Hl]].
    rewrite forallb_forall. revert Hl. generalize (Raw a) (Raw b). intros l. induction l as [|x l IH]; intros [|y l'] Hl; cbn; try done.
    injection Hl as Hl. specialize (IH l' Hl). split.
    + intros H. f_equal; [by apply Byte.byte_dec_bl, (H (x, y)); left|]. apply IH. intros p Hp. apply H. by right.
    + intros [= -> E] p [<-|Hp]; [by apply Byte.byte_dec_lb|]. by apply IH.
Qed.

(** Close a case whose event has two types or an id that is and is not zero. *)
Ltac absurd_event :=
  try congruence;
  match goal with
  | H : me_eventType ?e = ?a, H' : me_eventType ?e = ?b |- _ => rewrite H in H'; discriminate H'
  end.

Lemma continuity_loop_spec i prev del events :
  continuity_loop i prev del events = None ↔ chained_from prev del events.
Proof.
  revert i prev del. induction events as [|e l IH]; intros i prev del; cbn [continuity_loop].
  { split; [constructor|done]. }
  pose proof (oidEqualLoose_raw (me_fromOID e) prev) as Hraw. unfold event_type_error.
  destruct (String.eqb_spec (me_eventType e) EventTagOIDChanged) as [E1|N1];
    [|destruct (String.eqb_spec (me_eventType e) EventTagDeleted) as [E2|N2];
      [|destruct (String.eqb_spec (me_eventType e) EventTagRecreated) as [E3|N3]]].
  - rewrite E1. destruct (IsZero (me_toOID e)) eqn:Eto, (IsZero (me_fromOID e)) eqn:Ef; cbn;
      try (split; [done|inversion 1; absurd_event]).
    destruct (oidEqualLoose (me_fromOID e) prev); cbn.
    + rewrite IH. split; [|inversion 1; absurd_event]. intros H. apply chained_changed; try done. by apply Hraw.
    + split; [done|]. inversion 1; [|absurd_event..]. assert (false = true) by (by apply Hraw). done.
  - rewrite ?E2. destruct (IsZero (me_toOID e)) eqn:Eto, (IsZero (me_fromOID e)) eqn:Ef; cbn;
      try (split; [done|inversion 1; absurd_event]).
    destruct (oidEqualLoose (me_fromOID e) prev); cbn.
    + rewrite IH. split; [|inversion 1; absurd_event]. intros H. apply chained_deleted; try done. by apply Hraw.
    + split; [done|]. inversion 1; [absurd_event| |absurd_event]. assert (false = true) by (by apply Hraw). done.
  - rewrite ?E3. destruct (IsZero (me_toOID e)) eqn:Eto; cbn; [split; [done|inversion 1; absurd_event]|].
    destruct (IsZero (me_fromOID e)) eqn:Ef.
    + destruct del; cbn; [|split; [done|inversion 1; try absurd_event; naive_solver congruence]].
      rewrite IH. split; [|inversion 1; absurd_event]. intros H. apply chained_recreated; try done. by right.
    + destruct (oidEqualLoose (me_fromOID e) prev); cbn.
      * rewrite IH. split; [|inversion 1; absurd_event]. intros H. apply chained_recreated; try done. left. split; [done|by apply Hraw].
      * split; [done|]. inversion 1; [absurd_event..|]. assert (false = true) by (apply Hraw; naive_solver congruence). done.
  - split; [|inversion 1; absurd_event]. by destruct (String.eqb _ EventTagCreated).
Qed.

(** ** Grouping *)

Lemma add_tag_rows peer byRef tags m name :
  map tv_tag (default [] (foldl (add_tag peer byRef) m tags !! name)) =
  map tv_tag (default [] (m !! name)) ++ List.filter (λ t, String.eqb (wt_TagName t) name) tags.
Proof.
  revert m. induction tags as [|t tags IH]; intros m; cbn [foldl List.filter]; [by rewrite app_nil_r|].
  rewrite IH. unfold add_tag. destruct (String.eqb_spec (wt_TagName t) name) as [->|Hne].
  - rewrite lookup_insert_eq. cbn [default from_option id]. rewrite map_app, <- app_assoc. done.
  - by rewrite lookup_insert_ne.
Qed.

Lemma tagViews_reports views name : map tv_tag (default [] (tagViews views !! name)) = reports views name.
Proof.
  unfold tagViews, reports.
  enough (∀ m, map tv_tag (default [] (foldl add_view m views !! name)) =
    map tv_tag (default [] (m !! name)) ++ List.filter (λ t, String.eqb (wt_TagName t) name) (concat (map pv_tags views))) as H
    by (by rewrite H, lookup_empty).
  induction views as [|v views IH]; intros m; cbn [foldl map concat]; [by rewrite app_nil_r|].
  rewrite IH. unfold add_view. by rewrite add_tag_rows, List.filter_app, app_assoc.
Qed.

Lemma filter_map_length {A B} (f : A → B) (p : B → bool) l :
  length (List.filter p (map f l)) = length (List.filter (λ x, p (f x)) l).
Proof. induction l as [|x l IH]; cbn; [done|]. destruct (p (f x)); cbn; by rewrite IH. Qed.

(** A counted first_oid is one that many views report. *)
Lemma first_hexes_count views hex :
  hex ≠ "" → Z.of_nat (occurrences hex (first_hexes views)) = saying_first hex (map tv_tag views).
Proof.
  intros Hne. unfold saying_first, occurrences. rewrite filter_map_length. f_equal.
  induction views as [|v views IH]; [done|]. unfold first_hexes in *. cbn [omap list_omap List.filter].
  destruct (wt_FirstOID (tv_tag v)) as [h|].
  - destruct (String.eqb_spec h "") as [->|Hh].
    + rewrite bool_decide_false by congruence. exact IH.
    + cbn [List.filter]. destruct (String.eqb_spec hex h) as [<-|Hx].
      * rewrite bool_decide_true by done. cbn. by rewrite IH.
      * rewrite bool_decide_false by congruence. exact IH.
  - by rewrite bool_decide_false.
Qed.

Section spec.
  Context (range : ∀ A, Range A) (Hrange : ∀ A, range_ok (range A)).

Lemma mergeTag_spec name views quorum mt :
  0 < quorum → mergeTag range name views quorum = inl mt →
  mt_name mt = name ∧
  (∃ hex, parseHexOID hex = Ok (mt_firstOID mt) ∧ quorum ≤ saying_first hex (map tv_tag views)) ∧
  (mt_tainted mt = true ↔ quorum ≤ saying_tainted (map tv_tag views)) ∧
  (mt_tainted mt = false → mt_events mt = []) ∧
  chained_from (mt_firstOID mt) false (mt_events mt).
Proof.
  intros Hq. unfold mergeTag. destruct (pickQuorumValue _ _) as [hex|] eqn:Epick; [|done].
  destruct (parseHexOID hex) as [first|] eqn:Eparse; [|done].
  destruct (List.filter _ views) as [|c0 cs]; [done|].
  set (tv := List.filter (λ v, wt_Tainted (tv_tag v)) views).
  assert (Z.of_nat (length tv) = saying_tainted (map tv_tag views)) as Htv by (unfold saying_tainted; by rewrite filter_map_length).
  rewrite Htv. destruct (if quorum <=? _ then _ else _) as [events|] eqn:Eev; [|done].
  destruct (validateContinuity first events) as [|] eqn:Ec; [done|]. intros [= <-]. cbn.
  split; [done|]. split; [|split; [apply Z.leb_le|split]].
  - exists hex. split; [done|]. apply pickQuorumValue_Some in Epick as (n & Hin & Hn); [|done].
    apply (elem_of_range _ _ _ _ _ (Hrange Z)), counts_of_Some in Hin as [-> Hpos].
    rewrite <- first_hexes_count; [done|]. intros ->. by vm_compute in Eparse.
  - intros Hf. rewrite Hf in Eev. by injection Eev as <-.
  - by apply (continuity_loop_spec 0).
Qed.

Lemma merge_tags_spec normURL views quorum res :
  res_remotes (merge_tags range normURL views quorum res).2 = res_remotes res ∧
  ∀ mt, mt ∈ (merge_tags range normURL views quorum res).1 →
    ∃ name, mergeTag range name (default [] (tagViews views !! name)) quorum = inl mt.
Proof.
  unfold merge_tags. cbv zeta. generalize (sort_Strings (map fst (range _ 4%nat (tagViews views)))). intros names.
  assert (∀ mt, mt ∈ [] → ∃ name, mergeTag range name (default [] (tagViews views !! name)) quorum = inl mt) as H0.
  { intros mt Hmt. by apply elem_of_nil in Hmt. }
  revert H0. generalize (@nil mergedTag). intros tags. revert tags res.
  induction names as [|name names IH]; intros tags res Htags; cbn [foldl]; [done|].
  destruct (merge_name range normURL (tagViews views) quorum (tags, res) name) as [tags' res'] eqn:Em.
  assert (res_remotes res' = res_remotes res ∧
    ∀ mt, mt ∈ tags' → ∃ name, mergeTag range name (default [] (tagViews views !! name)) quorum = inl mt) as [Hr Ht].
  { unfold merge_name in Em. destruct (mergeTag range name _ quorum) as [mt0|q] eqn:E; injection Em as <- <-; split; try done.
    intros mt [Hin| ->%list_elem_of_singleton]%elem_of_app; eauto. }
  rewrite <- Hr. by apply IH.
Qed.

(** What is known of every adopted remote. *)
Definition adopted (byURL : gmap string (list peerRemoteView)) (quorum : Z) (mr : mergedRemote) : Prop :=
  ∃ views, byURL !! mr_normalizedURL mr = Some views ∧ quorum ≤ Z.of_nat (length views) ∧
    ∀ mt, mt ∈ mr_tags mr → ∃ name, mergeTag range name (default [] (tagViews views !! name)) quorum = inl mt.

Lemma mergeQuorum_remotes byURL quorum mr :
  0 < quorum → mr ∈ res_remotes (mergeQuorum range byURL quorum) → adopted byURL quorum mr.
Proof.
  intros Hq. unfold mergeQuorum. generalize (sort_Strings (map fst (range _ 5%nat byURL))). intros urls.
  assert (∀ r0, (∀ mr, mr ∈ res_remotes r0 → adopted byURL quorum mr) →
    mr ∈ res_remotes (foldl (merge_url range byURL quorum) r0 urls) → adopted byURL quorum mr) as H.
  { induction urls as [|u urls IH]; intros r0 H0; cbn [foldl]; [apply H0|]. apply IH. intros mr'. unfold merge_url. cbv zeta.
    destruct (Z.ltb_spec (Z.of_nat (length (default [] (byURL !! u)))) quorum); [apply H0|].
    destruct (merge_tags_spec u (default [] (byURL !! u)) quorum r0) as [Hr Ht].
    destruct (merge_tags _ u _ _ r0) as [tags r1]. cbn [res_remotes fst snd] in *. rewrite Hr.
    intros [Hin| ->%list_elem_of_singleton]%elem_of_app; [by apply H0|].
    exists (default [] (byURL !! u)). cbn [mr_normalizedURL mr_tags]. split; [|done].
    destruct (byURL !! u); [done|]. cbn in *. lia. }
  apply H. intros mr' Hmr. by apply elem_of_nil in Hmr.
Qed.

End spec.

(** ** Order of the maps *)

Lemma describeCounts_perm l l' : l ≡ₚ l' → describeCounts l = describeCounts l'.
Proof.
  intros HP. unfold describeCounts. destruct l as [|b l], l' as [|b' l']; try done.
  - by apply Permutation_nil in HP.
  - symmetry in HP. by apply Permutation_nil in HP.
  - f_equal. apply sort_Strings_perm. by rewrite HP.
Qed.

Lemma foldl_pointwise {A B} (f g : A → B → A) l : (∀ a b, f a b = g a b) → ∀ a, foldl f a l = foldl g a l.
Proof. intros Hfg. induction l as [|b l IH]; intros a; cbn; [done|]. by rewrite Hfg, IH. Qed.

Section order.
  Context (range range' : ∀ A, Range A) (H1 : ∀ A, range_ok (range A)) (H2 : ∀ A, range_ok (range' A)).

Lemma mergeTag_perm name views quorum : mergeTag range name views quorum = mergeTag range' name views quorum.
Proof.
  unfold mergeTag, pickQuorumValue.
  rewrite (pick_loop_perm _ _ _ _ (range_perm _ _ 2 (counts_of (first_hexes views)) (H1 Z) (H2 Z))).
  by rewrite (describeCounts_perm _ _ (range_perm _ _ 3 (counts_of (first_hexes views)) (H1 Z) (H2 Z))).
Qed.

Lemma merge_url_perm byURL quorum res url : merge_url range byURL quorum res url = merge_url range' byURL quorum res url.
Proof.
  unfold merge_url, merge_tags, adoptRemoteURL, adoptTransport, pickMostCommon. cbv zeta.
  rewrite !(pick_loop_perm _ _ _ _ (range_perm _ _ _ _ (H1 Z) (H2 Z))).
  rewrite (sort_Strings_perm _ _ (Permutation_map fst (range_perm _ _ 4 (tagViews (default [] (byURL !! url))) (H1 _) (H2 _)))).
  rewrite (foldl_pointwise (merge_name range url (tagViews (default [] (byURL !! url))) quorum)
             (merge_name range' url (tagViews (default [] (byURL !! url))) quorum)); [done|].
  intros [tags r] name. unfold merge_name. by rewrite mergeTag_perm.
Qed.
End order.

(** * Properties *)


Definition hex_a : string := Hex (mkOID (replicate 20 xab) SHA1).
Definition hex_b : string := Hex (mkOID (replicate 20 xcd) SHA1).
Definition seed_view (peer : string) : peerRemoteView :=
  mkPeerRemoteView peer (mkWireRemote 1 "https://h/r" "https://h/r" "https" true)
    [mkWireTag 7 1 "v1" (Some hex_b) None None (Some hex_a) 5 50 false true None]
    [mkWireTaintEvent 1 1 7 TaintTagOIDChanged (Some hex_a) (Some hex_b) 40].
Definition seed_range : ∀ A, Range A := λ A _ m, map_to_list m.
Definition seed_merge (peers : list string) (quorum : Z) : mergeResult :=
  mergeQuorum seed_range {["https://h/r" := map seed_view peers]} quorum.

Lemma seed_range_ok A : range_ok (seed_range A).
Proof. intros i m. reflexivity. Qed.


(** C16. The merge is deterministic: whatever the order in which Go ranges over the
    vote counts, the tags and the remotes, the adopted remotes, the counters and
    the quarantine log are the same. *)
Theorem merge_order_independent range range' byURL quorum :
  (∀ A, range_ok (range A)) → (∀ A, range_ok (range' A)) →
  mergeQuorum range byURL quorum = mergeQuorum range' byURL quorum.
Proof.
  intros H1 H2. unfold mergeQuorum.
  rewrite (sort_Strings_perm _ _ (Permutation_map fst (range_perm _ _ 5 byURL (H1 _) (H2 _)))).
  apply foldl_pointwise. intros. by apply merge_url_perm.
Qed.

Lemma merge_order_independent_witness :
  seed_merge ["p"; "q"] 2 =
  mergeQuorum (λ A _ m, reverse (map_to_list m)) {["https://h/r" := map seed_view ["p"; "q"]]} 2.
Proof.
  apply (merge_order_independent seed_range (λ A _ m, reverse (map_to_list m))).
  - apply seed_range_ok.
  - intros A i m. apply reverse_Permutation.
Defined.

(** The quorum counts views, not peers: one peer that lists a remote twice under
    the same normalized url reaches a quorum of two by itself, and its taint
    history is adopted. *)
Theorem one_peer_reaches_quorum :
  ∃ mr mt, res_remotes (seed_merge ["p"; "p"] 2) = [mr] ∧ mr_tags mr = [mt] ∧ mt_tainted mt = true ∧ length (mt_events mt) = 1%nat.
Proof. eexists _, _. split; [vm_compute; reflexivity|]. split; [reflexivity|]. split; reflexivity. Qed.
