(* ===== verification/Seed.v ===== *)
(** internal/seed/seed.go and client.go: fetching the peers' views, the guards of a
    bootstrap and the atomic write that rebuilds the ledgers.

    A peer answers one page of a listing at a time ([peer]); SeedClient.v is the HTTP client
    that does so.
    Goroutines append their results under a mutex, so what the merge sees is the
    successful results in the order in which they finish ([order]); the semaphore
    and the deadlines only decide which requests fail.  [peer_ok] is the transport
    guard, which refuses a peer before any request. *)
From S2P Require Import Prelude GoStrings GoMaps Sha256 Model Chain StoreSpec Handlers SeedMerge.
#[local] Open Scope Z_scope.

(** * Configuration the seeder reads (internal/config) *)

Record SeedConfig : Type := mkSeedConfig {
  SeedServers : string;
  SeedRemotes : string;
  SeedQuorum : Z;
  SeedMaxRemotes : Z;
  SeedMaxObservations : Z;
  SeedMaxPages : Z;
  SyncDefaultInterval : Z;
  StalenessBudget : Z;
}.

Definition peer_separator (c : ascii) : bool :=
  Ascii.eqb c "," || Ascii.eqb c " " || Ascii.eqb c "009" || Ascii.eqb c "010".

Definition seedServerList (raw : string) : list string :=
  if String.eqb raw "" then [] else List.filter (λ p, negb (String.eqb p "")) (FieldsFunc raw peer_separator).

Definition SeedEnabled (cfg : SeedConfig) : bool :=
  match seedServerList (SeedServers cfg) with
  | [] => false
  | _ => true
  end.

(** * Peers and allowlist *)

Fixpoint peer_loop (seen : gset string) (raw out : list string) : list string :=
  match raw with
  | [] => out
  | u :: raw =>
      if String.eqb u "" || bool_decide (u ∈ seen) then peer_loop seen raw out
      else peer_loop ({[u]} ∪ seen) raw (out ++ [u])
  end.

Definition peerURLs (cfg : SeedConfig) : list string :=
  peer_loop ∅ (FieldsFunc (SeedServers cfg) peer_separator) [].

Definition parseAllowlist (raw : string) : list string :=
  if String.eqb (TrimSpace raw) "" then []
  else List.filter (λ p, negb (String.eqb p "")) (map TrimSpace (Split raw ",")).

(** The same function as the API handler's. *)
Definition matchGlob (pattern name : string) : bool := Handlers.matchGlob pattern name.

Definition matchAllowlist (allow : list string) (url : string) : bool :=
  match allow with
  | [] => true
  | _ => existsb (λ pat, matchGlob pat url) allow
  end.

(** * Paginated listings (client.go)

    [get_page cursor] is one answer: its items and its next cursor, or an error.
    The loop stops after [maxPages] requests. *)

Definition derefCursor (p : option Z) : Z := default 0 p.

Fixpoint paginate {A} (get_page : Z → res (list A * option Z)) (maxPages : nat) (cursor : Z) (all : list A)
    : res (list A) :=
  match maxPages with
  | O => Ok all
  | S maxPages =>
      match get_page cursor with
      | Err e => Err e
      | Ok (items, nextCursor) =>
          match items with
          | [] => Ok all
          | _ =>
              let next := derefCursor nextCursor in
              if (next =? 0) || (next <=? cursor) then Ok (all ++ items)
              else paginate get_page maxPages next (all ++ items)
          end
      end
  end.

(** A peer: whether its url is acceptable, and its three listings. *)
Record peer : Type := mkPeer {
  peer_ok : bool;
  get_remotes : Z → res (list wireRemote * option Z);
  get_tags : Z → Z → res (list wireTag * option Z);
  get_events : Z → Z → res (list wireTaintEvent * option Z);
}.

Definition listRemotes (p : peer) (maxPages : Z) : res (list wireRemote) :=
  paginate (get_remotes p) (Z.to_nat maxPages) 0 [].
Definition listTags (p : peer) (remoteID maxPages : Z) : res (list wireTag) :=
  paginate (get_tags p remoteID) (Z.to_nat maxPages) 0 [].
Definition listTaintEvents (p : peer) (remoteID maxPages : Z) : res (list wireTaintEvent) :=
  paginate (get_events p remoteID) (Z.to_nat maxPages) 0 [].

(** One remote of one peer; [None] when a listing fails. *)
Definition fetch_remote (p : peer) (peerURL : string) (maxPages : Z) (r : wireRemote) : option peerRemoteView :=
  match listTags p (wr_ID r) maxPages with
  | Err _ => None
  | Ok tags =>
      match listTaintEvents p (wr_ID r) maxPages with
      | Err _ => None
      | Ok events => Some (mkPeerRemoteView peerURL r tags events)
      end
  end.

(** Results collected in finishing order. *)
Definition in_order {A} (order : list nat) (l : list (option A)) : list A := omap (λ i, mjoin (l !! i)) order.

(** [order] is the order in which the remotes' goroutines finish. *)
Definition fetchPeer (cfg : SeedConfig) (p : peer) (peerURL : string) (allow : list string) (order : list nat)
    : option (list peerRemoteView) :=
  match listRemotes p (SeedMaxPages cfg) with
  | Err _ => None
  | Ok remotes =>
      let filtered := List.filter (λ r, matchAllowlist allow (wr_NormalizedURL r)) remotes in
      Some (in_order order (map (fetch_remote p peerURL (SeedMaxPages cfg)) filtered))
  end.

Definition group_views (byURL : gmap string (list peerRemoteView)) (views : list peerRemoteView)
    : gmap string (list peerRemoteView) :=
  foldl (λ m v, let u := wr_NormalizedURL (pv_remote v) in <[u := default [] (m !! u) ++ [v]]> m) byURL views.

(** [orders] are the finishing orders: of the peers, and of each peer's remotes. *)
Definition fetchAll (cfg : SeedConfig) (peer_of : string → peer) (peers : list string)
    (order : list nat) (orders : string → list nat) : gmap string (list peerRemoteView) * Z :=
  let allow := parseAllowlist (SeedRemotes cfg) in
  let fetched := map (λ u, if peer_ok (peer_of u) then fetchPeer cfg (peer_of u) u allow (orders u) else None) peers in
  let used := in_order order fetched in
  (foldl group_views ∅ used, Z.of_nat (length used)).

(** * The write *)

Definition orFirst (oid fallback : OID) : OID := if IsZero oid then fallback else oid.
Definition orInt (v fallback : Z) : Z := if v =? 0 then fallback else v.

Section write.
  Context {S T : Type} `{Store S T} `{Tx T}.
  Variable cfg : SeedConfig.

(** The observation and the taint event of one merged event. *)
Definition writeEvent (remoteID syncID refID : Z) (ev : mergedEvent) : SE T error () :=
  r ← tx_AppendObservation (mkObservation 0 remoteID refID syncID 0 (me_eventType ev) (me_fromOID ev) (me_toOID ev)
                              zeroOID zeroOID (me_detectedAtNS ev) [] [] "");
  match me_taintReason ev with
  | None => mret ()
  | Some reason =>
      _ ← tx_AppendTaintEvent (mkTaintEvent 0 remoteID refID reason (Some (ob_ID r.2)) (me_fromOID ev) (me_toOID ev)
                                 (me_detectedAtNS ev) None "" "" "");
      mret ()
  end.

Definition writeTag (remoteID syncID : Z) (mt : mergedTag) : SE T error () :=
  ref ← tx_UpsertRefProjection (mkRef 0 remoteID (mt_name mt) (mt_firstOID mt) (mt_genesisPeeledOID mt)
          (mt_isAnnotated mt) (mt_firstOID mt) (mt_firstSeenNS mt) (mt_firstSeenNS mt) (mt_firstSeenNS mt)
          false false None 0);
  _ ← tx_AppendObservation (mkObservation 0 remoteID (rf_ID ref) syncID 0 EventTagCreated zeroOID (mt_firstOID mt)
        zeroOID (mt_genesisPeeledOID mt) (mt_firstSeenNS mt) [] [] "");
  _ ← for_each (mt_events mt) (writeEvent remoteID syncID (rf_ID ref));
  let lastChanged := match last (mt_events mt) with
                     | Some ev => me_detectedAtNS ev
                     | None => rf_LastChangedNS ref
                     end in
  _ ← tx_UpsertRefProjection (mkRef (rf_ID ref) (rf_RemoteID ref) (rf_TagName ref)
        (orFirst (mt_currentOID mt) (mt_firstOID mt)) (mt_currentPeeledOID mt) (rf_IsAnnotatedTag ref)
        (rf_FirstOID ref) (rf_FirstSeenNS ref) (orInt (mt_lastSeenNS mt) (mt_firstSeenNS mt)) lastChanged
        (mt_deleted mt) (mt_tainted mt) (mt_taintFirstNS mt) (1 + Z.of_nat (length (mt_events mt))));
  mret ().

Definition seed_remote (mr : mergedRemote) (now : Z) : Remote :=
  mkRemote 0 (mr_url mr) (mr_normalizedURL mr) (mr_transport mr) (SyncDefaultInterval cfg) (StalenessBudget cfg)
    (mr_taintAnyTagDeletion mr) None RemoteActive 0 "" 0 genesis_head 0 None now now.

Definition seed_sync (remoteID : Z) (mr : mergedRemote) (now : Z) : Sync :=
  mkSync 0 remoteID TriggerRegister now now SyncOk (Z.of_nat (length (mr_tags mr))) 0 "" genesis_head [].

Definition writeRemote (now : Z) (mr : mergedRemote) : SE T error () :=
  remoteID ← tx_CreateRemote (seed_remote mr now);
  syncID ← tx_WriteSync (seed_sync remoteID mr now);
  for_each (mr_tags mr) (writeTag remoteID syncID).

(** The body of the transaction. *)
Definition write_tx (now : Z) (res : mergeResult) : SE T error () :=
  count ← tx_CountAllRemotes;
  if negb (count =? 0) then throw (ErrOther "seed: remotes table is non-empty at write time (aborting)")
  else if SeedMaxRemotes cfg <? Z.of_nat (length (res_remotes res)) then throw (ErrOther "seed: remotes over ceiling")
  else if SeedMaxObservations cfg <? res_totalObs res then throw (ErrOther "seed: observations over ceiling")
  else for_each (res_remotes res) (writeRemote now).

(** Remotes and tags written, and the store after the transaction. *)
Definition write (now : Z) (res : mergeResult) (s : S) : result error (Z * Z) * S :=
  match st_WithTx (write_tx now res) s with
  | (Err e, s') => (Err e, s')
  | (Ok _, s') =>
      (Ok (Z.of_nat (length (res_remotes res)),
           foldr (λ mr n, Z.of_nat (length (mr_tags mr)) + n) 0 (res_remotes res)), s')
  end.

(** The bootstrap never fails: it seeds or leaves the store as it was. *)
Definition Run (range : ∀ A, Range A) (peer_of : string → peer) (order : list nat) (orders : string → list nat)
    (now : Z) (s : S) : S :=
  if negb (SeedEnabled cfg) then s
  else match st_CountAllRemotes s with
       | Err _ => s
       | Ok (n, s) =>
           if negb (n =? 0) then s
           else match peerURLs cfg with
                | [] => s
                | peers =>
                    let '(byURL, peersUsed) := fetchAll cfg peer_of peers order orders in
                    if peersUsed =? 0 then s
                    else
                      let res := mergeQuorum range byURL (SeedQuorum cfg) in
                      if SeedMaxRemotes cfg <? Z.of_nat (length (res_remotes res)) then s
                      else if SeedMaxObservations cfg <? res_totalObs res then s
                      else match res_remotes res with
                           | [] => s
                           | _ => (write now res s).2
                           end
                end
       end.

End write.
