(* ===== verification/Scheduler.v ===== *)
(** internal/sync/scheduler.go: the polling loop.

    The semaphore's occupancy and the wait group are the multiset of running
    syncs.  [poll] is one tick; [sched_step] is the whole loop as a transition
    system: a tick, a sync that finishes, a change of the store by the rest of the
    program, the cancellation of the context. *)
From S2P Require Import Prelude GoStrings Sha256 Model Chain StoreSpec Sqlc SqliteTx SqliteSpec SyncProps.
#[local] Open Scope Z_scope.

Section scheduler.
  Context {S T : Type} `{Store S T}.
  Variable concurrency : nat.

(** The state: the store, the remotes whose sync is running, and whether the
    context is cancelled. *)
Record sched : Type := mkSched {
  sc_store : S;
  sc_running : list Z;
  sc_cancelled : bool;
}.

(** The loop over the due remotes: each takes a slot if one is free, and is skipped
    otherwise. *)
Fixpoint spawn (due : list Remote) (running : list Z) : list Z :=
  match due with
  | [] => running
  | r :: due =>
      if (length running <? concurrency)%nat then spawn due (running ++ [rm_ID r]) else spawn due running
  end.

Definition poll (now : Z) (s : sched) : sched :=
  match st_SelectDueRemotes now (Z.of_nat concurrency * 2) (sc_store s) with
  | Err _ => s
  | Ok (remotes, store) =>
      if sc_cancelled s then mkSched store (sc_running s) true
      else mkSched store (spawn remotes (sc_running s)) false
  end.

(** [Start]: a tick polls, and may win over the cancellation when both are ready; running
    syncs finish at any time; the loop returns when the context is cancelled and nothing
    runs. *)
Inductive sched_step : sched → sched → Prop :=
  | step_tick now s : sched_step s (poll now s)
  | step_done s l1 rid l2 store :
      sc_running s = l1 ++ rid :: l2 → sched_step s (mkSched store (l1 ++ l2) (sc_cancelled s))
  | step_store s store : sched_step s (mkSched store (sc_running s) (sc_cancelled s))
  | step_cancel s : sched_step s (mkSched (sc_store s) (sc_running s) true).

Definition returned (s : sched) : Prop := sc_cancelled s = true ∧ sc_running s = [].

(** * Lemmas *)

Lemma spawn_bound due running : (length running ≤ concurrency)%nat → (length (spawn due running) ≤ concurrency)%nat.
Proof.
  revert running. induction due as [|r due IH]; intros running Hle; cbn [spawn]; [done|].
  destruct (Nat.ltb_spec (length running) concurrency); [|by apply IH]. apply IH. rewrite length_app. cbn. lia.
Qed.

(** Due remotes are started in order while slots are free. *)
Lemma spawn_spec due running :
  (length running ≤ concurrency)%nat →
  spawn due running = running ++ take (concurrency - length running) (rm_ID <$> due).
Proof.
  revert running. induction due as [|r due IH]; intros running Hle; cbn [spawn]; [cbn; by rewrite take_nil, app_nil_r|].
  destruct (Nat.ltb_spec (length running) concurrency) as [Hlt|Hge].
  - rewrite IH by (rewrite length_app; cbn; lia). rewrite length_app, <- app_assoc. cbn [length].
    replace (concurrency - length running)%nat with (Datatypes.S (concurrency - (length running + 1)))%nat by lia. done.
  - rewrite IH by done. replace (concurrency - length running)%nat with 0%nat by lia. done.
Qed.

Lemma poll_running now s :
  sc_cancelled s = false → (length (sc_running s) ≤ concurrency)%nat →
  sc_cancelled (poll now s) = false ∧
  match st_SelectDueRemotes now (Z.of_nat concurrency * 2) (sc_store s) with
  | Err _ => sc_running (poll now s) = sc_running s
  | Ok (due, _) => sc_running (poll now s) = sc_running s ++ take (concurrency - length (sc_running s)) (rm_ID <$> due)
  end.
Proof.
  intros Hc Hle. unfold poll. destruct (st_SelectDueRemotes _ _ _) as [[due store]|e]; [|done]. rewrite Hc. cbn.
  split; [done|]. by apply spawn_spec.
Qed.

Lemma step_bound s s' :
  sched_step s s' → (length (sc_running s) ≤ concurrency)%nat → (length (sc_running s') ≤ concurrency)%nat.
Proof.
  destruct 1 as [now s|s l1 rid l2 store Hr|s store|s]; intros Hle; try done.
  - unfold poll. destruct (st_SelectDueRemotes _ _ _) as [[due store]|]; [|done]. destruct (sc_cancelled s); [done|]. by apply spawn_bound.
  - rewrite Hr in Hle. cbn. rewrite length_app in *. cbn in *. lia.
Qed.

(** Once cancelled, the running syncs only finish. *)
Lemma cancelled_shrinks s s' :
  sched_step s s' → sc_cancelled s = true → sc_cancelled s' = true ∧ (length (sc_running s') ≤ length (sc_running s))%nat.
Proof.
  destruct 1 as [now s|s l1 rid l2 store Hr|s store|s]; intros Hcan; try done.
  { unfold poll. destruct (st_SelectDueRemotes _ _ _) as [[due store]|]; [|done]. by rewrite Hcan. }
  rewrite Hr. cbn. rewrite !length_app. cbn. split; [done|lia].
Qed.

(** * Properties *)

(** C32. The scheduler never has more syncs in flight than its concurrency: from a
    start with none, in every reachable state.  A tick starts the due remotes in
    the order the store returns them until the slots are full, and leaves the
    running ones alone.  After the cancellation nothing new starts, and the loop
    can return once the running syncs have finished. *)
Theorem scheduler_bounded s0 s :
  sc_running s0 = [] → rtc sched_step s0 s →
  (length (sc_running s) ≤ concurrency)%nat ∧
  (∀ now due store', sc_cancelled s = false →
     st_SelectDueRemotes now (Z.of_nat concurrency * 2) (sc_store s) = Ok (due, store') →
     sc_running (poll now s) = sc_running s ++ take (concurrency - length (sc_running s)) (rm_ID <$> due)) ∧
  (sc_cancelled s = true →
     (∀ s', rtc sched_step s s' → sc_cancelled s' = true ∧ (length (sc_running s') ≤ length (sc_running s))%nat) ∧
     ∃ s', rtc sched_step s s' ∧ returned s').
Proof.
  intros H0 Hreach.
  assert (length (sc_running s) ≤ concurrency)%nat as Hb.
  { assert (length (sc_running s0) ≤ concurrency)%nat as Hstart by (rewrite H0; cbn; lia). clear H0.
    induction Hreach as [|x y z Hxy _ IH]; [done|]. apply IH. by eapply step_bound. }
  split; [done|]. split.
  - intros now due store' Hc Hsel. destruct (poll_running now s Hc Hb) as [_ Hp]. by rewrite Hsel in Hp.
  - intros Hc. split.
    + intros s' Hs'. clear Hb Hreach. induction Hs' as [|x y z Hxy _ IH]; [done|].
      destruct (cancelled_shrinks _ _ Hxy Hc) as [Hy Hle]. destruct (IH Hy) as [? ?]. split; [done|lia].
    + clear Hb Hreach H0 s0. destruct s as [store running c]. cbn in Hc. subst c.
      induction running as [|rid running IH].
      * eexists. split; [apply rtc_refl|done].
      * destruct IH as (s' & Hs' & Hret). exists s'. split; [|done]. eapply rtc_l; [|exact Hs'].
        exact (step_done (mkSched store (rid :: running) true) [] rid running store eq_refl).
Qed.

End scheduler.

(** The sample store of one remote, due at time 400000000000, and one slot. *)
Definition sample_sched : sched (S := db) := mkSched sample_db [] false.

Lemma scheduler_bounded_witness : sc_running (poll (T := sqliteTx) 1 400000000000 sample_sched) = [1].
Proof.
  destruct (scheduler_bounded (S := db) (T := sqliteTx) 1 sample_sched sample_sched) as (_ & Hpoll & _).
  - reflexivity.
  - apply rtc_refl.
  - rewrite (Hpoll 400000000000 [sample_remote] sample_db); [reflexivity|reflexivity|vm_compute; reflexivity].
Defined.
