(* ===== verification/SeedWrite.v ===== *)
(** The correctness of the seed's atomic write (Seed.v): on an empty store it
    creates every adopted remote with a ledger that replays, and every adopted tag
    with its rebuilt history and the adopted verdict. *)
From S2P Require Import Prelude GoStrings GoMaps Sha256 Model Chain SyncDiff Sqlc StoreSpec SqliteStore SqliteTx SqliteSpec.
From S2P Require Import Lock SyncRemote SyncCorrect SyncProps SeedMerge SeedProps Seed.
#[local] Open Scope Z_scope.

(** * Definitions *)

(** An event the ledger and the taint spine accept. *)
Definition event_ok (ev : mergedEvent) : Prop :=
  storable (me_fromOID ev) ∧ storable (me_toOID ev) ∧ EventType_Valid (me_eventType ev) = true ∧
  ∀ reason, me_taintReason ev = Some reason → TaintReason_Valid reason = true.

Record mtag_ok (mt : mergedTag) : Prop := {
  mtag_first : storable (mt_firstOID mt);
  mtag_genesis : storable (mt_genesisPeeledOID mt);
  mtag_current : storable (mt_currentOID mt);
  mtag_peeled : storable (mt_currentPeeledOID mt);
  mtag_events : Forall event_ok (mt_events mt);
  mtag_taint : mt_tainted mt = true ↔ is_Some (mt_taintFirstNS mt);
}.

(** The projection of a seeded tag. *)
Definition seeded (rid : Z) (mt : mergedTag) (ref : Ref) : Prop :=
  rf_RemoteID ref = rid ∧ rf_TagName ref = mt_name mt ∧ rf_FirstOID ref = mt_firstOID mt ∧
  rf_CurrentOID ref = orFirst (mt_currentOID mt) (mt_firstOID mt) ∧ rf_CurrentPeeledOID ref = mt_currentPeeledOID mt ∧
  rf_Deleted ref = mt_deleted mt ∧ rf_Tainted ref = mt_tainted mt ∧ rf_TaintFirstNS ref = mt_taintFirstNS mt ∧
  rf_ObservationCount ref = 1 + Z.of_nat (length (mt_events mt)).

(** A ledger row: remote, tag, event, the two ids and the time. *)
Definition row_is (rid refID : Z) (event : string) (prev new : OID) (at_ns : Z) (o : Observation) : Prop :=
  ob_RemoteID o = rid ∧ ob_RefID o = refID ∧ ob_EventType o = event ∧ ob_PrevOID o = prev ∧ ob_NewOID o = new ∧
  ob_ObservedAtNS o = at_ns.

Definition event_row (rid refID : Z) (ev : mergedEvent) (o : Observation) : Prop :=
  row_is rid refID (me_eventType ev) (me_fromOID ev) (me_toOID ev) (me_detectedAtNS ev) o.

(** The history of a seeded tag: its creation, then one row per event. *)
Definition tag_history (rid refID : Z) (mt : mergedTag) (rows : list Observation) : Prop :=
  ∃ o l, rows = o :: l ∧ row_is rid refID EventTagCreated zeroOID (mt_firstOID mt) (mt_firstSeenNS mt) o ∧
    Forall2 (event_row rid refID) (mt_events mt) l.

Definition tag_result (rid : Z) (a : Abs) (mt : mergedTag) : Prop :=
  ∃ ref l1 rows l2, a_refs a !! (rid, mt_name mt) = Some ref ∧ seeded rid mt ref ∧
    a_obs a = l1 ++ rows ++ l2 ∧ tag_history rid (rf_ID ref) mt rows.

(** * Lemmas *)

Section write.
Context {S T : Type} `{HS : StoreSpec S T}.

Lemma write_sync_run rid t s :
  t_ok t → good (t_abs t) → is_Some (a_remotes (t_abs t) !! rid) → sy_RemoteID s = rid →
  sy_Trigger s ∈ [TriggerRegister; TriggerScheduled; TriggerManual] → sy_Status s ∈ [SyncOk; SyncPartial; SyncFailed] →
  sync_fits s →
  ∃ id t', tx_WriteSync s t = Ok (id, t') ∧ txinv rid id t' ∧ ∃ l, t_abs t' = with_a_syncs (t_abs t) l.
Proof.
  intros Hok Hgood Hrem Hrid Htr Hst (Hf1 & Hf2 & Hf3 & Hf4 & Hf5).
  destruct (sync_total t s Hok) as [[id t1] Hrun]; [by rewrite Hrid|done..|].
  destruct (sync_refines t s id t1 Hok Hf1 Hf2 Hrun) as (Hok1 & _ & Hspec).
  pose proof (write_sync_ok _ _ _ _ Hspec (good_abs _ Hgood)) as Habs. destruct Hspec as (Hnz & Hmax & Ha).
  exists id, t1. split; [done|]. split; [|rewrite Ha; by eexists].
  assert (∀ o, o ∈ a_obs (t_abs t) → ob_SyncID o ≠ id) as Hold.
  { intros o Ho E. destruct (good_syncs _ Hgood o Ho) as (s0 & Hs0 & E0). specialize (Hmax s0 Hs0). lia. }
  split; [done| |by rewrite Ha|].
  - split; [done|by rewrite Ha; apply Hgood| |].
    + intros o Ho. rewrite Ha in *. destruct (good_syncs _ Hgood o Ho) as (s0 & Hs0 & E). exists s0. cbn.
      split; [apply elem_of_app; by left|done].
    + intros o s'. rewrite Ha. cbn. intros Ho [Hs'| ->%list_elem_of_singleton]%elem_of_app Hid.
      * by apply (good_owner _ Hgood).
      * by destruct (Hold o Ho).
  - rewrite Ha. split; [done|]. split.
    + exists (sync_with_id s id). cbn. split; [apply elem_of_app; right; by left|done].
    + intros s'. cbn. intros [Hs'| ->%list_elem_of_singleton]%elem_of_app Hid; [|done]. apply Hmax in Hs'. lia.
Qed.

(** One event: a ledger row, and its taint in the spine. *)
Lemma writeEvent_run rid syncID refID t ev :
  txinv rid syncID t → event_ok ev → has_ref_id (t_abs t) refID →
  ∃ t' o, writeEvent rid syncID refID ev t = Ok ((), t') ∧ txinv rid syncID t' ∧
    a_refs (t_abs t') = a_refs (t_abs t) ∧ a_obs (t_abs t') = a_obs (t_abs t) ++ [o] ∧ event_row rid refID ev o ∧
    frame rid [] (t_abs t) (t_abs t').
Proof.
  intros Hinv (Hf & Ht & Hev & Hreason) Href. unfold writeEvent.
  set (obs := mkObservation 0 rid refID syncID 0 (me_eventType ev) (me_fromOID ev) (me_toOID ev) zeroOID zeroOID
                (me_detectedAtNS ev) [] [] "").
  destruct (append_run rid syncID t obs Hinv) as (r & t1 & row & Hrun1 & Hinv1 & (seq & p & h & Hrow & Hr2) & Hobs1 & Hrefs1 & Hfr1);
    [split_and!; [done|done|by left|by left]|done..|].
  assert (event_row rid refID ev row) as Hev_row by (by rewrite Hrow).
  destruct (me_taintReason ev) as [reason|].
  - set (te := mkTaintEvent 0 rid refID reason (Some (ob_ID r.2)) (me_fromOID ev) (me_toOID ev) (me_detectedAtNS ev) None "" "" "").
    destruct (taint_run rid syncID t1 te Hinv1) as (id & t2 & f & Hrun2 & Hinv2 & Hrefs2 & Hobs2 & Hfr2 & _); try done.
    { unfold has_ref_id. by rewrite Hrefs1. }
    { intros id [= <-]. exists row. rewrite Hobs1. split; [apply elem_of_app; right; by left|]. by rewrite <- Hr2. }
    { by apply Hreason. }
    exists t2, row. split.
    { apply SE_bind_ok. exists r, t1. split; [exact Hrun1|]. apply SE_bind_ok. exists id, t2. split; [exact Hrun2|done]. }
    split; [done|]. split; [congruence|]. split; [congruence|]. split; [done|]. by eapply frame_trans_same.
  - exists t1, row. split; [apply SE_bind_ok; exists r, t1; split; [exact Hrun1|done]|]. by rewrite Hrefs1.
Qed.

Lemma writeEvents_run rid syncID refID t events :
  txinv rid syncID t → Forall event_ok events → has_ref_id (t_abs t) refID →
  ∃ t' rows, for_each events (writeEvent rid syncID refID) t = Ok ((), t') ∧ txinv rid syncID t' ∧
    a_refs (t_abs t') = a_refs (t_abs t) ∧ a_obs (t_abs t') = a_obs (t_abs t) ++ rows ∧
    Forall2 (event_row rid refID) events rows ∧ frame rid [] (t_abs t) (t_abs t').
Proof.
  revert t. induction events as [|ev events IH]; intros t Hinv Hok Href.
  { exists t, []. rewrite app_nil_r. split_and!; try done. apply frame_refl. }
  apply Forall_cons in Hok as [Hev Hok].
  destruct (writeEvent_run rid syncID refID t ev Hinv Hev Href) as (t1 & o & Hrun1 & Hinv1 & Hrefs1 & Hobs1 & Hrow & Hfr1).
  destruct (IH t1 Hinv1 Hok) as (t2 & rows & Hrun2 & Hinv2 & Hrefs2 & Hobs2 & Hrows & Hfr2).
  { unfold has_ref_id. by rewrite Hrefs1. }
  exists t2, (o :: rows). split; [apply SE_bind_ok; exists (), t1; by split|]. split; [done|].
  split; [congruence|]. split; [by rewrite Hobs2, Hobs1, <- (assoc_L (++))|]. split; [by constructor|].
  by eapply frame_trans_same.
Qed.

Lemma writeTag_run rid syncID t mt :
  txinv rid syncID t → mtag_ok mt → name_ok (mt_name mt) → a_refs (t_abs t) !! (rid, mt_name mt) = None →
  ∃ t' ref rows, writeTag rid syncID mt t = Ok ((), t') ∧ txinv rid syncID t' ∧
    a_refs (t_abs t') !! (rid, mt_name mt) = Some ref ∧ seeded rid mt ref ∧
    a_obs (t_abs t') = a_obs (t_abs t) ++ rows ∧ tag_history rid (rf_ID ref) mt rows ∧
    frame rid [mt_name mt] (t_abs t) (t_abs t').
Proof.
  intros Hinv [Hfirst Hgen Hcur Hpeel Hevs Htaint] Hname Hnone. unfold writeTag.
  set (ref0 := mkRef 0 rid (mt_name mt) (mt_firstOID mt) (mt_genesisPeeledOID mt) (mt_isAnnotated mt) (mt_firstOID mt)
    (mt_firstSeenNS mt) (mt_firstSeenNS mt) (mt_firstSeenNS mt) false false None 0).
  destruct (upsert_run rid syncID t ref0 Hinv) as (id & t1 & Hrun1 & Hinv1 & _ & Ha1).
  { split; [by split_and!|]. split; [done|]. by intros [? ?]. } { done. } { done. }
  cbn [rf_TagName ref0] in Ha1. rewrite Hnone in Ha1.
  assert (a_refs (t_abs t1) !! (rid, mt_name mt) = Some (upserted None ref0 id)) as Hl1 by (rewrite Ha1; apply lookup_insert_eq).
  assert (frame rid [mt_name mt] (t_abs t) (t_abs t1)) as Hfr1.
  { rewrite Ha1. apply upsert_frame. intros r Hr. by rewrite Hnone in Hr. }
  set (gen := mkObservation 0 rid id syncID 0 EventTagCreated zeroOID (mt_firstOID mt) zeroOID (mt_genesisPeeledOID mt)
    (mt_firstSeenNS mt) [] [] "").
  destruct (append_run rid syncID t1 gen Hinv1) as (r2 & t2 & row & Hrun2 & Hinv2 & (seq & p & h & Hrow & _) & Hobs2 & Hrefs2 & Hfr2);
    [split_and!; [by left|done|by left|done]|done|done| |done|done|].
  { exists (rid, mt_name mt), (upserted None ref0 id). by rewrite Hl1. }
  destruct (writeEvents_run rid syncID id t2 (mt_events mt) Hinv2 Hevs) as (t3 & rows & Hrun3 & Hinv3 & Hrefs3 & Hobs3 & Hrows & Hfr3).
  { exists (rid, mt_name mt), (upserted None ref0 id). by rewrite Hrefs2, Hl1. }
  set (lastChanged := match last (mt_events mt) with Some ev => me_detectedAtNS ev | None => mt_firstSeenNS mt end).
  set (ref1 := mkRef id rid (mt_name mt) (orFirst (mt_currentOID mt) (mt_firstOID mt)) (mt_currentPeeledOID mt) (mt_isAnnotated mt)
    (mt_firstOID mt) (mt_firstSeenNS mt) (orInt (mt_lastSeenNS mt) (mt_firstSeenNS mt)) lastChanged
    (mt_deleted mt) (mt_tainted mt) (mt_taintFirstNS mt) (1 + Z.of_nat (length (mt_events mt)))).
  destruct (upsert_run rid syncID t3 ref1 Hinv3) as (id' & t4 & Hrun4 & Hinv4 & Hid & Ha4).
  { split; [|done]. split_and!; cbn; try done. unfold orFirst. by destruct (IsZero (mt_currentOID mt)). } { done. } { done. }
  cbn [rf_TagName ref1] in Hid, Ha4. rewrite Hrefs3, Hrefs2, Hl1 in Hid, Ha4. cbn in Hid. subst id'.
  exists t4, (upserted (Some (upserted None ref0 id)) ref1 id), (row :: rows). split.
  { apply SE_bind_ok. eexists _, t1. split; [exact Hrun1|]. apply SE_bind_ok. eexists _, t2. split; [exact Hrun2|].
    apply SE_bind_ok. eexists _, t3. split; [exact Hrun3|]. apply SE_bind_ok. eexists _, t4. split; [exact Hrun4|done]. }
  split; [done|]. split; [rewrite Ha4; apply lookup_insert_eq|]. split; [by split_and!|]. split.
  { rewrite Ha4. cbn [with_a_refs a_obs]. rewrite Hobs3, Hobs2, Ha1, <- (assoc_L (++)). done. }
  split. { exists row, rows. split; [done|]. split; [by rewrite Hrow|done]. }
  assert (frame rid [mt_name mt] (t_abs t3) (t_abs t4)) as Hfr4.
  { rewrite Ha4. cbn [with_a_refs]. rewrite <- Hrefs2, <- Hrefs3. apply upsert_frame. intros r.
    rewrite Hrefs3, Hrefs2, Hl1. by intros [= <-]. }
  eapply frame_trans; [exact Hfr1| |set_solver|reflexivity].
  eapply frame_trans; [exact Hfr2| |set_solver|reflexivity].
  eapply frame_trans; [exact Hfr3|exact Hfr4|set_solver|reflexivity].
Qed.

(** What one part of the write adds to the ledger keeps the results of another. *)
Lemma tag_result_frame rid names a a' rows mt :
  frame rid names a a' → mt_name mt ∉ names → a_obs a' = a_obs a ++ rows → tag_result rid a mt → tag_result rid a' mt.
Proof.
  intros Hfr Hn Hobs (ref & l1 & h & l2 & Href & Hs & Ho & Hh). exists ref, l1, h, (l2 ++ rows).
  rewrite (frame_refs _ _ _ _ Hfr) by (by right). split; [done|]. split; [done|]. split; [|done].
  by rewrite Hobs, Ho, <- !(assoc_L (++)).
Qed.

Lemma writeTags_run rid syncID t tags :
  txinv rid syncID t → Forall mtag_ok tags → Forall name_ok (mt_name <$> tags) → NoDup (mt_name <$> tags) →
  (∀ mt, mt ∈ tags → a_refs (t_abs t) !! (rid, mt_name mt) = None) →
  ∃ t' rows, for_each tags (writeTag rid syncID) t = Ok ((), t') ∧ txinv rid syncID t' ∧
    a_obs (t_abs t') = a_obs (t_abs t) ++ rows ∧ Forall (λ o, ob_RemoteID o = rid) rows ∧
    Forall (tag_result rid (t_abs t')) tags ∧ frame rid (mt_name <$> tags) (t_abs t) (t_abs t').
Proof.
  revert t. induction tags as [|mt tags IH]; intros t Hinv Hok Hfit Hnd Hnone.
  { exists t, []. rewrite app_nil_r. split_and!; try done. apply frame_refl. }
  apply Forall_cons in Hok as [Hmt Hok]. apply Forall_cons in Hfit as [Hname Hfit]. cbn [fmap list_fmap] in Hnd. apply NoDup_cons in Hnd as [Hnin Hnd].
  destruct (writeTag_run rid syncID t mt Hinv Hmt Hname) as (t1 & ref & rows1 & Hrun1 & Hinv1 & Href & Hs & Hobs1 & Hh & Hfr1); [apply Hnone; left|].
  destruct (IH t1 Hinv1 Hok Hfit Hnd) as (t2 & rows2 & Hrun2 & Hinv2 & Hobs2 & Hown2 & Hres & Hfr2).
  { intros mt' Hmt'. rewrite (frame_refs _ _ _ _ Hfr1); [apply Hnone; by right|]. right. intros E%list_elem_of_singleton.
    apply Hnin. cbn in E. rewrite <- E. by apply list_elem_of_fmap_2. }
  exists t2, (rows1 ++ rows2). split; [apply SE_bind_ok; exists (), t1; by split|]. split; [done|].
  split; [by rewrite Hobs2, Hobs1, <- (assoc_L (++))|]. split.
  { apply Forall_app. split; [|done]. destruct Hh as (o & l & -> & (Ho & _) & Hl). constructor; [done|].
    clear -Hl. induction Hl as [|ev o' evs l (E & _) _ IHl]; constructor; done. }
  split; [constructor; [|done]|].
  - eapply tag_result_frame; [exact Hfr2|done|exact Hobs2|]. exists ref, (a_obs (t_abs t)), rows1, [].
    by rewrite app_nil_r.
  - eapply frame_trans; [exact Hfr1|exact Hfr2|set_solver|set_solver].
Qed.

End write.

(** ** Remotes, on SQLite *)

Record mremote_ok (mr : mergedRemote) : Prop := {
  mr_transport_ok : mr_transport mr ∈ [TransportHTTPS; TransportSSH];
  mr_tags_ok : Forall mtag_ok (mr_tags mr);
  mr_names : NoDup (mt_name <$> mr_tags mr);
}.

Definition url_free (a : Abs) (u : string) : Prop := ∀ id r, a_remotes a !! id = Some r → rm_NormalizedURL r ≠ u.

(** An adopted remote in the store. *)
Definition remote_result (a : Abs) (mr : mergedRemote) : Prop :=
  ∃ rid rem, a_remotes a !! rid = Some rem ∧ rm_URL rem = mr_url mr ∧ rm_NormalizedURL rem = mr_normalizedURL mr ∧
    rm_Transport rem = mr_transport mr ∧ rm_TaintAnyTagDeletion rem = mr_taintAnyTagDeletion mr ∧
    Forall (tag_result rid a) (mr_tags mr).

Lemma remote_result_frame a a' rows mr :
  (∀ k rem, a_remotes a !! k = Some rem → a_remotes a' !! k = Some rem ∧ ∀ name, a_refs a' !! (k, name) = a_refs a !! (k, name)) →
  a_obs a' = a_obs a ++ rows → remote_result a mr → remote_result a' mr.
Proof.
  intros Hkeep Hobs (rid & rem & Hrem & E1 & E2 & E3 & E4 & Htags). destruct (Hkeep rid rem Hrem) as [Hrem' Hrefs].
  exists rid, rem. split_and!; try done. eapply Forall_impl; [exact Htags|]. cbn.
  intros mt (ref & l1 & h & l2 & Href & Hs & Ho & Hh). exists ref, l1, h, (l2 ++ rows).
  rewrite Hrefs. split_and!; try done. by rewrite Hobs, Ho, <- !(assoc_L (++)).
Qed.

Lemma tx_CreateRemote_run r t :
  db_good (q t) → rm_ChainHeadHash r = genesis_head → rm_ChainLen r = 0 → rm_HashAlgo r = None → rm_Status r = RemoteActive →
  rm_Transport r ∈ [TransportHTTPS; TransportSSH] → url_free (db_abs (q t)) (rm_NormalizedURL r) →
  ∃ id t', SqliteTx.CreateRemote r t = Ok (id, t') ∧ db_good (q t') ∧ a_remotes (db_abs (q t)) !! id = None ∧
    db_abs (q t') = with_a_remotes (db_abs (q t)) (<[id := remoteFromRow (remote_row r id)]> (a_remotes (db_abs (q t)))).
Proof.
  intros Hgood Hh Hl Ha Hst Htr Hfree. set (d := q t). set (id := seq_remotes d + 1).
  set (d' := mkDb (t_remotes d ++ [remote_row r id]) (t_refs d) (t_syncs d) (t_observations d) (t_taint_events d)
    (t_remote_lease d) id (seq_refs d) (seq_syncs d) (seq_observations d) (seq_taint_events d)).
  assert (Sqlc.CreateRemote (remote_row r) d = Ok (remote_row r id, d')) as Hq.
  { unfold Sqlc.CreateRemote. apply SE_bind_ok. exists d, d. split; [done|]. fold id.
    assert (remote_checks (remote_row r id) = true) as ->.
    { unfold remote_checks. cbn. rewrite Ha, Hst. cbn. rewrite !elem_of_cons, elem_of_nil in Htr. by destruct Htr as [->|[->|[]]]. }
    assert (existsb (λ x, String.eqb (rr_NormalizedUrl x) (rr_NormalizedUrl (remote_row r id))) (t_remotes d) = false) as ->.
    { apply not_true_iff_false. rewrite existsb_exists. intros (x & Hx%list_elem_of_In & E%String.eqb_eq). cbn in E.
      apply (Hfree (rr_ID x) (remoteFromRow x)); [|done]. apply tmap_elem; [apply (proj1 Hgood)|done]. }
    done. }
  assert (SqliteStore.CreateRemote r d = Ok (id, d')) as Hs.
  { unfold SqliteStore.CreateRemote. apply SE_bind_ok. exists (remote_row r id), d'. split; [unfold run_with; by rewrite Hq|done]. }
  destruct (CreateRemote_good r d id d' Hgood Hh Hl Hs) as (Hgood' & Hrem & Hnone).
  exists id, (mkSqliteTx d' (syncID t)). split_and!; try done.
  - unfold SqliteTx.CreateRemote. apply SE_bind_ok. exists (remote_row r id), (mkSqliteTx d' (syncID t)).
    split; [|done]. unfold on_q, run_with. fold d. by rewrite Hq.
  - cbn [q]. unfold with_a_remotes. by rewrite <- Hrem.
Qed.

Lemma writeRemote_run cfg now t mr :
  db_good (q t) → mremote_ok mr → url_free (db_abs (q t)) (mr_normalizedURL mr) →
  ∃ t' rows, writeRemote (T := sqliteTx) cfg now mr t = Ok ((), t') ∧ db_good (q t') ∧ remote_result (db_abs (q t')) mr ∧
    a_obs (db_abs (q t')) = a_obs (db_abs (q t)) ++ rows ∧
    (∀ k rem, a_remotes (db_abs (q t)) !! k = Some rem → a_remotes (db_abs (q t')) !! k = Some rem ∧
       ∀ name, a_refs (db_abs (q t')) !! (k, name) = a_refs (db_abs (q t)) !! (k, name)) ∧
    (∀ u, url_free (db_abs (q t)) u → u ≠ mr_normalizedURL mr → url_free (db_abs (q t')) u).
Proof.
  intros Hgood [Htr Htags Hnd] Hfree. unfold writeRemote.
  destruct (tx_CreateRemote_run (seed_remote cfg mr now) t Hgood) as (rid & t1 & Hrun1 & Hgood1 & Hnone & Ha1); [done..|].
  set (rem0 := remoteFromRow (remote_row (seed_remote cfg mr now) rid)) in *.
  assert (a_remotes (db_abs (q t1)) !! rid = Some rem0) as Hrem1 by (rewrite Ha1; apply lookup_insert_eq).
  destruct (write_sync_run (T := sqliteTx) rid t1 (seed_sync rid mr now)) as (sid & t2 & Hrun2 & Hinv2 & l & Ha2);
    [apply Hgood1|apply Hgood1|by eexists|done|set_solver|set_solver|by split_and!; cbn; try lia|].
  assert (∀ name, a_refs (t_abs t2) !! (rid, name) = None) as Hrefs2.
  { intros name. rewrite Ha2. cbn [with_a_syncs a_refs]. change (t_abs t1) with (db_abs (q t1)). rewrite Ha1. cbn [with_a_remotes a_refs].
    destruct (a_refs (db_abs (q t)) !! (rid, name)) as [r|] eqn:E; [|done].
    destruct (db_good_ref_remote _ _ _ _ Hgood E) as [x Hx]. congruence. }
  destruct (writeTags_run rid sid t2 (mr_tags mr) Hinv2 Htags ltac:(by apply Forall_forall) Hnd) as (t3 & rows & Hrun3 & Hinv3 & Hobs3 & _ & Hres & Hfr); [auto|].
  assert (t_abs t2 = with_a_syncs (with_a_remotes (db_abs (q t)) (<[rid := rem0]> (a_remotes (db_abs (q t))))) l) as Ha.
  { rewrite Ha2. change (t_abs t1) with (db_abs (q t1)). by rewrite Ha1. }
  destruct (frame_remote _ _ _ _ Hfr rem0) as (h & n & Hrem3); [rewrite Ha; apply lookup_insert_eq|].
  exists t3, rows. split.
  { apply SE_bind_ok. exists rid, t1. split; [exact Hrun1|]. apply SE_bind_ok. exists sid, t2. split; [exact Hrun2|exact Hrun3]. }
  split; [split; [apply Hinv3|apply Hinv3]|]. split.
  { exists rid, (set_chain rem0 h n). split; [exact Hrem3|]. split_and!; try done. unfold rem0. cbn. by destruct (mr_taintAnyTagDeletion mr). }
  split; [change (db_abs (q t3)) with (t_abs t3); rewrite Hobs3, Ha; done|]. split.
  - intros k rem Hk. assert (k ≠ rid) as Hne by congruence. change (db_abs (q t3)) with (t_abs t3).
    rewrite (frame_other _ _ _ _ Hfr k Hne), Ha. cbn [with_a_syncs with_a_remotes a_remotes]. rewrite lookup_insert_ne by done.
    split; [done|]. intros name. rewrite (frame_refs _ _ _ _ Hfr) by (by left). by rewrite Ha.
  - intros u Hu Hne k rem. change (db_abs (q t3)) with (t_abs t3). destruct (decide (k = rid)) as [->|Hk].
    + rewrite Hrem3. intros [= <-]. cbn. congruence.
    + rewrite (frame_other _ _ _ _ Hfr k Hk), Ha. cbn [with_a_syncs with_a_remotes a_remotes]. rewrite lookup_insert_ne by done. apply Hu.
Qed.

Lemma writeRemotes_run cfg now t remotes :
  db_good (q t) → Forall mremote_ok remotes → NoDup (mr_normalizedURL <$> remotes) →
  (∀ mr, mr ∈ remotes → url_free (db_abs (q t)) (mr_normalizedURL mr)) →
  ∃ t' rows, for_each remotes (writeRemote (T := sqliteTx) cfg now) t = Ok ((), t') ∧ db_good (q t') ∧
    Forall (remote_result (db_abs (q t'))) remotes ∧ a_obs (db_abs (q t')) = a_obs (db_abs (q t)) ++ rows ∧
    (∀ k rem, a_remotes (db_abs (q t)) !! k = Some rem → a_remotes (db_abs (q t')) !! k = Some rem ∧
       ∀ name, a_refs (db_abs (q t')) !! (k, name) = a_refs (db_abs (q t)) !! (k, name)).
Proof.
  revert t. induction remotes as [|mr remotes IH]; intros t Hgood Hok Hnd Hfree.
  { exists t, []. rewrite app_nil_r. by split_and!. }
  apply Forall_cons in Hok as [Hmr Hok]. cbn [fmap list_fmap] in Hnd. apply NoDup_cons in Hnd as [Hnin Hnd].
  destruct (writeRemote_run cfg now t mr Hgood Hmr) as (t1 & rows1 & Hrun1 & Hgood1 & Hres1 & Hobs1 & Hkeep1 & Hfree1); [apply Hfree; left|].
  destruct (IH t1 Hgood1 Hok Hnd) as (t2 & rows2 & Hrun2 & Hgood2 & Hres2 & Hobs2 & Hkeep2).
  { intros mr' Hmr'. apply Hfree1; [apply Hfree; by right|]. intros E. apply Hnin. rewrite <- E. by apply list_elem_of_fmap_2. }
  exists t2, (rows1 ++ rows2). split; [apply SE_bind_ok; exists (), t1; by split|]. split; [done|].
  split; [constructor; [by eapply remote_result_frame|done]|]. split; [by rewrite Hobs2, Hobs1, <- (assoc_L (++))|].
  intros k rem Hk. destruct (Hkeep1 k rem Hk) as [Hk1 Hn1]. destruct (Hkeep2 k rem Hk1) as [Hk2 Hn2].
  split; [done|]. intros name. by rewrite Hn2, Hn1.
Qed.

(** ** What the merge hands to the write *)

(** What an honest server reports: taint reasons it knows, and a time for every taint. *)
Definition view_ok (v : peerRemoteView) : Prop :=
  (∀ e, e ∈ pv_taintEvents v → TaintReason_Valid (we_Reason e) = true) ∧
  (∀ t, t ∈ pv_tags v → wt_Tainted t = true → is_Some (wt_TaintFirstNS t)).
Definition views_ok (byURL : gmap string (list peerRemoteView)) : Prop :=
  ∀ u views v, byURL !! u = Some views → v ∈ views → view_ok v.

Lemma parseHexOID_wf hex o : parseHexOID hex = Ok o → oid_wf o.
Proof. unfold parseHexOID. cbv zeta. destruct (String.eqb _ ""); [done|]. apply ParseOID_wf. Qed.

Lemma optional_oid_storable hex o : optional_oid hex = Ok o → storable o.
Proof.
  unfold optional_oid. destruct hex as [h|]; [|intros [= <-]; by left].
  destruct (String.eqb h ""); [intros [= <-]; by left|]. intros H. right. by eapply parseHexOID_wf.
Qed.

Lemma lenient_oid_storable hex : storable (lenient_oid hex).
Proof.
  unfold lenient_oid. destruct hex as [h|]; [|by left]. destruct (String.eqb h ""); [by left|].
  destruct (parseHexOID h) eqn:E; [|by left]. right. by eapply parseHexOID_wf.
Qed.

Lemma taintEventToMerged_ok e ev : taintEventToMerged e = Ok ev → TaintReason_Valid (we_Reason e) = true → event_ok ev.
Proof.
  unfold taintEventToMerged. intros (f & Hf & H)%result_bind_ok Hr. apply result_bind_ok in H as (o & Ho & [= <-]).
  split; [by eapply optional_oid_storable|]. split; [by eapply optional_oid_storable|]. split.
  - cbn. by destruct (IsZero o), (IsZero f), (String.eqb (we_Reason e) TaintTagDeletedRecreated).
  - cbn. by intros reason [= <-].
Qed.

Lemma elem_of_dedup_events seen events out e : e ∈ dedup_events seen events out → e ∈ out ∨ e ∈ events.
Proof.
  revert seen out. induction events as [|x l IH]; intros seen out; cbn; [by left|]. case_bool_decide.
  - intros [?|?]%IH; [by left|right; by right].
  - intros [[?| ->%list_elem_of_singleton]%elem_of_app|?]%IH; [by left|right; left|right; by right].
Qed.

Lemma quorum_events_ok views events :
  quorum_events views = Ok events → (∀ v e, v ∈ views → e ∈ tv_events v → TaintReason_Valid (we_Reason e) = true) →
  Forall event_ok events.
Proof.
  unfold quorum_events. intros H Hv.
  assert (∀ e, e ∈ unionTaintEvents views → TaintReason_Valid (we_Reason e) = true) as He.
  { intros e. unfold unionTaintEvents. rewrite merge_sort_Permutation. intros [?%elem_of_nil|Hin]%elem_of_dedup_events; [done|].
    rewrite list_elem_of_In, in_concat in Hin. destruct Hin as (l & (v & <- & Hv1)%in_map_iff & Hl).
    apply (Hv v); by apply list_elem_of_In. }
  revert events H He. generalize (unionTaintEvents views). intros l. induction l as [|e l IH]; cbn; intros events H He.
  { injection H as <-. constructor. }
  apply result_bind_ok in H as (ev & Hev & H). apply result_bind_ok in H as (evs & Hevs & [= <-]). constructor.
  - eapply taintEventToMerged_ok; [exact Hev|]. apply He. left.
  - apply IH; [done|]. intros e' He'. apply He. by right.
Qed.

Lemma eventsByRef_elem events id e : e ∈ default [] (eventsByRef events !! id) → e ∈ events.
Proof.
  unfold eventsByRef. induction events as [|x l IH] using rev_ind; [by intros ?%elem_of_nil|].
  rewrite foldl_snoc. destruct (decide (we_RefID x = id)) as [<-|Hne].
  - rewrite lookup_insert_eq. cbn. rewrite !elem_of_app, list_elem_of_singleton. intros [?| ->]; [left; by apply IH|by right].
  - rewrite lookup_insert_ne by done. intros ?. apply elem_of_app. left. by apply IH.
Qed.

(** Every grouped view comes from a view of the remote. *)
Lemma tagViews_elem views name tv :
  tv ∈ default [] (tagViews views !! name) →
  ∃ v, v ∈ views ∧ tv_tag tv ∈ pv_tags v ∧ ∀ e, e ∈ tv_events tv → e ∈ pv_taintEvents v.
Proof.
  unfold tagViews. induction views as [|v views IH] using rev_ind; [by intros ?%elem_of_nil|].
  rewrite foldl_snoc. unfold add_view at 1. set (m := foldl add_view ∅ views) in *.
  assert (∀ tags, tv ∈ default [] (foldl (add_tag (pv_peer v) (eventsByRef (pv_taintEvents v))) m tags !! name) →
    tv ∈ default [] (m !! name) ∨ tv_tag tv ∈ tags ∧ ∀ e, e ∈ tv_events tv → e ∈ pv_taintEvents v) as H.
  { intros tags. induction tags as [|t tags IHt] using rev_ind; [by left|]. rewrite foldl_snoc. unfold add_tag at 1.
    set (m' := foldl _ m tags) in *. destruct (decide (wt_TagName t = name)) as [<-|Hne].
    - rewrite lookup_insert_eq. cbn. intros [Hin| ->%list_elem_of_singleton]%elem_of_app.
      + destruct (IHt Hin) as [?|[? ?]]; [by left|right]. split; [apply elem_of_app; by left|done].
      + right. cbn. split; [apply elem_of_app; right; by left|]. intros e He. by eapply eventsByRef_elem.
    - rewrite lookup_insert_ne by done. intros Hin. destruct (IHt Hin) as [?|[? ?]]; [by left|right].
      split; [apply elem_of_app; by left|done]. }
  intros [Hin|[Hin He]]%H.
  - destruct (IH Hin) as (v' & Hv' & ?). exists v'. split; [apply elem_of_app; by left|done].
  - exists v. split; [apply elem_of_app; right; by left|done].
Qed.

Lemma earliest_some views :
  (∃ v, v ∈ views ∧ wt_Tainted (tv_tag v) = true) → (∀ v, v ∈ views → wt_Tainted (tv_tag v) = true → is_Some (wt_TaintFirstNS (tv_tag v))) →
  is_Some (earliestTaintFirstNS views).
Proof.
  unfold earliestTaintFirstNS. generalize (@None Z) as acc. induction views as [|v views IH]; intros acc (v0 & Hv0 & Ht0) Hall.
  { by apply elem_of_nil in Hv0. }
  cbn [foldl].
  assert (∀ l (a : option Z), is_Some a → is_Some (foldl (λ earliest v,
    match wt_Tainted (tv_tag v), wt_TaintFirstNS (tv_tag v) with
    | true, Some t => match earliest with None => Some t | Some e => if t <? e then Some t else earliest end
    | _, _ => earliest end) a l)) as Hkeep.
  { clear. induction l as [|v l IH]; intros a Ha; cbn; [done|]. apply IH. repeat case_match; by subst. }
  apply elem_of_cons in Hv0 as [->|Hv0].
  - destruct (Hall v ltac:(left) Ht0) as [t Ht]. rewrite Ht0, Ht. apply Hkeep. repeat case_match; by subst.
  - apply IH; [eauto|]. intros w Hw. apply Hall. by right.
Qed.

Lemma earliest_detected_some e l : is_Some (earliest_detected (e :: l)).
Proof.
  unfold earliest_detected. cbn [foldl]. generalize (we_DetectedAtNS e). induction l as [|x l IH]; intros t; cbn [foldl]; [by eexists|].
  destruct (we_DetectedAtNS x <? t); apply IH.
Qed.

(** A tag the merge adopts is one the store accepts. *)
Lemma mergeTag_ok range name views quorum mt :
  0 < quorum → mergeTag range name views quorum = inl mt →
  (∀ v e, v ∈ views → e ∈ tv_events v → TaintReason_Valid (we_Reason e) = true) →
  (∀ v, v ∈ views → wt_Tainted (tv_tag v) = true → is_Some (wt_TaintFirstNS (tv_tag v))) → mtag_ok mt.
Proof.
  intros Hq. unfold mergeTag. destruct (pickQuorumValue _ _) as [hex|]; [|done].
  destruct (parseHexOID hex) as [first|] eqn:Eparse; [|done]. destruct (List.filter _ views) as [|c0 cs]; [done|].
  set (tv := List.filter (λ v, wt_Tainted (tv_tag v)) views). intros Hmt Hreason Htime.
  destruct (if quorum <=? _ then _ else _) as [events|] eqn:Eev; [|done].
  destruct (validateContinuity first events); [done|]. injection Hmt as <-.
  assert (∀ v, v ∈ tv → v ∈ views ∧ wt_Tainted (tv_tag v) = true) as Htv by (intros v; unfold tv; by rewrite elem_of_filter_bool).
  split; cbn.
  - right. by eapply parseHexOID_wf.
  - destruct events; [|by left]. destruct (negb _); [apply lenient_oid_storable|by left].
  - apply lenient_oid_storable.
  - apply lenient_oid_storable.
  - destruct (quorum <=? _); [|injection Eev as <-; constructor]. apply (quorum_events_ok tv); [done|].
    intros v e Hv. apply Hreason. by apply Htv.
  - destruct (Z.leb_spec quorum (Z.of_nat (length tv))) as [Hle|]; [|by split; [|intros []]]. split; [intros _|done].
    destruct (unionTaintEvents tv) as [|e l]; [|by destruct (earliest_detected_some e l) as [t ->]].
    apply earliest_some; [|done]. destruct tv as [|v tv0] eqn:E; [cbn in Hle; lia|]. exists v. apply Htv. left.
Qed.

(** The sorted keys of a map are visited once each. *)
Lemma range_keys_NoDup {A} (range : Range A) i m : range_ok range → NoDup (sort_Strings (map fst (range i m))).
Proof.
  intros Hr. unfold sort_Strings. rewrite merge_sort_Permutation. rewrite (Permutation_map fst (Hr i m)).
  apply NoDup_fst_map_to_list.
Qed.

Lemma merge_tags_names range normURL views quorum res :
  mt_name <$> (merge_tags range normURL views quorum res).1 `sublist_of` sort_Strings (map fst (range _ 4%nat (tagViews views))).
Proof.
  unfold merge_tags. cbv zeta. generalize (sort_Strings (map fst (range _ 4%nat (tagViews views)))). intros names.
  assert (∀ tags res, ∃ l, mt_name <$> (foldl (merge_name range normURL (tagViews views) quorum) (tags, res) names).1 =
    (mt_name <$> tags) ++ l ∧ l `sublist_of` names) as H.
  { induction names as [|name names IH]; intros tags r; cbn [foldl]; [exists []; by rewrite app_nil_r|].
    unfold merge_name at 2. destruct (mergeTag range name _ quorum) as [mt|qr] eqn:E.
    - destruct (IH (tags ++ [mt]) (mkMergeResult (res_remotes r) (res_totalObs r + 1 + Z.of_nat (length (mt_events mt)))
        (res_quarantinedTags r) (res_quarantineLogs r))) as (l & Hl & Hsub).
      exists (mt_name mt :: l). rewrite Hl, fmap_app, <- (assoc_L (++)). split; [done|].
      assert (mt_name mt = name) as ->; [clear -E|by apply sublist_skip].
      unfold mergeTag in E. repeat case_match; try done; by injection E as <-.
    - destruct (IH tags (mkMergeResult (res_remotes r) (res_totalObs r) (res_quarantinedTags r + 1)
        (res_quarantineLogs r ++ [mkQuarantineLog normURL name qr]))) as (l & Hl & Hsub).
      exists l. split; [done|by apply sublist_cons]. }
  destruct (H [] res) as (l & -> & Hl). done.
Qed.

Lemma adoptTransport_ok range views : adoptTransport range views ∈ [TransportHTTPS; TransportSSH].
Proof.
  unfold adoptTransport. cbv zeta. destruct (pickMostCommon _) as [t n]. cbn [fst].
  destruct (String.eqb_spec t TransportHTTPS) as [->|]; [by left|].
  destruct (String.eqb_spec t TransportSSH) as [->|]; [right; by left|]. by left.
Qed.

(** The remotes are adopted in the order of their urls. *)
Lemma mergeQuorum_order range byURL quorum :
  (∀ A, range_ok (range A)) →
  let remotes := res_remotes (mergeQuorum range byURL quorum) in
  NoDup (mr_normalizedURL <$> remotes) ∧
  ∀ mr, mr ∈ remotes → mr_transport mr ∈ [TransportHTTPS; TransportSSH] ∧ NoDup (mt_name <$> mr_tags mr).
Proof.
  intros Hr remotes. unfold remotes, mergeQuorum. clear remotes.
  pose proof (range_keys_NoDup (range _) 5 byURL (Hr _)) as Hnd. revert Hnd.
  generalize (sort_Strings (map fst (range _ 5%nat byURL))). intros urls Hnd.
  assert (∀ r0, ∃ l, res_remotes (foldl (merge_url range byURL quorum) r0 urls) = res_remotes r0 ++ l ∧
    mr_normalizedURL <$> l `sublist_of` urls ∧
    ∀ mr, mr ∈ l → mr_transport mr ∈ [TransportHTTPS; TransportSSH] ∧ NoDup (mt_name <$> mr_tags mr)) as H.
  { clear Hnd. induction urls as [|u urls IH]; intros r0; cbn [foldl].
    { exists []. rewrite app_nil_r. split_and!; [done|done|]. by intros ? ?%elem_of_nil. }
    unfold merge_url at 2. cbv zeta. set (views := default [] (byURL !! u)).
    destruct (Z.of_nat (length views) <? quorum).
    { destruct (IH r0) as (l & -> & Hsub & Hl). exists l. split; [done|]. split; [by apply sublist_cons|done]. }
    pose proof (merge_tags_names range u views quorum r0) as Hnames.
    destruct (merge_tags_spec range u views quorum r0) as [Hres _].
    destruct (merge_tags range u views quorum r0) as [tags r1]. cbn [fst snd] in *.
    set (mr := mkMergedRemote (adoptRemoteURL range views) u (adoptTransport range views) (adoptTaintPolicy views) tags).
    destruct (IH (mkMergeResult (res_remotes r1 ++ [mr]) (res_totalObs r1) (res_quarantinedTags r1) (res_quarantineLogs r1)))
      as (l & -> & Hsub & Hl). exists (mr :: l). cbn [res_remotes]. rewrite Hres, <- (assoc_L (++)). split; [done|].
    split; [by apply sublist_skip|]. intros mr' [->|Hin]%elem_of_cons; [|by apply Hl].
    split; [apply adoptTransport_ok|]. eapply sublist_NoDup; [|exact Hnames]. by apply range_keys_NoDup. }
  destruct (H (mkMergeResult [] 0 0 [])) as (l & -> & Hsub & Hl). split; [|done]. by eapply sublist_NoDup.
Qed.

Lemma merged_remotes_ok range byURL quorum :
  (∀ A, range_ok (range A)) → 0 < quorum → views_ok byURL →
  Forall mremote_ok (res_remotes (mergeQuorum range byURL quorum)).
Proof.
  intros Hr Hq Hv. apply Forall_forall. intros mr Hmr.
  destruct (mergeQuorum_order range byURL quorum Hr) as [_ Hord]. destruct (Hord mr Hmr) as [Htr Hnd]. split; [done| |done].
  destruct (mergeQuorum_remotes range byURL quorum mr Hq Hmr) as (views & Hviews & _ & Htags).
  apply Forall_forall. intros mt Hmt. destruct (Htags mt Hmt) as [name Hname].
  apply (mergeTag_ok _ _ _ _ _ Hq Hname).
  - intros tv e Htv He. destruct (tagViews_elem _ _ _ Htv) as (v & Hin & _ & Hev). apply (Hv _ _ _ Hviews Hin). by apply Hev.
  - intros tv Htv. destruct (tagViews_elem _ _ _ Htv) as (v & Hin & Htag & _). by apply (Hv _ _ _ Hviews Hin).
Qed.

Lemma count_tags remotes :
  foldr (λ mr n, Z.of_nat (length (mr_tags mr)) + n) 0 remotes = Z.of_nat (length (concat (map mr_tags remotes))).
Proof. induction remotes as [|mr l IH]; cbn; [done|]. rewrite IH, length_app. lia. Qed.

Lemma write_tx_unfold cfg now res d :
  Z.of_nat (length (res_remotes res)) ≤ SeedMaxRemotes cfg → res_totalObs res ≤ SeedMaxObservations cfg →
  write_tx (T := sqliteTx) cfg now res (mkSqliteTx d 0) =
  if decide (t_remotes d = []) then for_each (res_remotes res) (writeRemote (T := sqliteTx) cfg now) (mkSqliteTx d 0)
  else Err (ErrOther "seed: remotes table is non-empty at write time (aborting)").
Proof.
  intros H1 H2. unfold write_tx.
  assert (tx_CountAllRemotes (mkSqliteTx d 0) = Ok (Z.of_nat (length (t_remotes d)), mkSqliteTx d 0)) as Hc by done.
  unfold mbind at 1. unfold SE_bind. rewrite Hc. destruct (t_remotes d); cbn [length].
  - rewrite decide_True by done. cbn -[for_each]. apply Z.ltb_ge in H1, H2. by rewrite H1, H2.
  - by rewrite decide_False.
Qed.

Lemma write_seeds cfg now range byURL quorum d :
  (∀ A, range_ok (range A)) → 0 < quorum → views_ok byURL → db_good d →
  let res := mergeQuorum range byURL quorum in
  Z.of_nat (length (res_remotes res)) ≤ SeedMaxRemotes cfg → res_totalObs res ≤ SeedMaxObservations cfg →
  if decide (t_remotes d = []) then
    ∃ d', write (S := db) (T := sqliteTx) cfg now res d =
        (Ok (Z.of_nat (length (res_remotes res)), Z.of_nat (length (concat (map mr_tags (res_remotes res))))), d') ∧
      db_good d' ∧ Forall (remote_result (db_abs d')) (res_remotes res)
  else ∃ e, write (S := db) (T := sqliteTx) cfg now res d = (Err e, d).
Proof.
  intros Hr Hq Hv Hgood res Hmax1 Hmax2. unfold write. cbn [st_WithTx sqlite_store]. unfold SqliteTx.WithTx.
  rewrite (write_tx_unfold cfg now res d Hmax1 Hmax2). case_decide as Hempty; [|by eexists].
  destruct (mergeQuorum_order range byURL quorum Hr) as [Hnd _]. fold res in Hnd.
  destruct (writeRemotes_run cfg now (mkSqliteTx d 0) (res_remotes res)) as (t' & rows & Hrun & Hgood' & Hres & _);
    [done|by apply merged_remotes_ok|done| |].
  { intros mr _ id r. cbn [q db_abs a_remotes]. by rewrite Hempty. }
  rewrite Hrun. assert (deferred_ok (q t') = true) as -> by (apply deferred_ok_spec, Hgood').
  exists (q t'). split; [|done]. by rewrite count_tags.
Qed.

(** A bootstrap leaves a database in order, whatever becomes of it. *)
Lemma Run_good cfg (range : ∀ A, Range A) peer_of order orders now d :
  (∀ A, range_ok (range A)) → 0 < SeedQuorum cfg → views_ok (fetchAll cfg peer_of (peerURLs cfg) order orders).1 → db_good d →
  db_good (Seed.Run (S := db) (T := sqliteTx) cfg range peer_of order orders now d).
Proof.
  intros Hr Hq Hv Hd. unfold Seed.Run. destruct (negb (SeedEnabled cfg)); [done|].
  assert (∀ n d1, st_CountAllRemotes (S := db) (T := sqliteTx) d = Ok (n, d1) → d1 = d) as Hcount by (by intros n d1 [= _ <-]).
  destruct (st_CountAllRemotes d) as [[n d1]|]; [|done]. rewrite (Hcount _ _ eq_refl). case_match; [done|].
  destruct (peerURLs cfg) as [|u l]; [done|]. destruct (fetchAll _ _ _ _ _) as [byURL used] eqn:E. cbn [fst] in Hv.
  case_match; [done|]. case_match; [done|]. case_match; [done|]. case_match; [done|].
  pose proof (write_seeds cfg now range byURL (SeedQuorum cfg) d Hr Hq Hv Hd) as Hw. cbv zeta in Hw.
  repeat match goal with H : (_ <? _) = false |- _ => apply Z.ltb_ge in H end.
  match goal with H : res_remotes _ = _ :: _ |- _ => rewrite <- H in * end. specialize (Hw ltac:(done) ltac:(done)).
  destruct (decide (t_remotes d = [])).
  - destruct Hw as (d' & -> & Hd' & _). done.
  - by destruct Hw as (e & ->).
Qed.

(** * Properties *)


Definition honest_view (peer : string) : peerRemoteView :=
  mkPeerRemoteView peer (mkWireRemote 1 "https://h/r" "https://h/r" "https" true)
    [mkWireTag 7 1 "v1" (Some hex_b) None None (Some hex_a) 5 50 false true (Some 40)]
    [mkWireTaintEvent 1 1 7 TaintTagOIDChanged (Some hex_a) (Some hex_b) 40].
Definition honest_views : gmap string (list peerRemoteView) := {["https://h/r" := map honest_view ["p"; "q"]]}.
Definition seed_cfg : SeedConfig := mkSeedConfig "https://p https://q" "" 2 10 100 10 60 60.

