(* ===== verification/Config.v ===== *)
(** [internal/config/config.go]: the configuration from the GT_* environment, as a function
    of the lookup; its validation; what a configuration that loads is like. *)
From S2P Require Import Prelude GoStrings GoNum GoTime Model Seed.
#[local] Open Scope Z_scope.

Definition AuthModeNone : string := "none".
Definition AuthModeAPIKey : string := "apikey".
Definition AuthModeBasic : string := "basic".
Definition AuthModeJWKS : string := "jwks".

(** Durations are int64 nanoseconds. *)
Record Config : Type := mkConfig {
  cf_DBDriver : string;
  cf_SQLitePath : string;
  cf_MySQLDSN : string;
  cf_ListenAddr : string;
  cf_SyncConcurrency : Z;
  cf_SyncDefaultInterval : Z;
  cf_SchedulerTick : Z;
  cf_StalenessBudget : Z;
  cf_GitBin : string;
  cf_GitTimeout : Z;
  cf_ProtocolAllowlist : string;
  cf_HostAllowlist : string;
  cf_LogLevel : string;
  cf_MetricsAddr : string;
  cf_PprofEnabled : bool;
  cf_CacheEnabled : bool;
  cf_CacheMaxEntries : Z;
  cf_CacheTTL : Z;
  cf_AuthMode : string;
  cf_APIKeys : string;
  cf_APIKeysSHA256 : string;
  cf_BasicAuth : string;
  cf_JWKSURL : string;
  cf_JWTIssuer : string;
  cf_JWTAudience : string;
  cf_JWTAlgs : string;
  cf_SeedServers : string;
  cf_SeedQuorum : Z;
  cf_SeedRemotes : string;
  cf_SeedConcurrency : Z;
  cf_SeedTimeout : Z;
  cf_SeedInsecure : bool;
  cf_SeedMaxRemotes : Z;
  cf_SeedMaxObservations : Z;
  cf_SeedMaxPages : Z;
}.

(** The failures of [Load], all wrapping [ErrConfig]: what the message names. *)
Inductive config_error : Type :=
  | NotAnInteger (key v : string)
  | Required (key : string)
  | Unsupported (key v : string)
  | OutOfRange (key : string) (n : Z).

Definition Lookup : Type := string → option string.

(** * Validation *)

(** [if n is out of range then return an error]. *)
Definition in_range (c : bool) (key : string) (n : Z) : result config_error () :=
  if c then Ok () else Err (OutOfRange key n).

Definition validate_driver (c : Config) : result config_error () :=
  if String.eqb (cf_DBDriver c) "sqlite" then
    if String.eqb (cf_SQLitePath c) "" then Err (Required "GT_SQLITE_PATH") else Ok ()
  else if String.eqb (cf_DBDriver c) "mysql" then
    if String.eqb (cf_MySQLDSN c) "" then Err (Required "GT_MYSQL_DSN") else Ok ()
  else Err (Unsupported "GT_DB_DRIVER" (cf_DBDriver c)).

Definition validate_auth_mode (c : Config) : result config_error () :=
  if existsb (String.eqb (cf_AuthMode c)) [AuthModeNone; AuthModeAPIKey; AuthModeBasic; AuthModeJWKS] then Ok ()
  else Err (Unsupported "GT_AUTH_MODE" (cf_AuthMode c)).

Definition validate_seed (c : Config) : result config_error () :=
  let servers := seedServerList (cf_SeedServers c) in
  if (0 <? length servers)%nat then
    _ ← in_range (negb (cf_SeedQuorum c <? 1)) "GT_SEED_QUORUM" (cf_SeedQuorum c);
    in_range (negb (Z.of_nat (length servers) <? cf_SeedQuorum c)) "GT_SEED_QUORUM" (cf_SeedQuorum c)
  else Ok ().

Definition validate (c : Config) : result config_error () :=
  _ ← validate_driver c;
  _ ← in_range (negb (cf_SyncConcurrency c <=? 0)) "GT_SYNC_CONCURRENCY" (cf_SyncConcurrency c);
  _ ← in_range (negb (cf_SyncDefaultInterval c <=? 0)) "GT_SYNC_DEFAULT_INTERVAL_NS" (cf_SyncDefaultInterval c);
  _ ← in_range (negb (cf_SchedulerTick c <=? 0)) "GT_SCHEDULER_TICK_NS" (cf_SchedulerTick c);
  _ ← in_range (negb (cf_GitTimeout c <=? 0)) "GT_GIT_TIMEOUT_NS" (cf_GitTimeout c);
  _ ← in_range (negb (cf_StalenessBudget c <=? 0)) "GT_STALENESS_BUDGET_NS" (cf_StalenessBudget c);
  _ ← in_range (negb (cf_CacheMaxEntries c <=? 0)) "GT_CACHE_MAX_ENTRIES" (cf_CacheMaxEntries c);
  _ ← in_range (negb (cf_CacheTTL c <? 0)) "GT_CACHE_TTL_NS" (cf_CacheTTL c);
  _ ← validate_auth_mode c;
  _ ← validate_seed c;
  _ ← in_range (negb (cf_SeedConcurrency c <? 1)) "GT_SEED_CONCURRENCY" (cf_SeedConcurrency c);
  _ ← in_range (negb (cf_SeedMaxRemotes c <? 1)) "GT_SEED_MAX_REMOTES" (cf_SeedMaxRemotes c);
  _ ← in_range (negb (cf_SeedMaxObservations c <? 1)) "GT_SEED_MAX_OBSERVATIONS" (cf_SeedMaxObservations c);
  in_range (negb (cf_SeedMaxPages c <? 1)) "GT_SEED_MAX_PAGES" (cf_SeedMaxPages c).

(** * Loading *)

Section load.
Context (get : Lookup).

Definition str (key def : string) : string := default def (get key).

Definition boolean (key : string) (def : bool) : bool :=
  match get key with
  | None => def
  | Some v => existsb (String.eqb v) ["true"; "1"; "yes"]
  end.

(** [i64], and with it [iInt] and [dur]: on 64 bits the conversions change nothing. *)
Definition i64 (key : string) (def : Z) : result config_error Z :=
  match get key with
  | None => Ok def
  | Some v =>
      match ParseInt v with
      | None => Err (NotAnInteger key v)
      | Some n => Ok n
      end
  end.

Definition Load : result config_error Config :=
  SyncConcurrency ← i64 "GT_SYNC_CONCURRENCY" 4;
  SyncDefaultInterval ← i64 "GT_SYNC_DEFAULT_INTERVAL_NS" (5 * Minute);
  SchedulerTick ← i64 "GT_SCHEDULER_TICK_NS" (5 * Second);
  StalenessBudget ← i64 "GT_STALENESS_BUDGET_NS" Hour;
  GitTimeout ← i64 "GT_GIT_TIMEOUT_NS" Minute;
  CacheMaxEntries ← i64 "GT_CACHE_MAX_ENTRIES" 100000;
  CacheTTL ← i64 "GT_CACHE_TTL_NS" Minute;
  SeedQuorum ← i64 "GT_SEED_QUORUM" 1;
  SeedConcurrency ← i64 "GT_SEED_CONCURRENCY" 8;
  SeedTimeout ← i64 "GT_SEED_TIMEOUT_NS" (30 * Second);
  SeedMaxRemotes ← i64 "GT_SEED_MAX_REMOTES" 5000;
  SeedMaxObservations ← i64 "GT_SEED_MAX_OBSERVATIONS" 200000;
  SeedMaxPages ← i64 "GT_SEED_MAX_PAGES" 10000;
  let c := {|
    cf_DBDriver := str "GT_DB_DRIVER" "sqlite";
    cf_SQLitePath := str "GT_SQLITE_PATH" "";
    cf_MySQLDSN := str "GT_MYSQL_DSN" "";
    cf_ListenAddr := str "GT_LISTEN_ADDR" "127.0.0.1:8080";
    cf_SyncConcurrency := SyncConcurrency;
    cf_SyncDefaultInterval := SyncDefaultInterval;
    cf_SchedulerTick := SchedulerTick;
    cf_StalenessBudget := StalenessBudget;
    cf_GitBin := str "GT_GIT_BIN" "git";
    cf_GitTimeout := GitTimeout;
    cf_ProtocolAllowlist := str "GT_PROTOCOL_ALLOWLIST" "https:ssh";
    cf_HostAllowlist := str "GT_HOST_ALLOWLIST" "";
    cf_LogLevel := str "GT_LOG_LEVEL" "info";
    cf_MetricsAddr := str "GT_METRICS_ADDR" "";
    cf_PprofEnabled := boolean "GT_PPROF_ENABLED" false;
    cf_CacheEnabled := boolean "GT_CACHE_ENABLED" true;
    cf_CacheMaxEntries := CacheMaxEntries;
    cf_CacheTTL := CacheTTL;
    cf_AuthMode := str "GT_AUTH_MODE" AuthModeNone;
    cf_APIKeys := str "GT_API_KEYS" "";
    cf_APIKeysSHA256 := str "GT_API_KEYS_SHA256" "";
    cf_BasicAuth := str "GT_BASIC_AUTH" "";
    cf_JWKSURL := str "GT_JWKS_URL" "";
    cf_JWTIssuer := str "GT_JWT_ISSUER" "";
    cf_JWTAudience := str "GT_JWT_AUDIENCE" "";
    cf_JWTAlgs := str "GT_JWT_ALGS" "RS256,ES256";
    cf_SeedServers := str "GT_SEED_SERVERS" "";
    cf_SeedQuorum := SeedQuorum;
    cf_SeedRemotes := str "GT_SEED_REMOTES" "";
    cf_SeedConcurrency := SeedConcurrency;
    cf_SeedTimeout := SeedTimeout;
    cf_SeedInsecure := boolean "GT_SEED_INSECURE" false;
    cf_SeedMaxRemotes := SeedMaxRemotes;
    cf_SeedMaxObservations := SeedMaxObservations;
    cf_SeedMaxPages := SeedMaxPages |} in
  _ ← validate c;
  mret c.
End load.

(** * Specification *)

(** What the rest of the program relies on. *)
Record config_ok (c : Config) : Prop := {
  co_driver : cf_DBDriver c = "sqlite" ∧ cf_SQLitePath c ≠ "" ∨ cf_DBDriver c = "mysql" ∧ cf_MySQLDSN c ≠ "";
  co_sync : 0 < cf_SyncConcurrency c ∧ 0 < cf_SyncDefaultInterval c ∧ 0 < cf_SchedulerTick c ∧ 0 < cf_GitTimeout c ∧
    0 < cf_StalenessBudget c;
  co_cache : 0 < cf_CacheMaxEntries c ∧ 0 ≤ cf_CacheTTL c;
  co_mode : cf_AuthMode c ∈ [AuthModeNone; AuthModeAPIKey; AuthModeBasic; AuthModeJWKS];
  co_quorum : seedServerList (cf_SeedServers c) ≠ [] →
    1 ≤ cf_SeedQuorum c ≤ Z.of_nat (length (seedServerList (cf_SeedServers c)));
  co_seed : 1 ≤ cf_SeedConcurrency c ∧ 1 ≤ cf_SeedMaxRemotes c ∧ 1 ≤ cf_SeedMaxObservations c ∧ 1 ≤ cf_SeedMaxPages c;
}.

(** The integers of a configuration are Go [int]s and durations. *)
Definition config_ints (c : Config) : list Z :=
  [cf_SyncConcurrency c; cf_SyncDefaultInterval c; cf_SchedulerTick c; cf_StalenessBudget c; cf_GitTimeout c;
   cf_CacheMaxEntries c; cf_CacheTTL c; cf_SeedQuorum c; cf_SeedConcurrency c; cf_SeedTimeout c; cf_SeedMaxRemotes c;
   cf_SeedMaxObservations c; cf_SeedMaxPages c].

(** An environment that spells every setting out. *)
Definition show_bool (b : bool) : string := if b then "true" else "false".
Definition config_vars (c : Config) : list (string * string) := [
  ("GT_DB_DRIVER", cf_DBDriver c); ("GT_SQLITE_PATH", cf_SQLitePath c); ("GT_MYSQL_DSN", cf_MySQLDSN c);
  ("GT_LISTEN_ADDR", cf_ListenAddr c); ("GT_SYNC_CONCURRENCY", FormatInt (cf_SyncConcurrency c));
  ("GT_SYNC_DEFAULT_INTERVAL_NS", FormatInt (cf_SyncDefaultInterval c)); ("GT_SCHEDULER_TICK_NS", FormatInt (cf_SchedulerTick c));
  ("GT_STALENESS_BUDGET_NS", FormatInt (cf_StalenessBudget c)); ("GT_GIT_BIN", cf_GitBin c);
  ("GT_GIT_TIMEOUT_NS", FormatInt (cf_GitTimeout c)); ("GT_PROTOCOL_ALLOWLIST", cf_ProtocolAllowlist c);
  ("GT_HOST_ALLOWLIST", cf_HostAllowlist c); ("GT_LOG_LEVEL", cf_LogLevel c); ("GT_METRICS_ADDR", cf_MetricsAddr c);
  ("GT_PPROF_ENABLED", show_bool (cf_PprofEnabled c)); ("GT_CACHE_ENABLED", show_bool (cf_CacheEnabled c));
  ("GT_CACHE_MAX_ENTRIES", FormatInt (cf_CacheMaxEntries c)); ("GT_CACHE_TTL_NS", FormatInt (cf_CacheTTL c));
  ("GT_AUTH_MODE", cf_AuthMode c); ("GT_API_KEYS", cf_APIKeys c); ("GT_API_KEYS_SHA256", cf_APIKeysSHA256 c);
  ("GT_BASIC_AUTH", cf_BasicAuth c); ("GT_JWKS_URL", cf_JWKSURL c); ("GT_JWT_ISSUER", cf_JWTIssuer c);
  ("GT_JWT_AUDIENCE", cf_JWTAudience c); ("GT_JWT_ALGS", cf_JWTAlgs c); ("GT_SEED_SERVERS", cf_SeedServers c);
  ("GT_SEED_QUORUM", FormatInt (cf_SeedQuorum c)); ("GT_SEED_REMOTES", cf_SeedRemotes c);
  ("GT_SEED_CONCURRENCY", FormatInt (cf_SeedConcurrency c)); ("GT_SEED_TIMEOUT_NS", FormatInt (cf_SeedTimeout c));
  ("GT_SEED_INSECURE", show_bool (cf_SeedInsecure c)); ("GT_SEED_MAX_REMOTES", FormatInt (cf_SeedMaxRemotes c));
  ("GT_SEED_MAX_OBSERVATIONS", FormatInt (cf_SeedMaxObservations c)); ("GT_SEED_MAX_PAGES", FormatInt (cf_SeedMaxPages c))].
Definition config_env (c : Config) : Lookup := λ key, snd <$> List.find (λ kv, String.eqb kv.1 key) (config_vars c).

(** The configuration as the seeder reads it. *)
Definition seed_config (c : Config) : SeedConfig :=
  mkSeedConfig (cf_SeedServers c) (cf_SeedRemotes c) (cf_SeedQuorum c) (cf_SeedMaxRemotes c) (cf_SeedMaxObservations c)
    (cf_SeedMaxPages c) (cf_SyncDefaultInterval c) (cf_StalenessBudget c).

(** * Lemmas *)

Lemma in_range_ok b key n : in_range b key n = Ok () ↔ b = true.
Proof. unfold in_range. by destruct b. Qed.

Lemma seq_ok {E B} (m : result E ()) (k : result E B) b : (_ ← m; k) = Ok b ↔ m = Ok () ∧ k = Ok b.
Proof. rewrite result_bind_ok. split; [by intros ([] & ? & ?)|]. intros [? ?]. by exists (). Qed.

Lemma validate_driver_spec c :
  validate_driver c = Ok () ↔ cf_DBDriver c = "sqlite" ∧ cf_SQLitePath c ≠ "" ∨ cf_DBDriver c = "mysql" ∧ cf_MySQLDSN c ≠ "".
Proof.
  unfold validate_driver. destruct (String.eqb_spec (cf_DBDriver c) "sqlite") as [->|].
  - destruct (String.eqb_spec (cf_SQLitePath c) ""); naive_solver.
  - destruct (String.eqb_spec (cf_DBDriver c) "mysql"); [|naive_solver].
    destruct (String.eqb_spec (cf_MySQLDSN c) ""); naive_solver.
Qed.

Lemma validate_auth_mode_spec c :
  validate_auth_mode c = Ok () ↔ cf_AuthMode c ∈ [AuthModeNone; AuthModeAPIKey; AuthModeBasic; AuthModeJWKS].
Proof.
  unfold validate_auth_mode. set (l := [_; _; _; _]). assert (existsb (String.eqb (cf_AuthMode c)) l = true ↔ cf_AuthMode c ∈ l) as H.
  { rewrite existsb_exists, list_elem_of_In. split; [intros (x & ? & ->%String.eqb_eq); done|]. intros ?. eexists. split; [done|apply String.eqb_refl]. }
  destruct (existsb _ l); naive_solver.
Qed.

Lemma validate_seed_spec c :
  validate_seed c = Ok () ↔
  (seedServerList (cf_SeedServers c) ≠ [] → 1 ≤ cf_SeedQuorum c ≤ Z.of_nat (length (seedServerList (cf_SeedServers c)))).
Proof.
  unfold validate_seed. destruct (seedServerList (cf_SeedServers c)) as [|u l] eqn:E; [naive_solver|].
  rewrite (proj2 (Nat.ltb_lt _ _)) by (cbn; lia). rewrite seq_ok, !in_range_ok, !negb_true_iff, !Z.ltb_ge. naive_solver.
Qed.

Lemma validate_spec c : validate c = Ok () ↔ config_ok c.
Proof.
  unfold validate. rewrite !seq_ok, validate_driver_spec, validate_auth_mode_spec, validate_seed_spec, !in_range_ok,
    !negb_true_iff, !Z.leb_gt, !Z.ltb_ge. split.
  - intros H. destruct_and! H. by split.
  - intros [? ? ? ? ? ?]. tauto.
Qed.

Lemma i64_range get key def n : int64_ok def → i64 get key def = Ok n → int64_ok n.
Proof.
  unfold i64. destruct (get key) as [v|]; [|by intros ? [= <-]]. destruct (ParseInt v) as [m|] eqn:E; [|done].
  intros _ [= <-]. by eapply ParseInt_range.
Qed.

Lemma Load_bounds get c : Load get = Ok c → config_ok c ∧ Forall int64_ok (config_ints c).
Proof.
  unfold Load. intros H.
  repeat match type of H with
  | (?m ≫= _) = Ok _ => apply result_bind_ok in H as (? & ?Hi & H)
  end.
  repeat match goal with u : () |- _ => destruct u end. injection H as <-. split; [by apply validate_spec|].
  unfold config_ints. cbn -[Z.pow].
  repeat (constructor; [eapply i64_range; [|eassumption]; unfold int64_ok, Hour, Minute, Second; lia|]). constructor.
Qed.

(** * Properties *)

(** C36. A configuration that loads is one the program can run with: every bound the
    scheduler, the cache, git and the seeder rely on holds and every number fits its
    machine integer, whatever the environment. *)
Theorem config_load_bounds get c : Load get = Ok c → config_ok c ∧ Forall int64_ok (config_ints c).
Proof. apply Load_bounds. Qed.

(** Settings to load. *)
Definition sample_env : Lookup := λ key,
  snd <$> List.find (λ kv, String.eqb kv.1 key)
    [("GT_SQLITE_PATH", "/var/lib/gt.db"); ("GT_SEED_SERVERS", "https://a, https://a"); ("GT_SEED_QUORUM", "2")].
Definition sample_config : Config :=
  Eval vm_compute in match Load sample_env with
                     | Ok c => c
                     | Err _ => mkConfig "" "" "" "" 0 0 0 0 "" 0 "" "" "" "" false false 0 0 "" "" "" "" "" "" "" "" "" 0 "" 0 0 false 0 0 0
                     end.

Lemma config_load_bounds_witness : config_ok sample_config.
Proof. apply (config_load_bounds sample_env). vm_compute. reflexivity. Defined.

Lemma i64_show get key def n : int64_ok n → get key = Some (FormatInt n) → i64 get key def = Ok n.
Proof. intros Hn Hk. unfold i64. by rewrite Hk, ParseInt_FormatInt. Qed.

Lemma boolean_show get key def b : get key = Some (show_bool b) → boolean get key def = b.
Proof. intros Hk. unfold boolean. rewrite Hk. by destruct b. Qed.

(** C35. Every setting can be set and each variable sets its own: the environment that spells
    a valid configuration out loads to exactly that configuration. *)
Theorem config_roundtrip c : config_ok c → Forall int64_ok (config_ints c) → Load (config_env c) = Ok c.
Proof.
  intros Hok Hints. apply validate_spec in Hok. unfold config_ints in Hints. rewrite !Forall_cons in Hints. destruct_and! Hints.
  unfold Load. repeat (erewrite i64_show; [cbn [mbind result_bind]| |reflexivity]; [|done]).
  repeat (erewrite boolean_show; [|reflexivity]).
  match goal with |- (_ ← validate ?c'; _) = _ => replace c' with c by (by destruct c) end. by rewrite Hok.
Qed.

Lemma config_roundtrip_witness : Load (config_env sample_config) = Ok sample_config.
Proof.
  apply config_roundtrip; [apply validate_spec; vm_compute; reflexivity|].
  repeat constructor; vm_compute; discriminate.
Defined.

(** The quorum is checked against the servers as listed, not as the seeder counts them: a
    configuration that lists one server twice loads with a quorum of two, and the seeder
    has one peer, so that no fact can reach the quorum. *)
Theorem seed_quorum_unreachable :
  Load sample_env = Ok sample_config ∧ SeedEnabled (seed_config sample_config) = true ∧
  Z.of_nat (length (peerURLs (seed_config sample_config))) < cf_SeedQuorum sample_config.
Proof. split; [vm_compute; reflexivity|]. split; vm_compute; reflexivity. Qed.
