(* ===== verification/GoHttp.v ===== *)
(** What the server uses of net/http: requests, the pattern matching of [ServeMux] and the
    credentials of the Basic scheme. *)
From S2P Require Import Prelude GoStrings.
#[local] Open Scope Z_scope.

(** The method, the path as it was sent, and [Header.Get], which is empty for an absent
    header. *)
Record Request : Type := mkRequest {
  r_Method : string;
  r_EscapedPath : string;
  r_Header : string → string;
}.

(** * Paths *)

(** [url.PathUnescape]. *)
Fixpoint unescape (s : string) : option string :=
  match s with
  | EmptyString => Some ""
  | String "%" (String a (String b s)) =>
      h ← from_hex_char a; l ← from_hex_char b; rest ← unescape s;
      Some (String (ascii_of_N (h * 16 + l)) rest)
  | String "%" _ => None
  | String c s => String c <$> unescape s
  end.
Definition pathUnescape (s : string) : string := default s (unescape s).

(** [path.Clean] of a rooted path, part by part. *)
Fixpoint clean_parts (parts out : list string) : list string :=
  match parts with
  | [] => out
  | p :: parts =>
      if String.eqb p "" || String.eqb p "." then clean_parts parts out
      else if String.eqb p ".." then clean_parts parts (removelast out)
      else clean_parts parts (out ++ [p])
  end.
Definition Clean (p : string) : string := "/" +:+ Join (clean_parts (Split p "/") []) "/".

Definition cleanPath (p : string) : string :=
  if String.eqb p "" then "/"
  else
    let p := if HasPrefix p "/" then p else "/" +:+ p in
    let np := Clean p in
    if HasSuffix p "/" && negb (String.eqb np "/") then np +:+ "/" else np.

(** * Routing *)

(** A segment of a pattern. *)
Inductive seg : Type :=
  | Lit (s : string)
  | Wild.

(** A pattern with its method and, in its place, the operation it is registered for. *)
Record route : Type := mkRoute {
  ro_method : string;
  ro_segs : list seg;
  ro_op : string;
}.

(** The segments [firstSegment] splits a clean path into: a trailing slash is one. *)
Definition segments (path : string) : list string :=
  map (λ p, if String.eqb p "" then "/" else pathUnescape p) (Split (sdrop 1 path) "/").

Fixpoint segs_match (pat : list seg) (segs : list string) : bool :=
  match pat, segs with
  | [], [] => true
  | Lit l :: pat, s :: segs => String.eqb l s && segs_match pat segs
  | Wild :: pat, s :: segs => negb (String.eqb s "/") && segs_match pat segs
  | _, _ => false
  end.

(** [routingNode.match]; a HEAD request falls back on GET.  No two patterns of a method
    match one path, so the order of the table does not matter. *)
Definition find_route (routes : list route) (method path : string) : option route :=
  let try m := List.find (λ r, String.eqb (ro_method r) m && segs_match (ro_segs r) (segments path)) routes in
  match try method with
  | Some r => Some r
  | None => if String.eqb method "HEAD" then try "GET" else None
  end.

(** [ServeMux.Handler]: the pattern of a request, empty when none matches; no pattern ends in
    a slash, so there is no redirection to one. *)
Definition mux_pattern (routes : list route) (r : Request) : option route :=
  find_route routes (r_Method r) (cleanPath (r_EscapedPath r)).

(** [ServeMux.ServeHTTP]: the operation that runs; a path that is not clean is redirected. *)
Definition mux_serves (routes : list route) (r : Request) : option string :=
  if String.eqb (cleanPath (r_EscapedPath r)) (r_EscapedPath r) then ro_op <$> mux_pattern routes r else None.

(** * Basic credentials *)

Definition b64_alphabet : string := "ABCDEFGHIJKLMNOPQRSTUVWXYZabcdefghijklmnopqrstuvwxyz0123456789+/".
Definition b64_value (c : ascii) : option N := N.of_nat <$> IndexByte b64_alphabet c.

(** The three bytes of four digits. *)
Definition b64_byte1 (a b : N) : ascii := ascii_of_N (a * 4 + b / 16).
Definition b64_byte2 (b c : N) : ascii := ascii_of_N ((b mod 16) * 16 + c / 4).
Definition b64_byte3 (c d : N) : ascii := ascii_of_N ((c mod 4) * 64 + d).

(** Padded groups of four; bits that are left over are dropped. *)
Fixpoint b64_groups (s : string) : option string :=
  match s with
  | EmptyString => Some ""
  | String a (String b (String c (String d s))) =>
      a ← b64_value a; b ← b64_value b;
      if Ascii.eqb c "=" then
        if Ascii.eqb d "=" && String.eqb s "" then Some (String (b64_byte1 a b) "") else None
      else
        c ← b64_value c;
        if Ascii.eqb d "=" then
          if String.eqb s "" then Some (String (b64_byte1 a b) (String (b64_byte2 b c) "")) else None
        else
          d ← b64_value d; rest ← b64_groups s;
          Some (String (b64_byte1 a b) (String (b64_byte2 b c) (String (b64_byte3 c d) rest)))
  | _ => None
  end.

Fixpoint without_newlines (s : string) : string :=
  match s with
  | EmptyString => ""
  | String c s => if Ascii.eqb c "010" || Ascii.eqb c "013" then without_newlines s else String c (without_newlines s)
  end.

(** [base64.StdEncoding.DecodeString]. *)
Definition b64_decode (s : string) : option string := b64_groups (without_newlines s).

(** [strings.Cut] at a byte. *)
Definition Cut (s : string) (c : ascii) : option (string * string) :=
  i ← IndexByte s c;
  Some (stake i s, sdrop (S i) s).

(** [Request.BasicAuth]. *)
Definition BasicAuth (r : Request) : option (string * string) :=
  let auth := r_Header r "Authorization" in
  if String.eqb auth "" then None
  else if (len auth <? 6) || negb (EqualFold (stake 6 auth) "Basic ") then None
  else cs ← b64_decode (sdrop 6 auth); Cut cs ":".

(** * What a client sends *)

Definition b64_digit (n : N) : ascii := default "A"%char (String.get (N.to_nat n) b64_alphabet).
Fixpoint b64_encode (s : string) : string :=
  match s with
  | EmptyString => ""
  | String x EmptyString =>
      let x := N_of_ascii x in
      String (b64_digit (x / 4)) (String (b64_digit ((x mod 4) * 16)) "==")
  | String x (String y EmptyString) =>
      let x := N_of_ascii x in let y := N_of_ascii y in
      String (b64_digit (x / 4)) (String (b64_digit ((x mod 4) * 16 + y / 16)) (String (b64_digit ((y mod 16) * 4)) "="))
  | String x (String y (String z s)) =>
      let x := N_of_ascii x in let y := N_of_ascii y in let z := N_of_ascii z in
      String (b64_digit (x / 4)) (String (b64_digit ((x mod 4) * 16 + y / 16)) (String (b64_digit ((y mod 16) * 4 + z / 64))
        (String (b64_digit (z mod 64)) (b64_encode s))))
  end.

(** * Lemmas *)

Lemma b64_digit_all :
  forallb (λ n, bool_decide (b64_value (b64_digit n) = Some n) && negb (Ascii.eqb (b64_digit n) "=")
    && negb (Ascii.eqb (b64_digit n) "010" || Ascii.eqb (b64_digit n) "013")) (N.of_nat <$> seq 0 64) = true.
Proof. vm_compute. reflexivity. Qed.

Lemma b64_digit_ok n : (n < 64)%N →
  b64_value (b64_digit n) = Some n ∧ Ascii.eqb (b64_digit n) "=" = false ∧
  (Ascii.eqb (b64_digit n) "010" || Ascii.eqb (b64_digit n) "013") = false.
Proof.
  intros Hn. pose proof (proj1 (forallb_forall _ _) b64_digit_all n) as H.
  assert (In n (N.of_nat <$> seq 0 64)) as Hin.
  { apply in_map_iff. exists (N.to_nat n). split; [apply N2Nat.id|]. apply in_seq. lia. }
  specialize (H Hin). rewrite !andb_true_iff, !negb_true_iff in H. destruct H as [[H1%bool_decide_eq_true ?] ?]. done.
Qed.

Lemma N_of_ascii_lt c : (N_of_ascii c < 256)%N.
Proof. apply N_ascii_bounded. Qed.

Lemma b64_byte1_ok x b : (b / 16 = N_of_ascii x mod 4)%N → b64_byte1 (N_of_ascii x / 4) b = x.
Proof.
  intros Hb. unfold b64_byte1. rewrite Hb. pose proof (N.div_mod' (N_of_ascii x) 4).
  replace (N_of_ascii x / 4 * 4 + N_of_ascii x mod 4)%N with (N_of_ascii x) by lia. apply ascii_N_embedding.
Qed.

Lemma b64_byte2_ok y b c : (b mod 16 = N_of_ascii y / 16)%N → (c / 4 = N_of_ascii y mod 16)%N → b64_byte2 b c = y.
Proof.
  intros Hb Hc. unfold b64_byte2. rewrite Hb, Hc. pose proof (N.div_mod' (N_of_ascii y) 16).
  replace (N_of_ascii y / 16 * 16 + N_of_ascii y mod 16)%N with (N_of_ascii y) by lia. apply ascii_N_embedding.
Qed.

Lemma b64_byte3_ok z c : (c mod 4 = N_of_ascii z / 64)%N → b64_byte3 c (N_of_ascii z mod 64) = z.
Proof.
  intros Hc. unfold b64_byte3. rewrite Hc. pose proof (N.div_mod' (N_of_ascii z) 64).
  replace (N_of_ascii z / 64 * 64 + N_of_ascii z mod 64)%N with (N_of_ascii z) by lia. apply ascii_N_embedding.
Qed.

(** Strings three characters at a time. *)
Lemma string_ind3 (P : string → Prop) :
  P "" → (∀ x, P (String x "")) → (∀ x y, P (String x (String y ""))) →
  (∀ x y z s, P s → P (String x (String y (String z s)))) → ∀ s, P s.
Proof.
  intros H0 H1 H2 H3. fix IH 1. intros [|x [|y [|z s]]]; [done|done|done|]. apply H3, IH.
Qed.

(** Digits are below 64. *)
Lemma b64_bounds x y z :
  (x < 256 → y < 256 → z < 256 →
   x / 4 < 64 ∧ (x mod 4) * 16 < 64 ∧ (x mod 4) * 16 + y / 16 < 64 ∧ (y mod 16) * 4 < 64 ∧ (y mod 16) * 4 + z / 64 < 64 ∧ z mod 64 < 64)%N.
Proof.
  intros Hx Hy Hz. pose proof (N.mod_lt x 4). pose proof (N.mod_lt y 16). pose proof (N.mod_lt z 64).
  pose proof (N.Div0.div_lt_upper_bound x 4 64). pose proof (N.Div0.div_lt_upper_bound y 16 16). pose proof (N.Div0.div_lt_upper_bound z 64 4). lia.
Qed.

Lemma div_add_small a b k : (b < k → k ≠ 0 → (a * k + b) / k = a ∧ (a * k + b) mod k = b)%N.
Proof.
  intros Hb Hk. rewrite N.add_comm. split.
  - rewrite N.div_add by done. by rewrite N.div_small.
  - rewrite N.Div0.mod_add. by apply N.mod_small.
Qed.

Lemma b64_groups_encode s : b64_groups (b64_encode s) = Some s ∧ without_newlines (b64_encode s) = b64_encode s.
Proof.
  induction s as [|x|x y|x y z s [IH1 IH2]] using string_ind3; [done|..].
  - pose proof (N_of_ascii_lt x) as Hx. destruct (b64_bounds (N_of_ascii x) 0 0) as (H1 & H2 & _); [done..|].
    destruct (b64_digit_ok _ H1) as (E1 & _ & N1), (b64_digit_ok _ H2) as (E2 & _ & N2).
    cbn [b64_encode b64_groups without_newlines]. rewrite E1, E2, N1, N2. split; [|done]. cbn.
    rewrite b64_byte1_ok; [done|]. by apply N.div_mul.
  - pose proof (N_of_ascii_lt x) as Hx. pose proof (N_of_ascii_lt y) as Hy.
    destruct (b64_bounds (N_of_ascii x) (N_of_ascii y) 0) as (H1 & _ & H2 & H3 & _); [done..|].
    destruct (b64_digit_ok _ H1) as (E1 & _ & N1), (b64_digit_ok _ H2) as (E2 & _ & N2), (b64_digit_ok _ H3) as (E3 & Q3 & N3).
    cbn [b64_encode b64_groups without_newlines]. rewrite E1, E2, N1, N2, Q3, E3, N3. split; [|done]. cbn.
    destruct (div_add_small (N_of_ascii x mod 4) (N_of_ascii y / 16) 16) as [D1 D2]; [by apply N.Div0.div_lt_upper_bound|done|].
    rewrite b64_byte1_ok by done. rewrite (b64_byte2_ok y); [done|done|]. by apply N.div_mul.
  - pose proof (N_of_ascii_lt x) as Hx. pose proof (N_of_ascii_lt y) as Hy. pose proof (N_of_ascii_lt z) as Hz.
    destruct (b64_bounds (N_of_ascii x) (N_of_ascii y) (N_of_ascii z)) as (H1 & _ & H2 & _ & H3 & H4); [done..|].
    destruct (b64_digit_ok _ H1) as (E1 & _ & N1), (b64_digit_ok _ H2) as (E2 & _ & N2), (b64_digit_ok _ H3) as (E3 & Q3 & N3),
      (b64_digit_ok _ H4) as (E4 & Q4 & N4).
    cbn [b64_encode b64_groups without_newlines]. rewrite E1, E2, N1, N2, Q3, E3, N3, Q4, E4, N4, IH2. split; [|done].
    cbn [mbind option_bind]. rewrite IH1. cbn [mbind option_bind].
    destruct (div_add_small (N_of_ascii x mod 4) (N_of_ascii y / 16) 16) as [D1 D2]; [by apply N.Div0.div_lt_upper_bound|done|].
    destruct (div_add_small (N_of_ascii y mod 16) (N_of_ascii z / 64) 4) as [D3 D4]; [by apply N.Div0.div_lt_upper_bound|done|].
    rewrite b64_byte1_ok by done. rewrite (b64_byte2_ok y) by done. by rewrite b64_byte3_ok.
Qed.

Lemma b64_decode_encode s : b64_decode (b64_encode s) = Some s.
Proof. unfold b64_decode. destruct (b64_groups_encode s) as [H ->]. exact H. Qed.

Lemma Cut_append a c b : string_forall (λ x, negb (Ascii.eqb c x)) a = true → Cut (a +:+ String c b) c = Some (a, b).
Proof.
  intros Ha. unfold Cut, IndexByte. rewrite (IndexFunc_append (Ascii.eqb c) a c b Ha (Ascii.eqb_refl c)). cbn [mbind option_bind]. do 2 f_equal.
  - apply stake_append.
  - replace (a +:+ String c b) with ((a +:+ String c "") +:+ b) by by rewrite <- append_assoc.
    replace (S (String.length a)) with (String.length (a +:+ String c "")) by (rewrite append_length; cbn; lia). apply sdrop_append.
Qed.
