(* ===== verification/Auth.v ===== *)
(** [internal/auth]: the authenticators of the control endpoints, their construction from
    the configuration, and the middleware; with the routes of the generated router
    ([oapi.HandlerWithOptions]) and their composition in [api.NewServer].  bcrypt, the JWT
    and the JWKS libraries are parameters. *)
From S2P Require Import Prelude GoStrings GoTime GoHttp Sha256 Config.
#[local] Open Scope Z_scope.

Inductive auth_error : Type :=
  | errMissingCredential
  | errBadCredential
  | errIdPUnavailable.

(** The reasons for which [FromConfig] refuses a configuration. *)
Inductive setup_error : Type :=
  | BadDigest (h : string)
  | NoKeys
  | BadEntry
  | BadHash (user : string)
  | NoUsers
  | JWKSNeeds (key : string)
  | AlgNone
  | AlgUnknown (name : string)
  | AlgSymmetric (name : string)
  | AlgsEmpty
  | JWKSCache
  | UnsupportedMode (mode : string).

Definition AnonymousPrincipal : string := "anonymous".
Definition realm : string := "git-tainted".

(** A text between double quotes. *)
Definition quoted (s : string) : string := String "034" s +:+ String "034" "".

(** * API keys *)

(** [bearerToken]. *)
Definition bearerToken (header : string) : option string :=
  let prefix := "bearer " in
  if (len header <? len prefix) || negb (EqualFold (stake (String.length prefix) header) prefix) then None
  else
    let tok := TrimSpace (sdrop (String.length prefix) header) in
    if String.eqb tok "" then None else Some tok.

Definition presentedAPIKey (r : Request) : string :=
  let h := r_Header r "Authorization" in
  if negb (String.eqb h "") then default "" (bearerToken h) else TrimSpace (r_Header r "X-API-Key").

(** [add]: a digest once. *)
Definition add_digest (digests : list bytes) (d : bytes) : list bytes := if bool_decide (d ∈ digests) then digests else digests ++ [d].

Fixpoint add_raw (rawKeys : list string) (digests : list bytes) : list bytes :=
  match rawKeys with
  | [] => digests
  | k :: rawKeys =>
      let k := TrimSpace k in
      if String.eqb k "" then add_raw rawKeys digests
      else add_raw rawKeys (add_digest digests (Sum256 (bytes_of_string k)))
  end.

Fixpoint add_hex (hexDigests : list string) (digests : list bytes) : result setup_error (list bytes) :=
  match hexDigests with
  | [] => Ok digests
  | h :: hexDigests =>
      let h := TrimSpace h in
      if String.eqb h "" then add_hex hexDigests digests
      else match DecodeString h with
           | Some raw => if negb (length raw =? 32)%nat then Err (BadDigest h) else add_hex hexDigests (add_digest digests raw)
           | None => Err (BadDigest h)
           end
  end.

Definition newAPIKeyAuth (rawKeys hexDigests : list string) : result setup_error (list bytes) :=
  digests ← add_hex hexDigests (add_raw rawKeys []);
  match digests with
  | [] => Err NoKeys
  | _ => Ok digests
  end.

(** The whole set is scanned. *)
Definition apikey_Authenticate (digests : list bytes) (r : Request) : result auth_error string :=
  let key := presentedAPIKey r in
  if String.eqb key "" then Err errMissingCredential
  else
    let got := Sum256 (bytes_of_string key) in
    let matched := fold_left (λ (matched : bool) d, if bool_decide (got = d) then true else matched) digests false in
    if negb matched then Err errBadCredential else Ok ("apikey:" +:+ EncodeToString (take 4 got)).

(** * JWT policy *)

(** A protected header and a key as far as the code looks at them. *)
Record jws_header : Type := mkHeader {
  h_alg : option string;
  h_kid : option string;
}.
Record jwk : Type := mkJwk {
  k_kid : option string;
  k_alg : option string;
  k_material : string;
}.

Record jwks : Type := mkJwks {
  j_issuer : string;
  j_audience : string;
  j_algs : list string;
  j_lastOnDemand : option Z;
}.

(** What the identity provider and the clock answer during one request. *)
Record idp : Type := mkIdp {
  i_lookup : option (list jwk);
  i_refresh : option (list jwk);
  i_ready : bool;
  i_now : Z;
}.

Definition jwtSkew : Z := 60 * Second.
Definition onDemandMinInterval : Z := Minute.

Inductive Authenticator : Type :=
  | noneAuth
  | apiKeyAuth (digests : list bytes)
  | basicAuth (users : gmap string string)
  | jwksAuth (j : jwks).

Definition Challenge (a : Authenticator) : string :=
  match a with
  | noneAuth => ""
  | apiKeyAuth _ | jwksAuth _ => "Bearer"
  | basicAuth _ => "Basic realm=" +:+ quoted realm
  end.

Section libraries.
Context (bcrypt_Cost : string → bool) (CompareHashAndPassword : string → string → bool).
Context (jws_Parse : string → option (list jws_header)) (IsSymmetric : string → bool).
Context (LookupSignatureAlgorithm : string → option string).
(** [jwt.Parse] with the token, the keys, issuer, audience, skew and time: the subject. *)
Context (jwt_Parse : string → list jwk → string → string → Z → Z → option (option string)).
Context (AddKey : list jwk → jwk → option (list jwk)).
(** Whether the JWKS cache can be set up. *)
Context (cache_ok : string → bool).

(** ** Basic *)

Fixpoint newBasicAuth_loop (entries : list string) (users : gmap string string) : result setup_error (gmap string string) :=
  match entries with
  | [] => Ok users
  | e :: entries =>
      let e := TrimSpace e in
      if String.eqb e "" then newBasicAuth_loop entries users
      else match Cut e ":" with
           | None => Err BadEntry
           | Some (user, hash) =>
               if String.eqb user "" || String.eqb hash "" then Err BadEntry
               else if negb (bcrypt_Cost hash) then Err (BadHash user)
               else newBasicAuth_loop entries (<[user := hash]> users)
           end
  end.

Definition newBasicAuth (entries : list string) : result setup_error (gmap string string) :=
  users ← newBasicAuth_loop entries ∅;
  if bool_decide (users = ∅) then Err NoUsers else Ok users.

Definition dummyBcryptHash : string := "$2a$10$N9qo8uLOickgx2ZMRZoMyeIjZAgcfl7p92ldGxad68LJZdL17lhWy".

(** The comparison with the dummy hash only takes time. *)
Definition basic_Authenticate (users : gmap string string) (r : Request) : result auth_error string :=
  match BasicAuth r with
  | None => Err errMissingCredential
  | Some (user, pass) =>
      match users !! user with
      | None => let _ := CompareHashAndPassword dummyBcryptHash pass in Err errBadCredential
      | Some hash => if negb (CompareHashAndPassword hash pass) then Err errBadCredential else Ok ("basic:" +:+ user)
      end
  end.

(** ** JWKS *)

Definition bearerOnly (r : Request) : string :=
  let h := r_Header r "Authorization" in
  if String.eqb h "" then ""
  else match bearerToken h with
       | None => ""
       | Some tok => TrimSpace tok
       end.

Fixpoint parse_algs (parts : list string) (out : list string) : result setup_error (list string) :=
  match parts with
  | [] => Ok out
  | raw :: parts =>
      let name := TrimSpace raw in
      if String.eqb name "" then parse_algs parts out
      else if EqualFold name "none" then Err AlgNone
      else match LookupSignatureAlgorithm name with
           | None => Err (AlgUnknown name)
           | Some alg =>
               if IsSymmetric alg then Err (AlgSymmetric name)
               else parse_algs parts (if bool_decide (alg ∈ out) then out else out ++ [alg])
           end
  end.

Definition parseAlgs (spec : string) : result setup_error (list string) :=
  let spec := TrimSpace spec in
  if String.eqb spec "" then Ok ["RS256"; "ES256"]
  else
    out ← parse_algs (Split spec ",") [];
    match out with
    | [] => Err AlgsEmpty
    | _ => Ok out
    end.

(** The token's kid, or a refusal. *)
Definition assertAllowedAlg (j : jwks) (token : string) : result auth_error string :=
  match jws_Parse token with
  | None => Err errBadCredential
  | Some [hdr] =>
      match h_alg hdr with
      | None => Err errBadCredential
      | Some alg =>
          if IsSymmetric alg || String.eqb alg "none" || String.eqb alg "" then Err errBadCredential
          else if negb (bool_decide (alg ∈ j_algs j)) then Err errBadCredential
          else Ok (default "" (h_kid hdr))
      end
  | Some _ => Err errBadCredential
  end.

Definition hasKey (set : list jwk) (kid : string) : bool :=
  if String.eqb kid "" then false else existsb (λ k, bool_decide (k_kid k = Some kid)) set.

(** The answer, and the time of the last on-demand refresh. *)
Definition allowOnDemand (j : jwks) (now : Z) : bool * jwks :=
  if match j_lastOnDemand j with
     | None => false
     | Some last => now - last <? onDemandMinInterval
     end then (false, j)
  else (true, mkJwks (j_issuer j) (j_audience j) (j_algs j) (Some now)).

Definition resolveSet (e : idp) (j : jwks) (kid : string) : result auth_error (list jwk) * jwks :=
  let cached := i_lookup e in
  let hit := match cached with Some set => String.eqb kid "" || hasKey set kid | None => false end in
  match cached, hit with
  | Some set, true => (Ok set, j)
  | _, _ =>
      let '(allowed, j) := allowOnDemand j (i_now e) in
      match (if allowed then i_refresh e else None) with
      | Some fresh => (Ok fresh, j)
      | None =>
          match cached with
          | Some set => (Ok set, j)
          | None => if negb (i_ready e) then (Err errIdPUnavailable, j) else (Err errIdPUnavailable, j)
          end
      end
  end.

Fixpoint allowlisted_loop (algs : list string) (set out : list jwk) : result auth_error (list jwk) :=
  match set with
  | [] => Ok out
  | key :: set =>
      match k_alg key with
      | None => allowlisted_loop algs set out
      | Some ka =>
          if negb (bool_decide (ka ∈ algs)) then allowlisted_loop algs set out
          else match AddKey out key with
               | None => Err errBadCredential
               | Some out => allowlisted_loop algs set out
               end
      end
  end.
Definition allowlistedKeys (j : jwks) (set : list jwk) : result auth_error (list jwk) :=
  out ← allowlisted_loop (j_algs j) set [];
  match out with
  | [] => Err errIdPUnavailable
  | _ => Ok out
  end.

Definition jwks_Authenticate (e : idp) (j : jwks) (r : Request) : result auth_error string * jwks :=
  let raw := bearerOnly r in
  if String.eqb raw "" then (Err errMissingCredential, j)
  else match assertAllowedAlg j raw with
       | Err err => (Err err, j)
       | Ok kid =>
           let '(set, j) := resolveSet e j kid in
           (set ← set;
            verifyKeys ← allowlistedKeys j set;
            match jwt_Parse raw verifyKeys (j_issuer j) (j_audience j) jwtSkew (i_now e) with
            | None => Err errBadCredential
            | Some sub => Ok ("jwt:" +:+ default "" sub)
            end, j)
       end.

(** ** The interface *)

Definition Authenticate (e : idp) (a : Authenticator) (r : Request) : result auth_error string * Authenticator :=
  match a with
  | noneAuth => (Ok AnonymousPrincipal, a)
  | apiKeyAuth digests => (apikey_Authenticate digests r, a)
  | basicAuth users => (basic_Authenticate users r, a)
  | jwksAuth j => let '(res, j) := jwks_Authenticate e j r in (res, jwksAuth j)
  end.

(** * Configuration *)

Definition splitList (s : string) : list string :=
  if String.eqb (TrimSpace s) "" then []
  else List.filter (λ p, negb (String.eqb p "")) (map TrimSpace (Split s ",")).

Definition modeOf (cfg : Config) : string := if String.eqb (cf_AuthMode cfg) "" then AuthModeNone else cf_AuthMode cfg.

Definition newJWKSAuth (url issuer audience : string) (algs : list string) : result setup_error jwks :=
  if cache_ok url then Ok (mkJwks issuer audience algs None) else Err JWKSCache.

Definition FromConfig (cfg : Config) : result setup_error Authenticator :=
  let mode := modeOf cfg in
  if String.eqb mode AuthModeNone then Ok noneAuth
  else if String.eqb mode AuthModeAPIKey then
    a ← newAPIKeyAuth (splitList (cf_APIKeys cfg)) (splitList (cf_APIKeysSHA256 cfg)); Ok (apiKeyAuth a)
  else if String.eqb mode AuthModeBasic then
    a ← newBasicAuth (splitList (cf_BasicAuth cfg)); Ok (basicAuth a)
  else if String.eqb mode AuthModeJWKS then
    if String.eqb (TrimSpace (cf_JWKSURL cfg)) "" then Err (JWKSNeeds "GT_JWKS_URL")
    else if String.eqb (TrimSpace (cf_JWTIssuer cfg)) "" then Err (JWKSNeeds "GT_JWT_ISSUER")
    else if String.eqb (TrimSpace (cf_JWTAudience cfg)) "" then Err (JWKSNeeds "GT_JWT_AUDIENCE")
    else
      algs ← parseAlgs (cf_JWTAlgs cfg);
      a ← newJWKSAuth (cf_JWKSURL cfg) (cf_JWTIssuer cfg) (cf_JWTAudience cfg) algs;
      Ok (jwksAuth a)
  else Err (UnsupportedMode (cf_AuthMode cfg)).

(** * Enforcement *)

Definition ControlOperations : list string := ["createRemote"; "updateRemote"; "deleteRemote"; "triggerSync"; "ackTaintEvent"].

(** The registration of a pattern. *)
Definition seg_of (p : string) : seg := if HasPrefix p "{" && HasSuffix p "}" then Wild else Lit p.
Definition parse_pattern (op pattern : string) : route :=
  match Cut pattern " " with
  | Some (method, path) => mkRoute method (map seg_of (Split (sdrop 1 path) "/")) op
  | None => mkRoute "" (map seg_of (Split (sdrop 1 pattern) "/")) op
  end.

Definition controlRoutes : list (string * string) := [
  ("createRemote", "POST /v1/remotes");
  ("updateRemote", "PATCH /v1/remotes/{remoteId}");
  ("deleteRemote", "DELETE /v1/remotes/{remoteId}");
  ("triggerSync", "POST /v1/remotes/{remoteId}/sync");
  ("ackTaintEvent", "POST /v1/remotes/{remoteId}/taint-events/{eventId}/ack")].

(** [None] is a panic. *)
Definition newControlMux : option (list route) :=
  if negb (length controlRoutes =? length ControlOperations)%nat then None
  else if forallb (λ '(op, _), existsb (String.eqb op) ControlOperations) controlRoutes
  then Some (map (λ '(op, pattern), parse_pattern op pattern) controlRoutes)
  else None.

(** The router of the generated API. *)
Definition HandlerWithOptions (baseURL : string) : list route :=
  map (λ '(op, method, path), parse_pattern op (method +:+ " " +:+ baseURL +:+ path)) [
    ("getHealthz", "GET", "/healthz");
    ("listRemotes", "GET", "/v1/remotes");
    ("createRemote", "POST", "/v1/remotes");
    ("deleteRemote", "DELETE", "/v1/remotes/{remoteId}");
    ("getRemote", "GET", "/v1/remotes/{remoteId}");
    ("updateRemote", "PATCH", "/v1/remotes/{remoteId}");
    ("triggerSync", "POST", "/v1/remotes/{remoteId}/sync");
    ("listSyncs", "GET", "/v1/remotes/{remoteId}/syncs");
    ("listTags", "GET", "/v1/remotes/{remoteId}/tags");
    ("getTag", "GET", "/v1/remotes/{remoteId}/tags/{tagName}");
    ("listTaintEvents", "GET", "/v1/remotes/{remoteId}/taint-events");
    ("ackTaintEvent", "POST", "/v1/remotes/{remoteId}/taint-events/{eventId}/ack");
    ("verify", "GET", "/v1/verify")].

(** A 401 with its challenge and body, or the next handler with the principal in the
    context. *)
Inductive gate : Type :=
  | Unauthorized (challenge : string) (body : string)
  | Next (principal : option string).

Definition writeUnauthorized (challenge : string) : gate :=
  Unauthorized challenge ("{" +:+ quoted "error" +:+ ":" +:+ quoted "unauthorized" +:+ "}").

Definition Middleware (mux : list route) (e : idp) (authn : Authenticator) (r : Request) : gate * Authenticator :=
  match mux_pattern mux r with
  | None => (Next None, authn)
  | Some _ =>
      let '(res, authn) := Authenticate e authn r in
      (match res with
       | Err _ => writeUnauthorized (Challenge authn)
       | Ok principal => Next (Some principal)
       end, authn)
  end.

(** What becomes of a request: refused, answered by the operation, or by the router itself
    (404, 405 or a redirection). *)
Inductive served : Type :=
  | Refused (g : gate)
  | Handled (op : string) (principal : option string)
  | Unrouted.

Definition NewServer (e : idp) (authn : Authenticator) (r : Request) : option (served * Authenticator) :=
  mux ← newControlMux;
  let '(g, authn) := Middleware mux e authn r in
  Some (match g with
        | Unauthorized _ _ => Refused g
        | Next principal =>
            match mux_serves (HandlerWithOptions "") r with
            | Some op => Handled op principal
            | None => Unrouted
            end
        end, authn).
End libraries.
