(* ===== verification/AuthProps.v ===== *)
(** Properties of the authentication: which requests reach the control endpoints, which
    credentials each mode accepts, and what the JWT policy lets through. *)
From S2P Require Import Prelude GoStrings GoTime GoHttp Sha256 Config Auth.
#[local] Open Scope Z_scope.

(** * Routing *)

Definition control_mux : list route := Eval vm_compute in default [] newControlMux.

Lemma newControlMux_ok : newControlMux = Some control_mux.
Proof. vm_compute. reflexivity. Qed.

Definition api_routes : list route := Eval vm_compute in HandlerWithOptions "".

Lemma segs_dec (p q : list seg) : {p = q} + {p ≠ q}.
Proof. repeat decide equality. Defined.
#[local] Instance route_dec : EqDecision route.
Proof. intros x y. unfold Decision. decide equality; [apply String.string_dec|apply segs_dec|apply String.string_dec]. Defined.

(** The gate knows exactly the routes of the control operations of the router. *)
Definition control_check : bool :=
  forallb (λ r, bool_decide (r ∈ control_mux) || negb (existsb (String.eqb (ro_op r)) ControlOperations)) api_routes &&
  forallb (λ r, bool_decide (r ∈ api_routes) && existsb (String.eqb (ro_op r)) ControlOperations) control_mux &&
  forallb (λ r, negb (String.eqb (ro_method r) "GET") && negb (String.eqb (ro_method r) "HEAD")) control_mux.
Lemma control_check_ok : control_check = true.
Proof. vm_compute. reflexivity. Qed.

Lemma control_op op : existsb (String.eqb op) ControlOperations = true ↔ op ∈ ControlOperations.
Proof.
  rewrite existsb_exists, list_elem_of_In. split; [by intros (x & ? & ->%String.eqb_eq)|]. intros ?. eexists. split; [done|apply String.eqb_refl].
Qed.

Lemma control_routes r : r ∈ api_routes → ro_op r ∈ ControlOperations → r ∈ control_mux.
Proof.
  pose proof control_check_ok as H. unfold control_check in H. rewrite !andb_true_iff in H. destruct H as [[H _] _].
  rewrite forallb_forall in H. intros Hr%list_elem_of_In Hop%control_op. specialize (H r Hr). rewrite Hop in H. cbn in H. rewrite orb_false_r in H.
  by apply bool_decide_eq_true in H.
Qed.

Lemma control_mux_routes r : r ∈ control_mux → r ∈ api_routes ∧ ro_op r ∈ ControlOperations ∧ ro_method r ≠ "GET" ∧ ro_method r ≠ "HEAD".
Proof.
  pose proof control_check_ok as H. unfold control_check in H. rewrite !andb_true_iff in H. destruct H as [[_ H1] H2].
  rewrite forallb_forall in H1, H2. intros Hr%list_elem_of_In. specialize (H1 r Hr). specialize (H2 r Hr).
  apply andb_true_iff in H1 as [H1%bool_decide_eq_true H1']. apply control_op in H1'.
  split_and!; [done|done|by intros E; rewrite E in H2..].
Qed.

(** Two patterns that match one path agree on their literals. *)
Fixpoint compatible (p q : list seg) : bool :=
  match p, q with
  | [], [] => true
  | Lit a :: p, Lit b :: q => String.eqb a b && compatible p q
  | _ :: p, _ :: q => compatible p q
  | _, _ => false
  end.

Lemma segs_match_compatible p q s : segs_match p s = true → segs_match q s = true → compatible p q = true.
Proof.
  revert q s. induction p as [|[a|] p IH]; intros [|[b|] q] [|x s]; cbn; try done; rewrite ?andb_true_iff.
  - intros [->%String.eqb_eq ?] [->%String.eqb_eq ?]. rewrite String.eqb_refl. split; [done|]. by eapply IH.
  - intros [_ ?] [_ ?]. by eapply IH.
  - intros [_ ?] [_ ?]. by eapply IH.
  - intros [_ ?] [_ ?]. by eapply IH.
Qed.

(** No two patterns of a method overlap. *)
Definition overlap_check : bool :=
  forallb (λ r, forallb (λ r', negb (String.eqb (ro_method r) (ro_method r') && compatible (ro_segs r) (ro_segs r')) || bool_decide (r = r'))
    api_routes) api_routes.
Lemma overlap_check_ok : overlap_check = true.
Proof. vm_compute. reflexivity. Qed.

Lemma routes_disjoint r r' segs :
  r ∈ api_routes → r' ∈ api_routes → ro_method r = ro_method r' → segs_match (ro_segs r) segs = true → segs_match (ro_segs r') segs = true → r = r'.
Proof.
  intros Hr%list_elem_of_In Hr'%list_elem_of_In Hm H1 H2. pose proof overlap_check_ok as H. unfold overlap_check in H. rewrite forallb_forall in H.
  specialize (H r Hr). rewrite forallb_forall in H. specialize (H r' Hr'). rewrite Hm, String.eqb_refl, (segs_match_compatible _ _ _ H1 H2) in H.
  by apply bool_decide_eq_true in H.
Qed.

Lemma find_route_some routes method path r :
  find_route routes method path = Some r →
  r ∈ routes ∧ segs_match (ro_segs r) (segments path) = true ∧ (ro_method r = method ∨ method = "HEAD" ∧ ro_method r = "GET").
Proof.
  unfold find_route. destruct (List.find _ routes) as [r1|] eqn:E.
  - intros [= ->]. apply List.find_some in E as [Hin [Hm%String.eqb_eq Hs]%andb_true_iff]. split_and!; [by apply list_elem_of_In|done|by left].
  - destruct (String.eqb_spec method "HEAD") as [->|]; [|done].
    intros [Hin [Hm%String.eqb_eq Hs]%andb_true_iff]%List.find_some. split_and!; [by apply list_elem_of_In|done|by right].
Qed.

Lemma find_route_exact routes method path r :
  r ∈ routes → ro_method r = method → segs_match (ro_segs r) (segments path) = true →
  ∃ r', find_route routes method path = Some r' ∧ ro_method r' = method.
Proof.
  intros Hin%list_elem_of_In Hm Hs. unfold find_route. destruct (List.find _ routes) as [r'|] eqn:E.
  - exists r'. split; [done|]. by apply List.find_some in E as [_ [Hm'%String.eqb_eq _]%andb_true_iff].
  - exfalso. apply (List.find_none _ _ E) in Hin. by rewrite Hm, String.eqb_refl, Hs in Hin.
Qed.

(** The gate and the router agree. *)
Lemma gate_agrees r op :
  mux_serves api_routes r = Some op → (op ∈ ControlOperations ↔ is_Some (mux_pattern control_mux r)).
Proof.
  unfold mux_serves. destruct (String.eqb _ _); [|done]. unfold mux_pattern. set (path := cleanPath _). intros (ρ & Hρ & ->)%fmap_Some.
  apply find_route_some in Hρ as (Hin & Hs & Hm). split.
  - intros Hop. apply control_routes in Hin; [|done]. destruct (control_mux_routes ρ Hin) as (_ & _ & Hget & _).
    destruct Hm as [Hm|[_ Hm]]; [|done]. destruct (find_route_exact control_mux (r_Method r) path ρ Hin Hm Hs) as (r' & -> & _). done.
  - intros [ρ' Hρ']. apply find_route_some in Hρ' as (Hin' & Hs' & Hm'). destruct (control_mux_routes ρ' Hin') as (Hapi & Hop' & Hget & Hhead).
    destruct Hm' as [Hm'|[_ Hm']]; [|done]. destruct Hm as [Hm|[E _]]; [|congruence].
    assert (ρ = ρ') as ->; [|done]. eapply routes_disjoint; [done|done|congruence|exact Hs|exact Hs'].
Qed.

(** * The gate *)

Section gate.
Context (CompareHashAndPassword : string → string → bool).
Context (jws_Parse : string → option (list jws_header)) (IsSymmetric : string → bool).
Context (jwt_Parse : string → list jwk → string → string → Z → Z → option (option string)).
Context (AddKey : list jwk → jwk → option (list jwk)).

Abbreviation authenticate := (Authenticate CompareHashAndPassword jws_Parse IsSymmetric jwt_Parse AddKey).
Abbreviation server := (NewServer CompareHashAndPassword jws_Parse IsSymmetric jwt_Parse AddKey).

Lemma authenticate_challenge e authn r : Challenge (authenticate e authn r).2 = Challenge authn.
Proof. destruct authn as [| | |j]; [done..|]. cbn. by destruct (jwks_Authenticate _ _ _ _ e j r). Qed.

(** What the server does with a request. *)
Lemma server_spec e authn r :
  ∃ s authn', server e authn r = Some (s, authn') ∧
    match mux_serves (HandlerWithOptions "") r with
    | None => ∀ op p, s ≠ Handled op p
    | Some op =>
        (op ∉ ControlOperations → s = Handled op None ∧ authn' = authn) ∧
        (op ∈ ControlOperations → match (authenticate e authn r).1 with
                                  | Ok p => s = Handled op (Some p)
                                  | Err _ => s = Refused (writeUnauthorized (Challenge authn))
                                  end)
    end.
Proof.
  unfold NewServer. rewrite newControlMux_ok. cbn [mbind option_bind]. unfold Middleware.
  change (HandlerWithOptions "") with api_routes.
  destruct (mux_serves api_routes r) as [op|] eqn:Hop.
  - pose proof (gate_agrees r op Hop) as Hg. destruct (mux_pattern control_mux r) as [ρ|].
    + destruct (authenticate e authn r) as [[p|err] authn'] eqn:Ha; eexists _, _; (split; [reflexivity|]); (split; [naive_solver|]); intros _; [done|].
      cbn. by rewrite <- (authenticate_challenge e authn r), Ha.
    + eexists _, _. split; [reflexivity|]. split; [done|]. intros H. apply Hg in H. by destruct H.
  - destruct (mux_pattern control_mux r) as [ρ|]; [destruct (authenticate e authn r) as [[p|err] authn']|]; by eexists _, _.
Qed.

(** C20. The five control operations are gated, and nothing else is: a request that the router
    dispatches to one of them reaches it only with the principal its credentials
    authenticate, and is answered 401 otherwise; every other operation is reached whatever
    the credentials; the gate never panics. *)
Theorem control_gated e authn r :
  ∃ s authn', server e authn r = Some (s, authn') ∧
    (∀ op p, s = Handled op p → op ∈ ControlOperations → ∃ pr, p = Some pr ∧ (authenticate e authn r).1 = Ok pr) ∧
    (∀ op, mux_serves (HandlerWithOptions "") r = Some op → op ∉ ControlOperations → s = Handled op None) ∧
    (∀ op pr, mux_serves (HandlerWithOptions "") r = Some op → op ∈ ControlOperations → (authenticate e authn r).1 = Ok pr →
       s = Handled op (Some pr)) ∧
    (∀ op err, mux_serves (HandlerWithOptions "") r = Some op → op ∈ ControlOperations → (authenticate e authn r).1 = Err err →
       s = Refused (writeUnauthorized (Challenge authn))).
Proof.
  destruct (server_spec e authn r) as (s & authn' & Hs & H). exists s, authn'. split; [done|].
  destruct (mux_serves (HandlerWithOptions "") r) as [op|]; [|by split_and!; [intros op p E; by destruct (H op p)|..]].
  destruct H as [Hopen Hctl]. split_and!.
  - intros op' p E Hop. destruct (decide (op ∈ ControlOperations)) as [Hin|Hin].
    + specialize (Hctl Hin). destruct (authenticate e authn r) as [[pr|] ?]; cbn in *; [|by subst]. exists pr. rewrite Hctl in E. by injection E as <- <-.
    + destruct (Hopen Hin) as [E' _]. rewrite E' in E. by injection E as <- _.
  - intros op' [= <-] Hin. by apply Hopen.
  - intros op' pr [= <-] Hin E. specialize (Hctl Hin). by rewrite E in Hctl.
  - intros op' err [= <-] Hin E. specialize (Hctl Hin). by rewrite E in Hctl.
Qed.

Context (bcrypt_Cost : string → bool) (LookupSignatureAlgorithm : string → option string) (cache_ok : string → bool).
Abbreviation from_config := (FromConfig bcrypt_Cost IsSymmetric LookupSignatureAlgorithm cache_ok).

(** ** Modes *)

Lemma from_config_none cfg a : from_config cfg = Ok a → a = noneAuth → modeOf cfg = AuthModeNone.
Proof.
  unfold FromConfig. destruct (String.eqb_spec (modeOf cfg) AuthModeNone) as [->|_]; [done|].
  repeat case_match; try done; intros Hb; try (apply result_bind_ok in Hb as (? & _ & Hb)); try (apply result_bind_ok in Hb as (? & _ & Hb));
    injection Hb as <-; done.
Qed.

Lemma no_credentials e a r :
  a ≠ noneAuth → r_Header r "Authorization" = "" → r_Header r "X-API-Key" = "" → (authenticate e a r).1 = Err errMissingCredential.
Proof.
  intros Ha H1 H2. destruct a as [|digests|users|j]; [done|..]; cbn.
  - unfold apikey_Authenticate, presentedAPIKey. by rewrite H1, H2.
  - unfold basic_Authenticate, BasicAuth. by rewrite H1.
  - unfold jwks_Authenticate, bearerOnly. by rewrite H1.
Qed.

(** With a mode other than none, a request without credentials never reaches a control
    operation, whichever mode the configuration selects and whatever the identity provider
    answers. *)
Theorem anonymous_rejected cfg a e r s a' :
  from_config cfg = Ok a → modeOf cfg ≠ AuthModeNone → r_Header r "Authorization" = "" → r_Header r "X-API-Key" = "" →
  server e a r = Some (s, a') → ∀ op p, s = Handled op p → op ∉ ControlOperations.
Proof.
  intros Hcfg Hmode H1 H2 Hs op p -> Hop. assert (a ≠ noneAuth) as Ha by (intros ->; by apply from_config_none in Hcfg).
  destruct (server_spec e a r) as (s' & a'' & Hs' & H). rewrite Hs in Hs'. injection Hs' as <- _.
  destruct (mux_serves _ r) as [op'|]; [|by destruct (H op p)]. destruct H as [Hopen Hctl].
  destruct (decide (op' ∈ ControlOperations)) as [Hin|Hin].
  - specialize (Hctl Hin). by rewrite (no_credentials e a r Ha H1 H2) in Hctl.
  - destruct (Hopen Hin) as [E _]. injection E as -> _. done.
Qed.

End gate.

(** * API keys *)

Lemma add_digest_in l d x : x ∈ add_digest l d ↔ x ∈ l ∨ x = d.
Proof. unfold add_digest. case_bool_decide; set_solver. Qed.

Lemma add_raw_in raw l x :
  x ∈ add_raw raw l ↔ x ∈ l ∨ ∃ k, k ∈ raw ∧ TrimSpace k ≠ "" ∧ x = Sum256 (bytes_of_string (TrimSpace k)).
Proof.
  revert l. induction raw as [|k raw IH]; intros l; cbn [add_raw]; [set_solver|].
  destruct (String.eqb_spec (TrimSpace k) "") as [E|E]; rewrite IH.
  - split; [intros [?|(k' & ? & ? & ?)]; [by left|right; exists k'; set_solver]|].
    intros [?|(k' & [->|?]%elem_of_cons & ? & ?)]; [by left|done|right; eauto].
  - rewrite add_digest_in. split.
    + intros [[?|?]|(k' & ? & ? & ?)]; [by left|right; exists k; set_solver|right; exists k'; set_solver].
    + intros [?|(k' & [->|?]%elem_of_cons & ? & ?)]; [by left; left|by left; right|right; eauto].
Qed.

Lemma add_hex_in hex l l' x :
  add_hex hex l = Ok l' → (x ∈ l' ↔ x ∈ l ∨ ∃ h, h ∈ hex ∧ TrimSpace h ≠ "" ∧ DecodeString (TrimSpace h) = Some x).
Proof.
  revert l. induction hex as [|h hex IH]; intros l; cbn [add_hex]; [intros [= <-]; set_solver|].
  destruct (String.eqb_spec (TrimSpace h) "") as [E|E].
  { intros ->%IH. split; [intros [?|(h' & ? & ? & ?)]; [by left|right; exists h'; set_solver]|].
    intros [?|(h' & [->|?]%elem_of_cons & ? & ?)]; [by left|done|right; eauto]. }
  destruct (DecodeString (TrimSpace h)) as [raw|] eqn:Ed; [|done]. destruct (length raw =? 32)%nat; [|done]. cbn [negb].
  intros ->%IH. rewrite add_digest_in. split.
  - intros [[?|?]|(h' & ? & ? & ?)]; [by left|right; exists h; set_solver|right; exists h'; set_solver].
  - intros [?|(h' & [->|?]%elem_of_cons & ? & ?)]; [by left; left| |right; eauto]. left. right. congruence.
Qed.

Lemma matched_in got (l : list bytes) b :
  fold_left (λ (matched : bool) d, if bool_decide (got = d) then true else matched) l b = b || bool_decide (got ∈ l).
Proof.
  revert b. induction l as [|d l IH]; intros b; cbn.
  - rewrite bool_decide_false by by intros ?%elem_of_nil. by rewrite orb_false_r.
  - rewrite IH. destruct (bool_decide_reflect (got = d)) as [->|E].
    + rewrite (bool_decide_true (_ ∈ _ :: _)) by by left. by rewrite orb_true_r.
    + f_equal. apply bool_decide_ext. rewrite elem_of_cons. naive_solver.
Qed.

(** C37. API keys: the set of accepted keys is exactly the configured one.  A request is
    authenticated when the key it presents has the digest of a configured raw key or is
    the preimage of a configured digest, and only then. *)
Theorem apikey_exact raw hex digests r :
  newAPIKeyAuth raw hex = Ok digests →
  let key := presentedAPIKey r in
  let got := Sum256 (bytes_of_string key) in
  ((∃ p, apikey_Authenticate digests r = Ok p) ↔
    key ≠ "" ∧ ((∃ k, k ∈ raw ∧ TrimSpace k ≠ "" ∧ got = Sum256 (bytes_of_string (TrimSpace k))) ∨
                (∃ h, h ∈ hex ∧ TrimSpace h ≠ "" ∧ DecodeString (TrimSpace h) = Some got))).
Proof.
  intros Hnew key got. unfold newAPIKeyAuth in Hnew. apply result_bind_ok in Hnew as (ds & Hhex & Hds).
  assert (ds = digests) as -> by (destruct ds; [done|by injection Hds]).
  assert (got ∈ digests ↔ (∃ k, k ∈ raw ∧ TrimSpace k ≠ "" ∧ got = Sum256 (bytes_of_string (TrimSpace k))) ∨
    (∃ h, h ∈ hex ∧ TrimSpace h ≠ "" ∧ DecodeString (TrimSpace h) = Some got)) as <-.
  { rewrite (add_hex_in _ _ _ _ Hhex), add_raw_in. set_solver. }
  unfold apikey_Authenticate. fold key. fold got. destruct (String.eqb_spec key "") as [E|E]; [naive_solver|].
  rewrite matched_in. cbn [orb]. case_bool_decide; cbn [negb]; naive_solver.
Qed.

(** * Basic *)

Section basic.
Context (bcrypt_Cost : string → bool) (CompareHashAndPassword : string → string → bool).

(** Users of the map come from the entries, with a hash bcrypt knows. *)
Lemma newBasicAuth_users entries users user hash :
  newBasicAuth bcrypt_Cost entries = Ok users → users !! user = Some hash →
  user ≠ "" ∧ bcrypt_Cost hash = true ∧ ∃ e, e ∈ entries ∧ Cut (TrimSpace e) ":" = Some (user, hash).
Proof.
  unfold newBasicAuth. intros (us & Hloop & H)%result_bind_ok. case_bool_decide; [done|]. injection H as <-.
  assert (∀ m, newBasicAuth_loop bcrypt_Cost entries m = Ok us → us !! user = Some hash →
    m !! user = Some hash ∨ user ≠ "" ∧ bcrypt_Cost hash = true ∧ ∃ e, e ∈ entries ∧ Cut (TrimSpace e) ":" = Some (user, hash)) as Hgen.
  { clear. induction entries as [|e entries IH]; cbn; intros m; [intros [= <-]; by left|].
    destruct (String.eqb (TrimSpace e) ""); [intros Hl Hu; destruct (IH m Hl Hu) as [?|(? & ? & e' & ? & ?)]; [by left|right; set_solver]|].
    destruct (Cut (TrimSpace e) ":") as [[u h]|] eqn:Ec; [|done]. destruct (String.eqb_spec u "") as [|Hu0]; [done|]. cbn.
    destruct (String.eqb h ""); [done|]. destruct (bcrypt_Cost h) eqn:Hc; [|done]. cbn. intros Hl Hu.
    destruct (IH _ Hl Hu) as [Hin|(? & ? & e' & ? & ?)]; [|right; set_solver].
    destruct (decide (user = u)) as [->|]; [rewrite lookup_insert_eq in Hin|by rewrite lookup_insert_ne in Hin; [left|]].
    injection Hin as ->. right. set_solver. }
  intros Hu. destruct (Hgen ∅ Hloop Hu) as [Hn|?]; [|done]. by rewrite lookup_empty in Hn.
Qed.

(** Basic credentials, end to end: what a client sends for a user without a colon and any
    password is read back, and is accepted exactly when the user is configured and bcrypt
    accepts the password for the configured hash; an unknown user is refused as a wrong
    password is. *)
Theorem basic_exact entries users user pass r :
  newBasicAuth bcrypt_Cost entries = Ok users → string_forall (λ c, negb (Ascii.eqb ":" c)) user = true →
  r_Header r "Authorization" = "Basic " +:+ b64_encode (user +:+ ":" +:+ pass) →
  basic_Authenticate CompareHashAndPassword users r =
    match users !! user with
    | Some hash => if CompareHashAndPassword hash pass then Ok ("basic:" +:+ user) else Err errBadCredential
    | None => Err errBadCredential
    end ∧
  ∀ hash, users !! user = Some hash → bcrypt_Cost hash = true ∧ ∃ e, e ∈ entries ∧ Cut (TrimSpace e) ":" = Some (user, hash).
Proof.
  intros Hnew Huser Hhdr. split; [clear Hnew|intros hash Hu; by destruct (newBasicAuth_users _ _ _ _ Hnew Hu)].
  unfold basic_Authenticate, BasicAuth. rewrite Hhdr.
  set (cred := b64_encode _). change (String.eqb ("Basic " +:+ cred) "") with false.
  change (stake 6 ("Basic " +:+ cred)) with "Basic ". change (sdrop 6 ("Basic " +:+ cred)) with cred. cbn match.
  assert ((len ("Basic " +:+ cred) <? 6) = false) as -> by (apply Z.ltb_ge; unfold len; cbn; lia). cbn [orb negb].
  change (EqualFold "Basic " "Basic ") with true. cbn match. unfold cred. rewrite b64_decode_encode. cbn [mbind option_bind].
  change (user +:+ ":" +:+ pass) with (user +:+ String ":" pass). rewrite Cut_append by done.
  cbn [negb]. destruct (users !! user) as [hash|]; [|reflexivity]. by destruct (CompareHashAndPassword hash pass).
Qed.

End basic.

(** * JWT policy *)

Section jwt.
Context (jws_Parse : string → option (list jws_header)) (IsSymmetric : string → bool).
Context (jwt_Parse : string → list jwk → string → string → Z → Z → option (option string)).
Context (AddKey : list jwk → jwk → option (list jwk)).
Hypothesis AddKey_appends : ∀ l k l', AddKey l k = Some l' → l' = l ++ [k].

Lemma allowlisted_keys algs set out keys :
  allowlisted_loop AddKey algs set out = Ok keys → ∀ k, k ∈ keys → k ∈ out ∨ k ∈ set ∧ ∃ alg, k_alg k = Some alg ∧ alg ∈ algs.
Proof.
  revert out. induction set as [|key set IH]; intros out; cbn; [intros [= <-]; by left|].
  destruct (k_alg key) as [ka|] eqn:Hka; [|intros Hl k Hk; destruct (IH _ Hl k Hk) as [?|[? ?]]; [by left|right; set_solver]].
  case_bool_decide as Hin; cbn [negb]; [|intros Hl k Hk; destruct (IH _ Hl k Hk) as [?|[? ?]]; [by left|right; set_solver]].
  destruct (AddKey out key) as [out'|] eqn:Hadd; [|done]. apply AddKey_appends in Hadd as ->. intros Hl k Hk.
  destruct (IH _ Hl k Hk) as [[? | ->%list_elem_of_singleton]%elem_of_app|[? ?]]; [by left|right; split; [by left|eauto]|right; set_solver].
Qed.

Lemma resolveSet_from e j kid set j' :
  resolveSet e j kid = (Ok set, j') →
  (i_lookup e = Some set ∨ i_refresh e = Some set) ∧ j_algs j' = j_algs j ∧ j_issuer j' = j_issuer j ∧ j_audience j' = j_audience j.
Proof.
  unfold resolveSet, allowOnDemand. destruct (i_lookup e) as [cached|]; repeat case_match; intros [= <- <-]; cbn; naive_solver.
Qed.

(** C38. The JWT policy: a token is accepted only when it carries one signature whose algorithm
    is on the allowlist, is not symmetric and is not none, and the JWT library accepts it
    for the configured issuer and audience with keys of the provider that all declare an
    algorithm of the allowlist; without a key set it is refused. *)
Theorem jwks_policy e j r p j' :
  jwks_Authenticate jws_Parse IsSymmetric jwt_Parse AddKey e j r = (Ok p, j') →
  ∃ hdr alg set keys sub,
    jws_Parse (bearerOnly r) = Some [hdr] ∧ h_alg hdr = Some alg ∧ alg ∈ j_algs j ∧ IsSymmetric alg = false ∧ alg ≠ "none" ∧
    (i_lookup e = Some set ∨ i_refresh e = Some set) ∧ keys ≠ [] ∧
    (∀ k, k ∈ keys → k ∈ set ∧ ∃ ka, k_alg k = Some ka ∧ ka ∈ j_algs j) ∧
    jwt_Parse (bearerOnly r) keys (j_issuer j) (j_audience j) jwtSkew (i_now e) = Some sub ∧ p = "jwt:" +:+ default "" sub.
Proof.
  unfold jwks_Authenticate. destruct (String.eqb (bearerOnly r) ""); [done|].
  destruct (assertAllowedAlg _ _ _ _) as [kid|] eqn:Hassert; [|done]. unfold assertAllowedAlg in Hassert.
  destruct (jws_Parse (bearerOnly r)) as [[|hdr []]|]; try done. destruct (h_alg hdr) as [alg|] eqn:Halg; [|done].
  destruct (IsSymmetric alg) eqn:Hsym; [done|]. cbn [orb] in Hassert. destruct (String.eqb_spec alg "none"); [done|]. cbn [orb] in Hassert.
  destruct (String.eqb alg ""); [done|]. destruct (bool_decide_reflect (alg ∈ j_algs j)); [|done].
  destruct (resolveSet e j kid) as [[set|err] j1] eqn:Hres; [|done]. apply resolveSet_from in Hres as (Hset & Halgs & Hiss & Haud).
  intros [= H <-]. cbn in H. destruct (allowlistedKeys AddKey j1 set) as [keys|] eqn:Hkeys; [|done]. cbn in H.
  destruct (jwt_Parse _ keys _ _ _ _) as [sub|] eqn:Hjwt; [|done]. injection H as <-.
  unfold allowlistedKeys in Hkeys. apply result_bind_ok in Hkeys as (out & Hloop & Hout).
  assert (out = keys ∧ keys ≠ []) as [-> Hne] by (destruct out; [done|by injection Hout as <-]).
  exists hdr, alg, set, keys, sub. rewrite <- Hiss, <- Haud. split_and!; try done.
  intros k Hk. rewrite <- Halgs. destruct (allowlisted_keys _ _ _ _ Hloop k Hk) as [?%elem_of_nil|?]; done.
Qed.
End jwt.

(** * Samples *)

(** Libraries that do just enough: a hash is its prefix and the password, a token is one word. *)
Definition sample_Cost (h : string) : bool := HasPrefix h "$2a$".
Definition sample_Compare (h p : string) : bool := String.eqb h ("$2a$" +:+ p).
Definition sample_jws (token : string) : option (list jws_header) :=
  if String.eqb token "tok" then Some [mkHeader (Some "RS256") (Some "k1")] else None.
Definition sample_symmetric (alg : string) : bool := HasPrefix alg "HS".
Definition sample_lookup (name : string) : option string := if existsb (String.eqb name) ["RS256"; "ES256"; "HS256"] then Some name else None.
Definition sample_jwt (token : string) (keys : list jwk) (iss aud : string) (skew now : Z) : option (option string) :=
  match keys with [] => None | _ => Some (Some "alice") end.
Definition sample_AddKey (l : list jwk) (k : jwk) : option (list jwk) := Some (l ++ [k]).
Definition sample_idp : idp :=
  mkIdp (Some [mkJwk (Some "k1") (Some "RS256") "m1"; mkJwk (Some "k2") (Some "HS256") "m2"; mkJwk None None "m3"]) None true 0.

Definition request (method path authorization : string) : Request :=
  mkRequest method path (λ h, if String.eqb h "Authorization" then authorization else "").

Definition apikey_env : Lookup := λ key,
  snd <$> List.find (λ kv, String.eqb kv.1 key) [("GT_SQLITE_PATH", "gt.db"); ("GT_AUTH_MODE", "apikey"); ("GT_API_KEYS", "s3cret, other")].
Definition apikey_config : Config := Eval vm_compute in match Load apikey_env with Ok c => c | Err _ => sample_config end.
Definition sample_digests : list bytes := Eval vm_compute in add_raw ["s3cret"; "other"] [].

Lemma anonymous_rejected_witness : "getRemote" ∉ ControlOperations.
Proof.
  apply (anonymous_rejected sample_Compare sample_jws sample_symmetric sample_jwt sample_AddKey sample_Cost sample_lookup (λ _, true)
    apikey_config (apiKeyAuth sample_digests) sample_idp (request "GET" "/v1/remotes/7" "") (Handled "getRemote" None) (apiKeyAuth sample_digests))
    with (p := None).
  - vm_compute. reflexivity.
  - vm_compute. discriminate.
  - reflexivity.
  - reflexivity.
  - vm_compute. reflexivity.
  - reflexivity.
Defined.

Lemma apikey_exact_witness : ∃ p, apikey_Authenticate sample_digests (request "POST" "/v1/remotes" "Bearer s3cret") = Ok p.
Proof.
  apply (apikey_exact ["s3cret"; "other"] []); [vm_compute; reflexivity|]. split; [discriminate|]. left. exists "s3cret".
  split; [left|]. split; [discriminate|reflexivity].
Defined.

Lemma basic_exact_witness :
  basic_Authenticate sample_Compare {["ann" := "$2a$pw"]} (request "POST" "/v1/remotes" ("Basic " +:+ b64_encode "ann:pw")) = Ok "basic:ann".
Proof.
  destruct (basic_exact sample_Cost sample_Compare ["ann:$2a$pw"] {["ann" := "$2a$pw"]} "ann" "pw"
    (request "POST" "/v1/remotes" ("Basic " +:+ b64_encode "ann:pw"))) as [-> _].
  - vm_compute. reflexivity.
  - reflexivity.
  - reflexivity.
  - vm_compute. reflexivity.
Defined.

Lemma jwks_policy_witness : ∃ keys, keys ≠ [] ∧ ∀ k, k ∈ keys → ∃ ka, k_alg k = Some ka ∧ ka ∈ ["RS256"; "ES256"].
Proof.
  destruct (jwks_policy sample_jws sample_symmetric sample_jwt sample_AddKey) with (e := sample_idp)
    (j := mkJwks "iss" "aud" ["RS256"; "ES256"] None) (r := request "POST" "/v1/remotes" "bearer tok") (p := "jwt:alice")
    (j' := mkJwks "iss" "aud" ["RS256"; "ES256"] None) as (hdr & alg & set & keys & sub & _ & _ & _ & _ & _ & _ & Hne & Hall & _).
  - intros l k l' [= <-]. reflexivity.
  - vm_compute. reflexivity.
  - exists keys. split; [exact Hne|]. intros k Hk. exact (proj2 (Hall k Hk)).
Defined.
