(* ===== verification/Migrate.v ===== *)
(** [internal/store/migrate.go]: the schema migrations of both engines.  The process may die
    between any two operations on the database, so a run takes the number of operations it
    lives for; what an engine does with a script is a list of statements on the schema. *)
From S2P Require Import Prelude GoStrings GoNum.
#[local] Open Scope Z_scope.

(** * Files *)

Record dir_entry : Type := mkEntry {
  de_Name : string;
  de_IsDir : bool;
}.

(** [fs.FS]: its root directory and its files. *)
Record FS : Type := mkFS {
  ReadDir : option (list dir_entry);
  ReadFile : string → option string;
}.

Record migration : Type := mkMigration {
  m_version : Z;
  m_name : string;
}.

Inductive mig_error : Type :=
  | MReadDir
  | MParse (name : string)
  | MRead (name : string)
  | MBootstrap
  | MCheck (version : Z)
  | MApply (version : Z)
  | MRecord (version : Z).

Section migrate.
(** [sort.Slice] by version: it is not stable. *)
Context (sort_Slice : list migration → list migration).

Fixpoint collect_loop (entries : list dir_entry) : result mig_error (list migration) :=
  match entries with
  | [] => Ok []
  | e :: entries =>
      if de_IsDir e || negb (HasSuffix (de_Name e) ".sql") then collect_loop entries
      else
        let prefix := default "" (head (Split (de_Name e) "_")) in
        match ParseInt prefix with
        | None => Err (MParse (de_Name e))
        | Some ver => migs ← collect_loop entries; mret (mkMigration ver (de_Name e) :: migs)
        end
  end.

Definition collectMigrations (fsys : FS) : result mig_error (list migration) :=
  match ReadDir fsys with
  | None => Err MReadDir
  | Some entries => migs ← collect_loop entries; mret (sort_Slice migs)
  end.

(** * The database *)

(** The objects of the schema by name, and the rows of schema_migrations. *)
Record mdb : Type := mkMdb {
  schema : gmap string string;
  versions : list (Z * Z);
}.

(** [CREATE ... IF NOT EXISTS], and any other statement. *)
Inductive stmt : Type :=
  | CreateIfNotExists (name def : string)
  | Other (f : gmap string string → option (gmap string string)).

Definition exec_stmt (s : stmt) (sc : gmap string string) : option (gmap string string) :=
  match s with
  | CreateIfNotExists name def => Some (match sc !! name with Some _ => sc | None => <[name := def]> sc end)
  | Other f => f sc
  end.
Definition exec_all (l : list stmt) (sc : gmap string string) : option (gmap string string) :=
  foldl (λ sc s, sc ≫= exec_stmt s) (Some sc) l.

(** The engine's parser. *)
Context (statements : string → list stmt).

(** * Runs that may be cut short *)

Inductive outcome (A : Type) : Type :=
  | Returned (r : result mig_error A)
  | Died.
#[global] Arguments Returned {A} r.
#[global] Arguments Died {A}.

(** The operations left, and the database as the next process finds it. *)
Definition M (A : Type) : Type := nat → mdb → outcome A * nat * mdb.

Definition ret {A} (r : result mig_error A) : M A := λ n d, (Returned r, n, d).
Definition bind {A B} (m : M A) (f : A → M B) : M B := λ n d,
  match m n d with
  | (Died, n, d) => (Died, n, d)
  | (Returned (Err e), n, d) => (Returned (Err e), n, d)
  | (Returned (Ok a), n, d) => f a n d
  end.

(** One operation of the database: all of it happens, or the process is dead before. *)
Definition op {A} (f : mdb → result mig_error A * mdb) : M A := λ n d,
  match n with
  | O => (Died, O, d)
  | S n => let '(r, d') := f d in (Returned r, n, d')
  end.

(** The query on schema_migrations, which must exist. *)
Definition exists_version (version : Z) (d : mdb) : result mig_error bool * mdb :=
  match schema d !! "schema_migrations" with
  | None => (Err (MCheck version), d)
  | Some _ => (Ok (existsb (λ r, r.1 =? version) (versions d)), d)
  end.

(** Recording a version: its column is the primary key, of width [INT] in MySQL. *)
Definition insert_version (fits : Z → bool) (version now : Z) (d : mdb) : result mig_error mdb :=
  match schema d !! "schema_migrations" with
  | None => Err (MRecord version)
  | Some _ =>
      if negb (fits version) || existsb (λ r, r.1 =? version) (versions d) then Err (MRecord version)
      else Ok (mkMdb (schema d) (versions d ++ [(version, now)]))
  end.

Definition bootstrap (ddl : string) : M () := op (λ d,
  match exec_stmt (CreateIfNotExists "schema_migrations" ddl) (schema d) with
  | Some sc => (Ok (), mkMdb sc (versions d))
  | None => (Err MBootstrap, d)
  end).

(** ** SQLite *)

Definition sqlite_ddl : string := "version INTEGER PRIMARY KEY, applied_at_ns BIGINT NOT NULL".

(** The transaction is private until the commit: begin, the script, the row and the commit
    are four operations and only the last one shows. *)
Definition migration_tx (version now : Z) (ddl : string) : M () :=
  bind (op (λ d, (Ok d, d))) (λ d,
  bind (op (λ cur, (match exec_all (statements ddl) (schema d) with
                    | Some sc => Ok (mkMdb sc (versions d))
                    | None => Err (MApply version)
                    end, cur))) (λ d,
  bind (op (λ cur, (insert_version (λ _, true) version now d, cur))) (λ d,
  op (λ _, (Ok (), d))))).

(** The clock reading of a migration depends on its version. *)
Fixpoint apply_loop (fsys : FS) (now : Z → Z) (migs : list migration) : M () :=
  match migs with
  | [] => ret (Ok ())
  | m :: migs =>
      bind (op (exists_version (m_version m))) (λ exists_,
      if exists_ : bool then apply_loop fsys now migs
      else match ReadFile fsys (m_name m) with
           | None => ret (Err (MRead (m_name m)))
           | Some ddl =>
               bind (migration_tx (m_version m) (now (m_version m)) ddl) (λ _, apply_loop fsys now migs)
           end)
  end.

Definition RunMigrations (fsys : FS) (now : Z → Z) : M () :=
  bind (bootstrap sqlite_ddl) (λ _,
  match collectMigrations fsys with
  | Err e => ret (Err e)
  | Ok migs => apply_loop fsys now migs
  end).

(** ** MySQL *)

Definition mysql_ddl : string := "version INT NOT NULL, applied_at_ns BIGINT NOT NULL, PRIMARY KEY (version)".
Definition int_column (v : Z) : bool := (-2^31 <=? v) && (v <? 2^31).

(** Every statement of the script commits on its own. *)
Fixpoint exec_script (version : Z) (l : list stmt) : M () :=
  match l with
  | [] => ret (Ok ())
  | s :: l =>
      bind (op (λ d, match exec_stmt s (schema d) with
                     | Some sc => (Ok (), mkMdb sc (versions d))
                     | None => (Err (MApply version), d)
                     end)) (λ _, exec_script version l)
  end.

Definition record_version (version now : Z) : M () := op (λ d,
  match insert_version int_column version now d with
  | Ok d => (Ok (), d)
  | Err e => (Err e, d)
  end).

Fixpoint apply_loop_mysql (fsys : FS) (now : Z → Z) (migs : list migration) : M () :=
  match migs with
  | [] => ret (Ok ())
  | m :: migs =>
      bind (op (exists_version (m_version m))) (λ exists_,
      if exists_ : bool then apply_loop_mysql fsys now migs
      else match ReadFile fsys (m_name m) with
           | None => ret (Err (MRead (m_name m)))
           | Some ddl =>
               bind (exec_script (m_version m) (statements ddl)) (λ _,
               bind (record_version (m_version m) (now (m_version m))) (λ _,
               apply_loop_mysql fsys now migs))
           end)
  end.

Definition RunMigrationsMySQL (fsys : FS) (now : Z → Z) : M () :=
  bind (bootstrap mysql_ddl) (λ _,
  match collectMigrations fsys with
  | Err e => ret (Err e)
  | Ok migs => apply_loop_mysql fsys now migs
  end).
End migrate.
