(* ===== verification/MigrateProps.v ===== *)
(** Migrations complete, and complete to the same schema however often the process died on
    the way: in one transaction per file on SQLite, by repeating the file on MySQL. *)
From S2P Require Import Prelude GoStrings GoNum Migrate.
#[local] Open Scope Z_scope.

Section props.
Context (sort_Slice : list migration → list migration) (statements : string → list stmt) (fsys : FS).

(** * Specification *)

(** The schema and the recorded versions; the times of the records are left aside. *)
Abbreviation state := (gmap string string * list Z)%type.
Definition view (d : mdb) : state := (schema d, (versions d).*1).

(** A migration that is not recorded runs its file and is recorded. *)
Definition apply_one (fits : Z → bool) (m : migration) (st : state) : option state :=
  if bool_decide (m_version m ∈ st.2) then Some st
  else
    ddl ← ReadFile fsys (m_name m);
    sc ← exec_all (statements ddl) st.1;
    if fits (m_version m) && bool_decide (is_Some (sc !! "schema_migrations")) then Some (sc, st.2 ++ [m_version m]) else None.

Fixpoint apply_all (fits : Z → bool) (migs : list migration) (st : state) : option state :=
  match migs with
  | [] => Some st
  | m :: migs => apply_one fits m st ≫= apply_all fits migs
  end.

Definition boot (ddl : string) (st : state) : state :=
  (match st.1 !! "schema_migrations" with Some _ => st.1 | None => <["schema_migrations" := ddl]> st.1 end, st.2).

Definition booted (st : state) : Prop := is_Some (st.1 !! "schema_migrations").

(** A script of [CREATE ... IF NOT EXISTS] only. *)
Definition is_create (s : stmt) : bool := match s with CreateIfNotExists _ _ => true | Other _ => false end.
Definition creates_only (migs : list migration) : Prop :=
  Forall (λ m, ∀ ddl, ReadFile fsys (m_name m) = Some ddl → Forall (λ s, is_create s = true) (statements ddl)) migs.

(** * Lemmas *)

Lemma bind_ok {A B} (m : M A) (f : A → M B) n d a n' d' : m n d = (Returned (Ok a), n', d') → bind m f n d = f a n' d'.
Proof. unfold bind. by intros ->. Qed.

Lemma existsb_version v (l : list (Z * Z)) : existsb (λ r, r.1 =? v) l = bool_decide (v ∈ l.*1).
Proof.
  induction l as [|[x t] l IH]; [done|]. cbn. rewrite IH. destruct (Z.eqb_spec x v) as [->|Hne]; cbn.
  - symmetry. apply bool_decide_true. by left.
  - apply bool_decide_ext. rewrite elem_of_cons. naive_solver.
Qed.

Lemma apply_one_done fits m st : m_version m ∈ st.2 → apply_one fits m st = Some st.
Proof. intros Hin. unfold apply_one. by rewrite bool_decide_true. Qed.

Lemma apply_one_grows fits m st st' :
  apply_one fits m st = Some st' → st.2 `prefix_of` st'.2 ∧ m_version m ∈ st'.2 ∧ (booted st → booted st').
Proof.
  unfold apply_one. case_bool_decide as Hin; [by intros [= <-]|]. intros (ddl & _ & H)%bind_Some.
  apply bind_Some in H as (sc & _ & H). destruct (fits (m_version m)); [|done]. cbn in H. case_bool_decide; [|done].
  injection H as <-. cbn. split; [by eexists|]. split; [|done]. set_solver.
Qed.

Lemma apply_all_grows fits migs st st' :
  apply_all fits migs st = Some st' → st.2 `prefix_of` st'.2 ∧ Forall (λ m, m_version m ∈ st'.2) migs ∧ (booted st → booted st').
Proof.
  revert st. induction migs as [|m migs IH]; intros st; cbn; [by intros [= <-]|]. intros (st1 & H1 & H2)%bind_Some.
  apply apply_one_grows in H1 as (Hp1 & Hin & Hb1). apply IH in H2 as (Hp2 & Hall & Hb2).
  split_and!; [by etrans| |by auto]. constructor; [|done]. by eapply elem_of_prefix.
Qed.

Lemma apply_all_done fits migs st : Forall (λ m, m_version m ∈ st.2) migs → apply_all fits migs st = Some st.
Proof. induction 1 as [|m migs Hm _ IH]; [done|]. cbn. by rewrite apply_one_done. Qed.

Lemma boot_booted ddl st : booted (boot ddl st).
Proof. unfold booted, boot. cbn. destruct (st.1 !! "schema_migrations") eqn:E; [by rewrite E|]. by rewrite lookup_insert_eq. Qed.

Lemma boot_id ddl st : booted st → boot ddl st = st.
Proof. intros [x E]. destruct st as [sc vs]. unfold boot. cbn in *. by rewrite E. Qed.

Lemma bootstrap_run ddl n d :
  bootstrap ddl (S n) d = (Returned (Ok ()), n, mkMdb (boot ddl (view d)).1 (versions d)).
Proof. done. Qed.

Lemma exists_run m n d :
  booted (view d) → op (exists_version (m_version m)) (S n) d = (Returned (Ok (bool_decide (m_version m ∈ (view d).2))), n, d).
Proof. intros [x E]. unfold op, exists_version. cbn in E. by rewrite E, existsb_version. Qed.

Lemma insert_run fits v now d :
  insert_version fits v now d =
    if fits v && bool_decide (is_Some (schema d !! "schema_migrations")) && negb (bool_decide (v ∈ (view d).2))
    then Ok (mkMdb (schema d) (versions d ++ [(v, now)])) else Err (MRecord v).
Proof.
  unfold insert_version. rewrite existsb_version. destruct (schema d !! "schema_migrations") eqn:E.
  - rewrite (bool_decide_true (is_Some _)) by done. destruct (fits v); cbn; [|done]. by case_bool_decide.
  - rewrite (bool_decide_false (is_Some _)) by by intros [? [=]]. by rewrite andb_false_r.
Qed.

(** What a run leaves behind, given what the specification makes of the whole list: the
    same outcome is still ahead, or has been reached. *)
Definition progress (fits : Z → bool) (migs : list migration) (d : mdb) (r : outcome ()) (d' : mdb) : Prop :=
  booted (view d') ∧ (view d).2 `prefix_of` (view d').2 ∧
  match r with
  | Returned (Err _) => apply_all fits migs (view d) = None
  | Returned (Ok _) => apply_all fits migs (view d) = Some (view d')
  | Died => apply_all fits migs (view d') = apply_all fits migs (view d)
  end.

Lemma progress_skip fits m migs d r d' :
  m_version m ∈ (view d).2 → progress fits migs d r d' → progress fits (m :: migs) d r d'.
Proof.
  intros Hin (Hb & Hp & Hr). split; [done|]. split; [done|]. cbn. rewrite apply_one_done by done. cbn.
  destruct r as [[]|]; try done. rewrite apply_one_done by by eapply elem_of_prefix. done.
Qed.

Lemma progress_step fits m migs d d1 r d' :
  apply_one fits m (view d) = Some (view d1) → progress fits migs d1 r d' → progress fits (m :: migs) d r d'.
Proof.
  intros Hone (Hb & Hp & Hr). pose proof (apply_one_grows _ _ _ _ Hone) as (Hp1 & Hin & _). split; [done|]. split; [by etrans|].
  cbn. rewrite Hone. cbn. destruct r as [[]|]; try done. rewrite apply_one_done by by eapply elem_of_prefix. done.
Qed.

(** ** SQLite *)

Abbreviation any_version := (λ _ : Z, true).

Lemma migration_tx_run m now ddl n d :
  ReadFile fsys (m_name m) = Some ddl → m_version m ∉ (view d).2 →
  match migration_tx statements (m_version m) now ddl n d with
  | (Died, _, d') => d' = d ∧ (n < 4)%nat
  | (Returned (Err _), _, d') => d' = d ∧ apply_one any_version m (view d) = None
  | (Returned (Ok _), n', d') => n = (4 + n')%nat ∧ apply_one any_version m (view d) = Some (view d')
  end.
Proof.
  intros Hread Hnew. unfold migration_tx. destruct n as [|n]; [cbn; split; [done|lia]|].
  erewrite bind_ok; [|reflexivity]. destruct n as [|n]; [cbn; split; [done|lia]|].
  unfold apply_one. rewrite bool_decide_false by done. rewrite Hread. cbn [mbind option_bind].
  destruct (exec_all (statements ddl) (schema d)) as [sc|] eqn:Hex.
  2: { cbn. by rewrite Hex. }
  erewrite bind_ok; [|reflexivity]. cbn [fst view]. rewrite Hex. cbn [mbind option_bind].
  destruct n as [|n]; [cbn; split; [done|lia]|]. unfold bind, op. rewrite insert_run. cbn [schema versions view snd andb].
  rewrite (bool_decide_false (m_version m ∈ _)) by done. cbn [negb].
  case_bool_decide; cbn; [|done]. destruct n as [|n]; cbn; [split; [done|lia]|]. split; [lia|]. unfold view. cbn. by rewrite fmap_app.
Qed.

Lemma apply_loop_run now migs n d :
  booted (view d) →
  let '(r, _, d') := apply_loop statements fsys now migs n d in
  progress any_version migs d r d' ∧ (5 * length migs ≤ n → r ≠ Died)%nat.
Proof.
  revert n d. induction migs as [|m migs IH]; intros n d Hb; [by cbn|].
  destruct n as [|n]; [cbn; split; [done|lia]|]. cbn [apply_loop].
  erewrite bind_ok by by apply exists_run. case_bool_decide as Hin; cbn [length].
  { specialize (IH n d Hb). destruct (apply_loop _ _ _ migs n d) as [[r n'] d']. destruct IH as [Hp Ht].
    split; [by apply progress_skip|]. intros ?. apply Ht. lia. }
  destruct (ReadFile fsys (m_name m)) as [ddl|] eqn:Hread.
  2: { cbn. split; [|done]. split; [done|]. split; [done|]. cbn. unfold apply_one. rewrite bool_decide_false by done. by rewrite Hread. }
  pose proof (migration_tx_run m (now (m_version m)) ddl n d Hread Hin) as Htx. unfold bind.
  destruct (migration_tx _ _ _ _ n d) as [[[[[]|e]|] n'] d']; cbn in Htx.
  - destruct Htx as [-> Hone]. pose proof (apply_one_grows _ _ _ _ Hone) as (_ & _ & Hb').
    specialize (IH n' d' (Hb' Hb)). destruct (apply_loop _ _ _ migs n' d') as [[r n''] d'']. destruct IH as [Hp Ht].
    split; [by eapply progress_step|]. intros ?. apply Ht. lia.
  - destruct Htx as [-> Hone]. split; [|done]. split; [done|]. split; [done|]. cbn. by rewrite Hone.
  - destruct Htx as [-> Hn]. split; [done|]. lia.
Qed.

(** ** MySQL *)

Lemma exec_all_cons x l sc : exec_all (x :: l) sc = exec_stmt x sc ≫= exec_all l.
Proof.
  unfold exec_all. cbn. destruct (exec_stmt x sc) as [sc'|]; [done|]. cbn. induction l as [|y l IH]; [done|]. cbn. exact IH.
Qed.

Lemma exec_all_app l1 l2 sc : exec_all (l1 ++ l2) sc = exec_all l1 sc ≫= exec_all l2.
Proof.
  revert sc. induction l1 as [|x l1 IH]; intros sc; [done|]. cbn [app]. rewrite !exec_all_cons.
  destruct (exec_stmt x sc) as [sc'|]; [apply IH|done].
Qed.

Lemma creates_total l sc :
  Forall (λ s, is_create s = true) l →
  ∃ sc', exec_all l sc = Some sc' ∧ sc ⊆ sc' ∧ ∀ name def, CreateIfNotExists name def ∈ l → is_Some (sc' !! name).
Proof.
  intros Hl. revert sc. induction Hl as [|[name def|] l Hs _ IH]; intros sc; [|clear Hs|done].
  { exists sc. split_and!; [done|done|]. by intros ?? ?%elem_of_nil. }
  rewrite exec_all_cons. cbn [exec_stmt mbind option_bind]. set (sc1 := match sc !! name with Some _ => sc | None => _ end).
  destruct (IH sc1) as (sc' & Hex & Hsub & Hall).
  assert (sc ⊆ sc1 ∧ is_Some (sc1 !! name)) as [Hsub1 [x Hx]].
  { unfold sc1. destruct (sc !! name) eqn:E; [by rewrite E|]. rewrite lookup_insert_eq. split; [by apply insert_subseteq|done]. }
  exists sc'. split_and!; [done|by etrans|]. intros name' def' [[= -> ->]|Hin]%elem_of_cons; [|by eapply Hall].
  exists x. by eapply lookup_weaken.
Qed.

Lemma creates_present l sc :
  Forall (λ s, is_create s = true) l → (∀ name def, CreateIfNotExists name def ∈ l → is_Some (sc !! name)) → exec_all l sc = Some sc.
Proof.
  induction 1 as [|[name def|] l Hs _ IH]; intros Hin; [done| |done]. rewrite exec_all_cons. cbn.
  destruct (Hin name def) as [x Hx]; [by left|]. rewrite Hx. apply IH. intros ???. eapply Hin. by right.
Qed.

(** Repeating a script that stopped half way. *)
Lemma creates_again p q sc sc1 :
  Forall (λ s, is_create s = true) (p ++ q) → exec_all p sc = Some sc1 → exec_all (p ++ q) sc1 = exec_all (p ++ q) sc.
Proof.
  intros Hl Hp. pose proof (proj1 (Forall_app _ _ _) Hl) as [Hlp _]. rewrite !exec_all_app, Hp. cbn.
  destruct (creates_total p sc Hlp) as (sc' & E & _ & Hall). rewrite Hp in E. injection E as <-. by rewrite creates_present.
Qed.

Lemma exec_script_run v l n d :
  Forall (λ s, is_create s = true) l →
  match exec_script v l n d with
  | (Returned (Ok _), n', d') => n = (length l + n')%nat ∧ exec_all l (schema d) = Some (schema d') ∧ versions d' = versions d
  | (Returned (Err _), _, _) => False
  | (Died, _, d') => (n < length l)%nat ∧ versions d' = versions d ∧ ∃ p q, l = p ++ q ∧ exec_all p (schema d) = Some (schema d')
  end.
Proof.
  intros Hl. revert n d. induction Hl as [|[name def|] l Hs _ IH]; intros n d; [done|clear Hs|done].
  destruct n as [|n]; [cbn; split_and!; [lia|done|by exists [], (CreateIfNotExists name def :: l)]|].
  cbn [exec_script]. erewrite bind_ok by reflexivity. cbn [exec_stmt].
  match goal with |- context [exec_script v l n ?d1] => specialize (IH n d1); set (d1' := d1) in * end.
  rewrite exec_all_cons. cbn [exec_stmt mbind option_bind length].
  destruct (exec_script v l n d1') as [[[[]|] n'] d']; [| |]; cbn in IH |- *.
  - destruct IH as (-> & ? & ?). by split_and!.
  - done.
  - destruct IH as (? & ? & p & q & -> & ?). split_and!; [lia|done|]. exists (CreateIfNotExists name def :: p), q.
    split; [done|]. by rewrite exec_all_cons.
Qed.

(** The operations a run needs at most. *)
Definition script_ops (migs : list migration) : nat :=
  sum_list_with (λ m, 2 + length (statements (default "" (ReadFile fsys (m_name m)))))%nat migs.

Lemma script_ops_cons m migs :
  script_ops (m :: migs) = (2 + length (statements (default "" (ReadFile fsys (m_name m)))) + script_ops migs)%nat.
Proof. done. Qed.

Lemma apply_one_partial m sc vs sc1 p q ddl :
  m_version m ∉ vs → ReadFile fsys (m_name m) = Some ddl → statements ddl = p ++ q → Forall (λ s, is_create s = true) (p ++ q) →
  exec_all p sc = Some sc1 → apply_one int_column m (sc1, vs) = apply_one int_column m (sc, vs).
Proof.
  intros Hnew Hread Hst Hl Hp. unfold apply_one. cbn [fst snd]. rewrite bool_decide_false by done. rewrite Hread. cbn [mbind option_bind].
  by rewrite Hst, (creates_again p q sc sc1).
Qed.

Lemma creates_booted l sc sc' : Forall (λ s, is_create s = true) l → exec_all l sc = Some sc' →
  is_Some (sc !! "schema_migrations") → is_Some (sc' !! "schema_migrations").
Proof.
  intros Hl Hex [x Hx]. destruct (creates_total l sc Hl) as (sc'' & E & Hsub & _). rewrite Hex in E. injection E as <-.
  exists x. by eapply lookup_weaken.
Qed.

(** A run that ends inside the file of [m]. *)
Lemma progress_partial m migs d d' p q ddl :
  booted (view d) → m_version m ∉ (view d).2 → ReadFile fsys (m_name m) = Some ddl → statements ddl = p ++ q →
  Forall (λ s, is_create s = true) (p ++ q) → exec_all p (schema d) = Some (schema d') → versions d' = versions d →
  progress int_column (m :: migs) d Died d'.
Proof.
  intros Hb Hnew Hread Hst Hl Hp Hv. pose proof (proj1 (Forall_app _ _ _) Hl) as [Hlp _]. unfold progress, view. rewrite Hv.
  split; [by eapply creates_booted|]. split; [done|]. cbn. by erewrite apply_one_partial.
Qed.

Lemma apply_loop_mysql_run now migs n d :
  creates_only migs → booted (view d) →
  let '(r, _, d') := apply_loop_mysql statements fsys now migs n d in
  progress int_column migs d r d' ∧ (script_ops migs ≤ n → r ≠ Died)%nat.
Proof.
  intros Hc. revert n d. induction Hc as [|m migs Hm _ IH]; intros n d Hb; [by cbn|].
  destruct n as [|n]; [cbn; split; [done|lia]|]. rewrite script_ops_cons. cbn [apply_loop_mysql].
  erewrite bind_ok by by apply exists_run. case_bool_decide as Hin.
  { specialize (IH n d Hb). destruct (apply_loop_mysql _ _ _ migs n d) as [[r n'] d']. destruct IH as [Hp Ht].
    split; [by apply progress_skip|]. intros ?. apply Ht. lia. }
  destruct (ReadFile fsys (m_name m)) as [ddl|] eqn:Hread.
  2: { cbn. split; [|done]. split; [done|]. split; [done|]. cbn. unfold apply_one. rewrite bool_decide_false by done. by rewrite Hread. }
  specialize (Hm ddl eq_refl). pose proof (exec_script_run (m_version m) _ n d Hm) as Hs. unfold bind at 1. change (default "" (Some ddl)) with ddl.
  destruct (exec_script _ _ n d) as [[[[[]|e]|] n'] d1]; [|done|].
  2: { destruct Hs as (Hn & Hv & p & q & Hst & Hp). split; [|lia]. rewrite Hst in Hm. by eapply progress_partial. }
  destruct Hs as (-> & Hex & Hv). destruct n' as [|n'].
  { cbn. split; [|lia]. eapply (progress_partial _ _ _ _ (statements ddl) []); rewrite ?app_nil_r; done. }
  assert (m_version m ∉ (view d1).2) as Hnew by (unfold view; by rewrite Hv).
  unfold bind, record_version, op. rewrite insert_run. rewrite (bool_decide_false (m_version m ∈ _)) by done.
  rewrite (bool_decide_true (is_Some _)) by (eapply creates_booted; done). rewrite !andb_true_r, Hv.
  assert (apply_one int_column m (view d) = if int_column (m_version m) then Some (schema d1, (view d).2 ++ [m_version m]) else None) as Hone.
  { unfold apply_one. rewrite bool_decide_false by done. rewrite Hread. cbn [mbind option_bind fst view]. rewrite Hex. cbn [mbind option_bind].
    rewrite (bool_decide_true (is_Some _)) by (eapply creates_booted; done). by rewrite andb_true_r. }
  destruct (int_column (m_version m)).
  - set (d2 := mkMdb _ _). assert (view d2 = (schema d1, (view d).2 ++ [m_version m])) as Hd2 by (unfold view, d2; cbn; by rewrite fmap_app).
    rewrite <- Hd2 in Hone. pose proof (apply_one_grows _ _ _ _ Hone) as (_ & _ & Hb'). specialize (IH n' d2 (Hb' Hb)).
    destruct (apply_loop_mysql _ _ _ migs n' d2) as [[r n''] d'']. destruct IH as [Hp Ht].
    split; [by eapply progress_step|]. intros ?. apply Ht. lia.
  - split; [|done]. split; [by eapply creates_booted|]. unfold view. rewrite Hv. split; [done|]. cbn. fold (view d). by rewrite Hone.
Qed.

(** ** Runs after runs *)

(** What is ahead of a database. *)
Definition ahead (fits : Z → bool) (ddl : string) (migs : list migration) (d : mdb) : option state :=
  apply_all fits migs (boot ddl (view d)).

Lemma progress_ahead fits ddl migs d r d' st :
  progress fits migs d r d' → ahead fits ddl migs d = Some st → booted (view d) →
  ahead fits ddl migs d' = Some st ∧ (r ≠ Died → r = Returned (Ok ()) ∧ view d' = st).
Proof.
  unfold ahead. intros (Hb' & Hp & Hr) Hst Hb. rewrite boot_id in Hst by done. rewrite boot_id by done. destruct r as [[[]|e]|].
  - rewrite Hst in Hr. injection Hr as ->. split; [|done]. apply apply_all_done. by eapply apply_all_grows.
  - congruence.
  - split; [congruence|done].
Qed.

(** Processes that live for [deaths] operations, one after the other. *)
Definition die (run : M ()) (deaths : list nat) (d : mdb) : mdb := foldl (λ d n, (run n d).2) d deaths.

Lemma die_ahead (run : M ()) fits ddl migs st deaths d :
  (∀ n d, ahead fits ddl migs d = Some st → ahead fits ddl migs (run n d).2 = Some st) →
  ahead fits ddl migs d = Some st → ahead fits ddl migs (die run deaths d) = Some st.
Proof. intros Hrun. unfold die. revert d. induction deaths as [|n deaths IH]; intros d Hd; [done|]. cbn. by apply IH, Hrun. Qed.

(** A run of a loop behind the bootstrap. *)
Lemma boot_run (loop : M ()) fits ddl migs st ops n d :
  (∀ n d, booted (view d) → let '(r, _, d') := loop n d in progress fits migs d r d' ∧ (ops ≤ n → r ≠ Died)%nat) →
  ahead fits ddl migs d = Some st →
  let '(r, _, d') := bind (bootstrap ddl) (λ _, loop) n d in
  ahead fits ddl migs d' = Some st ∧ (1 + ops ≤ n → r = Returned (Ok ()) ∧ view d' = st)%nat.
Proof.
  intros Hloop Hst. destruct n as [|n]; [cbn; split; [done|lia]|]. erewrite bind_ok by apply bootstrap_run.
  set (d0 := mkMdb _ _). assert (view d0 = boot ddl (view d)) as Hd0 by done.
  pose proof (boot_booted ddl (view d)) as Hb. rewrite <- Hd0 in Hb. specialize (Hloop n d0 Hb).
  destruct (loop n d0) as [[r n'] d']. destruct Hloop as [Hp Ht]. destruct (progress_ahead fits ddl migs d0 r d' st) as [Ha Hr]; [done| |done|].
  { unfold ahead in *. by rewrite Hd0, boot_id by apply boot_booted. }
  split; [done|]. intros ?. apply Hr, Ht. lia.
Qed.

(** C34. SQLite migrations end, and end well: after any number of processes that died at any
    operation, a process that lives for one operation and five per file returns with
    success, and the schema and the recorded versions are those of one undisturbed run of
    the files that were not recorded, in order of version. *)
Theorem sqlite_migrations_resume migs now now' deaths d st n :
  collectMigrations sort_Slice fsys = Ok migs → ahead any_version sqlite_ddl migs d = Some st →
  (1 + 5 * length migs ≤ n)%nat →
  ∃ n' d', RunMigrations sort_Slice statements fsys now' n (die (RunMigrations sort_Slice statements fsys now) deaths d) =
    (Returned (Ok ()), n', d') ∧ view d' = st.
Proof.
  intros Hc Hst Hn. unfold RunMigrations. rewrite Hc. cbn match.
  pose proof (λ now, boot_run (apply_loop statements fsys now migs) any_version sqlite_ddl migs st (5 * length migs)) as Hrun.
  set (run := bind (bootstrap sqlite_ddl) (λ _, apply_loop statements fsys now migs)). assert (ahead any_version sqlite_ddl migs (die run deaths d) = Some st) as Hd.
  { apply die_ahead; [|done]. intros n1 d1 Hst1. specialize (Hrun now n1 d1 (apply_loop_run now migs) Hst1). fold run in Hrun.
    destruct (run n1 d1) as [[r n2] d2]. by destruct Hrun. }
  specialize (Hrun now' n _ (apply_loop_run now' migs) Hd). destruct (bind _ _ n _) as [[r n'] d'].
  destruct Hrun as [_ Hr]. destruct (Hr Hn) as [-> ?]. by eexists _, _.
Qed.

(** C33. MySQL migrations end, and end well, without transactions: when the files hold only
    [CREATE ... IF NOT EXISTS] statements, after any number of processes that died at any
    operation, inside a file included, a process that lives for one operation, two per file
    and one per statement returns with success, and the schema and the recorded versions
    are those of one undisturbed run. *)
Theorem mysql_migrations_resume migs now now' deaths d st n :
  collectMigrations sort_Slice fsys = Ok migs → creates_only migs → ahead int_column mysql_ddl migs d = Some st →
  (1 + script_ops migs ≤ n)%nat →
  ∃ n' d', RunMigrationsMySQL sort_Slice statements fsys now' n (die (RunMigrationsMySQL sort_Slice statements fsys now) deaths d) =
    (Returned (Ok ()), n', d') ∧ view d' = st.
Proof.
  intros Hc Hcr Hst Hn. unfold RunMigrationsMySQL. rewrite Hc. cbn match.
  assert (∀ now n d, booted (view d) → let '(r, _, d') := apply_loop_mysql statements fsys now migs n d in
    progress int_column migs d r d' ∧ (script_ops migs ≤ n → r ≠ Died)%nat) as Hloop by (intros; by apply apply_loop_mysql_run).
  pose proof (λ now, boot_run (apply_loop_mysql statements fsys now migs) int_column mysql_ddl migs st (script_ops migs)) as Hrun.
  set (run := bind (bootstrap mysql_ddl) (λ _, apply_loop_mysql statements fsys now migs)). assert (ahead int_column mysql_ddl migs (die run deaths d) = Some st) as Hd.
  { apply die_ahead; [|done]. intros n1 d1 Hst1. specialize (Hrun now n1 d1 (Hloop now) Hst1). fold run in Hrun.
    destruct (run n1 d1) as [[r n2] d2]. by destruct Hrun. }
  specialize (Hrun now' n _ (Hloop now') Hd). destruct (bind _ _ n _) as [[r n'] d'].
  destruct Hrun as [_ Hr]. destruct (Hr Hn) as [-> ?]. by eexists _, _.
Qed.
End props.

(** * A set of files to run *)

(** Two files, listed by name and not by version. *)
Definition sample_fs : FS :=
  mkFS (Some [mkEntry "0010_more.sql" false; mkEntry "0002_init.sql" false; mkEntry "README.md" false; mkEntry "old" true])
    (λ name, if String.eqb name "0002_init.sql" then Some "init" else if String.eqb name "0010_more.sql" then Some "more" else None).
Definition sample_statements (ddl : string) : list stmt :=
  if String.eqb ddl "init" then [CreateIfNotExists "remotes" "id"; CreateIfNotExists "refs" "id, remote_id"]
  else [CreateIfNotExists "syncs" "id"].
Definition version_le (a b : migration) : Prop := m_version a ≤ m_version b.
#[global] Instance version_le_dec a b : Decision (version_le a b) := decide (m_version a ≤ m_version b).
Definition by_version (l : list migration) : list migration := merge_sort version_le l.

Lemma sqlite_migrations_resume_witness :
  ∃ n' d', RunMigrations by_version sample_statements sample_fs (λ _, 9) 11%nat
      (die (RunMigrations by_version sample_statements sample_fs (λ _, 5)) [4; 7; 0]%nat (mkMdb ∅ [])) =
    (Returned (Ok ()), n', d') ∧ (versions d').*1 = [2; 10].
Proof.
  destruct (sqlite_migrations_resume by_version sample_statements sample_fs [mkMigration 2 "0002_init.sql"; mkMigration 10 "0010_more.sql"]
    (λ _, 5) (λ _, 9) [4; 7; 0]%nat (mkMdb ∅ []) (list_to_map [("schema_migrations", sqlite_ddl); ("remotes", "id"); ("refs", "id, remote_id"); ("syncs", "id")], [2; 10]) 11%nat)
    as (n' & d' & Hrun & Hv).
  - vm_compute. reflexivity.
  - vm_compute. reflexivity.
  - cbn. lia.
  - exists n', d'. split; [exact Hrun|]. exact (f_equal snd Hv).
Defined.

Lemma mysql_migrations_resume_witness :
  ∃ n' d', RunMigrationsMySQL by_version sample_statements sample_fs (λ _, 9) 8%nat
      (die (RunMigrationsMySQL by_version sample_statements sample_fs (λ _, 5)) [3; 6; 0]%nat (mkMdb ∅ [])) =
    (Returned (Ok ()), n', d') ∧ (versions d').*1 = [2; 10].
Proof.
  destruct (mysql_migrations_resume by_version sample_statements sample_fs [mkMigration 2 "0002_init.sql"; mkMigration 10 "0010_more.sql"]
    (λ _, 5) (λ _, 9) [3; 6; 0]%nat (mkMdb ∅ []) (list_to_map [("schema_migrations", mysql_ddl); ("remotes", "id"); ("refs", "id, remote_id"); ("syncs", "id")], [2; 10]) 8%nat)
    as (n' & d' & Hrun & Hv).
  - vm_compute. reflexivity.
  - repeat constructor; intros ddl [= <-]; repeat constructor.
  - vm_compute. reflexivity.
  - vm_compute. lia.
  - exists n', d'. split; [exact Hrun|]. exact (f_equal snd Hv).
Defined.

(** Two files with one version: the second is skipped without an error. *)
Definition twin_fs : FS :=
  mkFS (Some [mkEntry "0002_init.sql" false; mkEntry "2_more.sql" false])
    (λ name, if String.eqb name "0002_init.sql" then Some "init" else Some "more").

(** A version that two files share runs one of them only: the other is taken for applied
    and the run reports success. *)
Theorem migrations_twin_skipped :
  let '(r, _, d) := RunMigrations by_version sample_statements twin_fs (λ _, 5) 100%nat (mkMdb ∅ []) in
  r = Returned (Ok ()) ∧ schema d !! "remotes" = Some "id" ∧ schema d !! "syncs" = None.
Proof. vm_compute. by split_and!. Qed.
