(* ===== verification/GoUrl.v ===== *)
(** The parts of [net/url] and [net] the program uses: [url.Parse] with the fields it looks at,
    query values, and loopback addresses.  IPv6 literals are parameters. *)
From S2P Require Import Prelude GoStrings GoNum GoMaps GoHttp.
#[local] Open Scope Z_scope.

(** The fields of [url.URL] the code reads: scheme, user name, host with port, path. *)
Record URL : Type := mkURL {
  u_Scheme : string;
  u_User : option string;
  u_Host : string;
  u_Path : string;
}.

Definition is_alnum (c : ascii) : bool :=
  let n := N_of_ascii c in ((48 <=? n) && (n <=? 57) || (65 <=? n) && (n <=? 90) || (97 <=? n) && (n <=? 122))%N.
Definition is_digit (c : ascii) : bool := let n := N_of_ascii c in ((48 <=? n) && (n <=? 57))%N.

Fixpoint elem_char (c : ascii) (s : string) : bool :=
  match s with
  | EmptyString => false
  | String a s => Ascii.eqb c a || elem_char c s
  end.

Definition validUserinfo (s : string) : bool := string_forall (λ c, is_alnum c || elem_char c "-._:~!$&'()*+,;=%@") s.

(** An empty text, or a colon and digits. *)
Definition validOptionalPort (port : string) : bool :=
  match port with
  | EmptyString => true
  | String c digits => Ascii.eqb c ":" && string_forall is_digit digits
  end.

(** A byte a host may hold as it is. *)
Definition host_char (c : ascii) : bool :=
  (128 <=? N_of_ascii c)%N || is_alnum c || elem_char c "-_.~!$&'()*+,;=:[]<>" || Ascii.eqb c "034".

(** [unescape] for a host: escapes of bytes outside ASCII and of the percent sign. *)
Fixpoint unescape_host (s : string) : option string :=
  match s with
  | EmptyString => Some ""
  | String "%" (String a (String b s)) =>
      h ← from_hex_char a; l ← from_hex_char b;
      if (h <? 8)%N && negb ((h =? 2) && (l =? 5))%N then None
      else rest ← unescape_host s; Some (String (ascii_of_N (h * 16 + l)) rest)
  | String "%" _ => None
  | String c s => if host_char c then String c <$> unescape_host s else None
  end.

(** The text before and after the last [c]. *)
Fixpoint last_cut (s : string) (c : ascii) : option (string * string) :=
  match s with
  | EmptyString => None
  | String a s =>
      match last_cut s c with
      | Some (x, y) => Some (String a x, y)
      | None => if Ascii.eqb a c then Some ("", s) else None
      end
  end.

(** The text from the first [c] on. *)
Definition before (s : string) (c : ascii) : string := match Cut s c with Some (x, _) => x | None => s end.

Section url.
(** [netip.ParseAddr] behind the brackets of a host. *)
Context (parse_bracketed : string → option string).

Definition parseHost (host : string) : option string :=
  if Contains host "[" then parse_bracketed host
  else
    let port := match IndexByte host ":" with Some i => sdrop i host | None => "" end in
    if negb (validOptionalPort port) then None else unescape_host host.

Definition parseAuthority (authority : string) : option (option string * string) :=
  match last_cut authority "@" with
  | None => host ← parseHost authority; Some (None, host)
  | Some (userinfo, host) =>
      host ← parseHost host;
      if negb (validUserinfo userinfo) then None
      else match Cut userinfo ":" with
           | None => user ← unescape userinfo; Some (Some user, host)
           | Some (username, password) => user ← unescape username; _ ← unescape password; Some (Some user, host)
           end
  end.

(** [getScheme]: the scheme, empty for none, and the text after its colon. *)
Fixpoint scheme_go (first : bool) (s : string) : option (option (string * string)) :=
  match s with
  | EmptyString => Some None
  | String c t =>
      let letter := let n := N_of_ascii (lower_ascii c) in ((97 <=? n) && (n <=? 122))%N in
      if letter || negb first && (is_digit c || elem_char c "+-.") then
        r ← scheme_go false t; Some ('(a, b) ← r; Some (String c a, b))
      else if Ascii.eqb c ":" then if first then None else Some (Some ("", t))
      else Some None
  end.
Definition getScheme (raw : string) : option (string * string) := default ("", raw) <$> scheme_go true raw.

Definition is_ctl (c : ascii) : bool := (N_of_ascii c <? 32)%N || Ascii.eqb c "127".

(** [url.Parse]: fragment, scheme, query, authority, path.  An opaque url has no host. *)
Definition Parse (rawURL : string) : option URL :=
  let '(raw, frag) := match Cut rawURL "#" with Some (u, frag) => (u, frag) | None => (rawURL, "") end in
  if string_forall (λ c, negb (is_ctl c)) raw then
    if String.eqb raw "*" then _ ← unescape frag; Some (mkURL "" None "" "*")
    else
      '(scheme, rest) ← getScheme raw;
      let scheme := ToLower scheme in
      let rest := before rest "?" in
      let url user host path := p ← unescape path; _ ← unescape frag; Some (mkURL scheme user host p) in
      if negb (HasPrefix rest "/") && negb (String.eqb scheme "") then _ ← unescape frag; Some (mkURL scheme None "" "")
      else if negb (HasPrefix rest "/") && Contains (before rest "/") ":" then None
      else if (negb (String.eqb scheme "") || negb (HasPrefix rest "///")) && HasPrefix rest "//" then
        let authority := sdrop 2 rest in
        let '(authority, path) :=
          match IndexByte authority "/" with
          | Some i => (stake i authority, sdrop i authority)
          | None => (authority, "")
          end in
        ua ← parseAuthority authority;
        url ua.1 ua.2 path
      else url None "" rest
  else None.
End url.

Definition splitHostPort (hostPort : string) : string * string :=
  let '(host, port) :=
    match last_cut hostPort ":" with
    | Some (h, p) => if validOptionalPort (String ":" p) then (h, p) else (hostPort, "")
    | None => (hostPort, "")
    end in
  (if HasPrefix host "[" && HasSuffix host "]" then stake (String.length host - 2) (sdrop 1 host) else host, port).
Definition Hostname (u : URL) : string := (splitHostPort (u_Host u)).1.
Definition Port (u : URL) : string := (splitHostPort (u_Host u)).2.


(** * Loopback addresses *)

(** The fields of a dotted quad of [net.ParseIP], and the first of them. *)
Definition quad_field (s : string) : option Z :=
  if (3 <? len s) || (1 <? len s) && HasPrefix s "0" || negb (string_forall is_digit s) then None
  else n ← ParseInt s; if 255 <? n then None else Some n.
Definition ip4_first (s : string) : option Z :=
  match Split s "." with
  | [a; b; c; d] => a ← quad_field a; _ ← quad_field b; _ ← quad_field c; _ ← quad_field d; Some a
  | _ => None
  end.

(** [net.ParseIP] and [IP.IsLoopback]; [loopback_ip6] answers for a text with a colon. *)
Definition ip_loopback (loopback_ip6 : string → bool) (host : string) : bool :=
  if Contains host ":" then loopback_ip6 host
  else match ip4_first host with Some a => a =? 127 | None => false end.

(** * Query values *)

Definition upper_hex_digit (n : N) : ascii := upper_ascii (hex_digit n).
Definition percent (c : ascii) (s : string) : string :=
  String "%" (String (upper_hex_digit (N_of_ascii c / 16)) (String (upper_hex_digit (N_of_ascii c mod 16)) s)).

(** [url.QueryEscape]. *)
Definition unreserved (c : ascii) : bool := is_alnum c || elem_char c "-_.~".
Fixpoint QueryEscape (s : string) : string :=
  match s with
  | EmptyString => ""
  | String c s =>
      if unreserved c then String c (QueryEscape s)
      else if Ascii.eqb c " " then String "+" (QueryEscape s)
      else percent c (QueryEscape s)
  end.

(** [url.QueryUnescape]. *)
Fixpoint QueryUnescape (s : string) : option string :=
  match s with
  | EmptyString => Some ""
  | String "%" (String a (String b s)) =>
      h ← from_hex_char a; l ← from_hex_char b; rest ← QueryUnescape s;
      Some (String (ascii_of_N (h * 16 + l)) rest)
  | String "%" _ => None
  | String c s => String (if Ascii.eqb c "+" then " "%char else c) <$> QueryUnescape s
  end.

(** [url.Values] in the order of the text; each key of a text that is written has one value. *)
Abbreviation Values := (list (string * string)).

(** [Values.Encode]: sorted by key. *)
Definition Encode (q : gmap string string) : string :=
  Join (map (λ k, QueryEscape k +:+ "=" +:+ QueryEscape (default "" (q !! k))) (sort_Strings (map fst (map_to_list q)))) "&".

(** [url.ParseQuery] as [URL.Query] calls it: what does not parse is left out. *)
Definition parse_pair (kv : string) : Values :=
  if Contains kv ";" || String.eqb kv "" then []
  else
    let '(k, v) := match Cut kv "=" with Some (k, v) => (k, v) | None => (kv, "") end in
    match QueryUnescape k, QueryUnescape v with
    | Some k, Some v => [(k, v)]
    | _, _ => []
    end.
Definition maxQueryParams : Z := 10000.
Definition ParseQuery (query : string) : Values :=
  let pairs := Split query "&" in
  if maxQueryParams <? Z.of_nat (length pairs) then [] else pairs ≫= parse_pair.

(** ** Round trip *)

Lemma IndexByte_none c s : string_forall (λ a, negb (Ascii.eqb c a)) s = true → IndexByte s c = None.
Proof. apply IndexFunc_None. Qed.
Lemma Cut_none c s : string_forall (λ a, negb (Ascii.eqb c a)) s = true → Cut s c = None.
Proof. intros H. unfold Cut. by rewrite IndexByte_none. Qed.

(** What an escaped text is made of. *)
Definition escaped_char (c : ascii) : bool := unreserved c || Ascii.eqb c "+" || Ascii.eqb c "%".

Definition for_bytes (P : ascii → bool) : bool := forallb (λ n, P (ascii_of_N n)) (N.of_nat <$> seq 0 256).
Lemma for_bytes_spec P c : for_bytes P = true → P c = true.
Proof.
  unfold for_bytes. rewrite forallb_forall. intros H. rewrite <- (ascii_N_embedding c). apply H. apply in_map_iff. exists (N.to_nat (N_of_ascii c)).
  split; [apply N2Nat.id|]. apply in_seq. pose proof (N_of_ascii_lt c). lia.
Qed.

Lemma escape_bytes : for_bytes (λ c,
  string_forall escaped_char (if unreserved c then String c "" else if Ascii.eqb c " " then "+" else percent c "")) = true.
Proof. vm_compute. exact eq_refl. Qed.

Lemma QueryEscape_chars s : string_forall escaped_char (QueryEscape s) = true.
Proof.
  induction s as [|c s IH]; [done|]. cbn [QueryEscape]. pose proof (for_bytes_spec _ c escape_bytes) as H. cbn beta in H. revert H.
  destruct (unreserved c); [|destruct (Ascii.eqb c " ")]; cbn [string_forall percent]; rewrite !andb_true_iff, IH; tauto.
Qed.

(** One escaped byte at the head of a text. *)
Lemma QueryUnescape_plain c s : Ascii.eqb c "%" = false → Ascii.eqb c "+" = false → QueryUnescape (String c s) = String c <$> QueryUnescape s.
Proof. intros H1 H2. destruct c as [[] [] [] [] [] [] [] []]; first [discriminate | reflexivity]. Qed.

Definition percent_value (c : ascii) : option ascii :=
  h ← from_hex_char (upper_hex_digit (N_of_ascii c / 16)); l ← from_hex_char (upper_hex_digit (N_of_ascii c mod 16)); Some (ascii_of_N (h * 16 + l)).
Lemma percent_bytes : for_bytes (λ c, bool_decide (percent_value c = Some c)) = true.
Proof. vm_compute. exact eq_refl. Qed.

Lemma QueryUnescape_percent c s : QueryUnescape (percent c s) = String c <$> QueryUnescape s.
Proof.
  pose proof (for_bytes_spec _ c percent_bytes) as H. apply bool_decide_eq_true in H. unfold percent_value in H. cbn [percent QueryUnescape].
  destruct (from_hex_char (upper_hex_digit (N_of_ascii c / 16))); [|done]. destruct (from_hex_char (upper_hex_digit (N_of_ascii c mod 16))); [|done].
  cbn in H |- *. injection H as ->. by destruct (QueryUnescape s).
Qed.

Lemma unreserved_bytes : for_bytes (λ c, negb (unreserved c) || negb (Ascii.eqb c "%") && negb (Ascii.eqb c "+")) = true.
Proof. vm_compute. exact eq_refl. Qed.

Lemma QueryUnescape_escape s : QueryUnescape (QueryEscape s) = Some s.
Proof.
  induction s as [|c s IH]; [done|]. cbn [QueryEscape]. destruct (unreserved c) eqn:Hu.
  - pose proof (for_bytes_spec _ c unreserved_bytes) as H. cbn beta in H. rewrite Hu in H. cbn in H. apply andb_true_iff in H as [H1%negb_true_iff H2%negb_true_iff].
    by rewrite QueryUnescape_plain, IH.
  - destruct (Ascii.eqb_spec c " ") as [->|_]; [cbn; by rewrite IH|]. by rewrite QueryUnescape_percent, IH.
Qed.

(** The pairs of a text that [Encode] writes. *)
Definition pair_text (kv : string * string) : string := QueryEscape kv.1 +:+ "=" +:+ QueryEscape kv.2.

Lemma Contains_no_char s c : string_forall (λ a, negb (Ascii.eqb a c)) s = true → Contains s (String c "") = false.
Proof.
  unfold Contains. intros H. assert (Index s (String c "") = None) as ->; [|done]. induction s as [|a s IH]; [done|].
  cbn in H. apply andb_true_iff in H as [Ha%negb_true_iff Hs]. cbn [Index]. unfold HasPrefix. rewrite prefix_cons.
  destruct (ascii_dec c a) as [->|_]; [by rewrite Ascii.eqb_refl in Ha|]. by rewrite IH.
Qed.

Lemma escaped_no_sep c : escaped_char c = false → ∀ s, string_forall (λ a, negb (Ascii.eqb a c)) (QueryEscape s) = true.
Proof.
  intros Hc s. eapply string_forall_impl; [|apply QueryEscape_chars]. intros a Ha. cbn beta in *. apply negb_true_iff. apply Ascii.eqb_neq.
  intros ->. congruence.
Qed.

Lemma pair_text_no_sep c kv : escaped_char c = false → Ascii.eqb "=" c = false → string_forall (λ a, negb (Ascii.eqb a c)) (pair_text kv) = true.
Proof. intros Hc He. unfold pair_text. rewrite !string_forall_append, !escaped_no_sep by done. cbn [string_forall andb]. by rewrite He. Qed.

Lemma parse_pair_text kv : parse_pair (pair_text kv) = [kv].
Proof.
  unfold parse_pair. rewrite (Contains_no_char _ ";") by by apply pair_text_no_sep. unfold pair_text at 1.
  destruct (String.eqb_spec (QueryEscape kv.1 +:+ "=" +:+ QueryEscape kv.2) "") as [E|_]; [by destruct (QueryEscape kv.1)|]. cbn [orb]. unfold pair_text.
  change ("=" +:+ QueryEscape kv.2) with (String "=" (QueryEscape kv.2)). rewrite Cut_append.
  - rewrite !QueryUnescape_escape. by destruct kv.
  - eapply string_forall_impl; [|exact (escaped_no_sep "=" eq_refl kv.1)]. intros a. by rewrite Ascii.eqb_sym.
Qed.

Lemma Split_sep s c t : string_forall (λ a, negb (Ascii.eqb a c)) s = true → Split (s +:+ String c t) c = s :: Split t c.
Proof.
  induction s as [|a s IH]; cbn; [by rewrite Ascii.eqb_refl|]. intros [Ha%negb_true_iff Hs]%andb_true_iff. by rewrite Ha, IH.
Qed.
Lemma Split_none s c : string_forall (λ a, negb (Ascii.eqb a c)) s = true → Split s c = [s].
Proof. induction s as [|a s IH]; cbn; [done|]. intros [Ha%negb_true_iff Hs]%andb_true_iff. by rewrite Ha, IH. Qed.

Lemma Split_Join l c : l ≠ [] → Forall (λ s, string_forall (λ a, negb (Ascii.eqb a c)) s = true) l → Split (Join l (String c "")) c = l.
Proof.
  intros Hl H. induction H as [|s l Hs Hl' IH]; [done|]. destruct l as [|t l]; [by apply Split_none|]. rewrite Join_cons by done.
  change (s +:+ String c "" +:+ ?x) with (s +:+ String c x). rewrite Split_sep by done. by rewrite IH.
Qed.

Lemma ParseQuery_pairs l : l ≠ [] → Z.of_nat (length l) ≤ maxQueryParams → ParseQuery (Join (map pair_text l) "&") = l.
Proof.
  intros Hl Hn. unfold ParseQuery. rewrite Split_Join.
  - rewrite length_map. destruct (Z.ltb_spec maxQueryParams (Z.of_nat (length l))); [lia|]. clear. induction l as [|kv l IH]; [done|].
    cbn [map]. rewrite bind_cons, parse_pair_text, IH. done.
  - by destruct l.
  - apply Forall_map. apply Forall_true. intros kv. by apply pair_text_no_sep.
Qed.

(** What [Encode] writes is read back as the sorted pairs. *)
Lemma ParseQuery_Encode q : q ≠ ∅ → Z.of_nat (size q) ≤ maxQueryParams →
  ParseQuery (Encode q) = map (λ k, (k, default "" (q !! k))) (sort_Strings (map fst (map_to_list q))).
Proof.
  intros Hq Hn. unfold Encode. rewrite <- (ParseQuery_pairs (map _ _)); [by rewrite map_map|..].
  - destruct (map_to_list q) as [|kv l] eqn:E; [by apply map_to_list_empty_iff in E|]. intros Hm%map_eq_nil. 
    assert (kv.1 ∈ sort_Strings (map fst (kv :: l))) as Hin by (apply elem_of_sort_Strings; cbn; by left). rewrite Hm in Hin. by apply elem_of_nil in Hin.
  - rewrite length_map. unfold sort_Strings. rewrite merge_sort_Permutation, length_map. by rewrite length_map_to_list.
Qed.

(** ** Urls with a query *)

Lemma scheme_go_query q : ∀ a first, string_forall (λ c, negb (Ascii.eqb c "?")) a = true →
  scheme_go first (a +:+ "?" +:+ q) =
    match scheme_go first a with
    | Some (Some (x, y)) => Some (Some (x, y +:+ "?" +:+ q))
    | r => r
    end.
Proof.
  induction a as [|c a IH]; intros first Ha; [by destruct first|]. cbn in Ha. apply andb_true_iff in Ha as [_ Ha].
  cbn [String.append scheme_go]. set (l := _ || _). destruct l.
  - change (a +:+ String "?" q) with (a +:+ "?" +:+ q). rewrite IH by done. by destruct (scheme_go false a) as [[[x y]|]|].
  - destruct (Ascii.eqb c ":"), first; done.
Qed.

Lemma scheme_go_rest p : ∀ a first x y, scheme_go first a = Some (Some (x, y)) → string_forall p a = true → string_forall p y = true.
Proof.
  induction a as [|c a IH]; intros first x y; [done|]. cbn [scheme_go string_forall]. set (l := _ || _). destruct l.
  - destruct (scheme_go false a) as [[[x' y']|]|] eqn:E; cbn; intros [= <- <-] [_ Ha]%andb_true_iff. by eapply IH.
  - destruct (Ascii.eqb c ":"); [|done]. destruct first; [done|]. by intros [= <- <-] [_ Ha]%andb_true_iff.
Qed.

Lemma before_append c a b : string_forall (λ x, negb (Ascii.eqb c x)) a = true → before (a +:+ String c b) c = a.
Proof. intros H. unfold before. by rewrite Cut_append. Qed.
Lemma before_none c a : string_forall (λ x, negb (Ascii.eqb c x)) a = true → before a c = a.
Proof. intros H. unfold before, Cut. rewrite IndexByte_none by done. done. Qed.

Lemma no_char_sym c s : string_forall (λ a, negb (Ascii.eqb a c)) s = string_forall (λ a, negb (Ascii.eqb c a)) s.
Proof. induction s as [|a s IH]; [done|]. cbn. by rewrite IH, Ascii.eqb_sym. Qed.

(** The query does not matter to the fields that are read. *)
Lemma Parse_query parse_bracketed a q :
  string_forall (λ c, negb (Ascii.eqb c "?") && negb (Ascii.eqb c "#")) a = true → a ≠ "*" →
  string_forall (λ c, negb (is_ctl c) && negb (Ascii.eqb c "#")) q = true →
  Parse parse_bracketed (a +:+ "?" +:+ q) = Parse parse_bracketed a.
Proof.
  intros Ha Hstar Hq.
  assert (string_forall (λ c, negb (Ascii.eqb c "?")) a = true) as Ha1 by (eapply string_forall_impl; [|exact Ha]; cbn; by intros c [? _]%andb_true_iff).
  assert (string_forall (λ c, negb (Ascii.eqb "#" c)) a = true) as Ha2.
  { rewrite <- no_char_sym. eapply string_forall_impl; [|exact Ha]. cbn. by intros c [_ ?]%andb_true_iff. }
  assert (string_forall (λ c, negb (Ascii.eqb "#" c)) q = true) as Hq2.
  { rewrite <- no_char_sym. eapply string_forall_impl; [|exact Hq]. cbn. by intros c [_ ?]%andb_true_iff. }
  assert (string_forall (λ c, negb (is_ctl c)) q = true) as Hq1 by (eapply string_forall_impl; [|exact Hq]; cbn; by intros c [? _]%andb_true_iff).
  unfold Parse, Cut. rewrite !IndexByte_none by (rewrite ?string_forall_append, ?Ha2, ?Hq2; done). cbn [mbind option_bind].
  rewrite !string_forall_append, Hq1. cbn [string_forall]. change (negb (is_ctl "?")) with true. rewrite !andb_true_r.
  destruct (string_forall (λ c, negb (is_ctl c)) a); [|done].
  destruct (String.eqb_spec (a +:+ "?" +:+ q) "*") as [E|_].
  { destruct a as [|c a]; [done|]. injection E as -> E. by destruct a. }
  destruct (String.eqb_spec a "*") as [|_]; [done|]. unfold getScheme. rewrite scheme_go_query by done. pose proof (λ p x y, scheme_go_rest p a true x y) as Hrest.
  rewrite no_char_sym in Ha1.
  destruct (scheme_go true a) as [[[x y]|]|]; cbn [fmap option_fmap option_map from_option id mbind option_bind]; [| |done].
  - change (y +:+ "?" +:+ q) with (y +:+ String "?" q). rewrite before_append by by eapply Hrest. by rewrite (before_none "?" y) by by eapply Hrest.
  - change (a +:+ "?" +:+ q) with (a +:+ String "?" q). rewrite before_append by done. by rewrite (before_none "?" a) by done.
Qed.
