(* ===== verification/GitUrl.v ===== *)
(** [internal/git/url.go]: which repository urls are accepted and their normal form.  IP
    literals in brackets and the lower case of letters outside ASCII are parameters. *)
From S2P Require Import Prelude GoStrings GoHttp GoUrl Model.
#[local] Open Scope Z_scope.

Section url.
(** [netip.ParseAddr] behind the brackets of a host, and [strings.ToLower] outside ASCII. *)
Context (parse_bracketed : string → option string) (unicode_lower : string → string).

Definition lower (s : string) : string :=
  if string_forall (λ c, (N_of_ascii c <? 128)%N) s then ToLower s else unicode_lower s.

(** * url.go *)

Definition maxURLLen : Z := 2048.
Definition isControl (r : ascii) : bool := (N_of_ascii r <=? 32)%N || Ascii.eqb r "127".

Definition isSCPLike (raw : string) : bool :=
  if Contains raw "://" then false
  else
    let at_ := index_int (IndexByte raw "@") in
    let colon := index_int (IndexByte raw ":") in
    (0 <? at_) && (at_ + 1 <? colon).

(** Every refusal is [ErrBadURL]. *)
Definition normalizeURLScheme (raw scheme defaultPort : string) : option string :=
  u ← Parse parse_bracketed raw;
  if negb (String.eqb (u_Scheme u) scheme) then None
  else
    let host := Hostname u in
    if String.eqb host "" || HasPrefix host "-" then None
    else
      let port := if String.eqb (Port u) defaultPort then "" else Port u in
      userinfo ← match u_User u with
                 | None => Some ""
                 | Some name => if HasPrefix name "-" then None else Some (name +:+ "@")
                 end;
      let authority := lower host +:+ (if negb (String.eqb port "") then ":" +:+ port else "") in
      let path := TrimRight (u_Path u) "/" in
      Some (scheme +:+ "://" +:+ userinfo +:+ authority +:+ path).

Definition normalizeHTTPS (raw : string) : option string := normalizeURLScheme raw "https" "443".
Definition normalizeSSHScheme (raw : string) : option string := normalizeURLScheme raw "ssh" "22".

Definition normalizeSCP (raw : string) : option string :=
  at_ ← IndexByte raw "@";
  let user := stake at_ raw in
  if String.eqb user "" || HasPrefix user "-" then None
  else
    let rest := sdrop (at_ + 1) raw in
    match IndexByte rest ":" with
    | None => None
    | Some colon =>
        if (Z.of_nat colon <=? 0) then None
        else
          let host := stake colon rest in
          let path := sdrop (colon + 1) rest in
          if String.eqb host "" || HasPrefix host "-" then None
          else if HasPrefix path "-" then None
          else
            let path := TrimRight path "/" in
            let path := if negb (String.eqb path "") && negb (HasPrefix path "/") then "/" +:+ path else path in
            Some ("ssh://" +:+ user +:+ "@" +:+ lower host +:+ path)
    end.

(** The verbatim url, its normal form and the transport. *)
Definition ValidateURL (raw : string) : option (string * string * Transport) :=
  if String.eqb raw "" then None
  else if maxURLLen <? len raw then None
  else if match IndexFunc isControl raw with Some _ => true | None => false end then None
  else if HasPrefix raw "-" then None
  else if Contains raw "::" then None
  else if HasPrefix raw "https://" then
    norm ← normalizeHTTPS raw; Some (raw, norm, TransportHTTPS)
  else if HasPrefix raw "ssh://" then
    norm ← normalizeSSHScheme raw; Some (raw, norm, TransportSSH)
  else if isSCPLike raw then
    norm ← normalizeSCP raw; Some (raw, norm, TransportSSH)
  else None.

Definition NormalizeURL (rawURL : string) : res string :=
  match ValidateURL rawURL with
  | Some (_, norm, _) => Ok norm
  | None => Err ErrBadURL
  end.
End url.
