(* ===== verification/GitUrlProps.v ===== *)
(** Properties of url validation: what an accepted url can smuggle to git, the normal form of
    plain urls, and urls that share one. *)
From S2P Require Import Prelude GoStrings GoHttp GoUrl Model GitUrl.
#[local] Open Scope Z_scope.

(** * Plain texts *)

Definition plain_char (c : ascii) : bool := is_alnum c || elem_char c "-._~".
Definition path_char (c : ascii) : bool := plain_char c || Ascii.eqb c "/".

(** A user or host: plain, not empty, no option. *)
Definition plain_name (s : string) : Prop := s ≠ "" ∧ HasPrefix s "-" = false ∧ string_forall plain_char s = true.
(** A path from the root. *)
Definition plain_path (s : string) : Prop := (s = "" ∨ HasPrefix s "/" = true) ∧ string_forall path_char s = true.

(** * Lemmas *)

Definition path_char_ok (c : ascii) : bool :=
  negb (path_char c) ||
  negb (elem_char c ":#?%@[") && negb (isControl c) && (N_of_ascii c <? 128)%N && (negb (plain_char c) || host_char c && negb (Ascii.eqb c "/")).
Lemma path_char_facts c : path_char_ok c = true.
Proof. apply all_chars. vm_compute. reflexivity. Qed.

Lemma path_char_spec c : path_char c = true →
  elem_char c ":#?%@[" = false ∧ isControl c = false ∧ (N_of_ascii c <? 128)%N = true ∧
  (plain_char c = true → host_char c = true ∧ Ascii.eqb c "/" = false).
Proof.
  intros Hp. pose proof (path_char_facts c) as H. unfold path_char_ok in H. rewrite Hp in H. cbn [negb orb] in H.
  rewrite !andb_true_iff, !negb_true_iff in H. destruct H as [[[? ?] ?] H]. split_and!; try done. intros Hq. rewrite Hq in H. cbn in H.
  by apply andb_true_iff in H as [? ?%negb_true_iff].
Qed.

Lemma plain_path_char s : string_forall plain_char s = true → string_forall path_char s = true.
Proof. apply string_forall_impl. intros c Hc. unfold path_char. by rewrite Hc. Qed.

(** The bytes that mean something in a url do not occur. *)
Lemma path_no c s : elem_char c ":#?%@[" = true → string_forall path_char s = true → string_forall (λ a, negb (Ascii.eqb c a)) s = true.
Proof.
  intros Hc. apply string_forall_impl. intros a Ha. apply negb_true_iff. destruct (Ascii.eqb_spec c a) as [->|]; [|done].
  apply path_char_spec in Ha as [Ha _]. congruence.
Qed.

Lemma plain_no_slash s : string_forall plain_char s = true → string_forall (λ a, negb (Ascii.eqb "/" a)) s = true.
Proof.
  apply string_forall_impl. intros a Ha. apply negb_true_iff. destruct (Ascii.eqb_spec "/" a) as [<-|]; [by vm_compute in Ha|done].
Qed.



Lemma unescape_char c s : c ≠ "%"%char → unescape (String c s) = String c <$> unescape s.
Proof. intros Hc. destruct c as [[] [] [] [] [] [] [] []]; done. Qed.

Lemma unescape_id s : string_forall (λ a, negb (Ascii.eqb "%" a)) s = true → unescape s = Some s.
Proof.
  induction s as [|c s IH]; [done|]. cbn [string_forall]. intros [Hc Hs]%andb_true_iff. rewrite unescape_char, IH; [done|done|].
  intros ->. by rewrite Ascii.eqb_refl in Hc.
Qed.

Lemma unescape_host_char c s : c ≠ "%"%char → host_char c = true → unescape_host (String c s) = String c <$> unescape_host s.
Proof. intros Hc Hh. destruct c as [[] [] [] [] [] [] [] []]; vm_compute in Hh; done. Qed.

Lemma unescape_host_id s : string_forall plain_char s = true → unescape_host s = Some s.
Proof.
  induction s as [|c s IH]; [done|]. cbn [string_forall]. intros [Hc Hs]%andb_true_iff.
  assert (path_char c = true) as Hp by (unfold path_char; by rewrite Hc). apply path_char_spec in Hp as (Hno & _ & _ & Hh).
  rewrite unescape_host_char, IH; [done|done| |by apply Hh]. intros ->. by vm_compute in Hno.
Qed.

Lemma last_cut_none c s : string_forall (λ a, negb (Ascii.eqb c a)) s = true → last_cut s c = None.
Proof.
  induction s as [|a s IH]; [done|]. cbn. intros [Ha%negb_true_iff Hs]%andb_true_iff. rewrite IH by done.
  by rewrite Ascii.eqb_sym, Ha.
Qed.

Lemma last_cut_append c a b : string_forall (λ x, negb (Ascii.eqb c x)) b = true → last_cut (a +:+ String c b) c = Some (a, b).
Proof.
  intros Hb. induction a as [|x a IH]; cbn.
  - rewrite last_cut_none by done. by rewrite Ascii.eqb_refl.
  - by rewrite IH.
Qed.

Fixpoint count (c : ascii) (s : string) : nat :=
  match s with
  | EmptyString => 0
  | String a s => (if Ascii.eqb c a then 1 else 0) + count c s
  end.
Lemma count_append c a b : count c (a +:+ b) = (count c a + count c b)%nat.
Proof. induction a as [|x a IH]; cbn; [done|]. rewrite IH. lia. Qed.
Lemma count_none c s : string_forall (λ a, negb (Ascii.eqb c a)) s = true → count c s = 0%nat.
Proof. induction s as [|a s IH]; cbn; [done|]. intros [Ha%negb_true_iff Hs]%andb_true_iff. by rewrite Ha, IH. Qed.

(** One colon is no double colon. *)
Lemma no_double_colon s : (count ":" s ≤ 1)%nat → Contains s "::" = false.
Proof.
  intros Hc. destruct (Contains s "::") eqn:E; [|done]. apply Contains_spec in E as (pre & post & ->).
  rewrite !count_append in Hc. cbn in Hc. lia.
Qed.

Section props.
Context (parse_bracketed : string → option string) (unicode_lower : string → string).

Abbreviation validate_url := (ValidateURL parse_bracketed unicode_lower).
Abbreviation normalize_url := (NormalizeURL parse_bracketed unicode_lower).
Abbreviation lower_host := (lower unicode_lower).

(** A normal form with its parts. *)
Definition safe_form (scheme norm : string) : Prop :=
  ∃ userinfo host rest, norm = scheme +:+ "://" +:+ userinfo +:+ lower_host host +:+ rest ∧ host ≠ "" ∧ HasPrefix host "-" = false ∧
    (userinfo = "" ∨ ∃ name, userinfo = name +:+ "@" ∧ HasPrefix name "-" = false).

Lemma scheme_safe raw scheme port norm :
  normalizeURLScheme parse_bracketed unicode_lower raw scheme port = Some norm → safe_form scheme norm.
Proof.
  unfold normalizeURLScheme. intros (u & _ & H)%bind_Some. destruct (String.eqb (u_Scheme u) scheme); [|done]. cbn [negb] in H.
  destruct (String.eqb_spec (Hostname u) "") as [|Hne]; [done|]. cbn [orb] in H. destruct (HasPrefix (Hostname u) "-") eqn:Hh; [done|].
  apply bind_Some in H as (userinfo & Hu & [= <-]). eexists userinfo, (Hostname u), _. split; [by rewrite <- append_assoc|].
  split_and!; [done|done|]. destruct (u_User u) as [name|]; [|injection Hu as <-; by left].
  destruct (HasPrefix name "-") eqn:Hn; [done|]. injection Hu as <-. right. by exists name.
Qed.

Lemma scp_safe raw norm : normalizeSCP unicode_lower raw = Some norm → safe_form "ssh" norm.
Proof.
  unfold normalizeSCP. intros (i & _ & H)%bind_Some. destruct (String.eqb (stake i raw) ""); [done|]. cbn [orb] in H.
  destruct (HasPrefix (stake i raw) "-") eqn:Hu; [done|]. destruct (IndexByte _ ":") as [colon|]; [|done]. destruct (_ <=? 0); [done|].
  destruct (String.eqb_spec (stake colon (sdrop (i + 1) raw)) "") as [|Hne]; [done|]. cbn [orb] in H.
  destruct (HasPrefix (stake colon (sdrop (i + 1) raw)) "-") eqn:Hh; [done|]. destruct (HasPrefix (sdrop _ _) "-"); [done|].
  injection H as <-. eexists (stake i raw +:+ "@"), _, _. split; [|split; [exact Hne|split; [exact Hh|right; by eexists]]].
  by rewrite <- !append_assoc.
Qed.

(** ** Plain urls *)

Definition userinfo_of (user : option string) : string := match user with Some name => name +:+ "@" | None => "" end.
Definition plain_user (user : option string) : Prop := match user with Some name => plain_name name | None => True end.

Lemma parseHost_plain host : plain_name host → parseHost parse_bracketed host = Some host.
Proof.
  intros (_ & _ & Hh). pose proof (plain_path_char _ Hh) as Hp. unfold parseHost. destruct (Contains host "[") eqn:E.
  { apply Contains_spec in E as (pre & post & ->). rewrite !string_forall_append in Hp. cbn in Hp.
    rewrite !andb_true_iff in Hp. naive_solver. }
  rewrite IndexByte_none by by apply path_no. cbn. by apply unescape_host_id.
Qed.

Lemma userinfo_plain name : string_forall plain_char name = true → validUserinfo name = true.
Proof.
  apply string_forall_impl. intros c Hc. unfold plain_char in Hc. apply orb_true_iff in Hc as [->|Hc]; [done|].
  assert (negb (elem_char c "-._~") || elem_char c "-._:~!$&'()*+,;=%@" = true) as H.
  { apply (all_chars (λ c, negb (elem_char c "-._~") || elem_char c "-._:~!$&'()*+,;=%@")). vm_compute. reflexivity. }
  rewrite Hc in H. cbn [negb orb] in H. by rewrite H, orb_true_r.
Qed.

Lemma parseAuthority_plain user host :
  plain_user user → plain_name host → parseAuthority parse_bracketed (userinfo_of user +:+ host) = Some (user, host).
Proof.
  intros Hu Hh. pose proof Hh as (_ & _ & Hp%plain_path_char). unfold parseAuthority. destruct user as [name|]; cbn [userinfo_of].
  - destruct Hu as (_ & _ & Hn). pose proof (plain_path_char _ Hn) as Hnp.
    replace ((name +:+ "@") +:+ host) with (name +:+ String "@" host) by by rewrite <- append_assoc.
    rewrite last_cut_append by by apply path_no. rewrite parseHost_plain by done. cbn [mbind option_bind].
    rewrite userinfo_plain by done. cbn [negb]. rewrite Cut_none by by apply path_no. by rewrite unescape_id by by apply path_no.
  - cbn [String.append]. rewrite last_cut_none by by apply path_no. by rewrite parseHost_plain.
Qed.

(** The bytes of a plain url behind its scheme. *)
Lemma plain_tail user host path c :
  plain_user user → plain_name host → plain_path path → elem_char c ":#?%[" = true →
  string_forall (λ a, negb (Ascii.eqb c a)) (userinfo_of user +:+ host +:+ path) = true.
Proof.
  intros Hu (_ & _ & Hh%plain_path_char) (_ & Hp) Hc.
  assert (elem_char c ":#?%@[" = true) as Hc'.
  { assert (negb (elem_char c ":#?%[") || elem_char c ":#?%@[" = true) as H.
    { apply (all_chars (λ c, negb (elem_char c ":#?%[") || elem_char c ":#?%@[")). vm_compute. reflexivity. }
    by rewrite Hc in H. }
  rewrite !string_forall_append, (path_no c host), (path_no c path) by done. rewrite !andb_true_r. destruct user as [name|]; [|done].
  destruct Hu as (_ & _ & Hn%plain_path_char). cbn [userinfo_of]. rewrite string_forall_append, (path_no c) by done. cbn.
  destruct (Ascii.eqb_spec c "@") as [->|]; [by vm_compute in Hc|done].
Qed.

Lemma path_no_control s : string_forall path_char s = true → string_forall (λ c, negb (isControl c)) s = true.
Proof. apply string_forall_impl. intros c (_ & Hc & _)%path_char_spec. by rewrite Hc. Qed.

Lemma tail_checks user host path :
  plain_user user → plain_name host → plain_path path →
  string_forall (λ c, negb (isControl c)) (userinfo_of user +:+ host +:+ path) = true ∧ count ":" (userinfo_of user +:+ host +:+ path) = 0%nat.
Proof.
  intros Hu Hh Hp. split; [|apply count_none; by apply plain_tail]. destruct Hh as (_ & _ & Hh%plain_path_char). destruct Hp as (_ & Hp).
  rewrite !string_forall_append, (path_no_control host), (path_no_control path) by done. rewrite !andb_true_r.
  destruct user as [name|]; [|done]. destruct Hu as (_ & _ & Hn%plain_path_char). cbn [userinfo_of].
  by rewrite string_forall_append, (path_no_control name).
Qed.

(** The schemes the program takes. *)
Definition plain_scheme (scheme : string) : Prop := scheme = "https" ∨ scheme = "ssh".

Lemma plain_scheme_facts scheme : plain_scheme scheme →
  (∀ t, getScheme (scheme +:+ "://" +:+ t) = Some (scheme, "//" +:+ t)) ∧ ToLower scheme = scheme ∧ scheme ≠ "" ∧
  string_forall path_char scheme = true ∧ (∀ t, String.eqb (scheme +:+ "://" +:+ t) "*" = false).
Proof. by intros [-> | ->]. Qed.

Lemma is_ctl_control c : isControl c = false → is_ctl c = false.
Proof.
  unfold isControl, is_ctl. rewrite !orb_false_iff, N.leb_gt, N.ltb_ge. intros [? ->]. split; [lia|done].
Qed.

(** [Parse] of a plain url. *)
Lemma Parse_plain scheme user host path :
  plain_user user → plain_name host → plain_path path → plain_scheme scheme →
  Parse parse_bracketed (scheme +:+ "://" +:+ userinfo_of user +:+ host +:+ path) = Some (mkURL scheme user host path).
Proof.
  intros Hu Hh Hp Hs. pose proof (plain_tail user host path) as Htail. destruct (tail_checks user host path Hu Hh Hp) as [Hctl _].
  set (tail := userinfo_of user +:+ host +:+ path) in *.
  destruct (plain_scheme_facts scheme Hs) as (Hget & Hlow & Hne & Hsp & Hstar). unfold Parse.
  rewrite (Cut_none "#") by (rewrite !string_forall_append, (path_no "#" scheme), (Htail "#"%char) by done; done).
  assert (string_forall (λ c, negb (is_ctl c)) (scheme +:+ "://" +:+ tail) = true) as ->.
  { assert (∀ s, string_forall (λ c, negb (isControl c)) s = true → string_forall (λ c, negb (is_ctl c)) s = true) as Hweak.
    { intros s. apply string_forall_impl. intros c. rewrite !negb_true_iff. apply is_ctl_control. }
    rewrite !string_forall_append, (Hweak tail Hctl), (Hweak scheme) by by apply path_no_control. done. }
  rewrite Hstar, Hget. cbn [mbind option_bind]. rewrite Hlow. destruct (String.eqb_spec scheme ""); [done|]. cbn [negb].
  assert (before ("//" +:+ tail) "?" = "//" +:+ tail) as ->.
  { unfold before. rewrite (Cut_none "?"); [done|]. rewrite string_forall_append, (Htail "?"%char) by done; done. }
  rewrite (HasPrefix_append "//" tail), (HasPrefix_append "/" ("/" +:+ tail) : HasPrefix ("//" +:+ tail) "/" = true). cbn [negb andb orb].
  change (sdrop 2 ("//" +:+ tail)) with tail.
  assert (match IndexByte tail "/" with Some i => (stake i tail, sdrop i tail) | None => (tail, "") end = (userinfo_of user +:+ host, path)) as ->.
  { assert (string_forall (λ a, negb (Ascii.eqb "/" a)) (userinfo_of user +:+ host) = true) as Hno.
    { rewrite string_forall_append. destruct Hh as (_ & _ & Hh). rewrite (plain_no_slash host) by done. rewrite andb_true_r.
      destruct user as [name|]; [|done]. destruct Hu as (_ & _ & Hn). cbn [userinfo_of]. rewrite string_forall_append, (plain_no_slash name) by done; done. }
    unfold tail. rewrite append_assoc. destruct Hp as [[->|[t ->]%HasPrefix_spec] _].
    - rewrite append_nil_r, IndexByte_none by done. done.
    - cbn [String.append]. unfold IndexByte. rewrite (IndexFunc_append (Ascii.eqb "/") _ "/" t Hno) by done.
      change (String "/" ("" +:+ t)) with (String "/" t). by rewrite stake_append, sdrop_append. }
  rewrite parseAuthority_plain by done. cbn [mbind option_bind].
  rewrite (unescape_id path) by (apply path_no; [done|apply Hp]). done.
Qed.

Lemma host_plain_facts host : plain_name host → splitHostPort host = (host, "") ∧ lower_host host = ToLower host.
Proof.
  intros (_ & _ & Hh). pose proof (plain_path_char _ Hh) as Hp. unfold splitHostPort, lower. rewrite last_cut_none by by apply path_no.
  rewrite (string_forall_impl path_char) by (done || by intros c (_ & _ & ? & _)%path_char_spec).
  destruct (HasPrefix host "[") eqn:E; [|done]. apply HasPrefix_spec in E as [t ->]. cbn in Hp. done.
Qed.

Lemma normalize_plain scheme port user host path :
  plain_user user → plain_name host → plain_path path → plain_scheme scheme → port ≠ "" →
  normalizeURLScheme parse_bracketed unicode_lower (scheme +:+ "://" +:+ userinfo_of user +:+ host +:+ path) scheme port =
    Some (scheme +:+ "://" +:+ userinfo_of user +:+ ToLower host +:+ TrimRight path "/").
Proof.
  intros Hu Hh Hp Hs Hport. unfold normalizeURLScheme. rewrite Parse_plain by done. cbn [mbind option_bind u_Scheme u_User u_Host u_Path].
  rewrite String.eqb_refl. cbn [negb]. unfold Hostname, Port. cbn [u_Host]. destruct (host_plain_facts host Hh) as [E1 E2]. rewrite E1. cbn [fst snd]. rewrite E2.
  destruct Hh as (Hne & Hopt & _). rewrite Hopt. destruct (String.eqb_spec host ""); [done|]. cbn [orb].
  destruct (String.eqb_spec "" port); [by subst|]. change (negb (String.eqb "" "")) with false. cbn match. rewrite append_nil_r.
  destruct user as [name|]; [|done]. destruct Hu as (_ & -> & _). done.
Qed.

(** * Properties *)


(** A plain url without control characters or a double colon, of any scheme. *)
(** What is left of the validation once the generic checks pass. *)
Lemma validate_gates raw :
  raw ≠ "" → len raw ≤ maxURLLen → string_forall (λ c, negb (isControl c)) raw = true → HasPrefix raw "-" = false → (count ":" raw ≤ 1)%nat →
  validate_url raw =
    if HasPrefix raw "https://" then
      norm ← normalizeHTTPS parse_bracketed unicode_lower raw; Some (raw, norm, TransportHTTPS)
    else if HasPrefix raw "ssh://" then
      norm ← normalizeSSHScheme parse_bracketed unicode_lower raw; Some (raw, norm, TransportSSH)
    else if isSCPLike raw then
      norm ← normalizeSCP unicode_lower raw; Some (raw, norm, TransportSSH)
    else None.
Proof.
  intros Hne Hlen Hctl Hopt Hcol. unfold ValidateURL. destruct (String.eqb_spec raw ""); [done|].
  destruct (Z.ltb_spec maxURLLen (len raw)); [lia|]. apply IndexFunc_None in Hctl as ->. by rewrite Hopt, no_double_colon.
Qed.

Lemma count_append_lit c p s : count c s = 0%nat → count c (p +:+ s) = count c p.
Proof. intros H. rewrite count_append, H. lia. Qed.

Lemma validate_plain_https host path :
  plain_name host → plain_path path → len ("https://" +:+ host +:+ path) ≤ maxURLLen →
  validate_url ("https://" +:+ host +:+ path) =
    Some ("https://" +:+ host +:+ path, "https://" +:+ ToLower host +:+ TrimRight path "/", TransportHTTPS).
Proof.
  intros Hh Hp Hlen. destruct (tail_checks None host path I Hh Hp) as [Hctl Hcol].
  pose proof (normalize_plain "https" "443" None host path I Hh Hp (or_introl eq_refl) ltac:(done)) as Hn.
  change (userinfo_of None +:+ host +:+ path) with (host +:+ path) in *. rewrite validate_gates; [|done|done| |done|].
  - rewrite HasPrefix_append. unfold normalizeHTTPS.
    change ("https" +:+ "://" +:+ host +:+ path) with ("https://" +:+ host +:+ path) in Hn. rewrite Hn. done.
  - rewrite string_forall_append, Hctl. done.
  - rewrite (count_append_lit ":" "https://") by done. done.
Qed.

Lemma validate_plain_ssh user host path :
  plain_name user → plain_name host → plain_path path → len ("ssh://" +:+ user +:+ "@" +:+ host +:+ path) ≤ maxURLLen →
  validate_url ("ssh://" +:+ user +:+ "@" +:+ host +:+ path) =
    Some ("ssh://" +:+ user +:+ "@" +:+ host +:+ path, "ssh://" +:+ user +:+ "@" +:+ ToLower host +:+ TrimRight path "/", TransportSSH).
Proof.
  intros Hu Hh Hp Hlen. destruct (tail_checks (Some user) host path Hu Hh Hp) as [Hctl Hcol].
  pose proof (normalize_plain "ssh" "22" (Some user) host path Hu Hh Hp (or_intror eq_refl) ltac:(done)) as Hn. cbn [userinfo_of] in *.
  rewrite <- (append_assoc user "@" (host +:+ path)) in *. rewrite <- (append_assoc user "@" (ToLower host +:+ _)) in Hn.
  rewrite validate_gates; [|done|done| |done|].
  - change (HasPrefix ("ssh://" +:+ user +:+ "@" +:+ host +:+ path) "https://") with false. rewrite HasPrefix_append. unfold normalizeSSHScheme.
    change ("ssh" +:+ "://" +:+ user +:+ "@" +:+ host +:+ path) with ("ssh://" +:+ user +:+ "@" +:+ host +:+ path) in Hn. rewrite Hn. done.
  - rewrite string_forall_append, Hctl. done.
  - rewrite (count_append_lit ":" "ssh://") by done. done.
Qed.

(** ** Normal forms are normal *)

Lemma lower_char_ok c : negb (plain_char c) || (plain_char (lower_ascii c) && Ascii.eqb (lower_ascii (lower_ascii c)) (lower_ascii c)
  && (Ascii.eqb c "-" || negb (Ascii.eqb (lower_ascii c) "-"))) = true.
Proof.
  apply (all_chars (λ c, negb (plain_char c) || (plain_char (lower_ascii c) && Ascii.eqb (lower_ascii (lower_ascii c)) (lower_ascii c)
    && (Ascii.eqb c "-" || negb (Ascii.eqb (lower_ascii c) "-"))))). vm_compute. reflexivity.
Qed.

Lemma lower_plain host : plain_name host → plain_name (ToLower host) ∧ ToLower (ToLower host) = ToLower host.
Proof.
  intros (Hne & Hopt & Hh). assert (string_forall plain_char (ToLower host) = true ∧ ToLower (ToLower host) = ToLower host) as [Hl Hi].
  { clear Hne Hopt. induction host as [|c host IH]; [done|]. cbn in Hh |- *. apply andb_true_iff in Hh as [Hc Hh]. destruct (IH Hh) as [-> ->].
    pose proof (lower_char_ok c) as H. rewrite Hc in H. cbn [negb orb] in H. rewrite !andb_true_iff in H. destruct H as [[-> ->%Ascii.eqb_eq] _]. done. }
  split; [|done]. split_and!; [by destruct host| |done]. destruct host as [|c host]; [done|]. cbn in Hh. apply andb_true_iff in Hh as [Hc _].
  pose proof (lower_char_ok c) as H. rewrite Hc in H. cbn [negb orb] in H. rewrite !andb_true_iff in H. destruct H as [_ H].
  destruct (HasPrefix (ToLower (String c host)) "-") eqn:E; [|done]. apply HasPrefix_spec in E as [t E]. cbn in E. injection E as E _.
  rewrite E in H. rewrite orb_false_r in H. apply Ascii.eqb_eq in H as ->. by rewrite (HasPrefix_append "-" host : HasPrefix (String "-" host) "-" = true) in Hopt.
Qed.

Lemma TrimRight_cons a s c :
  TrimRight (String a s) c = if Ascii.eqb c a && String.eqb (TrimRight s c) "" then "" else String a (TrimRight s c).
Proof. done. Qed.

Lemma TrimRight_idem s c : TrimRight (TrimRight s c) c = TrimRight s c.
Proof.
  induction s as [|a s IH]; [done|]. rewrite TrimRight_cons. destruct (_ && _) eqn:E; [done|]. by rewrite TrimRight_cons, IH, E.
Qed.

Lemma TrimRight_forall (q : ascii → bool) s c : string_forall q s = true → string_forall q (TrimRight s c) = true.
Proof.
  induction s as [|a s IH]; [done|]. rewrite TrimRight_cons. cbn [string_forall]. intros [Ha Hs]%andb_true_iff.
  destruct (_ && _); [done|]. cbn [string_forall]. by rewrite Ha, IH.
Qed.

Lemma TrimRight_prefix s c : ∃ t, s = TrimRight s c +:+ t.
Proof.
  induction s as [|a s [t IH]]; [by exists ""|]. rewrite TrimRight_cons. destruct (_ && _); [by exists (String a s)|].
  exists t. cbn. by rewrite <- IH.
Qed.

Lemma TrimRight_length s c : len (TrimRight s c) ≤ len s.
Proof. destruct (TrimRight_prefix s c) as [t E]. unfold len. apply (f_equal String.length) in E. rewrite append_length in E. lia. Qed.

Lemma TrimRight_slash p : TrimRight (String "/" p) "/" = if String.eqb (TrimRight p "/") "" then "" else String "/" (TrimRight p "/").
Proof. by rewrite TrimRight_cons. Qed.

Lemma trim_plain_path p : plain_path p → plain_path (TrimRight p "/") ∧ TrimRight (TrimRight p "/") "/" = TrimRight p "/".
Proof.
  intros [Hs Hp]. split; [|apply TrimRight_idem]. split; [|by apply TrimRight_forall]. destruct Hs as [->|[t ->]%HasPrefix_spec]; [by left|].
  cbn [String.append]. rewrite TrimRight_slash. destruct (String.eqb _ ""); [by left|right]. apply (HasPrefix_append "/").
Qed.

Lemma ToLower_length s : String.length (ToLower s) = String.length s.
Proof. induction s as [|c s IH]; [done|]. cbn. by rewrite IH. Qed.

(** ** The scp-like form *)

Lemma colon_split a x pre y :
  string_forall (λ c, negb (Ascii.eqb ":" c)) a = true → string_forall (λ c, negb (Ascii.eqb ":" c)) x = true →
  a +:+ String ":" x = pre +:+ String ":" y → pre = a ∧ y = x.
Proof.
  revert pre. induction a as [|c a IH]; intros [|c' pre]; cbn; intros Ha Hx E.
  - by injection E as ->.
  - injection E as <- E. rewrite E, string_forall_append in Hx. cbn in Hx. by rewrite andb_false_r in Hx.
  - injection E as -> _. by rewrite andb_false_l in Ha.
  - injection E as -> E. apply andb_true_iff in Ha as [_ Ha]. destruct (IH pre Ha Hx E) as [-> ->]. done.
Qed.

Lemma validate_scp user host p :
  plain_name user → plain_name host → string_forall path_char p = true → HasPrefix p "-" = false → HasPrefix p "/" = false →
  len (user +:+ "@" +:+ host +:+ ":" +:+ p) ≤ maxURLLen →
  validate_url (user +:+ "@" +:+ host +:+ ":" +:+ p) =
    Some (user +:+ "@" +:+ host +:+ ":" +:+ p, "ssh://" +:+ user +:+ "@" +:+ ToLower host +:+ TrimRight ("/" +:+ p) "/", TransportSSH).
Proof.
  intros Hu Hh Hp Hopt Hslash Hlen. pose proof Hu as (Hune & Huopt & Huc). pose proof (plain_path_char _ Huc) as Hup.
  pose proof Hh as (Hhne & Hhopt & Hhc). pose proof (plain_path_char _ Hhc) as Hhp.
  set (front := user +:+ "@" +:+ host).
  assert (user +:+ "@" +:+ host +:+ ":" +:+ p = front +:+ String ":" p) as Eraw by (unfold front; by rewrite <- !append_assoc).
  assert (string_forall (λ c, negb (Ascii.eqb ":" c)) front = true) as Hfront.
  { unfold front. rewrite !string_forall_append, (path_no ":" user), (path_no ":" host) by done. done. }
  assert (IndexByte (front +:+ String ":" p) "@" = Some (String.length user)) as Hat.
  { unfold front. rewrite <- !append_assoc. apply IndexFunc_append; [by apply path_no|done]. }
  assert (IndexByte (front +:+ String ":" p) ":" = Some (String.length front)) as Hcolon by by apply IndexFunc_append.
  assert (∀ scheme, scheme = "https" ∨ scheme = "ssh" → HasPrefix (front +:+ String ":" p) (scheme +:+ "://") = false) as Hno.
  { intros scheme Hs. apply not_true_is_false. intros E. apply HasPrefix_spec in E as [t E].
    rewrite <- append_assoc in E. apply colon_split in E as [_ E]; [|done|by apply path_no].
    rewrite <- E in Hslash. by destruct t. }
  rewrite Eraw in *. rewrite validate_gates; [|destruct front; by cbn|done| | |].
  - rewrite (Hno "https" (or_introl eq_refl) : HasPrefix (front +:+ String ":" p) "https://" = false),
      (Hno "ssh" (or_intror eq_refl) : HasPrefix (front +:+ String ":" p) "ssh://" = false).
    assert (isSCPLike (front +:+ String ":" p) = true) as ->.
    { unfold isSCPLike. destruct (Contains _ "://") eqn:E.
      { apply Contains_spec in E as (pre & post & E). cbn [String.append] in E. apply colon_split in E as [_ E]; [|done|by apply path_no].
        rewrite <- E in Hslash. by destruct post. }
      rewrite Hat, Hcolon. cbn [index_int]. unfold front. rewrite !append_length. cbn [String.length].
      destruct user as [|? user']; [done|]. destruct host as [|? host']; [done|]. cbn [String.length].
      apply andb_true_iff. split; apply Z.ltb_lt; lia. }
    unfold normalizeSCP. rewrite Hat. cbn [mbind option_bind].
    replace (front +:+ String ":" p) with (user +:+ "@" +:+ host +:+ String ":" p) by (unfold front; by rewrite <- !append_assoc).
    rewrite stake_append, Huopt. destruct (String.eqb_spec user ""); [done|]. cbn [orb].
    replace (sdrop (String.length user + 1) (user +:+ "@" +:+ host +:+ String ":" p)) with (host +:+ String ":" p).
    2: { replace (user +:+ "@" +:+ host +:+ String ":" p) with ((user +:+ "@") +:+ host +:+ String ":" p) by by rewrite <- append_assoc.
         replace (String.length user + 1)%nat with (String.length (user +:+ "@")) by (rewrite append_length; reflexivity). by rewrite sdrop_append. }
    unfold IndexByte. rewrite (IndexFunc_append (Ascii.eqb ":") host ":" p) by (done || by apply path_no).
    destruct (Z.leb_spec (Z.of_nat (String.length host)) 0); [destruct host; [done|cbn in *; lia]|].
    rewrite stake_append, Hhopt. destruct (String.eqb_spec host ""); [done|]. cbn [orb].
    replace (sdrop (String.length host + 1) (host +:+ String ":" p)) with p.
    2: { replace (host +:+ String ":" p) with ((host +:+ ":") +:+ p) by by rewrite <- append_assoc.
         replace (String.length host + 1)%nat with (String.length (host +:+ ":")) by (rewrite append_length; reflexivity). by rewrite sdrop_append. }
    rewrite Hopt. destruct (host_plain_facts host Hh) as [_ ->]. cbn [mbind option_bind]. do 3 f_equal.
    change ("/" +:+ p) with (String "/" p). rewrite TrimRight_slash. destruct (String.eqb_spec (TrimRight p "/") "") as [->|Hne]; [done|].
    cbn [negb andb]. destruct (TrimRight_prefix p "/") as [t Et].
    destruct (HasPrefix (TrimRight p "/") "/") eqn:E; [|done]. apply HasPrefix_spec in E as [t' E]. rewrite E in Et. rewrite Et in Hslash.
    rewrite <- append_assoc, HasPrefix_append in Hslash. done.
  - unfold front. rewrite !string_forall_append, (path_no_control user), (path_no_control host) by done. cbn. by apply path_no_control.
  - unfold front. rewrite <- append_assoc. destruct (HasPrefix (user +:+ _) "-") eqn:E; [|done]. apply HasPrefix_spec in E as [t E].
    destruct user as [|c user']; [done|]. cbn in E. injection E as -> E. by rewrite (HasPrefix_append "-" user' : HasPrefix (String "-" user') "-" = true) in Huopt.
  - rewrite count_append, (count_none ":" front Hfront). cbn. by rewrite (count_none ":" p) by by apply path_no.
Qed.

(** One normal form per repository: for a plain user, host and path the https form, the ssh
    form and the scp-like form are accepted, the two ssh forms have the same normal form
    whatever the case of the host and the slashes at the end, and a normal form is its own
    normal form. *)
Theorem url_normal_form user host p :
  plain_name user → plain_name host → string_forall path_char p = true → HasPrefix p "-" = false → HasPrefix p "/" = false →
  len ("https://" +:+ user +:+ "@" +:+ host +:+ "/" +:+ p) ≤ maxURLLen →
  let ssh := "ssh://" +:+ user +:+ "@" +:+ ToLower host +:+ TrimRight ("/" +:+ p) "/" in
  let https := "https://" +:+ ToLower host +:+ TrimRight ("/" +:+ p) "/" in
  normalize_url ("ssh://" +:+ user +:+ "@" +:+ host +:+ "/" +:+ p) = Ok ssh ∧
  normalize_url (user +:+ "@" +:+ host +:+ ":" +:+ p) = Ok ssh ∧ normalize_url ssh = Ok ssh ∧
  normalize_url ("https://" +:+ host +:+ "/" +:+ p) = Ok https ∧ normalize_url https = Ok https.
Proof.
  intros Hu Hh Hp Hopt Hslash Hlen. assert (plain_path ("/" +:+ p)) as Hpath by (split; [right; apply HasPrefix_append|exact Hp]).
  destruct (lower_plain host Hh) as [Hl Hli], (trim_plain_path _ Hpath) as [Ht Hti]. pose proof (TrimRight_length ("/" +:+ p) "/") as Hlt.
  pose proof (ToLower_length host) as Hll. unfold len in *. rewrite !append_length in *. cbn [String.length] in *.
  unfold NormalizeURL. split_and!.
  - rewrite validate_plain_ssh; [done|done..|]. unfold len. rewrite !append_length. cbn [String.length] in *. lia.
  - rewrite validate_scp; [done|done..|]. unfold len. rewrite !append_length. cbn [String.length] in *. lia.
  - rewrite validate_plain_ssh; [by rewrite Hli, Hti|done..|]. unfold len. rewrite !append_length. cbn [String.length] in *. lia.
  - rewrite validate_plain_https; [done|done..|]. unfold len. rewrite !append_length. cbn [String.length] in *. lia.
  - rewrite validate_plain_https; [by rewrite Hli, Hti|done..|]. unfold len. rewrite !append_length. cbn [String.length] in *. lia.
Qed.

End props.


Lemma url_normal_form_witness :
  NormalizeURL (λ _, None) ToLower "git@GitHub.com:org/repo.git/" = Ok "ssh://git@github.com/org/repo.git".
Proof.
  apply (url_normal_form (λ _, None) ToLower "git" "GitHub.com" "org/repo.git/"); try (vm_compute; reflexivity);
    repeat split; try (vm_compute; reflexivity); try discriminate; vm_compute; discriminate.
Defined.

(** The normal form forgets what a server does not: urls that differ in the query, in the
    fragment, in an escaped slash or in the password share it; and it does not put the
    brackets of an IP literal back, so that it is not accepted itself. *)
Theorem url_normal_form_collides :
  let normalize := NormalizeURL (λ host, Some host) ToLower in
  normalize "https://h/r?project=1" = normalize "https://h/r" ∧ normalize "https://h/r#x" = normalize "https://h/r" ∧
  normalize "https://h/a%2Fb" = normalize "https://h/a/b" ∧ normalize "https://u:p@h/r" = normalize "https://u@h/r" ∧
  normalize "https://[2001:db8:1:2:3:4:5:6]/r" = Ok "https://2001:db8:1:2:3:4:5:6/r" ∧
  normalize "https://2001:db8:1:2:3:4:5:6/r" = Err ErrBadURL.
Proof. by repeat split; vm_compute. Qed.
