(* ===== verification/GoJson.v ===== *)
(** Go's [encoding/json]: the text it writes for a value and the value it reads from a text,
    over trees whose strings are bytes and whose numbers are literals. *)
From S2P Require Import Prelude GoStrings GoNum.
#[local] Open Scope Z_scope.

(** * UTF-8 *)

Definition code (c : ascii) : N := N_of_ascii c.
Definition in_range (lo hi : N) (c : ascii) : bool := ((lo <=? code c) && (code c <=? hi))%N.
Definition cont : ascii → bool := in_range 128 191.

(** The second byte after a three-byte or four-byte lead: no overlong form, no surrogate and
    nothing beyond U+10FFFF. *)
Definition second3 (a b : ascii) : bool :=
  if (code a =? 224)%N then in_range 160 191 b
  else if (code a =? 237)%N then in_range 128 159 b
  else in_range 225 239 a && cont b.
Definition second4 (a b : ascii) : bool :=
  if (code a =? 240)%N then in_range 144 191 b
  else if (code a =? 244)%N then in_range 128 143 b
  else in_range 241 243 a && cont b.

(** What [utf8.DecodeRuneInString] takes off a text: an ASCII byte, the bytes of a longer
    rune, or one byte that starts no rune. *)
Inductive chunk : Type :=
  | Plain (c : ascii)
  | Rune (bytes : string)
  | Stray (c : ascii).

Definition raw (k : chunk) : string :=
  match k with
  | Plain c | Stray c => String c ""
  | Rune b => b
  end.

Fixpoint chunks (s : string) : list chunk :=
  match s with
  | EmptyString => []
  | String a s1 =>
      if (code a <? 128)%N then Plain a :: chunks s1
      else
        match s1 with
        | EmptyString => [Stray a]
        | String b s2 =>
            if in_range 194 223 a && cont b then Rune (String a (String b "")) :: chunks s2
            else
              match s2 with
              | EmptyString => Stray a :: chunks s1
              | String c s3 =>
                  if second3 a b && cont c then Rune (String a (String b (String c ""))) :: chunks s3
                  else
                    match s3 with
                    | EmptyString => Stray a :: chunks s1
                    | String d s4 =>
                        if second4 a b && cont c && cont d then Rune (String a (String b (String c (String d "")))) :: chunks s4
                        else Stray a :: chunks s1
                    end
              end
        end
  end.

Definition concat_map (f : chunk → string) (l : list chunk) : string := foldr (λ k t, f k +:+ t) "" l.

(** [utf8.ValidString]. *)
Definition valid_utf8 (s : string) : bool := forallb (λ k, match k with Stray _ => false | _ => true end) (chunks s).

(** U+FFFD, and the text with every stray byte replaced by it. *)
Definition replacement : string := String "239" (String "191" (String "189" "")).
Definition to_valid (s : string) : string := concat_map (λ k, match k with Stray _ => replacement | _ => raw k end) (chunks s).

(** * Trees *)

Inductive json : Type :=
  | JNull
  | JBool (b : bool)
  | JNum (literal : string)
  | JStr (s : string)
  | JArr (l : list json)
  | JObj (members : list (string * json)).

(** * Writing *)

Definition bs : ascii := "092".
Definition dq : ascii := "034".
Definition esc (c : ascii) : string := String bs (String c "").
Definition hex_digits (n : N) : string := String (hex_digit (n / 16)) (String (hex_digit (n mod 16)) "").

Definition html_char (c : ascii) : bool := Ascii.eqb c "<" || Ascii.eqb c ">" || Ascii.eqb c "&".

(** [appendString] with the escapes of HTML, as [Marshal] and [Encoder] call it. *)
Definition quote_chunk (k : chunk) : string :=
  match k with
  | Plain c =>
      if Ascii.eqb c dq || Ascii.eqb c bs then esc c
      else if Ascii.eqb c "008" then esc "b"
      else if Ascii.eqb c "012" then esc "f"
      else if Ascii.eqb c "010" then esc "n"
      else if Ascii.eqb c "013" then esc "r"
      else if Ascii.eqb c "009" then esc "t"
      else if (code c <? 32)%N || html_char c then esc "u" +:+ "00" +:+ hex_digits (code c)
      else String c ""
  | Rune b =>
      if String.eqb b (String "226" (String "128" (String "168" ""))) then esc "u" +:+ "2028"
      else if String.eqb b (String "226" (String "128" (String "169" ""))) then esc "u" +:+ "2029"
      else b
  | Stray _ => esc "u" +:+ "fffd"
  end.
Definition quote (s : string) : string := String dq (concat_map quote_chunk (chunks s)) +:+ String dq "".

(** The compact form, which [Marshal] answers. *)
Fixpoint print (j : json) : string :=
  match j with
  | JNull => "null"
  | JBool b => if b then "true" else "false"
  | JNum n => n
  | JStr s => quote s
  | JArr l => "[" +:+ Join (map print l) "," +:+ "]"
  | JObj ms => "{" +:+ Join (map (λ m, quote m.1 +:+ ":" +:+ print m.2) ms) "," +:+ "}"
  end.

(** [Encoder.Encode] ends the text with a line feed. *)
Definition encode (j : json) : string := print j +:+ nl.

(** [Encoder.SetIndent] with two blanks. *)
Fixpoint blanks (n : nat) : string :=
  match n with
  | O => ""
  | S n => String " " (String " " (blanks n))
  end.
Fixpoint print_indent (depth : nat) (j : json) : string :=
  let line d := nl +:+ blanks d in
  match j with
  | JArr (_ :: _ as l) =>
      "[" +:+ line (S depth) +:+ Join (map (print_indent (S depth)) l) ("," +:+ line (S depth)) +:+ line depth +:+ "]"
  | JObj (_ :: _ as ms) =>
      "{" +:+ line (S depth) +:+
      Join (map (λ m, quote m.1 +:+ ": " +:+ print_indent (S depth) m.2) ms) ("," +:+ line (S depth)) +:+ line depth +:+ "}"
  | _ => print j
  end.
Definition encode_indent (j : json) : string := print_indent 0 j +:+ nl.

(** * Reading strings *)

Definition hex4 (a b c d : ascii) : option N :=
  a ← from_hex_char a; b ← from_hex_char b; c ← from_hex_char c; d ← from_hex_char d;
  Some (((a * 16 + b) * 16 + c) * 16 + d)%N.

(** [utf8.AppendRune]. *)
Definition encode_rune (r : N) : string :=
  let low k := ascii_of_N (128 + (r / 64 ^ k) mod 64) in
  (if r <? 128 then String (ascii_of_N r) ""
   else if r <? 2048 then String (ascii_of_N (192 + r / 64)) (String (low 0) "")
   else if (55296 <=? r) && (r <=? 57343) || (1114111 <? r) then replacement
   else if r <? 65536 then String (ascii_of_N (224 + r / 4096)) (String (low 1) (String (low 0) ""))
   else String (ascii_of_N (240 + r / 262144)) (String (low 2) (String (low 1) (String (low 0) ""))))%N.

Definition unescape_char (e : ascii) : option ascii :=
  if Ascii.eqb e dq || Ascii.eqb e bs || Ascii.eqb e "/" then Some e
  else if Ascii.eqb e "b" then Some "008"%char
  else if Ascii.eqb e "f" then Some "012"%char
  else if Ascii.eqb e "n" then Some "010"%char
  else if Ascii.eqb e "r" then Some "013"%char
  else if Ascii.eqb e "t" then Some "009"%char
  else None.

Definition is_high (r : N) : bool := ((55296 <=? r) && (r <? 56320))%N.
Definition is_low (r : N) : bool := ((56320 <=? r) && (r <? 57344))%N.
Definition pair (hi lo : N) : N := ((hi - 55296) * 1024 + (lo - 56320) + 65536)%N.

Definition prepend (p : string) (r : option (string * string)) : option (string * string) :=
  '(s, t) ← r; Some (p +:+ s, t).

(** The string after an opening quote, and the text after the closing one.  A high surrogate
    joins the low one whose escape follows it; any other surrogate is a U+FFFD. *)
Fixpoint parse_string (s : string) : option (string * string) :=
  match s with
  | EmptyString => None
  | String a s1 =>
      if Ascii.eqb a dq then Some ("", s1)
      else if Ascii.eqb a bs then
        match s1 with
        | EmptyString => None
        | String e s2 =>
            if Ascii.eqb e "u" then
              match s2 with
              | String h1 (String h2 (String h3 (String h4 s6))) =>
                  r ← hex4 h1 h2 h3 h4;
                  match s6 with
                  | String b1 (String b2 (String g1 (String g2 (String g3 (String g4 s12))))) =>
                      match hex4 g1 g2 g3 g4 with
                      | Some r2 =>
                          if is_high r && Ascii.eqb b1 bs && Ascii.eqb b2 "u" && is_low r2
                          then prepend (encode_rune (pair r r2)) (parse_string s12)
                          else prepend (encode_rune r) (parse_string s6)
                      | None => prepend (encode_rune r) (parse_string s6)
                      end
                  | _ => prepend (encode_rune r) (parse_string s6)
                  end
              | _ => None
              end
            else c ← unescape_char e; prepend (String c "") (parse_string s2)
        end
      else if (code a <? 32)%N then None
      else prepend (String a "") (parse_string s1)
  end.

(** * Reading values *)

Definition is_ws (c : ascii) : bool := Ascii.eqb c " " || Ascii.eqb c "009" || Ascii.eqb c "010" || Ascii.eqb c "013".
Definition skip_ws (s : string) : string := trim_left is_ws s.

Definition digit (c : ascii) : bool := in_range 48 57 c.
Definition number_char (c : ascii) : bool :=
  digit c || Ascii.eqb c "-" || Ascii.eqb c "+" || Ascii.eqb c "." || Ascii.eqb c "e" || Ascii.eqb c "E".

Fixpoint span (p : ascii → bool) (s : string) : string * string :=
  match s with
  | String c t => if p c then let '(a, b) := span p t in (String c a, b) else ("", s)
  | EmptyString => ("", "")
  end.

(** At least one digit. *)
Definition digits1 (s : string) : option string :=
  match span digit s with
  | (EmptyString, _) => None
  | (_, t) => Some t
  end.

(** [isValidNumber]: the exponent, the part from the point on, the whole. *)
Definition valid_exponent (s : string) : bool :=
  match s with
  | EmptyString => true
  | String e t =>
      (Ascii.eqb e "e" || Ascii.eqb e "E") &&
      match digits1 (match t with String "+" t => t | String "-" t => t | _ => t end) with
      | Some EmptyString => true
      | _ => false
      end
  end.
Definition valid_fraction (s : string) : bool :=
  match (match s with String "." t => digits1 t | _ => Some s end) with
  | Some s => valid_exponent s
  | None => false
  end.
Definition valid_number (s : string) : bool :=
  match (match (match s with String "-" t => t | _ => s end) with
         | String "0" t => Some t
         | s => digits1 s
         end) with
  | Some s => valid_fraction s
  | None => false
  end.

Definition keyword (word : string) (v : json) (s : string) : option (json * string) :=
  if HasPrefix s word then Some (v, sdrop (String.length word) s) else None.

Definition maxNestingDepth : Z := 10000.

(** One value and the text after it.  [depth] counts the arrays and objects that are open;
    every call takes a byte off the text or is followed by one that does. *)
Fixpoint parse_value (fuel : nat) (depth : Z) (s : string) : option (json * string) :=
  match fuel with
  | O => None
  | S fuel =>
      match skip_ws s with
      | EmptyString => None
      | String c t as s =>
          if Ascii.eqb c dq then '(x, t) ← parse_string t; Some (JStr x, t)
          else if Ascii.eqb c "{" then
            if maxNestingDepth <=? depth then None
            else match skip_ws t with
                 | String "}" t => Some (JObj [], t)
                 | _ => '(ms, t) ← parse_members fuel (depth + 1) t; Some (JObj ms, t)
                 end
          else if Ascii.eqb c "[" then
            if maxNestingDepth <=? depth then None
            else match skip_ws t with
                 | String "]" t => Some (JArr [], t)
                 | _ => '(l, t) ← parse_elements fuel (depth + 1) t; Some (JArr l, t)
                 end
          else if Ascii.eqb c "t" then keyword "true" (JBool true) s
          else if Ascii.eqb c "f" then keyword "false" (JBool false) s
          else if Ascii.eqb c "n" then keyword "null" JNull s
          else let '(n, t) := span number_char s in if valid_number n then Some (JNum n, t) else None
      end
  end
with parse_elements (fuel : nat) (depth : Z) (s : string) : option (list json * string) :=
  match fuel with
  | O => None
  | S fuel =>
      '(v, t) ← parse_value fuel depth s;
      match skip_ws t with
      | String "," t => '(l, t) ← parse_elements fuel depth t; Some (v :: l, t)
      | String "]" t => Some ([v], t)
      | _ => None
      end
  end
with parse_members (fuel : nat) (depth : Z) (s : string) : option (list (string * json) * string) :=
  match fuel with
  | O => None
  | S fuel =>
      match skip_ws s with
      | String q t =>
          if Ascii.eqb q dq then
            '(k, t) ← parse_string t;
            match skip_ws t with
            | String ":" t =>
                '(v, t) ← parse_value fuel depth t;
                match skip_ws t with
                | String "," t => '(ms, t) ← parse_members fuel depth t; Some ((k, v) :: ms, t)
                | String "}" t => Some ([(k, v)], t)
                | _ => None
                end
            | _ => None
            end
          else None
      | EmptyString => None
      end
  end.

(** Calls that take nothing off the text are at most every second one. *)
Definition fuel_for (s : string) : nat := S (2 * String.length s).

(** [Decoder.Decode]: the first value of the text, which only the bracket of an array or an
    object ends where something else than a blank follows.  Stray bytes become U+FFFD inside
    of string literals; outside of them they are an error either way. *)
Definition decode (s : string) : option json :=
  let s := to_valid s in
  '(j, t) ← parse_value (fuel_for s) 0 s;
  match j, t with
  | JArr _, _ | JObj _, _ | _, EmptyString => Some j
  | _, String c _ => if is_ws c then Some j else None
  end.

(** [Unmarshal]: the text is one value. *)
Definition unmarshal (s : string) : option json :=
  let s := to_valid s in
  '(j, t) ← parse_value (fuel_for s) 0 s;
  if String.eqb (skip_ws t) "" then Some j else None.

(** * Structs *)

(** A key and a field name match up to case: [foldName], where two letters outside ASCII fold
    into it (U+212A and U+017F). *)
Fixpoint fold_key (s : string) : string :=
  match s with
  | EmptyString => ""
  | String a s1 =>
      match s1 with
      | String b s2 =>
          if Ascii.eqb a "197" && Ascii.eqb b "191" then String "S" (fold_key s2)
          else
            match s2 with
            | String c s3 =>
                if Ascii.eqb a "226" && Ascii.eqb b "132" && Ascii.eqb c "170" then String "K" (fold_key s3)
                else String (upper_ascii a) (fold_key s1)
            | EmptyString => String (upper_ascii a) (fold_key s1)
            end
      | EmptyString => String (upper_ascii a) ""
      end
  end.
Definition key_matches (name key : string) : bool := String.eqb (fold_key name) (fold_key key).

(** The value of a field after the members of an object, each of which may set it: [None]
    when one has a value of the wrong type. *)
Definition field {A} (name : string) (assign : json → A → option A) (zero : A) (ms : list (string * json)) : option A :=
  foldl (λ acc m, v ← acc; if key_matches name m.1 then assign m.2 v else Some v) (Some zero) ms.

(** How a value is stored in a Go variable of each type: null leaves it alone, or makes a
    pointer or a slice nil. *)
Definition to_int64 (j : json) (old : Z) : option Z :=
  match j with
  | JNull => Some old
  | JNum n => ParseInt n
  | _ => None
  end.
Definition to_string (j : json) (old : string) : option string :=
  match j with
  | JNull => Some old
  | JStr s => Some s
  | _ => None
  end.
Definition to_bool (j : json) (old : bool) : option bool :=
  match j with
  | JNull => Some old
  | JBool b => Some b
  | _ => None
  end.
Definition to_ptr {A} (assign : json → A → option A) (zero : A) (j : json) (old : option A) : option (option A) :=
  match j with
  | JNull => Some None
  | _ => Some <$> assign j (default zero old)
  end.
(** A nil slice is [None].  The elements of an earlier list of the same member are not reused. *)
Definition to_slice {A} (elem : json → option A) (j : json) (old : option (list A)) : option (option (list A)) :=
  match j with
  | JNull => Some None
  | JArr l => Some <$> mapM elem l
  | _ => None
  end.

(** The members of an object; null is the zero struct. *)
Definition members (j : json) : option (list (string * json)) :=
  match j with
  | JNull => Some []
  | JObj ms => Some ms
  | _ => None
  end.

(** ** Members that are written *)

Definition JInt (z : Z) : json := JNum (FormatInt z).

(** A pointer field with [omitempty]. *)
Definition opt_member {A} (name : string) (f : A → json) (v : option A) : list (string * json) :=
  match v with
  | Some a => [(name, f a)]
  | None => []
  end.
(** A string field with [omitempty]. *)
Definition str_member (name s : string) : list (string * json) := if String.eqb s "" then [] else [(name, JStr s)].
