(* ===== verification/GoJsonProps.v ===== *)
(** What is written as JSON is read back: any tree, with every string made valid UTF-8; and
    reading always ends. *)
From S2P Require Import Prelude GoStrings GoNum GoJson.
#[local] Open Scope Z_scope.

(** * UTF-8 *)

Definition high_byte (c : ascii) : bool := (128 <=? code c)%N.

(** The bytes of a rune outside ASCII. *)
Definition rune_bytes (b : string) : Prop :=
  match b with
  | String a (String b "") => in_range 194 223 a && cont b = true
  | String a (String b (String c "")) => second3 a b && cont c = true
  | String a (String b (String c (String d ""))) => second4 a b && cont c && cont d = true
  | _ => False
  end.

Definition good (k : chunk) : Prop :=
  match k with
  | Plain c => (code c < 128)%N
  | Rune b => rune_bytes b
  | Stray _ => False
  end.
Definition formed (k : chunk) : Prop :=
  match k with
  | Stray c => (128 ≤ code c)%N
  | _ => good k
  end.

(** Strings by their length. *)
Lemma string_ind_len (P : string → Prop) :
  (∀ s, (∀ t, (String.length t < String.length s)%nat → P t) → P s) → ∀ s, P s.
Proof.
  intros IH s. remember (String.length s) as n eqn:E. revert s E. induction (lt_wf n) as [n _ IHn]. intros s ->.
  apply IH. intros t Ht. exact (IHn _ Ht t eq_refl).
Qed.

Lemma chunks_spec s : concat_map raw (chunks s) = s ∧ Forall formed (chunks s).
Proof.
  induction s as [s IH] using string_ind_len.
  assert (∀ k r t, s = raw k +:+ t → (0 < String.length (raw k))%nat → formed k → r = chunks t →
    concat_map raw (k :: r) = s ∧ Forall formed (k :: r)) as Hstep.
  { intros k r t -> Hk Hf ->. destruct (IH t) as [H1 H2]; [rewrite append_length; lia|].
    split; [|by constructor]. unfold concat_map in *. cbn. by rewrite H1. }
  destruct s as [|a s1]; [by split|]. cbn [chunks].
  destruct (N.ltb_spec (code a) 128) as [Ha|Ha]; [by apply (Hstep (Plain a) _ s1); [|cbn; lia| |]|].
  assert (∀ r, r = chunks s1 → concat_map raw (Stray a :: r) = String a s1 ∧ Forall formed (Stray a :: r)) as Hstray.
  { intros r ->. by apply (Hstep (Stray a) _ s1); [|cbn; lia| |]. }
  destruct s1 as [|b s2]; [by apply (Hstray [])|].
  destruct (in_range 194 223 a && cont b) eqn:E2; [by apply (Hstep (Rune (String a (String b ""))) _ s2); [|cbn; lia| |]|].
  destruct s2 as [|c s3]; [by apply Hstray|].
  destruct (second3 a b && cont c) eqn:E3; [by apply (Hstep (Rune (String a (String b (String c "")))) _ s3); [|cbn; lia| |]|].
  destruct s3 as [|d s4]; [by apply Hstray|].
  destruct (second4 a b && cont c && cont d) eqn:E4; [|by apply Hstray].
  by apply (Hstep (Rune (String a (String b (String c (String d ""))))) _ s4); [|cbn; lia| |].
Qed.

Lemma in_range_high lo hi c : (128 ≤ lo)%N → in_range lo hi c = true → (128 ≤ code c)%N.
Proof. unfold in_range. rewrite andb_true_iff, N.leb_le. intros ? [? _]. lia. Qed.

(** Leads of runes of different lengths are different. *)
Lemma second3_lead a b : second3 a b = true → (224 ≤ code a ≤ 239)%N.
Proof.
  unfold second3, in_range. destruct (N.eqb_spec (code a) 224); [lia|]. destruct (N.eqb_spec (code a) 237); [lia|].
  rewrite !andb_true_iff, !N.leb_le. lia.
Qed.
Lemma second4_lead a b : second4 a b = true → (240 ≤ code a ≤ 244)%N.
Proof.
  unfold second4, in_range. destruct (N.eqb_spec (code a) 240); [lia|]. destruct (N.eqb_spec (code a) 244); [lia|].
  rewrite !andb_true_iff, !N.leb_le. lia.
Qed.
Lemma in_range_out lo hi c : (hi < code c)%N → in_range lo hi c = false.
Proof. unfold in_range. intros. apply andb_false_intro2, N.leb_gt. lia. Qed.

Lemma chunks_cons k t : good k → chunks (raw k +:+ t) = k :: chunks t.
Proof.
  destruct k as [c|b|c]; [|destruct b as [|a [|b [|c [|d [|? ?]]]]]|]; cbn [good rune_bytes]; try done.
  - intros H. cbn. by apply N.ltb_lt in H as ->.
  - intros H. pose proof H as [Ha _]%andb_true_iff. apply (in_range_high 194) in Ha; [|lia].
    cbn [raw String.append chunks]. by rewrite (proj2 (N.ltb_ge _ _) Ha), H.
  - intros H. pose proof H as [Ha%second3_lead _]%andb_true_iff.
    cbn [raw String.append chunks]. rewrite (proj2 (N.ltb_ge _ _)) by lia. by rewrite in_range_out, H by lia.
  - intros H. pose proof H as [[Ha%second4_lead _]%andb_true_iff _]%andb_true_iff.
    cbn [raw String.append chunks]. rewrite (proj2 (N.ltb_ge _ _)) by lia. rewrite in_range_out by lia.
    destruct (second3 a b) eqn:E; [apply second3_lead in E; lia|]. by rewrite H.
Qed.

Lemma chunks_concat l t : Forall good l → chunks (concat_map raw l +:+ t) = l ++ chunks t.
Proof.
  unfold concat_map. induction 1 as [|k l Hk _ IH]; [done|]. cbn. rewrite <- append_assoc, chunks_cons by done. by rewrite IH.
Qed.

Definition valid (s : string) : Prop := Forall good (chunks s).

Lemma valid_iff s : valid_utf8 s = true ↔ valid s.
Proof.
  unfold valid_utf8, valid. destruct (chunks_spec s) as [_ Hf]. induction Hf as [|k l Hk Hl IH]; [done|].
  cbn. rewrite andb_true_iff, Forall_cons, IH. destruct k; cbn in *; naive_solver.
Qed.

Lemma valid_chunks s t : valid s → chunks (s +:+ t) = chunks s ++ chunks t.
Proof. intros Hv. destruct (chunks_spec s) as [E _]. rewrite <- E at 1. by apply chunks_concat. Qed.

Lemma valid_app s t : valid s → valid t → valid (s +:+ t).
Proof. intros Hs Ht. unfold valid. rewrite valid_chunks by done. by apply Forall_app. Qed.

Lemma valid_concat l : Forall good l → valid (concat_map raw l).
Proof.
  intros H. pose proof (chunks_concat l "" H) as E. rewrite append_nil_r, app_nil_r in E. unfold valid. by rewrite E.
Qed.

Lemma valid_ascii s : string_forall (λ c, (code c <? 128)%N) s = true → valid s.
Proof.
  induction s as [|c s IH]; [constructor|]. cbn [string_forall]. intros [Hc Hs]%andb_true_iff.
  change (String c s) with (raw (Plain c) +:+ s). unfold valid. rewrite chunks_cons by by apply N.ltb_lt. constructor; [by apply N.ltb_lt|by apply IH].
Qed.

Lemma concat_map_ext f g l : Forall (λ k, f k = g k) l → concat_map f l = concat_map g l.
Proof. unfold concat_map. induction 1 as [|k l Hk _ IH]; [done|]. cbn. by rewrite Hk, IH. Qed.

Lemma to_valid_id s : valid s → to_valid s = s.
Proof.
  intros Hv. destruct (chunks_spec s) as [E _]. unfold to_valid. rewrite <- E at 2. apply concat_map_ext.
  eapply Forall_impl; [exact Hv|]. intros [c|b|c] Hg; [done|done|destruct Hg].
Qed.

Lemma to_valid_valid s : valid (to_valid s).
Proof.
  unfold to_valid. destruct (chunks_spec s) as [_ Hf].
  set (fix_chunk k := match k with Stray _ => Rune replacement | _ => k end).
  assert (Forall good (fix_chunk <$> chunks s)) as Hg.
  { apply Forall_fmap. eapply Forall_impl; [exact Hf|]. intros [c|b|c] H; [done..|by vm_compute]. }
  apply valid_concat in Hg. replace (concat_map _ (chunks s)) with (concat_map raw (fix_chunk <$> chunks s)); [done|].
  unfold concat_map. clear Hg Hf. induction (chunks s) as [|k l IH]; [done|]. cbn. rewrite IH. by destruct k.
Qed.

(** * Strings *)

Lemma prepend_append p q r : prepend p (prepend q r) = prepend (p +:+ q) r.
Proof. destruct r as [[s t]|]; [|done]. cbn. by rewrite append_assoc. Qed.

Lemma parse_plain c t : (32 ≤ code c)%N → Ascii.eqb c dq = false → Ascii.eqb c bs = false →
  parse_string (String c t) = prepend (String c "") (parse_string t).
Proof. intros Hc Hq Hb. cbn [parse_string]. rewrite Hq, Hb. by rewrite (proj2 (N.ltb_ge _ _)). Qed.

Lemma high_not_special c : (128 ≤ code c)%N → Ascii.eqb c dq = false ∧ Ascii.eqb c bs = false.
Proof. intros Hc. split; apply not_true_is_false; intros ->%Ascii.eqb_eq; vm_compute in Hc; by apply Hc. Qed.

Lemma parse_high b t : string_forall high_byte b = true → parse_string (b +:+ t) = prepend b (parse_string t).
Proof.
  induction b as [|c b IH]; cbn [string_forall].
  - intros _. cbn. by destruct (parse_string t) as [[]|].
  - intros [Hc%N.leb_le Hb]%andb_true_iff. destruct (high_not_special c Hc). cbn [String.append].
    rewrite parse_plain by (done || lia). rewrite IH by done. by rewrite prepend_append.
Qed.

Lemma parse_u h1 h2 h3 h4 r t : hex4 h1 h2 h3 h4 = Some r → is_high r = false →
  parse_string (esc "u" +:+ String h1 (String h2 (String h3 (String h4 t)))) = prepend (encode_rune r) (parse_string t).
Proof.
  intros Hr Hh. cbn -[hex4 parse_string]. cbn [parse_string]. unfold bs, dq. cbn [Ascii.eqb Bool.eqb]. rewrite Hr. cbn [mbind option_bind].
  do 6 (destruct t as [|? t]; [reflexivity|]). rewrite Hh. cbn [andb]. match goal with |- match ?x with _ => _ end = _ => by destruct x end.
Qed.

(** What is written for a byte of ASCII is read as that byte. *)
Definition plain_ok (c : ascii) : bool :=
  let hex := hex_digits (code c) in
  negb ((code c <? 32)%N || html_char c) ||
  match hex with
  | String h1 (String h2 "") =>
      bool_decide (hex4 "0" "0" h1 h2 = Some (code c)) && String.eqb (encode_rune (code c)) (String c "") && negb (is_high (code c))
  | _ => false
  end.
Lemma plain_all c : plain_ok c = true.
Proof. apply all_chars. vm_compute. reflexivity. Qed.

Lemma parse_esc c e t : Ascii.eqb e "u" = false → unescape_char e = Some c → parse_string (esc e +:+ t) = prepend (String c "") (parse_string t).
Proof. intros Hu He. change (esc e +:+ t) with (String bs (String e t)). cbn [parse_string]. unfold bs at 1, dq at 1. cbn [Ascii.eqb Bool.eqb]. by rewrite Hu, He. Qed.

Lemma parse_quote_plain c t : (code c < 128)%N → parse_string (quote_chunk (Plain c) +:+ t) = prepend (String c "") (parse_string t).
Proof.
  intros Hc. unfold quote_chunk. destruct (Ascii.eqb c dq || Ascii.eqb c bs) eqn:Eq.
  { apply orb_true_iff in Eq as [->%Ascii.eqb_eq | ->%Ascii.eqb_eq]; by apply parse_esc. }
  apply orb_false_iff in Eq as [Edq Ebs].
  destruct (Ascii.eqb_spec c "008") as [->|_]; [by apply parse_esc|].
  destruct (Ascii.eqb_spec c "012") as [->|_]; [by apply parse_esc|].
  destruct (Ascii.eqb_spec c "010") as [->|_]; [by apply parse_esc|].
  destruct (Ascii.eqb_spec c "013") as [->|_]; [by apply parse_esc|].
  destruct (Ascii.eqb_spec c "009") as [->|_]; [by apply parse_esc|].
  pose proof (plain_all c) as Hp. unfold plain_ok in Hp. destruct ((code c <? 32)%N || html_char c) eqn:Eh.
  - cbn [negb orb] in Hp. destruct (hex_digits (code c)) as [|h1 [|h2 [|]]] eqn:Ed; try done.
    rewrite !andb_true_iff, negb_true_iff in Hp. destruct Hp as [[Hx%bool_decide_eq_true He%String.eqb_eq] Hh].
    rewrite <- !append_assoc. change ("00" +:+ String h1 (String h2 "") +:+ t) with (String "0" (String "0" (String h1 (String h2 t)))).
    rewrite (parse_u _ _ _ _ _ _ Hx Hh). by rewrite He.
  - apply orb_false_iff in Eh as [Hlt%N.ltb_ge _]. by apply parse_plain.
Qed.

Lemma rune_high b : rune_bytes b → string_forall high_byte b = true.
Proof.
  assert (∀ c, cont c = true → high_byte c = true) as Hcont by (intros c H; apply (in_range_high 128) in H; [|lia]; by apply N.leb_le).
  assert (∀ a b, second3 a b = true → high_byte a && high_byte b = true) as H3.
  { intros x y H. pose proof (second3_lead _ _ H). unfold high_byte. rewrite (proj2 (N.leb_le _ (code x))) by lia. apply N.leb_le.
    revert H. unfold second3, cont, in_range. repeat case_match; rewrite ?andb_true_iff, ?N.leb_le; lia. }
  assert (∀ a b, second4 a b = true → high_byte a && high_byte b = true) as H4.
  { intros x y H. pose proof (second4_lead _ _ H). unfold high_byte. rewrite (proj2 (N.leb_le _ (code x))) by lia. apply N.leb_le.
    revert H. unfold second4, cont, in_range. repeat case_match; rewrite ?andb_true_iff, ?N.leb_le; lia. }
  destruct b as [|a [|b [|c [|d [|? ?]]]]]; cbn [rune_bytes]; try done.
  - intros [Ha%in_range_high Hb]%andb_true_iff; [|lia]. cbn. rewrite (Hcont b Hb). unfold high_byte. by rewrite (proj2 (N.leb_le _ _) Ha).
  - intros [Hab%H3 Hc]%andb_true_iff. cbn. by rewrite andb_assoc, Hab, Hcont.
  - intros [[Hab%H4 Hc]%andb_true_iff Hd]%andb_true_iff. cbn. by rewrite andb_assoc, Hab, !Hcont.
Qed.

Lemma parse_quote_chunk k t : formed k →
  parse_string (quote_chunk k +:+ t) = prepend (match k with Stray _ => replacement | _ => raw k end) (parse_string t).
Proof.
  destruct k as [c|b|c]; intros Hk.
  - by apply parse_quote_plain.
  - unfold quote_chunk. destruct (String.eqb_spec b (String "226" (String "128" (String "168" "")))) as [->|_].
    { by apply (parse_u "2" "0" "2" "8" 8232). }
    destruct (String.eqb_spec b (String "226" (String "128" (String "169" "")))) as [->|_].
    { by apply (parse_u "2" "0" "2" "9" 8233). }
    by apply parse_high, rune_high.
  - by apply (parse_u "f" "f" "f" "d" 65533).
Qed.

Lemma parse_quote s t : parse_string (concat_map quote_chunk (chunks s) +:+ String dq t) = Some (to_valid s, t).
Proof.
  destruct (chunks_spec s) as [_ Hf]. unfold to_valid, concat_map. induction Hf as [|k l Hk _ IH]; [done|].
  cbn [foldr]. rewrite <- append_assoc, parse_quote_chunk by done. by rewrite IH.
Qed.

(** What is written is valid UTF-8. *)
Lemma quote_chunk_valid k : formed k → valid (quote_chunk k).
Proof.
  destruct k as [c|b|c]; intros Hk; [| |by apply valid_ascii].
  - assert (string_forall (λ x, (code x <? 128)%N) (quote_chunk (Plain c)) = true) as H; [|by apply valid_ascii].
    cbn in Hk. apply N.ltb_lt in Hk. revert Hk.
    pose proof (all_chars (λ c, negb (code c <? 128)%N || string_forall (λ x, (code x <? 128)%N) (quote_chunk (Plain c)))) as Hall.
    specialize (Hall ltac:(vm_compute; reflexivity) c). cbn beta in Hall. intros E. by rewrite E in Hall.
  - unfold quote_chunk. destruct (String.eqb b _); [by apply valid_ascii|]. destruct (String.eqb b _); [by apply valid_ascii|].
    change b with (raw (Rune b)). rewrite <- (append_nil_r (raw _)). unfold valid. rewrite chunks_cons by done. by constructor.
Qed.

Lemma quote_valid s : valid (quote s).
Proof.
  unfold quote. apply (valid_app (String dq _) (String dq "")); [|by apply valid_ascii].
  apply (valid_app (String dq "") _); [by apply valid_ascii|].
  destruct (chunks_spec s) as [_ Hf]. unfold concat_map. induction Hf as [|k l Hk _ IH]; [constructor|].
  cbn [foldr]. apply valid_app; [by apply quote_chunk_valid|done].
Qed.

(** * Numbers *)

Lemma span_spec p s a b : span p s = (a, b) → s = a +:+ b ∧ string_forall p a = true.
Proof.
  revert a b. induction s as [|c s IH]; intros a b; cbn; [by intros [= <- <-]|].
  destruct (p c) eqn:Hc; [|by intros [= <- <-]]. destruct (span p s) as [a' b'] eqn:E. intros [= <- <-].
  destruct (IH a' b' eq_refl) as [-> Ha]. cbn. by rewrite Hc.
Qed.

(** A text at which a run of such bytes ends. *)
Definition stops (p : ascii → bool) (t : string) : bool :=
  match t with
  | EmptyString => true
  | String c _ => negb (p c)
  end.

Lemma span_append p a t : string_forall p a = true → stops p t = true → span p (a +:+ t) = (a, t).
Proof.
  intros Ha Ht. induction a as [|c a IH]; cbn in *.
  - destruct t as [|c t]; [done|]. cbn in Ht |- *. by apply negb_true_iff in Ht as ->.
  - apply andb_true_iff in Ha as [-> Ha]. by rewrite IH.
Qed.

Lemma digit_number c : digit c = true → number_char c = true.
Proof. intros H. unfold number_char. by rewrite H. Qed.

Lemma digits1_number s t : digits1 s = Some t → string_forall number_char t = true → string_forall number_char s = true ∧ s ≠ "".
Proof.
  unfold digits1. destruct (span digit s) as [[|c a] b] eqn:E; [done|]. intros [= ->] Ht.
  destruct (span_spec _ _ _ _ E) as [-> Ha]. split; [|done]. rewrite string_forall_append, Ht, andb_true_r.
  revert Ha. apply string_forall_impl, digit_number.
Qed.

Lemma number_char_cons c s : number_char c = true → string_forall number_char s = true → string_forall number_char (String c s) = true.
Proof. intros Hc Hs. cbn [string_forall]. by rewrite Hc. Qed.

Lemma valid_exponent_chars s : valid_exponent s = true → string_forall number_char s = true.
Proof.
  destruct s as [|e s]; [done|]. cbn [valid_exponent]. intros [He Hs]%andb_true_iff. apply number_char_cons.
  { unfold number_char. apply orb_true_iff in He as [-> | ->]; by rewrite ?orb_true_r. }
  destruct (digits1 _) as [[|]|] eqn:E in Hs; try done. apply digits1_number in E as [E _]; [|done].
  destruct s as [|c s]; [done|]. destruct c as [[] [] [] [] [] [] [] []]; exact E.
Qed.

Lemma valid_fraction_chars s : valid_fraction s = true → string_forall number_char s = true.
Proof.
  destruct s as [|c s]; [done|]. destruct (Ascii.eqb_spec c ".") as [->|Hc].
  - cbn [valid_fraction]. unfold valid_fraction. destruct (digits1 s) as [t|] eqn:E; [|done]. intros Ht%valid_exponent_chars.
    apply digits1_number in E as [E _]; [|done]. by apply number_char_cons.
  - assert (valid_fraction (String c s) = valid_exponent (String c s)) as -> by (destruct c as [[] [] [] [] [] [] [] []]; done).
    apply valid_exponent_chars.
Qed.

Lemma valid_number_chars s : valid_number s = true → string_forall number_char s = true ∧ s ≠ "".
Proof.
  unfold valid_number. set (unsigned := match s with String "-" t => t | _ => s end). intros Hv.
  assert (string_forall number_char unsigned = true ∧ unsigned ≠ "") as [Hu Hne].
  { destruct unsigned as [|c u]; [done|]. destruct (Ascii.eqb_spec c "0") as [->|Hc].
    - apply valid_fraction_chars in Hv. split; [by apply number_char_cons|done].
    - assert ((match String c u with String "0" t => Some t | s => digits1 s end) = digits1 (String c u)) as E
        by (destruct c as [[] [] [] [] [] [] [] []]; done).
      rewrite E in Hv. destruct (digits1 (String c u)) as [t|] eqn:Et; [|done]. apply valid_fraction_chars in Hv. by apply (digits1_number _ t). }
  destruct s as [|c s]; [done|]. split; [|done]. destruct (Ascii.eqb_spec c "-") as [->|Hc]; [exact Hu|].
  assert (unsigned = String c s) as <-; [|done]. unfold unsigned. destruct c as [[] [] [] [] [] [] [] []]; done.
Qed.

(** The decimal of an integer. *)
Lemma pretty_N_go_digits x s : ∃ d, pretty_N_go x s = d +:+ s ∧ string_forall digit d = true.
Proof.
  revert s. induction (N.lt_wf_0 x) as [x _ IH]. intros s. destruct (decide (0 < x)%N) as [Hx|Hx].
  - rewrite pretty_N_go_step by done. destruct (IH (x / 10)%N (N.div_lt x 10 Hx eq_refl) (String (pretty_N_char (x mod 10)) s)) as (d & -> & Hd).
    exists (d +:+ String (pretty_N_char (x mod 10)) ""). rewrite <- append_assoc. split; [done|].
    rewrite string_forall_append, Hd. assert (x mod 10 < 10)%N as Hm by by apply N.mod_lt.
    revert Hm. generalize (x mod 10)%N. intros m Hm. assert (m ∈ [0;1;2;3;4;5;6;7;8;9]%N) as H by (rewrite !elem_of_cons; lia).
    rewrite !elem_of_cons in H. destruct_or?; subst; try done. by apply elem_of_nil in H.
  - assert (x = 0%N) as -> by lia. exists "". by rewrite pretty_N_go_0.
Qed.

Lemma pretty_N_go_lead x s : (0 < x)%N → ∃ c t, pretty_N_go x s = String c t ∧ digit c = true ∧ c ≠ "0"%char.
Proof.
  revert s. induction (N.lt_wf_0 x) as [x _ IH]. intros s Hx. rewrite pretty_N_go_step by done.
  destruct (decide (x / 10 = 0)%N) as [E|Hd]; [|by apply IH; [by apply N.div_lt|by apply N.neq_0_lt_0]].
  rewrite E, pretty_N_go_0. assert (x < 10)%N as Hlt by (pose proof (N.div_mod' x 10); pose proof (N.mod_lt x 10); lia).
  rewrite N.mod_small by done. assert (x ∈ [1;2;3;4;5;6;7;8;9]%N) as H by (rewrite !elem_of_cons; lia).
  eexists _, s. split; [done|]. rewrite !elem_of_cons in H. destruct_or?; subst; try done. by apply elem_of_nil in H.
Qed.

Lemma valid_digits c t : digit c = true → c ≠ "0"%char → string_forall digit t = true →
  valid_number (String c t) = true ∧ valid_number (String "-" (String c t)) = true.
Proof.
  intros Hc Hz Ht. assert (digits1 (String c t) = Some "") as E.
  { unfold digits1. rewrite <- (append_nil_r (String c t)). rewrite span_append; [done| |done]. cbn. by rewrite Hc. }
  unfold valid_number. split; (destruct c as [[] [] [] [] [] [] [] []]; try done; rewrite E; done).
Qed.

Lemma valid_pretty x : (0 < x)%N → valid_number (pretty_N_go x "") = true ∧ valid_number (String "-" (pretty_N_go x "")) = true.
Proof.
  intros Hx. destruct (pretty_N_go_lead x "" Hx) as (c & t & E & Hc & Hz), (pretty_N_go_digits x "") as (d & Ed & Hd).
  rewrite append_nil_r, E in Ed. subst d. rewrite E. cbn [string_forall] in Hd. apply andb_true_iff in Hd as [_ Hd]. by apply valid_digits.
Qed.

Lemma valid_FormatInt z : valid_number (FormatInt z) = true.
Proof. destruct z as [|p|p]; [done|by apply (valid_pretty (N.pos p))|by apply (valid_pretty (N.pos p))]. Qed.

(** * Trees *)

Section json_ind.
Context (P : json → Prop) (Hnull : P JNull) (Hbool : ∀ b, P (JBool b)) (Hnum : ∀ n, P (JNum n)) (Hstr : ∀ s, P (JStr s))
  (Harr : ∀ l, Forall P l → P (JArr l)) (Hobj : ∀ ms, Forall (λ m, P m.2) ms → P (JObj ms)).
Fixpoint json_tree_ind (j : json) : P j :=
  match j with
  | JNull => Hnull
  | JBool b => Hbool b
  | JNum n => Hnum n
  | JStr s => Hstr s
  | JArr l => Harr l ((fix elements l : Forall P l :=
      match l with
      | [] => Forall_nil_2 _
      | v :: l => Forall_cons_2 _ v l (json_tree_ind v) (elements l)
      end) l)
  | JObj ms => Hobj ms ((fix members ms : Forall (λ m, P m.2) ms :=
      match ms with
      | [] => Forall_nil_2 _
      | m :: ms => Forall_cons_2 _ m ms (json_tree_ind m.2) (members ms)
      end) ms)
  end.
End json_ind.

(** Every number literal is one. *)
Fixpoint numbers_ok (j : json) : bool :=
  match j with
  | JNum n => valid_number n
  | JArr l => forallb numbers_ok l
  | JObj ms => forallb (λ m, numbers_ok m.2) ms
  | _ => true
  end.

(** How deep arrays and objects are nested. *)
Fixpoint nesting (j : json) : Z :=
  match j with
  | JArr l => 1 + foldr (λ v d, Z.max (nesting v) d) 0 l
  | JObj ms => 1 + foldr (λ m d, Z.max (nesting m.2) d) 0 ms
  | _ => 0
  end.

(** The tree that is read: every string valid UTF-8. *)
Fixpoint clean (j : json) : json :=
  match j with
  | JStr s => JStr (to_valid s)
  | JArr l => JArr (map clean l)
  | JObj ms => JObj (map (λ m, (to_valid m.1, clean m.2)) ms)
  | _ => j
  end.

Definition entry (m : string * json) : string := quote m.1 +:+ ":" +:+ print m.2.
#[local] Arguments entry : simpl never.
#[local] Arguments quote : simpl never.
Lemma entry_length m : String.length (entry m) = (String.length (quote m.1) + S (String.length (print m.2)))%nat.
Proof. unfold entry. by rewrite append_length. Qed.
Lemma print_JObj ms : print (JObj ms) = "{" +:+ Join (map entry ms) "," +:+ "}".
Proof. done. Qed.
Lemma print_JArr l : print (JArr l) = "[" +:+ Join (map print l) "," +:+ "]".
Proof. done. Qed.

(** The calls it takes. *)
Fixpoint calls (j : json) : nat :=
  match j with
  | JArr l => S (foldr (λ v n, S (calls v + n)) 0%nat l)
  | JObj ms => S (foldr (λ m n, S (calls m.2 + n)) 0%nat ms)
  | _ => 1%nat
  end.

Lemma Join_length l : (foldr (λ s n, S (String.length s + n)) 0 l ≤ S (String.length (Join l ",")))%nat.
Proof.
  induction l as [|s l IH]; [cbn; lia|]. destruct l as [|s' l]; [cbn; lia|].
  change (Join (s :: s' :: l) ",") with (s +:+ "," +:+ Join (s' :: l) ","). cbn [foldr] in *. rewrite !append_length. cbn [String.length]. lia.
Qed.

Lemma calls_length j : numbers_ok j = true → (calls j ≤ 2 * String.length (print j))%nat.
Proof.
  induction j as [|[]|n|s|l IH|ms IH] using json_tree_ind; rewrite ?print_JObj, ?print_JArr; cbn -[Nat.mul]; try lia.
  - intros [_ H]%valid_number_chars. destruct n; [done|]. cbn -[Nat.mul]. lia.
  - intros _. unfold quote. cbn -[Nat.mul]. lia.
  - intros Hn. rewrite append_length. cbn -[Nat.mul]. pose proof (Join_length (map print l)) as HJ.
    assert (foldr (λ v n, S (calls v + n)) 0 l ≤ 2 * foldr (λ s n, S (String.length s + n)) 0 (map print l))%nat; [|lia].
    clear HJ. induction IH as [|v l Hv _ IH]; cbn -[Nat.mul] in *; [lia|]. apply andb_true_iff in Hn as [Hn1 Hn2].
    specialize (Hv Hn1). specialize (IH Hn2). lia.
  - intros Hn. rewrite append_length. cbn -[Nat.mul]. pose proof (Join_length (map entry ms)) as HJ.
    assert (foldr (λ m n, S (calls m.2 + n)) 0 ms ≤ 2 * foldr (λ s n, S (String.length s + n)) 0 (map entry ms))%nat; [|lia].
    clear HJ. induction IH as [|v l Hv _ IH]; cbn -[Nat.mul] in *; [lia|]. apply andb_true_iff in Hn as [Hn1 Hn2].
    specialize (Hv Hn1). specialize (IH Hn2). rewrite entry_length. lia.
Qed.

(** ** Reading what was written *)

Lemma skip_ws_head c s : is_ws c = false → skip_ws (String c s) = String c s.
Proof. intros H. unfold skip_ws. cbn. by rewrite H. Qed.

(** A byte that may start a value. *)
Definition starts_value (c : ascii) : bool :=
  Ascii.eqb c dq || Ascii.eqb c "{" || Ascii.eqb c "[" || Ascii.eqb c "t" || Ascii.eqb c "f" || Ascii.eqb c "n" || number_char c.
Definition head_ok (c : ascii) : bool :=
  negb (starts_value c) || negb (is_ws c) && negb (Ascii.eqb c "]") && negb (Ascii.eqb c "}").
Lemma head_all c : head_ok c = true.
Proof. apply all_chars. vm_compute. reflexivity. Qed.
Lemma head_spec c : starts_value c = true → is_ws c = false ∧ c ≠ "]"%char ∧ c ≠ "}"%char.
Proof.
  intros H. pose proof (head_all c) as Ha. unfold head_ok in Ha. rewrite H in Ha. cbn [negb orb] in Ha.
  rewrite !andb_true_iff, !negb_true_iff in Ha. destruct Ha as [[? ?%Ascii.eqb_neq] ?%Ascii.eqb_neq]. done.
Qed.

Lemma print_head j : numbers_ok j = true → ∃ c s, print j = String c s ∧ starts_value c = true.
Proof.
  destruct j as [|[]|n|s|l|ms]; cbn; try (by eexists _, _).
  intros [Hc Hn]%valid_number_chars. destruct n as [|c n]; [done|]. eexists _, _. split; [done|]. cbn in Hc.
  apply andb_true_iff in Hc as [Hc _]. unfold starts_value. by rewrite Hc, !orb_true_r.
Qed.

Lemma parse_value_str fuel depth s t : parse_value (S fuel) depth (quote s +:+ t) = Some (JStr (to_valid s), t).
Proof.
  unfold quote. cbn [String.append]. cbn [parse_value]. rewrite skip_ws_head by done. rewrite <- append_assoc. cbn [Ascii.eqb dq Bool.eqb].
  cbn [String.append]. by rewrite parse_quote.
Qed.

Definition number_head (c : ascii) : bool :=
  negb (number_char c) || negb (Ascii.eqb c dq || Ascii.eqb c "{" || Ascii.eqb c "[" || Ascii.eqb c "t" || Ascii.eqb c "f" || Ascii.eqb c "n" || is_ws c).
Lemma number_head_all c : number_head c = true.
Proof. apply all_chars. vm_compute. reflexivity. Qed.

Lemma parse_value_num fuel depth n t : valid_number n = true → stops number_char t = true →
  parse_value (S fuel) depth (n +:+ t) = Some (JNum n, t).
Proof.
  intros Hn Ht. destruct (valid_number_chars n Hn) as [Hc Hne]. pose proof (span_append number_char n t Hc Ht) as Es.
  destruct n as [|c n]; [done|]. cbn [string_forall] in Hc. apply andb_true_iff in Hc as [Hc _].
  pose proof (number_head_all c) as Hh. unfold number_head in Hh. rewrite Hc in Hh. cbn [negb orb] in Hh.
  rewrite negb_true_iff, !orb_false_iff in Hh. destruct Hh as [[[[[[H1 H2] H3] H4] H5] H6] H7].
  cbn [String.append parse_value]. rewrite skip_ws_head by done. rewrite H1, H2, H3, H4, H5, H6.
  change (String c (n +:+ t)) with (String c n +:+ t). by rewrite Es, Hn.
Qed.

(** The elements of an array or the members of an object after the first byte. *)
Definition reads (j : json) : Prop := ∀ fuel depth t,
  numbers_ok j = true → (calls j ≤ fuel)%nat → depth + nesting j ≤ maxNestingDepth → stops number_char t = true →
  parse_value fuel depth (print j +:+ t) = Some (clean j, t).

Lemma Join_app s l t sep : (Join (s :: l) sep) +:+ t = s +:+ (match l with [] => t | _ => sep +:+ Join l sep +:+ t end).
Proof. destruct l as [|s' l]; [done|]. change (Join (s :: s' :: l) sep) with (s +:+ sep +:+ Join (s' :: l) sep). by rewrite <- !append_assoc. Qed.

Lemma parse_elements_print l v : Forall reads (v :: l) → ∀ fuel depth t,
  forallb numbers_ok (v :: l) = true → (foldr (λ v n, S (calls v + n)) 0 (v :: l) ≤ fuel)%nat →
  depth + foldr (λ v d, Z.max (nesting v) d) 0 (v :: l) ≤ maxNestingDepth →
  parse_elements fuel depth (Join (map print (v :: l)) "," +:+ "]" +:+ t) = Some (map clean (v :: l), t).
Proof.
  revert v. induction l as [|w l IH]; intros v Hr fuel depth t Hn Hf Hd.
  - apply Forall_cons in Hr as [Hr _]. unfold reads in Hr. cbn [map Join foldr forallb] in *. rewrite andb_true_r in Hn. destruct fuel as [|fuel]; [lia|].
    cbn [parse_elements]. rewrite Hr; [|done|lia|lia|done]. cbn [mbind option_bind String.append]. by rewrite skip_ws_head.
  - apply Forall_cons in Hr as [Hv Hr]. unfold reads in Hv. cbn [forallb] in Hn. apply andb_true_iff in Hn as [Hn1 Hn2].
    cbn [foldr] in Hf, Hd. cbn [map]. rewrite Join_app. destruct fuel as [|fuel]; [lia|].
    cbn [parse_elements]. rewrite Hv; [|done|lia|lia|done]. cbn [mbind option_bind String.append]. rewrite skip_ws_head by done.
    pose proof (IH w Hr fuel depth t Hn2 ltac:(cbn [foldr]; lia) ltac:(cbn [foldr]; lia)) as E. cbn [map String.append] in E. by rewrite E.
Qed.

Lemma parse_members_print ms m : Forall (λ m, reads m.2) (m :: ms) → ∀ fuel depth t,
  forallb (λ m, numbers_ok m.2) (m :: ms) = true → (foldr (λ m n, S (calls m.2 + n)) 0 (m :: ms) ≤ fuel)%nat →
  depth + foldr (λ m d, Z.max (nesting m.2) d) 0 (m :: ms) ≤ maxNestingDepth →
  parse_members fuel depth (Join (map entry (m :: ms)) "," +:+ "}" +:+ t) = Some (map (λ m, (to_valid m.1, clean m.2)) (m :: ms), t).
Proof.
  assert (∀ m t fuel depth, parse_members (S fuel) depth (entry m +:+ t) =
    '(v, t) ← parse_value fuel depth (print m.2 +:+ t);
    match skip_ws t with
    | String "," t => '(ms, t) ← parse_members fuel depth t; Some ((to_valid m.1, v) :: ms, t)
    | String "}" t => Some ([(to_valid m.1, v)], t)
    | _ => None
    end) as Hentry.
  { intros [k v] t fuel depth. cbn [fst snd]. unfold entry, quote. cbn [fst snd String.append parse_members]. rewrite skip_ws_head by done.
    rewrite Ascii.eqb_refl. rewrite <- !append_assoc. cbn [String.append]. rewrite parse_quote. cbn [mbind option_bind]. by rewrite skip_ws_head. }
  revert m. induction ms as [|w ms IH]; intros m Hr fuel depth t Hn Hf Hd.
  - apply Forall_cons in Hr as [Hr _]. unfold reads in Hr. cbn [map Join foldr forallb] in *. rewrite andb_true_r in Hn. destruct fuel as [|fuel]; [lia|].
    rewrite Hentry, Hr; [|done|lia|lia|done]. cbn [mbind option_bind String.append]. by rewrite skip_ws_head.
  - apply Forall_cons in Hr as [Hv Hr]. unfold reads in Hv. cbn [forallb] in Hn. apply andb_true_iff in Hn as [Hn1 Hn2].
    cbn [foldr] in Hf, Hd. cbn [map]. rewrite Join_app. destruct fuel as [|fuel]; [lia|].
    rewrite Hentry, Hv; [|done|lia|lia|done]. cbn [mbind option_bind String.append]. rewrite skip_ws_head by done.
    pose proof (IH w Hr fuel depth t Hn2 ltac:(cbn [foldr]; lia) ltac:(cbn [foldr]; lia)) as E. cbn [map String.append] in E. by rewrite E.
Qed.

Lemma Join_head f (l : list json) v c s :
  f v = String c s → Join (map f (v :: l)) "," = String c (match l with [] => s | _ => s +:+ "," +:+ Join (map f l) "," end).
Proof. intros E. cbn [map]. rewrite <- (append_nil_r (Join _ _)), Join_app, E. destruct l; cbn [map]; by rewrite !append_nil_r. Qed.

Lemma keyword_append word v t : keyword word v (word +:+ t) = Some (v, t).
Proof. unfold keyword. by rewrite HasPrefix_append, sdrop_append. Qed.

Lemma parse_print j : reads j.
Proof.
  induction j as [|b|n|s|l IH|ms IH] using json_tree_ind; intros [|fuel] depth t Hn Hf Hd Ht;
    try (cbn [calls] in Hf; lia).
  - apply (keyword_append "null").
  - destruct b; [apply (keyword_append "true")|apply (keyword_append "false")].
  - by apply parse_value_num.
  - apply parse_value_str.
  - rewrite print_JArr. cbn [numbers_ok calls nesting clean] in *. destruct l as [|v l].
    { cbn [map Join String.append parse_value]. rewrite skip_ws_head by done. cbn [foldr] in Hd. cbn [Ascii.eqb dq Bool.eqb].
      destruct (Z.leb_spec maxNestingDepth depth); [lia|]. by rewrite skip_ws_head. }
    pose proof (parse_elements_print l v IH fuel (depth + 1) t Hn ltac:(lia) ltac:(lia)) as E.
    assert (∃ c s, Join (map print (v :: l)) "," +:+ "]" +:+ t = String c s ∧ is_ws c = false ∧ c ≠ "]"%char) as (c & s & Ej & Hw & Hc).
    { cbn [forallb] in Hn. apply andb_true_iff in Hn as [Hv _]. destruct (print_head v Hv) as (c & s & Ep & Hs). rewrite (Join_head print l v c s Ep).
      apply head_spec in Hs as (? & ? & _). cbn [String.append]. eauto. }
    rewrite <- append_assoc. cbn [String.append]. rewrite <- append_assoc. cbn [parse_value]. rewrite skip_ws_head by done. cbn [Ascii.eqb dq Bool.eqb].
    destruct (Z.leb_spec maxNestingDepth depth); [pose proof (nesting v); assert (0 ≤ foldr (λ v d, Z.max (nesting v) d) 0 (v :: l)) by (clear; induction (v :: l); cbn; lia); lia|].
    rewrite E, Ej, skip_ws_head by done. destruct c as [[] [] [] [] [] [] [] []]; done.
  - rewrite print_JObj. cbn [numbers_ok calls nesting clean] in *. destruct ms as [|m ms].
    { cbn [map Join String.append parse_value]. rewrite skip_ws_head by done. cbn [foldr] in Hd. cbn [Ascii.eqb dq Bool.eqb].
      destruct (Z.leb_spec maxNestingDepth depth); [lia|]. by rewrite skip_ws_head. }
    pose proof (parse_members_print ms m IH fuel (depth + 1) t Hn ltac:(lia) ltac:(lia)) as E.
    assert (∃ s, Join (map entry (m :: ms)) "," +:+ "}" +:+ t = String dq s) as (s & Ej).
    { cbn [map]. rewrite Join_app. unfold entry, quote. cbn [String.append]. eauto. }
    rewrite <- append_assoc. cbn [String.append]. rewrite <- append_assoc. cbn [parse_value]. rewrite skip_ws_head by done. cbn [Ascii.eqb dq Bool.eqb].
    destruct (Z.leb_spec maxNestingDepth depth); [assert (0 ≤ foldr (λ m d, Z.max (nesting m.2) d) 0 (m :: ms)) by (clear; induction (m :: ms); cbn; lia); lia|].
    rewrite E, Ej, skip_ws_head by done. done.
Qed.

Lemma number_char_ascii c : number_char c = true → (code c <? 128)%N = true.
Proof.
  pose proof (all_chars (λ c, negb (number_char c) || (code c <? 128)%N) ltac:(vm_compute; reflexivity) c) as H. cbn beta in H.
  intros Hc. by rewrite Hc in H.
Qed.

Lemma valid_Join l sep : valid sep → Forall valid l → valid (Join l sep).
Proof.
  intros Hs. induction 1 as [|s l Hv Hl IH]; [constructor|]. rewrite <- (append_nil_r (Join _ _)), Join_app.
  apply valid_app; [done|]. destruct l; [constructor|]. rewrite append_nil_r. by apply valid_app.
Qed.

Lemma print_valid j : numbers_ok j = true → valid (print j).
Proof.
  induction j as [|[]|n|s|l IH|ms IH] using json_tree_ind; rewrite ?print_JArr, ?print_JObj; intros Hn; try by apply valid_ascii.
  - apply valid_ascii. apply valid_number_chars in Hn as [Hn _]. revert Hn. apply string_forall_impl, number_char_ascii.
  - apply quote_valid.
  - apply valid_app; [by apply valid_ascii|]. apply valid_app; [|by apply valid_ascii]. apply valid_Join; [by apply valid_ascii|].
    cbn [numbers_ok] in Hn. induction IH as [|v l Hv _ IH]; [constructor|]. cbn [forallb map] in *. apply andb_true_iff in Hn as [Hn1 Hn2].
    constructor; auto.
  - apply valid_app; [by apply valid_ascii|]. apply valid_app; [|by apply valid_ascii]. apply valid_Join; [by apply valid_ascii|].
    cbn [numbers_ok] in Hn. induction IH as [|m ms Hv _ IH]; [constructor|]. cbn [forallb map] in *. apply andb_true_iff in Hn as [Hn1 Hn2].
    constructor; [|auto]. unfold entry. apply valid_app; [apply quote_valid|]. apply (valid_app ":"); [by apply valid_ascii|auto].
Qed.

(** Every string is valid UTF-8. *)
Fixpoint strings_ok (j : json) : bool :=
  match j with
  | JStr s => valid_utf8 s
  | JArr l => forallb strings_ok l
  | JObj ms => forallb (λ m, valid_utf8 m.1 && strings_ok m.2) ms
  | _ => true
  end.

Lemma clean_id j : strings_ok j = true → clean j = j.
Proof.
  induction j as [|b|n|s|l IH|ms IH] using json_tree_ind; cbn [strings_ok clean]; try done.
  - intros Hv%valid_iff. by rewrite to_valid_id.
  - intros H. f_equal. induction IH as [|v l Hv _ IH]; [done|]. cbn [forallb map] in *. apply andb_true_iff in H as [H1 H2].
    by rewrite Hv, IH.
  - intros H. f_equal. induction IH as [|[k v] l Hv _ IH]; [done|]. cbn [forallb map fst snd] in *.
    apply andb_true_iff in H as [[Hk%valid_iff H1]%andb_true_iff H2]. by rewrite Hv, IH, to_valid_id.
Qed.

(** What is written for a tree is read as that tree, with its strings made valid UTF-8: by
    [Unmarshal] and by a decoder, from [Marshal] and from an encoder. *)
Lemma json_roundtrip j tail : tail = "" ∨ tail = nl → numbers_ok j = true → nesting j ≤ maxNestingDepth →
  unmarshal (print j +:+ tail) = Some (clean j) ∧ decode (print j +:+ tail) = Some (clean j).
Proof.
  intros Ht Hn Hd. pose proof (calls_length j Hn) as Hc.
  assert (valid (print j +:+ tail)) as Hv by (apply valid_app; [by apply print_valid|by destruct Ht as [-> | ->]; apply valid_ascii]).
  assert (parse_value (fuel_for (print j +:+ tail)) 0 (print j +:+ tail) = Some (clean j, tail)) as E.
  { apply (parse_print j); [done| |lia|by destruct Ht as [-> | ->]]. unfold fuel_for. rewrite append_length. lia. }
  unfold unmarshal, decode. rewrite !to_valid_id by done. rewrite E. by destruct Ht as [-> | ->], j.
Qed.

(** ** Reading ends *)

Lemma skip_ws_length s : (String.length (skip_ws s) ≤ String.length s)%nat.
Proof. unfold skip_ws. induction s as [|c s IH]; [done|]. cbn. destruct (is_ws c); cbn; lia. Qed.

Lemma prepend_length p r s t : prepend p r = Some (s, t) → ∃ s', r = Some (s', t).
Proof. destruct r as [[s' t']|]; [|done]. cbn. intros [= <- <-]. eauto. Qed.

Lemma parse_string_length s x t : parse_string s = Some (x, t) → (String.length t < String.length s)%nat.
Proof.
  revert x t. induction s as [s IH] using string_ind_len. intros x t. destruct s as [|a s1]; [done|]. cbn [parse_string].
  assert (∀ p s', (String.length s' < String.length (String a s1))%nat → prepend p (parse_string s') = Some (x, t) → (String.length t < String.length (String a s1))%nat) as Hstep.
  { intros p s' Hs [y E]%prepend_length. apply IH in E; [lia|done]. }
  destruct (Ascii.eqb a dq); [intros [= _ <-]; cbn; lia|]. destruct (Ascii.eqb a bs); [|destruct (_ <? _)%N; [done|apply Hstep; cbn; lia]].
  destruct s1 as [|e s2]; [done|]. destruct (Ascii.eqb e "u"); [|destruct (unescape_char e); [apply Hstep; cbn; lia|done]].
  destruct s2 as [|h1 [|h2 [|h3 [|h4 s6]]]]; try done. destruct (hex4 h1 h2 h3 h4) as [r|]; [|done]. cbn [mbind option_bind].
  do 6 (destruct s6 as [|? s6]; [apply Hstep; cbn; lia|]).
  destruct (hex4 _ _ _ _); [destruct (is_high r && _ && _ && _)|]; apply Hstep; cbn; lia.
Qed.

Lemma span_length p s a b : span p s = (a, b) → a ≠ "" → (String.length b < String.length s)%nat.
Proof. intros [-> _]%span_spec Ha. rewrite append_length. destruct a; [done|]. cbn. lia. Qed.

Lemma keyword_length w v s j t : keyword w v s = Some (j, t) → w ≠ "" → (String.length t < String.length s)%nat.
Proof.
  unfold keyword. destruct (HasPrefix s w) eqn:E; [|done]. intros [= _ <-] Hw. apply HasPrefix_spec in E as [t ->].
  rewrite sdrop_append, append_length. destruct w; [done|]. cbn. lia.
Qed.

Lemma skip_ws_eq s c t : skip_ws s = String c t → (String.length t < String.length s)%nat.
Proof. intros E. pose proof (skip_ws_length s) as H. rewrite E in H. cbn in H. lia. Qed.

(** Every call takes a byte off the text at least. *)
Lemma parse_length fuel :
  (∀ d s j t, parse_value fuel d s = Some (j, t) → (String.length t < String.length s)%nat) ∧
  (∀ d s l t, parse_elements fuel d s = Some (l, t) → (String.length t < String.length s)%nat) ∧
  (∀ d s ms t, parse_members fuel d s = Some (ms, t) → (String.length t < String.length s)%nat).
Proof.
  induction fuel as [|fuel (IHv & IHe & IHm)]; [done|]. split_and!; intros d s x t; cbn [parse_value parse_elements parse_members].
  - destruct (skip_ws s) as [|c u] eqn:Es; [done|]. apply skip_ws_eq in Es.
    destruct (Ascii.eqb c dq).
    { destruct (parse_string u) as [[y v]|] eqn:E; [|done]. cbn. intros [= _ <-]. apply parse_string_length in E. lia. }
    destruct (Ascii.eqb c "{").
    { destruct (_ <=? _); [done|].
      assert (('(ms, v) ← parse_members fuel (d + 1) u; Some (JObj ms, v)) = Some (x, t) → (String.length t < String.length s)%nat) as Hm.
      { destruct (parse_members _ _ _) as [[ms v]|] eqn:E; [|done]. cbn. intros [= _ <-]. apply IHm in E. lia. }
      destruct (skip_ws u) as [|c' u'] eqn:Eu; [exact Hm|]. apply skip_ws_eq in Eu.
      destruct c' as [[] [] [] [] [] [] [] []]; try exact Hm. intros [= _ <-]. lia. }
    destruct (Ascii.eqb c "[").
    { destruct (_ <=? _); [done|].
      assert (('(l, v) ← parse_elements fuel (d + 1) u; Some (JArr l, v)) = Some (x, t) → (String.length t < String.length s)%nat) as Hm.
      { destruct (parse_elements _ _ _) as [[ms v]|] eqn:E; [|done]. cbn. intros [= _ <-]. apply IHe in E. lia. }
      destruct (skip_ws u) as [|c' u'] eqn:Eu; [exact Hm|]. apply skip_ws_eq in Eu.
      destruct c' as [[] [] [] [] [] [] [] []]; try exact Hm. intros [= _ <-]. lia. }
    repeat (destruct (Ascii.eqb c _); [intros E; apply keyword_length in E; [cbn in E; lia|done]|]).
    destruct (span number_char (String c u)) as [n v] eqn:E. destruct (valid_number n) eqn:Hn; [|done]. intros [= _ <-].
    apply span_length in E; [cbn in E; lia|]. by apply valid_number_chars.
  - destruct (parse_value fuel d s) as [[v u]|] eqn:E; [|done]. cbn. apply IHv in E.
    destruct (skip_ws u) as [|c u'] eqn:Eu; [done|]. apply skip_ws_eq in Eu.
    destruct c as [[] [] [] [] [] [] [] []]; try done; [intros [= _ <-]; lia|].
    destruct (parse_elements fuel d u') as [[l w]|] eqn:El; [|done]. cbn. intros [= _ <-]. apply IHe in El. lia.
  - destruct (skip_ws s) as [|q u] eqn:Es; [done|]. apply skip_ws_eq in Es. destruct (Ascii.eqb q dq); [|done].
    destruct (parse_string u) as [[k v]|] eqn:E; [|done]. cbn. apply parse_string_length in E.
    destruct (skip_ws v) as [|c v'] eqn:Ev; [done|]. apply skip_ws_eq in Ev. destruct c as [[] [] [] [] [] [] [] []]; try done.
    destruct (parse_value fuel d v') as [[y w]|] eqn:Ey; [|done]. cbn. apply IHv in Ey.
    destruct (skip_ws w) as [|c w'] eqn:Ew; [done|]. apply skip_ws_eq in Ew. destruct c as [[] [] [] [] [] [] [] []]; try done; [intros [= _ <-]; lia|].
    destruct (parse_members fuel d w') as [[l z]|] eqn:El; [|done]. cbn. intros [= _ <-]. apply IHm in El. lia.
Qed.

Definition enough (n : nat) (s : string) (f : nat) : Prop := (2 * String.length s + n < f)%nat.

(** More calls than enough make no difference. *)
Lemma parse_enough s :
  (∀ f g d, enough 0 s f → enough 0 s g → parse_value f d s = parse_value g d s) ∧
  (∀ f g d, enough 1 s f → enough 1 s g → parse_elements f d s = parse_elements g d s) ∧
  (∀ f g d, enough 1 s f → enough 1 s g → parse_members f d s = parse_members g d s).
Proof.
  unfold enough. induction s as [s IH] using string_ind_len.
  assert (∀ f g d, (2 * String.length s + 0 < f)%nat → (2 * String.length s + 0 < g)%nat → parse_value f d s = parse_value g d s) as Hv.
  { intros [|f] [|g] d Hf Hg; [lia..|]. cbn [parse_value]. destruct (skip_ws s) as [|c u] eqn:Es; [done|]. apply skip_ws_eq in Es.
    destruct (IH u Es) as (_ & He & Hm). rewrite (He f g (d + 1)), (Hm f g (d + 1)) by lia. done. }
  split_and!; [exact Hv|..]; intros [|f] [|g] d Hf Hg; try lia; cbn [parse_elements parse_members].
  - rewrite (Hv f g d) by lia. destruct (parse_value g d s) as [[v u]|] eqn:E; [|done]. cbn. apply parse_length in E.
    destruct (skip_ws u) as [|c u'] eqn:Eu; [done|]. apply skip_ws_eq in Eu. destruct (IH u') as (_ & He & _); [lia|].
    by rewrite (He f g d) by lia.
  - destruct (skip_ws s) as [|q u] eqn:Es; [done|]. apply skip_ws_eq in Es. destruct (Ascii.eqb q dq); [|done].
    destruct (parse_string u) as [[k v]|] eqn:E; [|done]. cbn. apply parse_string_length in E.
    destruct (skip_ws v) as [|c v'] eqn:Ev; [done|]. apply skip_ws_eq in Ev. destruct (IH v') as (Hv' & _ & _); [lia|].
    rewrite (Hv' f g d) by lia. destruct c as [[] [] [] [] [] [] [] []]; try done.
    destruct (parse_value g d v') as [[y w]|] eqn:Ey; [|done]. cbn. apply parse_length in Ey.
    destruct (skip_ws w) as [|c w'] eqn:Ew; [done|]. apply skip_ws_eq in Ew. destruct (IH w') as (_ & _ & Hm); [lia|].
    by rewrite (Hm f g d) by lia.
Qed.

(** The fuel [decode] and [unmarshal] take is enough: [None] is an error of the text. *)
Lemma parse_total s f d : (fuel_for s ≤ f)%nat → parse_value f d s = parse_value (fuel_for s) d s.
Proof. intros Hf. apply parse_enough; unfold enough, fuel_for in *; lia. Qed.

(** * Structs *)

(** A member whose key is the field's name up to case and one whose key is not. *)
Lemma field_nil {A} name assign (zero : A) : field name assign zero [] = Some zero.
Proof. done. Qed.
Lemma field_skip {A} name assign (zero : A) m ms : key_matches name m.1 = false → field name assign zero (m :: ms) = field name assign zero ms.
Proof. intros H. unfold field. cbn. by rewrite H. Qed.
Lemma field_take {A} name assign (zero : A) m ms a : key_matches name m.1 = true → assign m.2 zero = Some a →
  field name assign zero (m :: ms) = field name assign a ms.
Proof. intros H Ha. unfold field. cbn. by rewrite H, Ha. Qed.
