(* ===== verification/SeedClient.v ===== *)
(** internal/seed/client.go: the HTTP client of the seeder.  A peer of Seed.v is a base url
    behind the transport guard, and its listings are GETs of the read endpoints.

    The exchange is a parameter: the status and body of a GET, or an error.  The deadline and
    the semaphore only decide which exchanges fail. *)
From S2P Require Import Prelude GoStrings GoNum GoMaps GoUrl GoJson Sha256 Model Chain StoreSpec Handlers SeedMerge Seed.
#[local] Open Scope Z_scope.

(** * Wire shapes *)

Abbreviation ptr_int64 := (to_ptr to_int64 0).
Abbreviation ptr_string := (to_ptr to_string "").
Abbreviation ptr_bool := (to_ptr to_bool false).

Definition seedRemote_of (j : json) : option wireRemote :=
  ms ← members j;
  id ← field "id" to_int64 0 ms; url ← field "url" to_string "" ms; norm ← field "normalized_url" to_string "" ms;
  transport ← field "transport" to_string "" ms; taint ← field "taint_any_tag_deletion" to_bool false ms;
  Some (mkWireRemote id url norm transport taint).

Definition seedTag_of (j : json) : option wireTag :=
  ms ← members j;
  id ← field "id" to_int64 0 ms; remote ← field "remote_id" to_int64 0 ms; name ← field "tag_name" to_string "" ms;
  current ← field "current_oid" ptr_string None ms; peeled ← field "current_peeled_oid" ptr_string None ms;
  annotated ← field "is_annotated" ptr_bool None ms; first ← field "first_oid" ptr_string None ms;
  seen ← field "first_seen_ns" to_int64 0 ms; last ← field "last_seen_ns" to_int64 0 ms;
  deleted ← field "deleted" to_bool false ms; tainted ← field "tainted" to_bool false ms;
  taint ← field "taint_first_ns" ptr_int64 None ms;
  Some (mkWireTag id remote name current peeled annotated first seen last deleted tainted taint).

Definition seedTaintEvent_of (j : json) : option wireTaintEvent :=
  ms ← members j;
  id ← field "id" to_int64 0 ms; remote ← field "remote_id" to_int64 0 ms; ref ← field "ref_id" to_int64 0 ms;
  reason ← field "reason" to_string "" ms; from ← field "from_oid" ptr_string None ms; to ← field "to_oid" ptr_string None ms;
  at_ ← field "detected_at_ns" to_int64 0 ms;
  Some (mkWireTaintEvent id remote ref reason from to at_).

(** [wireRemoteList], [wireTagList] and [wireTaintEventList]; no items are the empty list. *)
Definition seedList_of {A} (elem : json → option A) (j : json) : option (list A * option Z) :=
  ms ← members j;
  items ← field "items" (to_slice elem) None ms; next ← field "next_cursor" ptr_int64 None ms;
  Some (default [] items, next).

Section client.
(** [netip.ParseAddr] behind brackets, and whether a text with a colon is a loopback address. *)
Context (parse_bracketed : string → option string) (loopback_ip6 : string → bool).
Context (http_get : string → result string (Z * string)).

(** ** The transport guard *)

Definition isLoopbackHost (host : string) : bool := if key_matches "localhost" host then true else ip_loopback loopback_ip6 host.

(** Whether the url passes. *)
Definition checkPeerURL (raw : string) (insecure : bool) : bool :=
  match Parse parse_bracketed raw with
  | None => false
  | Some u =>
      if String.eqb (u_Host u) "" then false
      else if String.eqb (u_Scheme u) "https" then true
      else if String.eqb (u_Scheme u) "http" then insecure || isLoopbackHost (Hostname u)
      else false
  end.

(** ** Requests *)

Definition getJSON {A} (of_json : json → option A) (baseURL path : string) (query : gmap string string) : res A :=
  let reqURL := baseURL +:+ path +:+ (if decide (query = ∅) then "" else "?" +:+ Encode query) in
  match Parse parse_bracketed reqURL with
  | None => Err (ErrOther ("build request " +:+ path))
  | Some _ =>
      match http_get reqURL with
      | Err e => Err (ErrOther ("GET " +:+ path +:+ ": " +:+ e))
      | Ok (status, body) =>
          if negb (status =? 200) then Err (ErrOther ("GET " +:+ path +:+ ": peer returned HTTP " +:+ FormatInt status))
          else
            match decode body ≫= of_json with
            | None => Err (ErrOther ("decode " +:+ path))
            | Some a => Ok a
            end
      end
  end.

Definition page_query (cursor : Z) : gmap string string := <["cursor" := FormatInt cursor]> {["limit" := "1000"]}.

(** [newPeerClient] and the three listings of the client. *)
Definition newPeerClient (insecure : bool) (baseURL : string) : peer :=
  let base := TrimRight baseURL "/" in
  mkPeer (checkPeerURL baseURL insecure)
    (λ cursor, getJSON (seedList_of seedRemote_of) base "/v1/remotes" (page_query cursor))
    (λ id cursor, getJSON (seedList_of seedTag_of) base ("/v1/remotes/" +:+ FormatInt id +:+ "/tags") (page_query cursor))
    (λ id cursor, getJSON (seedList_of seedTaintEvent_of) base ("/v1/remotes/" +:+ FormatInt id +:+ "/taint-events") (page_query cursor)).
End client.
