(* ===== verification/GoFlag.v ===== *)
(** What the command line tools use of Go's [flag] and [time.ParseDuration], and the two
    number forms [flag] reads ([strconv.ParseBool] and [strconv.ParseInt] with base 0). *)
From S2P Require Import Prelude GoStrings GoNum GoTime.
From Stdlib Require Import Floats.SpecFloat.
#[local] Open Scope Z_scope.

(** * Numbers *)

(** [strconv.ParseBool]. *)
Definition ParseBool (s : string) : option bool :=
  if existsb (String.eqb s) ["1"; "t"; "T"; "true"; "TRUE"; "True"] then Some true
  else if existsb (String.eqb s) ["0"; "f"; "F"; "false"; "FALSE"; "False"] then Some false
  else None.

(** The value of a digit in any base, 99 for none. *)
Definition digit_value (c : ascii) : Z :=
  let n := Z.of_N (N_of_ascii (lower_ascii c)) in
  if (48 <=? n) && (n <=? 57) then n - 48 else if (97 <=? n) && (n <=? 122) then n - 87 else 99.

(** Digits of a base between which underscores may stand. *)
Fixpoint parse_base (base : Z) (s : string) (acc : Z) : option Z :=
  match s with
  | EmptyString => Some acc
  | String c s =>
      if Ascii.eqb c "_" then parse_base base s acc
      else if digit_value c <? base then parse_base base s (acc * base + digit_value c) else None
  end.

(** [underscoreOK]: an underscore stands between two digits, or a base prefix and a digit.
    [last] is "0" for a digit or prefix, "_" for an underscore, "^" for the start. *)
Fixpoint underscores_ok (hex : bool) (last : ascii) (s : string) : bool :=
  match s with
  | EmptyString => negb (Ascii.eqb last "_")
  | String c s =>
      if (digit_value c <? 10) || hex && (digit_value c <? 16) then underscores_ok hex "0" s
      else if Ascii.eqb c "_" then Ascii.eqb last "0" && underscores_ok hex "_" s
      else negb (Ascii.eqb last "_") && underscores_ok hex "!" s
  end.

(** Sign, base prefix and the digits after it. *)
Definition split_sign (s : string) : bool * string :=
  match s with
  | String "+" t => (false, t)
  | String "-" t => (true, t)
  | _ => (false, s)
  end.
Definition split_base (s : string) : Z * bool * string :=
  match s with
  | String "0" (String c (String d t)) =>
      if Ascii.eqb (lower_ascii c) "b" then (2, true, String d t)
      else if Ascii.eqb (lower_ascii c) "o" then (8, true, String d t)
      else if Ascii.eqb (lower_ascii c) "x" then (16, true, String d t)
      else (8, false, String c (String d t))
  | String "0" (String c t) => (8, false, String c t)
  | _ => (10, false, s)
  end.

(** [strconv.ParseInt(s, 0, 64)]. *)
Definition ParseInt0 (s : string) : option Z :=
  let '(neg, u) := split_sign s in
  if String.eqb u "" then None
  else
    let '(base, prefixed, digits) := split_base u in
    if negb (underscores_ok (prefixed && (base =? 16)) (if negb (String.eqb digits u) then "0" else "^")%char digits) then None
    else
      n ← parse_base base digits 0;
      if neg : bool then (if 2^63 <? n then None else Some (- n)) else (if 2^63 <=? n then None else Some n).

(** * Durations *)

Definition float64_mul : spec_float → spec_float → spec_float := SFmul prec64 emax64.

Definition is_dec (c : ascii) : bool := (0 <=? digit_value c) && (digit_value c <=? 9).

(** [leadingInt] and [leadingFraction]: the value, and its scale as a power of ten, until the
    value leaves 63 bits. *)
Fixpoint leadingInt (s : string) (x : Z) : option (Z * string) :=
  match s with
  | String c t =>
      if is_dec c then
        if 2 ^ 63 / 10 <? x then None
        else let x := x * 10 + digit_value c in if 2 ^ 63 <? x then None else leadingInt t x
      else Some (x, s)
  | EmptyString => Some (x, "")
  end.
Fixpoint leadingFraction (s : string) (x scale : Z) (overflow : bool) : Z * Z * string :=
  match s with
  | String c t =>
      if is_dec c then
        if overflow || ((2 ^ 63 - 1) / 10 <? x) then leadingFraction t x scale true
        else
          let y := x * 10 + digit_value c in
          if 2 ^ 63 <? y then leadingFraction t x scale true else leadingFraction t y (scale * 10) false
      else (x, scale, s)
  | EmptyString => (x, scale, "")
  end.

Fixpoint take_unit (s : string) : string * string :=
  match s with
  | String c t => if Ascii.eqb c "." || is_dec c then ("", s) else let '(u, r) := take_unit t in (String c u, r)
  | EmptyString => ("", "")
  end.

Definition unit_ns (u : string) : option Z :=
  if String.eqb u "ns" then Some 1
  else if String.eqb u "us" || String.eqb u (String "194" (String "181" "s")) || String.eqb u (String "206" (String "188" "s")) then Some 1000
  else if String.eqb u "ms" then Some 1000000
  else if String.eqb u "s" then Some Second
  else if String.eqb u "m" then Some Minute
  else if String.eqb u "h" then Some Hour
  else None.

(** One number with its unit. *)
Definition duration_part (s : string) : option (Z * string) :=
  '(v, t) ← leadingInt s 0;
  let pre := negb (String.length t =? String.length s)%nat in
  let '(f, scale, t, post) :=
    match t with
    | String "." t' => let '(f, scale, t'') := leadingFraction t' 0 1 false in (f, scale, t'', negb (String.length t'' =? String.length t')%nat)
    | _ => (0, 1, t, false)
    end in
  if negb (pre || post) then None
  else
    let '(u, t) := take_unit t in
    unit ← unit_ns u;
    if 2 ^ 63 / unit <? v then None
    else
      let v := v * unit in
      let v := if 0 <? f then v + int_of_float64 (float64_mul (float64_of_int f) (float64_div (float64_of_int unit) (float64_of_int scale))) else v in
      if 2 ^ 63 <? v then None else Some (v, t).

(** Every part is a byte at least. *)
Fixpoint duration_parts (fuel : nat) (s : string) (d : Z) : option Z :=
  match fuel, s with
  | _, EmptyString => Some d
  | O, _ => None
  | S fuel, String c _ =>
      if negb (Ascii.eqb c "." || is_dec c) then None
      else '(v, t) ← duration_part s; if 2 ^ 63 <? d + v then None else duration_parts fuel t (d + v)
  end.

Definition ParseDuration (s : string) : option Z :=
  let '(neg, u) := split_sign s in
  if String.eqb u "0" then Some 0
  else if String.eqb u "" then None
  else
    d ← duration_parts (String.length u) u 0;
    if neg : bool then Some (wrap64 (- d)) else if 2 ^ 63 - 1 <? d then None else Some d.

(** * Flag sets *)

Inductive flag_kind : Type :=
  | StringFlag
  | BoolFlag
  | IntFlag
  | MultiFlag.

Inductive flag_value : Type :=
  | VString (s : string)
  | VBool (b : bool)
  | VInt (z : Z)
  | VMulti (l : list string).

(** The names of a set, each with the variable it sets. *)
Abbreviation formal := (list (string * (string * flag_kind))).
Definition own (l : list (string * flag_kind)) : formal := map (λ f, (f.1, f)) l.
(** The variables that are set. *)
Abbreviation actual := (gmap string flag_value).

Definition flag_lookup (fs : formal) (name : string) : option (string * flag_kind) := snd <$> List.find (λ f, String.eqb f.1 name) fs.

(** [ErrHelp], or any other error. *)
Inductive flag_error : Type :=
  | ErrHelp
  | FlagError.

(** A value that is set; a [MultiFlag] keeps every one. *)
Definition set_flag (k : flag_kind) (value : string) (old : option flag_value) : option flag_value :=
  match k with
  | StringFlag => Some (VString value)
  | BoolFlag => VBool <$> ParseBool value
  | IntFlag => VInt <$> ParseInt0 value
  | MultiFlag => Some (VMulti (match old with Some (VMulti l) => l | _ => [] end ++ [value]))
  end.

(** The equals sign of [name=value] is not the first byte. *)
Definition split_value (name : string) : string * option string :=
  match IndexByte (sdrop 1 name) "=" with
  | Some i => (stake (S i) name, Some (sdrop (S (S i)) name))
  | None => (name, None)
  end.

(** [FlagSet.Parse] with [ContinueOnError]: the values that are set and [Args]. *)
Fixpoint flag_parse (fs : formal) (args : list string) (vals : actual) : result flag_error (actual * list string) :=
  match args with
  | [] => Ok (vals, [])
  | s :: rest =>
      if (len s <? 2) || negb (HasPrefix s "-") then Ok (vals, args)
      else if String.eqb s "--" then Ok (vals, rest)
      else
        let name := if HasPrefix s "--" then sdrop 2 s else sdrop 1 s in
        if String.eqb name "" || HasPrefix name "-" || HasPrefix name "=" then Err FlagError
        else
          let '(name, value) := split_value name in
          match flag_lookup fs name with
          | None => Err (if String.eqb name "help" || String.eqb name "h" then ErrHelp else FlagError)
          | Some (var, k) =>
              match k, value with
              | BoolFlag, None => flag_parse fs rest (<[var := VBool true]> vals)
              | _, Some v =>
                  match set_flag k v (vals !! var) with
                  | Some v => flag_parse fs rest (<[var := v]> vals)
                  | None => Err FlagError
                  end
              | _, None =>
                  match rest with
                  | [] => Err FlagError
                  | v :: rest' =>
                      match set_flag k v (vals !! var) with
                      | Some v => flag_parse fs rest' (<[var := v]> vals)
                      | None => Err FlagError
                      end
                  end
              end
          end
  end.

Definition get_string (vals : actual) (name def : string) : string :=
  match vals !! name with
  | Some (VString s) => s
  | _ => def
  end.
Definition get_bool (vals : actual) (name : string) (def : bool) : bool :=
  match vals !! name with
  | Some (VBool b) => b
  | _ => def
  end.
Definition get_int (vals : actual) (name : string) (def : Z) : Z :=
  match vals !! name with
  | Some (VInt z) => z
  | _ => def
  end.
Definition get_multi (vals : actual) (name : string) : list string :=
  match vals !! name with
  | Some (VMulti l) => l
  | _ => []
  end.
