(* ===== verification/OapiWire.v ===== *)
(** The JSON of internal/api/oapi/server.gen.go: what the server writes for its response
    structs and how it reads its request structs, field by field in the order of the source. *)
From S2P Require Import Prelude GoStrings GoNum GoJson Model StoreSpec Handlers.
#[local] Open Scope Z_scope.

(** * Responses *)

Definition json_of_Error (msg : string) : json := JObj [("error", JStr msg)].

Definition json_of_Remote (r : oRemote) : json := JObj (
  [("chain_len", JInt (orm_ChainLen r)); ("consecutive_failures", JInt (orm_ConsecutiveFailures r));
   ("created_at_ns", JInt (orm_CreatedAtNs r))] ++
  opt_member "hash_algo" JStr (orm_HashAlgo r) ++
  [("id", JInt (orm_Id r)); ("last_err", JStr (orm_LastErr r)); ("last_ok_ns", JInt (orm_LastOkNs r));
   ("normalized_url", JStr (orm_NormalizedUrl r))] ++
  opt_member "removed_at_ns" JInt (orm_RemovedAtNs r) ++
  [("staleness_budget_ns", JInt (orm_StalenessBudgetNs r)); ("status", JStr (orm_Status r));
   ("sync_interval_ns", JInt (orm_SyncIntervalNs r)); ("taint_any_tag_deletion", JBool (orm_TaintAnyTagDeletion r));
   ("transport", JStr (orm_Transport r)); ("updated_at_ns", JInt (orm_UpdatedAtNs r)); ("url", JStr (orm_Url r))]).

Definition json_of_SyncEntry (s : oSyncEntry) : json := JObj (
  opt_member "chain_head_after" JStr (osy_ChainHeadAfter s) ++ opt_member "chain_head_before" JStr (osy_ChainHeadBefore s) ++
  opt_member "error" JStr (osy_Error s) ++
  [("finished_ns", JInt (osy_FinishedNs s)); ("id", JInt (osy_Id s)); ("remote_id", JInt (osy_RemoteId s));
   ("started_ns", JInt (osy_StartedNs s)); ("status", JStr (osy_Status s)); ("tags_changed", JInt (osy_TagsChanged s));
   ("tags_seen", JInt (osy_TagsSeen s)); ("trigger", JStr (osy_Trigger s))]).

Definition json_of_Tag (t : oTag) : json := JObj (
  opt_member "current_oid" JStr (otg_CurrentOid t) ++ opt_member "current_peeled_oid" JStr (otg_CurrentPeeledOid t) ++
  [("deleted", JBool (otg_Deleted t))] ++ opt_member "first_oid" JStr (otg_FirstOid t) ++
  [("first_seen_ns", JInt (otg_FirstSeenNs t)); ("id", JInt (otg_Id t))] ++
  opt_member "is_annotated" JBool (otg_IsAnnotated t) ++ opt_member "last_changed_ns" JInt (otg_LastChangedNs t) ++
  [("last_seen_ns", JInt (otg_LastSeenNs t)); ("observation_count", JInt (otg_ObservationCount t));
   ("remote_id", JInt (otg_RemoteId t)); ("tag_name", JStr (otg_TagName t))] ++
  opt_member "taint_first_ns" JInt (otg_TaintFirstNs t) ++ [("tainted", JBool (otg_Tainted t))]).

Definition json_of_TaintEvent (e : oTaintEvent) : json := JObj (
  opt_member "ack_note" JStr (ote_AckNote e) ++ opt_member "acked_at_ns" JInt (ote_AckedAtNs e) ++
  opt_member "acked_by" JStr (ote_AckedBy e) ++ opt_member "detail" JStr (ote_Detail e) ++
  [("detected_at_ns", JInt (ote_DetectedAtNs e))] ++ opt_member "from_oid" JStr (ote_FromOid e) ++
  [("id", JInt (ote_Id e))] ++ opt_member "observation_id" JInt (ote_ObservationId e) ++
  [("reason", JStr (ote_Reason e)); ("ref_id", JInt (ote_RefId e)); ("remote_id", JInt (ote_RemoteId e))] ++
  opt_member "to_oid" JStr (ote_ToOid e)).

(** [RemoteList], [SyncAuditList], [TagList] and [TaintEventList]. *)
Definition json_of_page {A} (f : A → json) (p : page A) : json :=
  JObj ([("items", JArr (map f (Items p)))] ++ opt_member "next_cursor" JInt (NextCursor p)).

Definition json_of_VerifyResponse (v : VerifyResponse) : json := JObj (
  [("confidence", JStr (vr_Confidence v))] ++ opt_member "last_synced_ns" JInt (vr_LastSyncedNs v) ++
  opt_member "ledger_proof" (λ p, JObj [("remote_id", JInt (vl_RemoteId p)); ("row_hash", JStr (vl_RowHash p)); ("seq", JInt (vl_Seq p))])
    (vr_LedgerProof v) ++
  opt_member "recorded" (λ c, JObj (
      opt_member "first_seen_ns" JInt (vc_FirstSeenNs c) ++ opt_member "last_seen_ns" JInt (vc_LastSeenNs c) ++
      opt_member "peeled_commit_oid" JStr (vc_PeeledCommitOid c) ++ opt_member "ref_oid" JStr (vc_RefOid c))) (vr_Recorded v) ++
  opt_member "remote" (λ m, JObj [("id", JInt m.1); ("normalized_url", JStr m.2)]) (vr_Remote v) ++
  [("status", JStr (vr_Status v))] ++ opt_member "supplied_commit" JStr (vr_SuppliedCommit v) ++
  opt_member "sync_outcome" JStr (vr_SyncOutcome v) ++ [("tag", JStr (vr_Tag v))] ++
  opt_member "taint" (λ t, JObj (
      opt_member "first_tainted_at_ns" JInt (vt_FirstTaintedAtNs t) ++ opt_member "from_oid" JStr (vt_FromOid t) ++
      opt_member "reason" JStr (vt_Reason t) ++ opt_member "to_oid" JStr (vt_ToOid t))) (vr_Taint v)).

(** * Requests *)

Abbreviation ptr_int64 := (to_ptr to_int64 0).
Abbreviation ptr_string := (to_ptr to_string "").
Abbreviation ptr_bool := (to_ptr to_bool false).

Definition CreateRemoteRequest_of (j : json) : option CreateRemoteRequest :=
  ms ← members j;
  budget ← field "staleness_budget_ns" ptr_int64 None ms;
  interval ← field "sync_interval_ns" ptr_int64 None ms;
  taint ← field "taint_any_tag_deletion" ptr_bool None ms;
  transport ← field "transport" to_string "" ms;
  url ← field "url" to_string "" ms;
  Some (mkCreateRemoteRequest url transport interval budget taint).

Definition UpdateRemoteRequest_of (j : json) : option UpdateRemoteRequest :=
  ms ← members j;
  budget ← field "staleness_budget_ns" ptr_int64 None ms;
  status ← field "status" ptr_string None ms;
  interval ← field "sync_interval_ns" ptr_int64 None ms;
  taint ← field "taint_any_tag_deletion" ptr_bool None ms;
  Some (mkUpdateRemoteRequest interval budget taint status).

Definition AckRequest_of (j : json) : option AckRequest :=
  ms ← members j;
  note ← field "ack_note" ptr_string None ms;
  by_ ← field "acked_by" to_string "" ms;
  Some (mkAckRequest by_ note).
