(* ===== verification/Server.v ===== *)
(** The HTTP server: [NewServer] of internal/api/server.go and the generated glue of
    internal/api/oapi/server.gen.go, from the bytes of a request to the bytes of the response.

    A response is its status and body; headers are left out.  Parameters are the parameter
    binding of github.com/oapi-codegen/runtime, the texts of errors of libraries and of the
    store, and what the router answers when no operation matches. *)
From S2P Require Import Prelude GoStrings GoNum GoHttp GoUrl GoJson Sha256 Model StoreSpec Config Auth Handlers OapiWire.
#[local] Open Scope Z_scope.

(** * Requests and responses *)

Record http_request : Type := mkHttp {
  h_Head : Request;
  h_RawQuery : string;
  h_Body : string;
}.
Record http_response : Type := mkResponse {
  h_Status : Z;
  h_Text : string;
}.

(** [http.Error]. *)
Definition http_Error (msg : string) (code : Z) : http_response := mkResponse code (msg +:+ nl).

(** [r.PathValue] of the wildcard that is the [i]-th segment of its pattern. *)
Definition PathValue (i : nat) (r : http_request) : string :=
  nth i (segments (cleanPath (r_EscapedPath (h_Head r)))) "".

(** [URL.Query]. *)
Definition Query (r : http_request) : Values := ParseQuery (h_RawQuery r).

(** * Errors of binding *)

Inductive bind_error : Type :=
  | RequiredParameterError
  | BindError (text : string).

Definition RequiredParamError (name : string) : string := "Query argument " +:+ name +:+ " is required, but not found".
Definition InvalidParamFormatError (name err : string) : string := "Invalid format for parameter " +:+ name +:+ ": " +:+ err.

(** * Writing a response *)

Definition write_json (code : Z) (body : json) : http_response := mkResponse code (encode body).
Definition write_empty (code : Z) : http_response := mkResponse code "".

Definition VisitGetHealthzResponse (text : string) : http_response := mkResponse 200 text.
Definition VisitListRemotesResponse (r : response (page oRemote)) : http_response :=
  match r with
  | Success code l => write_json code (json_of_page json_of_Remote l)
  | Refused code msg => write_json code (json_of_Error msg)
  end.
Definition VisitCreateRemoteResponse (r : response oRemote) : http_response :=
  match r with
  | Success code b => write_json code (json_of_Remote b)
  | Refused code msg => write_json code (json_of_Error msg)
  end.
Definition VisitDeleteRemoteResponse (r : response ()) : http_response :=
  match r with
  | Success code _ => write_empty code
  | Refused code msg => write_json code (json_of_Error msg)
  end.
Definition VisitGetRemoteResponse (r : response oRemote) : http_response :=
  match r with
  | Success code b => write_json code (json_of_Remote b)
  | Refused code msg => write_json code (json_of_Error msg)
  end.
Definition VisitUpdateRemoteResponse (r : response oRemote) : http_response :=
  match r with
  | Success code b => write_json code (json_of_Remote b)
  | Refused code msg => write_json code (json_of_Error msg)
  end.
Definition VisitTriggerSyncResponse (r : response ()) : http_response :=
  match r with
  | Success code _ => write_empty code
  | Refused code msg => write_json code (json_of_Error msg)
  end.
Definition VisitListSyncsResponse (r : response (page oSyncEntry)) : http_response :=
  match r with
  | Success code l => write_json code (json_of_page json_of_SyncEntry l)
  | Refused code msg => write_json code (json_of_Error msg)
  end.
Definition VisitListTagsResponse (r : response (page oTag)) : http_response :=
  match r with
  | Success code l => write_json code (json_of_page json_of_Tag l)
  | Refused code msg => write_json code (json_of_Error msg)
  end.
Definition VisitGetTagResponse (r : response oTag) : http_response :=
  match r with
  | Success code b => write_json code (json_of_Tag b)
  | Refused code msg => write_json code (json_of_Error msg)
  end.
Definition VisitListTaintEventsResponse (r : response (page oTaintEvent)) : http_response :=
  match r with
  | Success code l => write_json code (json_of_page json_of_TaintEvent l)
  | Refused code msg => write_json code (json_of_Error msg)
  end.
Definition VisitAckTaintEventResponse (r : response ()) : http_response :=
  match r with
  | Success code _ => write_empty code
  | Refused code msg => write_json code (json_of_Error msg)
  end.
Definition VisitVerifyResponse (r : response VerifyResponse) : http_response :=
  match r with
  | Success code b => write_json code (json_of_VerifyResponse b)
  | Refused code msg => write_json code (json_of_Error msg)
  end.

(** [StrictServerImpl.GetHealthz]. *)
Definition GetHealthz : string := "ok".

Definition maxRequestBodyBytes : Z := 2 ^ 20.

Section server.
Context {S T : Type} `{Store S T}.
Context (NormalizeURL : string → res string).
(** [runtime.BindStyledParameterWithOptions] and [runtime.BindQueryParameterWithOptions] with
    the type of the destination, the texts of errors, and whether a decoder finds an error in
    the bytes before the limit of the body. *)
Context (bind_int64 : string → result string Z) (bind_string : string → result string string).
Context (query_string : bool → string → Values → result bind_error (option string)).
Context (query_int query_int64 : string → Values → result bind_error (option Z)).
Context (error_text : error → string) (decode_error : string → string) (malformed : string → bool).

(** A handler that writes its response, on the store. *)
Abbreviation action := (S → http_response * S).

Definition answer (r : http_response) : action := λ s, (r, s).

(** [ErrorHandlerFunc] of the wrapper. *)
Definition ErrorHandlerFunc (msg : string) : action := answer (http_Error msg 400).

(** [requestErrorHandler], which is told whether the error is a [MaxBytesError]. *)
Definition requestErrorHandler (too_large : bool) (text : string) : action :=
  answer (if too_large || Contains text "request body too large" then http_Error "request body too large" 413 else http_Error text 400).

(** The end of every strict handler: an error is a 500, everything else is visited. *)
Definition respond {A} (visit : response A → http_response) (m : SE S error (response A)) : action := λ s,
  match m s with
  | Ok (r, s') => (visit r, s')
  | Err e => (http_Error (error_text e) 500, s)
  end.

(** [limitBody] and the decoder of a strict handler.  Of a body beyond the limit the decoder
    sees the first bytes; what they complete does not depend on the byte after them. *)
Definition decode_body {A} (of_json : json → option A) (r : http_request) (k : A → action) : action :=
  let err too_large := requestErrorHandler too_large ("can't decode JSON body: " +:+ decode_error (h_Body r)) in
  if len (h_Body r) <=? maxRequestBodyBytes then
    match decode (h_Body r) ≫= of_json with
    | Some b => k b
    | None => err false
    end
  else
    let seen := stake (Z.to_nat maxRequestBodyBytes) (h_Body r) in
    match decode (seen +:+ "!") with
    | Some j => match of_json j with Some b => k b | None => err false end
    | None => err (negb (malformed seen))
    end.

(** ** Binding *)

Definition path_int64 (name : string) (i : nat) (r : http_request) (k : Z → action) : action :=
  match bind_int64 (PathValue i r) with
  | Ok z => k z
  | Err e => ErrorHandlerFunc (InvalidParamFormatError name e)
  end.
Definition path_string (name : string) (i : nat) (r : http_request) (k : string → action) : action :=
  match bind_string (PathValue i r) with
  | Ok z => k z
  | Err e => ErrorHandlerFunc (InvalidParamFormatError name e)
  end.
Definition query_param {A} (name : string) (b : result bind_error A) (k : A → action) : action :=
  match b with
  | Ok a => k a
  | Err RequiredParameterError => ErrorHandlerFunc (RequiredParamError name)
  | Err (BindError e) => ErrorHandlerFunc (InvalidParamFormatError name e)
  end.
Definition opt_string (name : string) (r : http_request) := query_param name (query_string false name (Query r)).
Definition req_string (name : string) (r : http_request) (k : string → action) : action :=
  query_param name (query_string true name (Query r)) (λ v, k (default "" v)).
Definition opt_int (name : string) (r : http_request) := query_param name (query_int name (Query r)).
Definition opt_int64 (name : string) (r : http_request) := query_param name (query_int64 name (Query r)).

(** ** Strict handlers *)

Definition strict_GetHealthz : action := answer (VisitGetHealthzResponse GetHealthz).
Definition strict_ListRemotes (url : option string) (limit cursor : option Z) : action :=
  respond VisitListRemotesResponse (ListRemotes NormalizeURL url limit cursor).
Definition strict_CreateRemote (now : Z) (r : http_request) : action :=
  decode_body CreateRemoteRequest_of r (λ body, respond VisitCreateRemoteResponse (CreateRemote NormalizeURL now (Some body))).
Definition strict_DeleteRemote (now remoteId : Z) : action := respond VisitDeleteRemoteResponse (DeleteRemote now remoteId).
Definition strict_GetRemote (remoteId : Z) : action := respond VisitGetRemoteResponse (GetRemote remoteId).
Definition strict_UpdateRemote (now : Z) (r : http_request) (remoteId : Z) : action :=
  decode_body UpdateRemoteRequest_of r (λ body, respond VisitUpdateRemoteResponse (UpdateRemote now remoteId (Some body))).
Definition strict_ListSyncs (remoteId : Z) (limit cursor : option Z) : action :=
  respond VisitListSyncsResponse (ListSyncs remoteId limit cursor).
Definition strict_ListTags (remoteId : Z) (params : ListTagsParams) : action :=
  respond VisitListTagsResponse (ListTags remoteId params).
Definition strict_GetTag (remoteId : Z) (tagName : string) : action := respond VisitGetTagResponse (GetTag remoteId tagName).
Definition strict_ListTaintEvents (remoteId : Z) (limit cursor : option Z) : action :=
  respond VisitListTaintEventsResponse (ListTaintEvents remoteId limit cursor).
Definition strict_AckTaintEvent (now : Z) (principal : option string) (r : http_request) (remoteId eventId : Z) : action :=
  decode_body AckRequest_of r (λ body, respond VisitAckTaintEventResponse (AckTaintEvent now principal remoteId eventId (Some body))).
Definition strict_Verify (now : Z) (params : VerifyParams) : action := respond VisitVerifyResponse (Verify NormalizeURL now params).

(** The cooldown map and whether a background sync starts come with the response. *)
Definition strict_TriggerSync (has_syncer : bool) (last : gmap Z Z) (now remoteId : Z) (s : S) : http_response * S * bool * gmap Z Z :=
  match TriggerSync has_syncer last now remoteId s with
  | Ok (resp, started, last', s') => (VisitTriggerSyncResponse resp, s', started, last')
  | Err e => (http_Error (error_text e) 500, s, false, last)
  end.

(** ** Wrappers *)

Definition siw_ListRemotes (r : http_request) : action :=
  opt_string "url" r (λ url, opt_int "limit" r (λ limit, opt_int64 "cursor" r (λ cursor, strict_ListRemotes url limit cursor))).
Definition siw_CreateRemote (now : Z) (r : http_request) : action := strict_CreateRemote now r.
Definition siw_DeleteRemote (now : Z) (r : http_request) : action := path_int64 "remoteId" 2 r (strict_DeleteRemote now).
Definition siw_GetRemote (r : http_request) : action := path_int64 "remoteId" 2 r strict_GetRemote.
Definition siw_UpdateRemote (now : Z) (r : http_request) : action := path_int64 "remoteId" 2 r (strict_UpdateRemote now r).
Definition siw_ListSyncs (r : http_request) : action :=
  path_int64 "remoteId" 2 r (λ id, opt_int "limit" r (λ limit, opt_int64 "cursor" r (λ cursor, strict_ListSyncs id limit cursor))).
Definition siw_ListTags (r : http_request) : action :=
  path_int64 "remoteId" 2 r (λ id,
  opt_string "q" r (λ q, opt_string "tainted" r (λ tainted,
  opt_int "limit" r (λ limit, opt_int64 "cursor" r (λ cursor, strict_ListTags id (mkListTagsParams q tainted limit cursor)))))).
Definition siw_GetTag (r : http_request) : action :=
  path_int64 "remoteId" 2 r (λ id, path_string "tagName" 4 r (strict_GetTag id)).
Definition siw_ListTaintEvents (r : http_request) : action :=
  path_int64 "remoteId" 2 r (λ id, opt_int "limit" r (λ limit, opt_int64 "cursor" r (λ cursor, strict_ListTaintEvents id limit cursor))).
Definition siw_AckTaintEvent (now : Z) (principal : option string) (r : http_request) : action :=
  path_int64 "remoteId" 2 r (λ id, path_int64 "eventId" 4 r (strict_AckTaintEvent now principal r id)).
Definition siw_Verify (now : Z) (r : http_request) : action :=
  req_string "remote" r (λ remote, req_string "tag" r (λ tag, opt_string "commit" r (λ commit,
    strict_Verify now (mkVerifyParams remote tag commit)))).

(** The id is bound before the handler sees the request. *)
Definition siw_TriggerSync (has_syncer : bool) (last : gmap Z Z) (now : Z) (r : http_request) (s : S)
    : http_response * S * bool * gmap Z Z :=
  match bind_int64 (PathValue 2 r) with
  | Ok id => strict_TriggerSync has_syncer last now id s
  | Err e => (http_Error (InvalidParamFormatError "remoteId" e) 400, s, false, last)
  end.

(** ** The server *)

(** What lives as long as the process: the store, the cooldown map of forced syncs and the
    authenticator. *)
Record server_state : Type := mkServer {
  sv_store : S;
  sv_forced : gmap Z Z;
  sv_authn : Authenticator;
}.

(** A response, with the id of the remote a background sync was started for. *)
Definition reply : Type := http_response * option Z.

Definition on_store (a : action) (st : server_state) : reply * server_state :=
  let '(r, s) := a (sv_store st) in ((r, None), mkServer s (sv_forced st) (sv_authn st)).

(** The operation the router has found. *)
Definition dispatch (has_syncer : bool) (now : Z) (op : string) (principal : option string) (r : http_request)
    (st : server_state) : reply * server_state :=
  if String.eqb op "triggerSync" then
    let '(resp, s, started, forced) := siw_TriggerSync has_syncer (sv_forced st) now r (sv_store st) in
    ((resp, if started : bool then match bind_int64 (PathValue 2 r) with Ok id => Some id | Err _ => None end else None),
     mkServer s forced (sv_authn st))
  else
    on_store
      (if String.eqb op "getHealthz" then strict_GetHealthz
       else if String.eqb op "listRemotes" then siw_ListRemotes r
       else if String.eqb op "createRemote" then siw_CreateRemote now r
       else if String.eqb op "deleteRemote" then siw_DeleteRemote now r
       else if String.eqb op "getRemote" then siw_GetRemote r
       else if String.eqb op "updateRemote" then siw_UpdateRemote now r
       else if String.eqb op "listSyncs" then siw_ListSyncs r
       else if String.eqb op "listTags" then siw_ListTags r
       else if String.eqb op "getTag" then siw_GetTag r
       else if String.eqb op "listTaintEvents" then siw_ListTaintEvents r
       else if String.eqb op "ackTaintEvent" then siw_AckTaintEvent now principal r
       else siw_Verify now r) st.

Context (CompareHashAndPassword : string → string → bool).
Context (jws_Parse : string → option (list jws_header)) (IsSymmetric : string → bool).
Context (jwt_Parse : string → list jwk → string → string → Z → Z → option (option string)).
Context (AddKey : list jwk → jwk → option (list jwk)).
(** [ServeMux] on a path it does not route: not found, a wrong method, or a redirection. *)
Context (mux_default : Request → http_response).

Definition ServeHTTP (has_syncer : bool) (now : Z) (e : idp) (r : http_request) (st : server_state) : option (reply * server_state) :=
  '(served, authn) ← Auth.NewServer CompareHashAndPassword jws_Parse IsSymmetric jwt_Parse AddKey e (sv_authn st) (h_Head r);
  let st := mkServer (sv_store st) (sv_forced st) authn in
  Some (match served with
        | Auth.Refused (Unauthorized _ body) => ((mkResponse 401 body, None), st)
        | Auth.Refused (Next _) | Unrouted => ((mux_default (h_Head r), None), st)
        | Handled op principal => dispatch has_syncer now op principal r st
        end).
End server.
