(* ===== verification/ServerProps.v ===== *)
(** What a request can do to the store: whatever it is, the ledgers and the taint events stay
    and a tainted tag stays tainted.  The handlers are taken apart by rules for programs on
    the store ([safe]), which the methods of the SQLite store meet one by one. *)
From S2P Require Import Prelude GoStrings GoHttp GoUrl GoJson Sha256 Model Chain Sqlc StoreSpec SqliteStore SqliteTx SqliteSpec SyncCorrect SyncProps StoreProps Config Auth Handlers OapiWire Server.
#[local] Open Scope Z_scope.

(** * What lasts *)

(** An event less its acknowledgement. *)
Definition unacked (e : TaintEvent) : TaintEvent := recorded e (te_ID e).

Record extends (a a' : Abs) : Prop := {
  ex_ledger : ∀ k, ledger a k `prefix_of` ledger a' k;
  ex_events : unacked <$> a_events a `prefix_of` unacked <$> a_events a';
  ex_taint : ∀ k r, a_refs a !! k = Some r → rf_Tainted r = true →
    ∃ r', a_refs a' !! k = Some r' ∧ rf_Tainted r' = true ∧ rf_TaintFirstNS r' = rf_TaintFirstNS r;
}.

#[global] Instance extends_preorder : PreOrder extends.
Proof.
  split.
  - intros a. split; [done..|]. eauto.
  - intros a b c [L1 E1 T1] [L2 E2 T2]. split; [intros k; exact (transitivity (L1 k) (L2 k))|exact (transitivity E1 E2)|].
    intros k r Hr Ht. destruct (T1 k r Hr Ht) as (r1 & H1 & Ht1 & <-). destruct (T2 k r1 H1 Ht1) as (r2 & ? & ? & <-). eauto.
Qed.

(** Only remotes and acknowledgements differ. *)
Lemma extends_same a a' : a_obs a' = a_obs a → a_refs a' = a_refs a → unacked <$> a_events a' = unacked <$> a_events a → extends a a'.
Proof. intros Ho Hr He. split; [intros k; unfold ledger; by rewrite Ho|by rewrite He|rewrite Hr; eauto]. Qed.

(** A step of the store that the invariant survives. *)
Definition sound (d d' : db) : Prop := db_good d → db_good d' ∧ extends (db_abs d) (db_abs d').

#[global] Instance sound_preorder : PreOrder sound.
Proof.
  split; [done|]. intros d1 d2 d3 H1 H2 Hd. destruct (H1 Hd) as [Hd2 E1]. destruct (H2 Hd2) as [Hd3 E2].
  split; [done|by etrans].
Qed.

(** * Programs on the store *)

Create HintDb safe.

Definition safe {A} (m : SE db error A) : Prop := ∀ d a d', m d = Ok (a, d') → sound d d'.
Definition reads {A} (m : SE db error A) : Prop := ∀ d a d', m d = Ok (a, d') → d' = d.

Lemma reads_safe {A} (m : SE db error A) : reads m → safe m.
Proof. intros H d a d' ->%H. done. Qed.
Lemma reads_ret {A} (a : A) : reads (mret a).
Proof. by intros d ? d' [= _ <-]. Qed.
Lemma reads_bind {A B} (m : SE db error A) (k : A → SE db error B) : reads m → (∀ a, reads (k a)) → reads (m ≫= k).
Proof. intros Hm Hk d b d' (a & d1 & ->%Hm & ->%Hk)%SE_bind_ok. done. Qed.
Lemma reads_gets {A} f (g : db → A) : reads (run_with f (Sqlc.gets g)).
Proof. by intros d a d' [= _ <-]%run_with_ok. Qed.
Lemma reads_one {A} f (g : db → option A) : reads (run_with f (Sqlc.one g)).
Proof. intros d a d' H%run_with_ok. unfold Sqlc.one in H. by destruct (g d); simplify_eq. Qed.

Lemma keeps_ret {A} (a : A) : safe (mret a).
Proof. apply reads_safe, reads_ret. Qed.
Lemma safe_throw {A} e : safe (A := A) (throw e).
Proof. by intros d a d' [=]. Qed.
Lemma keeps_bind {A B} (m : SE db error A) (k : A → SE db error B) : safe m → (∀ a, safe (k a)) → safe (m ≫= k).
Proof. intros Hm Hk d b d' (a & d1 & H1 & H2)%SE_bind_ok. etrans; [by eapply Hm|by eapply Hk]. Qed.
Lemma safe_catch {A} (m : SE db error A) : safe m → safe (catch m).
Proof. intros Hm d a d'. unfold catch. destruct (m d) as [[x s]|e] eqn:E; intros [= _ <-]; [by eapply Hm|done]. Qed.

(** Taking a handler apart. *)
Ltac safely := repeat match goal with
  | |- ∀ _, _ => intros ?
  | |- safe (_ ≫= _) => apply keeps_bind; [|intros ?]
  | |- safe (catch _) => apply safe_catch
  | |- safe (mret _) => apply keeps_ret
  | |- safe (throw _) => apply safe_throw
  | |- safe (let _ := _ in _) => cbv zeta
  | |- safe (match _ with _ => _ end) => case_match
  | _ => solve [auto with safe]
  end.

(** ** The methods that read *)

Lemma safe_GetRemote id : safe (SqliteStore.GetRemote id).
Proof. apply reads_safe, reads_bind; [apply reads_one|intros; apply reads_ret]. Qed.
Lemma safe_GetRemoteByURL u : safe (SqliteStore.GetRemoteByURL u).
Proof. apply reads_safe, reads_bind; [apply reads_one|intros; apply reads_ret]. Qed.
Lemma safe_ListRemotes limit cursor : safe (SqliteStore.ListRemotes limit cursor).
Proof. apply reads_safe, reads_bind; [apply reads_gets|intros; apply reads_ret]. Qed.
Lemma safe_SelectDueRemotes now limit : safe (SqliteStore.SelectDueRemotes now limit).
Proof. apply reads_safe, reads_bind; [apply reads_gets|intros; apply reads_ret]. Qed.
Lemma safe_GetRef rid name : safe (SqliteStore.GetRef rid name).
Proof. apply reads_safe, reads_bind; [apply reads_one|intros; apply reads_ret]. Qed.
Lemma safe_ListTags rid : safe (SqliteStore.ListTags rid).
Proof. apply reads_safe, reads_bind; [apply reads_gets|intros; apply reads_ret]. Qed.
Lemma safe_LatestObservationForRef id : safe (SqliteStore.LatestObservationForRef id).
Proof. apply reads_safe, reads_bind; [apply reads_one|intros [[? ?] ?]; apply reads_ret]. Qed.
Lemma safe_ListTaintEvents rid limit cursor : safe (SqliteStore.ListTaintEvents rid limit cursor).
Proof. apply reads_safe, reads_bind; [apply reads_gets|intros; apply reads_ret]. Qed.
Lemma safe_ListSyncs rid limit cursor : safe (SqliteStore.ListSyncs rid limit cursor).
Proof. apply reads_safe, reads_bind; [apply reads_gets|intros; apply reads_ret]. Qed.

#[export] Hint Resolve safe_GetRemote safe_GetRemoteByURL safe_ListRemotes safe_SelectDueRemotes safe_GetRef safe_ListTags
  safe_LatestObservationForRef safe_ListTaintEvents safe_ListSyncs : safe.

(** ** The methods that write *)

(** The remotes may change in anything but their ids and chains. *)
Definition same_chains (m m' : gmap Z Remote) : Prop :=
  (∀ id, is_Some (m !! id) → is_Some (m' !! id)) ∧
  ∀ id r', m' !! id = Some r' → ∃ r, m !! id = Some r ∧ rm_ChainHeadHash r' = rm_ChainHeadHash r ∧ rm_ChainLen r' = rm_ChainLen r.

Lemma same_chains_alter (m : gmap Z Remote) id f :
  (∀ r, m !! id = Some r → rm_ChainHeadHash (f r) = rm_ChainHeadHash r ∧ rm_ChainLen (f r) = rm_ChainLen r) → same_chains m (alter f id m).
Proof.
  intros Hf. split; [intros k; by rewrite lookup_alter_is_Some|]. intros k r'. rewrite lookup_alter_Some.
  intros [(-> & r & Hr & ->)|[_ Hk]]; [|by exists r']. exists r. split; [done|by apply Hf].
Qed.

Lemma good_remotes a m : same_chains (a_remotes a) m → good a → good (with_a_remotes a m).
Proof.
  intros [Hin Hsame] [[Hc [Hr1 Hr2] Ho] Ht Hs Hw]. split; [split; [|split|]| | |]; try done.
  - intros k rem Hk. cbn in Hk. destruct (Hsame k rem Hk) as (r & Hr & -> & ->). by apply (Hc k r).
  - intros k r Hk. destruct (Hr1 k r Hk) as [? ?]. split; [done|]. by apply Hin.
  - intros o Hi. by apply Hin, Ho.
Qed.

(** An update of the rows of [remotes] under one id. *)
Lemma remotes_abs d id c set f :
  selects rr_ID c id → (∀ r, rr_ID (set r) = rr_ID r) → (∀ r, rr_ID r = id → remoteFromRow (set r) = f (remoteFromRow r)) →
  db_abs (with_remotes d (UPDATE c set (t_remotes d))) = with_a_remotes (db_abs d) (alter f id (a_remotes (db_abs d))).
Proof.
  intros Hc Hid Hset. unfold db_abs, with_a_remotes. cbn. f_equal. apply tmap_UPDATE; [done|]. intros r Hr. by rewrite Hid, Hset.
Qed.

(** The chains a store had are the chains it has, and nothing moved but the remotes. *)
Definition rests (a a' : Abs) : Prop :=
  a_refs a' = a_refs a ∧ a_leases a' = a_leases a ∧
  ∀ id rem, a_remotes a !! id = Some rem →
    ∃ rem', a_remotes a' !! id = Some rem' ∧ rm_ChainHeadHash rem' = rm_ChainHeadHash rem ∧ rm_ChainLen rem' = rm_ChainLen rem.

Lemma rests_alter a f id :
  (∀ r, a_remotes a !! id = Some r → rm_ChainHeadHash (f r) = rm_ChainHeadHash r ∧ rm_ChainLen (f r) = rm_ChainLen r) →
  rests a (with_a_remotes a (alter f id (a_remotes a))).
Proof.
  intros Hf. split_and!; [done..|]. intros k rem Hk. cbn. destruct (decide (k = id)) as [->|].
  - rewrite lookup_alter_eq, Hk. eexists. split; [done|]. by apply Hf.
  - rewrite lookup_alter_ne by done. by exists rem.
Qed.

Lemma sound_remotes d id c set f :
  selects rr_ID c id → (∀ r, rr_ID (set r) = rr_ID r) → (∀ r, rr_ID r = id → remoteFromRow (set r) = f (remoteFromRow r)) →
  (∀ r, a_remotes (db_abs d) !! id = Some r → rm_ChainHeadHash (f r) = rm_ChainHeadHash r ∧ rm_ChainLen (f r) = rm_ChainLen r) →
  sound d (with_remotes d (UPDATE c set (t_remotes d))) ∧ rests (db_abs d) (db_abs (with_remotes d (UPDATE c set (t_remotes d)))).
Proof.
  intros Hc Hid Hset Hf. pose proof (remotes_abs d id c set f Hc Hid Hset) as E. split; [|rewrite E; by apply rests_alter].
  intros [Hok Hgood]. split; [split|].
  - apply with_remotes_ok; [done|]. by apply UPDATE_keys.
  - rewrite E. apply good_remotes; [|done]. by apply same_chains_alter.
  - rewrite E. by apply extends_same.
Qed.

Lemma safe_CreateRemote r : rm_ChainHeadHash r = genesis_head → rm_ChainLen r = 0 → safe (SqliteStore.CreateRemote r).
Proof.
  intros Hh Hl d id d' H Hd. destruct (CreateRemote_good r d id d' Hd Hh Hl H) as (Hd' & _). split; [done|].
  unfold SqliteStore.CreateRemote in H. apply SE_bind_ok in H as (row & d1 & H%run_with_ok & [= _ <-]).
  unfold Sqlc.CreateRemote in H. step_ok H. by apply extends_same.
Qed.

Lemma SoftDeleteRemote_rests id now d u d' : SqliteStore.SoftDeleteRemote id now d = Ok (u, d') → sound d d' ∧ rests (db_abs d) (db_abs d').
Proof.
  intros H%run_with_ok. unfold Sqlc.SoftDeleteRemote in H. injection H as _ <-.
  apply (sound_remotes d id _ _ (λ r, mkRemote (rm_ID r) (rm_URL r) (rm_NormalizedURL r) (rm_Transport r) (rm_SyncInterval r)
    (rm_StalenessBudget r) (rm_TaintAnyTagDeletion r) (rm_HashAlgo r) (rm_Status r) (rm_LastOkNS r)
    (rm_LastErr r) (rm_ConsecutiveFailures r) (rm_ChainHeadHash r) (rm_ChainLen r) (Some now) (rm_CreatedAtNS r) now));
    [apply selects_remote|done|done|done].
Qed.
Lemma safe_SoftDeleteRemote id now : safe (SqliteStore.SoftDeleteRemote id now).
Proof. intros d u d' H. by apply SoftDeleteRemote_rests in H as [? _]. Qed.

Lemma safe_AckTaintEvent id by_ note now : safe (SqliteStore.AckTaintEvent id by_ note now).
Proof.
  intros d u d' H [Hok Hgood]. destruct (ack_annotates id by_ note now d) as (d1 & H1 & He & Hr & Ho & Hm).
  rewrite H in H1. injection H1 as _ <-. injection (proj1 (run_with_ok _ _ _ _) H) as _ <-. split; [split|].
  - destruct Hok. split; try done. cbn. unfold UPDATE. rewrite Forall_fmap. eapply Forall_impl; [exact ok_taint_cells|].
    intros e He'. cbn. by case_match.
  - destruct Hgood as [[? ? ?] ? ? ?]. by split; [split| | |].
  - apply extends_same; [done..|]. rewrite He, <- list_fmap_compose. apply list_fmap_ext. intros i e _.
    unfold acked. cbn. by case_match.
Qed.

#[export] Hint Resolve safe_SoftDeleteRemote safe_AckTaintEvent : safe.
#[export] Hint Extern 1 (safe (SqliteStore.CreateRemote _)) => apply safe_CreateRemote; reflexivity : safe.

(** A remote that is written back with the chain it was read with, when that is still its chain. *)
Lemma sound_UpdateRemote now body d r d' :
  (∀ r0, a_remotes (db_abs d) !! rm_ID r = Some r0 → rm_ChainHeadHash r = rm_ChainHeadHash r0 ∧ rm_ChainLen r = rm_ChainLen r0) →
  SqliteStore.UpdateRemote (apply_update body now r) d = Ok ((), d') → sound d d' ∧ rests (db_abs d) (db_abs d').
Proof.
  intros Hr H. unfold SqliteStore.UpdateRemote in H. apply SE_bind_ok in H as (row & d1 & H%run_with_ok & [= <-]).
  unfold Sqlc.UpdateRemote in H. step_ok H.
  match goal with H : Sqlc.one _ _ = _ |- _ => unfold Sqlc.one in H; case_match; simplify_eq end.
  match goal with |- sound ?d (with_remotes ?d _) ∧ _ => apply (sound_remotes d (rm_ID r) _ _ (λ r0, let r' := remoteFromRow (remote_row (apply_update body now r) (rm_ID r)) in
    mkRemote (rm_ID r0) (rm_URL r') (rm_NormalizedURL r') (rm_Transport r') (rm_SyncInterval r')
    (rm_StalenessBudget r') (rm_TaintAnyTagDeletion r') (rm_HashAlgo r') (rm_Status r') (rm_LastOkNS r')
    (rm_LastErr r') (rm_ConsecutiveFailures r') (rm_ChainHeadHash r') (rm_ChainLen r') (rm_RemovedAtNS r') (rm_CreatedAtNS r0) (rm_UpdatedAtNS r'))) end;
    [apply selects_remote|done|done|done].
Qed.

(** ** The handlers *)

Section handlers.
Context (NormalizeURL : string → res string).

Lemma safe_with_remote {A} id (k : Remote → SE db error (response A)) : (∀ r, safe (k r)) → safe (with_remote (S := db) (T := sqliteTx) id k).
Proof. intros Hk. unfold with_remote. cbn [st_GetRemote sqlite_store]. safely; apply Hk. Qed.
#[local] Hint Resolve safe_with_remote : safe.

Lemma safe_ListRemotes_handler url limit cursor : safe (Handlers.ListRemotes (S := db) (T := sqliteTx) NormalizeURL url limit cursor).
Proof. unfold Handlers.ListRemotes. cbn [st_GetRemoteByURL st_ListRemotes sqlite_store]. safely. Qed.
Lemma safe_CreateRemote_handler now body : safe (Handlers.CreateRemote (S := db) (T := sqliteTx) NormalizeURL now body).
Proof. unfold Handlers.CreateRemote. cbn [st_CreateRemote sqlite_store]. safely. Qed.
Lemma safe_GetRemote_handler id : safe (Handlers.GetRemote (S := db) (T := sqliteTx) id).
Proof. apply safe_with_remote. safely. Qed.
Lemma safe_DeleteRemote_handler now id : safe (Handlers.DeleteRemote (S := db) (T := sqliteTx) now id).
Proof. apply safe_with_remote. intros r. cbn [st_SoftDeleteRemote sqlite_store]. safely. Qed.
Lemma safe_ListSyncs_handler id limit cursor : safe (Handlers.ListSyncs (S := db) (T := sqliteTx) id limit cursor).
Proof. apply safe_with_remote. intros r. cbn [st_ListSyncs sqlite_store]. safely. Qed.
Lemma safe_ListTags_handler id params : safe (Handlers.ListTags (S := db) (T := sqliteTx) id params).
Proof. apply safe_with_remote. intros r. cbn [st_ListTags sqlite_store]. safely. Qed.
Lemma safe_GetTag_handler id name : safe (Handlers.GetTag (S := db) (T := sqliteTx) id name).
Proof. apply safe_with_remote. intros r. cbn [st_GetRef sqlite_store]. safely. Qed.
Lemma safe_ListTaintEvents_handler id limit cursor : safe (Handlers.ListTaintEvents (S := db) (T := sqliteTx) id limit cursor).
Proof. apply safe_with_remote. intros r. cbn [st_ListTaintEvents sqlite_store]. safely. Qed.
Lemma safe_AckTaintEvent_handler now principal id event body :
  safe (Handlers.AckTaintEvent (S := db) (T := sqliteTx) now principal id event body).
Proof. apply safe_with_remote. intros r. cbn [st_AckTaintEvent sqlite_store]. safely. Qed.
Lemma safe_Verify_handler now params : safe (Handlers.Verify (S := db) (T := sqliteTx) NormalizeURL now params).
Proof.
  unfold Handlers.Verify, resolve_remote, verify_tag. cbn [st_GetRemote st_GetRemoteByURL st_GetRef st_LatestObservationForRef sqlite_store]. safely.
Qed.

(** The one handler that writes back what it has read. *)
Lemma safe_UpdateRemote_handler now id body : safe (Handlers.UpdateRemote (S := db) (T := sqliteTx) now id body).
Proof.
  intros d a d' H Hd. unfold Handlers.UpdateRemote, with_remote in H. apply SE_bind_ok in H as (r & d1 & Hr & H). unfold catch in Hr.
  change (st_GetRemote id d) with (SqliteStore.GetRemote id d) in Hr. rewrite GetRemote_spec in Hr.
  destruct (a_remotes (db_abs d) !! id) as [rem|] eqn:E; injection Hr as <- <-; [|by injection H as _ <-].
  destruct body as [body|]; [|by injection H as _ <-]. unfold update_remote_write in H. apply SE_bind_ok in H as (u & d1 & Hu & H).
  unfold catch in Hu. cbn [st_UpdateRemote sqlite_store] in Hu. destruct (SqliteStore.UpdateRemote _ d) as [[[] d2]|e] eqn:Eu; injection Hu as <- <-.
  - injection H as _ <-. refine (proj1 (sound_UpdateRemote _ _ _ _ _ _ Eu) Hd). intros r0 Hr0.
    assert (rm_ID rem = id) as Hid by (by apply tmap_inv in E as (row & _ & <- & <-)). rewrite Hid, E in Hr0. by injection Hr0 as <-.
  - destruct e; try discriminate H. by injection H as _ <-.
Qed.
End handlers.

#[export] Hint Resolve safe_ListRemotes_handler safe_CreateRemote_handler safe_GetRemote_handler safe_DeleteRemote_handler
  safe_UpdateRemote_handler safe_ListSyncs_handler safe_ListTags_handler safe_GetTag_handler safe_ListTaintEvents_handler
  safe_AckTaintEvent_handler safe_Verify_handler : safe.

(** * The server *)

Section server.
Context (NormalizeURL : string → res string).
Context (bind_int64 : string → result string Z) (bind_string : string → result string string).
Context (query_string : bool → string → Values → result bind_error (option string)).
Context (query_int query_int64 : string → Values → result bind_error (option Z)).
Context (error_text : error → string) (decode_error : string → string) (malformed : string → bool).

(** Handlers that write their response. *)
Definition safe_action (a : db → http_response * db) : Prop := ∀ d, sound d (a d).2.

Lemma safe_answer r : safe_action (answer r).
Proof. done. Qed.
Lemma safe_respond {A} (visit : response A → http_response) (m : SE db error (response A)) :
  safe m → safe_action (respond error_text visit m).
Proof. intros Hm d. unfold respond. destruct (m d) as [[r d']|e] eqn:E; [by eapply Hm|done]. Qed.
Lemma safe_decode_body {A} (of_json : json → option A) r k :
  (∀ b, safe_action (k b)) → safe_action (decode_body decode_error malformed of_json r k).
Proof. intros Hk d. unfold decode_body, requestErrorHandler. repeat case_match; try apply Hk; apply safe_answer. Qed.
Lemma safe_path_int64 name i r k : (∀ z, safe_action (k z)) → safe_action (path_int64 bind_int64 name i r k).
Proof. intros Hk d. unfold path_int64. case_match; [apply Hk|apply safe_answer]. Qed.
Lemma safe_path_string name i r k : (∀ z, safe_action (k z)) → safe_action (path_string bind_string name i r k).
Proof. intros Hk d. unfold path_string. case_match; [apply Hk|apply safe_answer]. Qed.
Lemma safe_query_param {A} name (b : result bind_error A) k : (∀ a, safe_action (k a)) → safe_action (query_param name b k).
Proof. intros Hk d. unfold query_param. repeat case_match; try apply Hk; apply safe_answer. Qed.

Ltac safely_act := repeat first
  [ apply safe_path_int64; intros ? | apply safe_path_string; intros ? | apply safe_query_param; intros ?
  | apply safe_decode_body; intros ? | apply safe_respond; auto with safe | apply safe_answer ].

Abbreviation serve := (ServeHTTP (S := db) (T := sqliteTx) NormalizeURL bind_int64 bind_string query_string query_int query_int64
  error_text decode_error malformed).

(** Whatever the request, the store it leaves is in order and extends the one it found. *)
Lemma ServeHTTP_sound compare jws sym jwt add mux has_syncer now e r st rep st' :
  serve compare jws sym jwt add mux has_syncer now e r st = Some (rep, st') → sound (sv_store st) (sv_store st').
Proof.
  unfold ServeHTTP. destruct (Auth.NewServer _ _ _ _ _ _ _ _) as [[s authn]|]; [|done]. cbn [mbind option_bind].
  intros H. injection H as H. destruct s as [g|op principal|].
  - destruct g; by injection H as _ <-.
  - unfold dispatch in H. destruct (String.eqb op "triggerSync").
    + unfold siw_TriggerSync, strict_TriggerSync, TriggerSync in H. cbn [sv_store sv_forced sv_authn] in H.
      destruct (bind_int64 _) as [id|]; [|by injection H as _ <-].
      unfold mbind, SE_bind, catch in H. cbn [st_GetRemote sqlite_store] in H.
      assert (∀ m, (SqliteStore.GetRemote id (sv_store st) = m) → match m with Ok (_, d) => d = sv_store st | Err _ => True end) as Hread.
      { intros m <-. destruct (SqliteStore.GetRemote id (sv_store st)) as [[rem d]|] eqn:E; [|done].
        eapply (reads_bind _ (λ row, mret (remoteFromRow row))); [apply reads_one|intros; apply reads_ret|exact E]. }
      specialize (Hread _ eq_refl). destruct (SqliteStore.GetRemote id (sv_store st)) as [[rem d]|er]; [subst d|].
      * destruct has_syncer; [destruct (allowForcedSync _ _ _) as [[] last]|]; by injection H as _ <-.
      * destruct er; by injection H as _ <-.
    + unfold on_store in H. match type of H with context [?a (sv_store _)] => assert (safe_action a) as Ha end.
      { repeat case_match; unfold strict_GetHealthz, siw_ListRemotes, siw_CreateRemote, siw_DeleteRemote, siw_GetRemote, siw_UpdateRemote,
          siw_ListSyncs, siw_ListTags, siw_GetTag, siw_ListTaintEvents, siw_AckTaintEvent, siw_Verify, opt_string, opt_int, opt_int64, req_string,
          strict_ListRemotes, strict_CreateRemote, strict_DeleteRemote, strict_GetRemote, strict_UpdateRemote, strict_ListSyncs, strict_ListTags,
          strict_GetTag, strict_ListTaintEvents, strict_AckTaintEvent, strict_Verify; safely_act. }
      specialize (Ha (sv_store st)). destruct (_ (sv_store st)) as [resp d] in H, Ha. injection H as _ <-. exact Ha.
  - by injection H as _ <-.
Qed.
End server.
