(* ===== verification/OapiEnums.v ===== *)
(** The enumerations of internal/api/oapi/server.gen.go, and that no answer of the server
    leaves them. *)
From S2P Require Import Prelude GoStrings GoMaps Model StoreSpec Sqlc SqliteStore SqliteTx SqliteSpec Handlers OapiWire SyncProps StoreProps HandlersProps ServerProps.
#[local] Open Scope Z_scope.

(** * Values *)

Definition CreateRemoteRequestTransport_Valid (e : string) : bool :=
  if String.eqb e "https" then true else if String.eqb e "ssh" then true else false.
Definition RemoteHashAlgo_Valid (e : string) : bool :=
  if String.eqb e "sha1" then true else if String.eqb e "sha256" then true else false.
Definition RemoteStatus_Valid (e : string) : bool :=
  if String.eqb e "active" then true else if String.eqb e "degraded" then true else if String.eqb e "paused" then true else false.
Definition RemoteTransport_Valid (e : string) : bool :=
  if String.eqb e "https" then true else if String.eqb e "ssh" then true else false.
Definition SyncEntryStatus_Valid (e : string) : bool :=
  if String.eqb e "failed" then true else if String.eqb e "ok" then true else if String.eqb e "partial" then true else false.
Definition SyncEntryTrigger_Valid (e : string) : bool :=
  if String.eqb e "manual" then true else if String.eqb e "register" then true else if String.eqb e "scheduled" then true else false.
Definition TaintEventReason_Valid (e : string) : bool :=
  if String.eqb e "tag_deleted_recreated" then true else if String.eqb e "tag_oid_changed" then true else false.
Definition UpdateRemoteRequestStatus_Valid (e : string) : bool :=
  if String.eqb e "active" then true else if String.eqb e "degraded" then true else if String.eqb e "paused" then true else false.
Definition VerifyResponseConfidence_Valid (e : string) : bool :=
  if String.eqb e "authoritative" then true else if String.eqb e "stale" then true else false.
Definition VerifyResponseStatus_Valid (e : string) : bool :=
  if String.eqb e "doesnt_exist" then true else if String.eqb e "mismatch" then true
  else if String.eqb e "not_tracked" then true else if String.eqb e "ok" then true else if String.eqb e "tainted" then true else false.
Definition VerifyResponseSyncOutcome_Valid (e : string) : bool :=
  if String.eqb e "failed" then true else if String.eqb e "never" then true else if String.eqb e "ok" then true else false.
Definition ListTagsParamsTainted_Valid (e : string) : bool :=
  if String.eqb e "any" then true else if String.eqb e "never" then true else if String.eqb e "only" then true else false.

(** * Answers within the enumerations *)

Definition when {A} (valid : A → bool) (v : option A) : bool := from_option valid true v.
Definition Remote_conforms (r : oRemote) : Prop :=
  RemoteTransport_Valid (orm_Transport r) && RemoteStatus_Valid (orm_Status r) && when RemoteHashAlgo_Valid (orm_HashAlgo r) = true.
Definition SyncEntry_conforms (s : oSyncEntry) : Prop := SyncEntryTrigger_Valid (osy_Trigger s) && SyncEntryStatus_Valid (osy_Status s) = true.
Definition TaintEvent_conforms (e : oTaintEvent) : Prop := TaintEventReason_Valid (ote_Reason e) = true.
Definition Verify_conforms (v : VerifyResponse) : Prop :=
  VerifyResponseStatus_Valid (vr_Status v) && VerifyResponseConfidence_Valid (vr_Confidence v) && when VerifyResponseSyncOutcome_Valid (vr_SyncOutcome v)
  && when (λ t, when TaintEventReason_Valid (vt_Reason t)) (vr_Taint v) = true.
Definition page_conforms {A} (P : A → Prop) (p : page A) : Prop := Forall P (Items p).

(** What holds of the body of a success. *)
Definition answers {A} (P : A → Prop) (r : response A) : Prop :=
  match r with
  | Success _ b => P b
  | Refused _ _ => True
  end.

(** The CHECK constraints of db/migrations-sqlite/0001_init.sql, on every row. *)
Record checked (d : db) : Prop := {
  ck_remotes : Forall (λ r, remote_checks r = true) (t_remotes d);
  ck_syncs : Forall (λ s, in_list (sr_Trigger s) ["register"; "scheduled"; "manual"] && in_list (sr_Status s) ["ok"; "partial"; "failed"] = true) (t_syncs d);
  ck_events : Forall (λ e, in_list (tr_Reason e) ["tag_oid_changed"; "tag_deleted_recreated"] = true) (t_taint_events d);
}.

(** A program on the store that keeps the constraints and returns what [P] says. *)
Definition conforms {A} (P : A → Prop) (m : SE db error A) : Prop :=
  ∀ d a d', checked d → m d = Ok (a, d') → checked d' ∧ P a.

(** * Rules *)

Lemma conforms_ret {A} (P : A → Prop) a : P a → conforms P (mret a).
Proof. intros HP d ? d' Hd [= <- <-]. done. Qed.
Lemma conforms_throw {A} (P : A → Prop) e : conforms P (throw e).
Proof. by intros d a d' _ H. Qed.
Lemma conforms_bind {A B} (P : A → Prop) (Q : B → Prop) m k : conforms P m → (∀ a, P a → conforms Q (k a)) → conforms Q (m ≫= k).
Proof. intros Hm Hk d b d' Hd (a & d1 & H1 & H2)%SE_bind_ok. destruct (Hm _ _ _ Hd H1) as [Hd1 Ha]. by eapply Hk. Qed.
Lemma conforms_catch {A} (P : A → Prop) m : conforms P m → conforms (λ r : res A, match r with Ok a => P a | Err _ => True end) (catch m).
Proof.
  intros Hm d r d' Hd H. unfold catch in H. destruct (m d) as [[a d1]|e] eqn:E; injection H as <- <-; [|done]. by eapply Hm.
Qed.
Lemma conforms_weaken {A} (P Q : A → Prop) m : (∀ a, P a → Q a) → conforms P m → conforms Q m.
Proof. intros HPQ Hm d a d' Hd H. destruct (Hm _ _ _ Hd H). eauto. Qed.

(** A statement that reads. *)
Lemma conforms_gets {A} (P : A → Prop) f (g : db → A) : (∀ d, checked d → P (g d)) → conforms P (run_with f (Sqlc.gets g)).
Proof. intros HP d a d' Hd [= <- <-]%run_with_ok. auto. Qed.
Lemma conforms_one {A} (P : A → Prop) f (g : db → option A) : (∀ d a, checked d → g d = Some a → P a) → conforms P (run_with f (Sqlc.one g)).
Proof. intros HP d a d' Hd H%run_with_ok. unfold Sqlc.one in H. destruct (g d) eqn:E; simplify_eq. eauto. Qed.


(** * Rows *)

Lemma in_list_Valid s l : in_list s l = true → s ∈ l.
Proof. unfold in_list. intros (x & Hx & ->%String.eqb_eq)%existsb_exists. by apply list_elem_of_In. Qed.

Lemma row_conforms row : remote_checks row = true → Remote_conforms (remoteToOAPI (remoteFromRow row)).
Proof.
  unfold remote_checks, Remote_conforms. rewrite !andb_true_iff. intros [[Ht Hh] Hs].
  cbn [orm_Transport orm_Status orm_HashAlgo remoteToOAPI remoteFromRow rm_Transport rm_Status rm_HashAlgo]. split_and!.
  - exact Ht.
  - exact Hs.
  - by destruct (rr_HashAlgo row).
Qed.
Lemma sync_conforms row : in_list (sr_Trigger row) ["register"; "scheduled"; "manual"] && in_list (sr_Status row) ["ok"; "partial"; "failed"] = true →
  SyncEntry_conforms (syncToOAPI (syncFromRow row)).
Proof.
  rewrite andb_true_iff. intros [Ht%in_list_Valid Hs%in_list_Valid]. unfold SyncEntry_conforms. cbn [osy_Trigger osy_Status syncToOAPI syncFromRow sy_Trigger sy_Status].
  rewrite !elem_of_cons in Ht, Hs. destruct Ht as [->|[->|[->|?%elem_of_nil]]]; try done; by destruct Hs as [->|[->|[->|?%elem_of_nil]]].
Qed.
Lemma event_conforms row : in_list (tr_Reason row) ["tag_oid_changed"; "tag_deleted_recreated"] = true → TaintEvent_conforms (taintEventToOAPI (taintEventFromRow row)).
Proof.
  intros Hr%in_list_Valid. unfold TaintEvent_conforms. cbn [ote_Reason taintEventToOAPI taintEventFromRow te_Reason].
  rewrite !elem_of_cons in Hr. by destruct Hr as [->|[->|?%elem_of_nil]].
Qed.

Lemma Forall_page {A B} (P : A → Prop) (Q : B → Prop) (f : A → B) n key p l :
  Forall P l → (∀ a, P a → Q (f a)) → Forall Q (map f (LIMIT n (ORDER_BY key (List.filter p l)))).
Proof.
  intros H HPQ. rewrite Forall_forall in H. apply Forall_forall. intros b (a & -> & Ha)%list_elem_of_fmap. apply HPQ, H.
  unfold LIMIT in Ha. assert (a ∈ ORDER_BY key (List.filter p l)) as Hin.
  { destruct (n <? 0); [done|]. apply elem_of_take in Ha as (i & Hi & _). by eapply list_elem_of_lookup_2. }
  rewrite ORDER_BY_Permutation in Hin. by apply elem_of_filter_bool in Hin as [? _].
Qed.

(** * Methods of the store *)

Definition Remote_fine (r : Remote) : Prop := Remote_conforms (remoteToOAPI r).

Lemma conforms_GetRemote id : conforms Remote_fine (SqliteStore.GetRemote id).
Proof.
  unfold SqliteStore.GetRemote. eapply (conforms_bind (λ row, remote_checks row = true)); [|intros row Hrow; apply conforms_ret; exact (row_conforms row Hrow)].
  apply conforms_one. intros d row Hd [H _]%find_some. apply (proj1 (Forall_forall _ _) (ck_remotes _ Hd)). by apply list_elem_of_In.
Qed.
Lemma conforms_GetRemoteByURL u : conforms Remote_fine (SqliteStore.GetRemoteByURL u).
Proof.
  unfold SqliteStore.GetRemoteByURL. eapply (conforms_bind (λ row, remote_checks row = true)); [|intros row Hrow; apply conforms_ret; exact (row_conforms row Hrow)].
  apply conforms_one. intros d row Hd [H _]%find_some. apply (proj1 (Forall_forall _ _) (ck_remotes _ Hd)). by apply list_elem_of_In.
Qed.
Lemma conforms_ListRemotes limit cursor : conforms (λ p, Forall Remote_fine p.1) (SqliteStore.ListRemotes limit cursor).
Proof.
  unfold SqliteStore.ListRemotes. eapply (conforms_bind (λ rows, Forall Remote_fine (map remoteFromRow rows))); [|intros rows Hrows; apply conforms_ret; exact Hrows].
  apply conforms_gets. intros d Hd. eapply Forall_page; [exact (ck_remotes _ Hd)|apply row_conforms].
Qed.
Lemma conforms_ListTaintEvents rid limit cursor : conforms (λ p, Forall (λ e, TaintEvent_conforms (taintEventToOAPI e)) p.1) (SqliteStore.ListTaintEvents rid limit cursor).
Proof.
  unfold SqliteStore.ListTaintEvents. eapply (conforms_bind (λ rows, Forall (λ e, TaintEvent_conforms (taintEventToOAPI e)) (map taintEventFromRow rows)));
    [|intros rows Hrows; apply conforms_ret; exact Hrows].
  apply conforms_gets. intros d Hd. eapply Forall_page; [exact (ck_events _ Hd)|apply event_conforms].
Qed.
Lemma conforms_ListSyncs rid limit cursor : conforms (λ p, Forall (λ s, SyncEntry_conforms (syncToOAPI s)) p.1) (SqliteStore.ListSyncs rid limit cursor).
Proof.
  unfold SqliteStore.ListSyncs. eapply (conforms_bind (λ rows, Forall (λ s, SyncEntry_conforms (syncToOAPI s)) (map syncFromRow rows)));
    [|intros rows Hrows; apply conforms_ret; exact Hrows].
  apply conforms_gets. intros d Hd. pose proof (proj1 (Forall_forall _ _) (ck_syncs _ Hd)) as Hs. apply Forall_forall. intros s (row & -> & Hrow)%list_elem_of_fmap.
  apply sync_conforms, Hs. unfold LIMIT in Hrow. assert (row ∈ newest_first d rid) as Hin.
  { destruct (_ <? 0); [by apply elem_of_filter_bool in Hrow as [? _]|]. apply elem_of_take in Hrow as (i & Hi & _).
    apply list_elem_of_lookup_2 in Hi. by apply elem_of_filter_bool in Hi as [? _]. }
  unfold newest_first in Hin. rewrite elem_of_reverse, ORDER_BY_Permutation in Hin. by apply elem_of_filter_bool in Hin as [? _].
Qed.

Lemma Forall_UPDATE {A} (P : A → Prop) c set l : Forall P l → (∀ a, P a → P (set a)) → Forall P (UPDATE c set l).
Proof. intros H Hs. unfold UPDATE. apply Forall_fmap. eapply Forall_impl; [exact H|]. intros a Ha. cbn. destruct (c a); auto. Qed.

(** What a statement has required. *)
Ltac requirements := repeat match goal with H : require _ _ _ = Ok _ |- _ => apply require_ok in H as [? [= -> ->]] end.

Lemma conforms_CreateRemote r : conforms (λ _, True) (SqliteStore.CreateRemote r).
Proof.
  intros d id d' Hd H. unfold SqliteStore.CreateRemote in H. apply SE_bind_ok in H as (row & d1 & H%run_with_ok & [= _ <-]).
  unfold Sqlc.CreateRemote in H. step_ok H. split; [|done]. destruct Hd as [Hr Hs He]. split; [|done..].
  cbn [t_remotes]. apply Forall_app. split; [done|]. apply Forall_singleton. requirements. done.
Qed.

Lemma conforms_SoftDeleteRemote id now : conforms (λ _, True) (SqliteStore.SoftDeleteRemote id now).
Proof.
  intros d u d' [Hr Hs He] H%run_with_ok. unfold Sqlc.SoftDeleteRemote in H. injection H as _ <-. split; [|done]. split; [|done..].
  apply Forall_UPDATE; [done|]. intros r Hc. exact Hc.
Qed.

Lemma conforms_AckTaintEvent id by_ note now : conforms (λ _, True) (SqliteStore.AckTaintEvent id by_ note now).
Proof.
  intros d u d' [Hr Hs He] H%run_with_ok. unfold Sqlc.AckTaintEvent in H. injection H as _ <-. split; [|done]. split; [done..|].
  apply Forall_UPDATE; [done|]. intros r Hc. exact Hc.
Qed.

Lemma row_checked r id : remote_checks (remote_row r id) = true → Remote_fine r.
Proof.
  intros H%row_conforms. revert H. unfold Remote_fine, Remote_conforms.
  cbn [orm_Transport orm_Status orm_HashAlgo remoteToOAPI remoteFromRow rm_Transport rm_Status rm_HashAlgo remote_row rr_Transport rr_Status rr_HashAlgo].
  by destruct (rm_HashAlgo r).
Qed.

(** What an update writes has passed the constraints. *)
Lemma conforms_UpdateRemote r : conforms (λ _, Remote_fine r) (SqliteStore.UpdateRemote r).
Proof.
  intros d u d' [Hr Hs He] H. unfold SqliteStore.UpdateRemote in H. apply SE_bind_ok in H as (row & d1 & H%run_with_ok & [= _ <-]).
  unfold Sqlc.UpdateRemote in H. step_ok H.
  match goal with H : Sqlc.one _ _ = _ |- _ => unfold Sqlc.one in H; case_match; simplify_eq end.
  requirements. match goal with H : List.find _ _ = Some _ |- _ => apply find_some in H as [Hin Hk] end.
  assert (existsb (λ r0, rr_ID r0 =? rm_ID r) (t_remotes x0) = true) as Hex.
  { apply existsb_exists. cbn [t_remotes with_remotes] in Hin. unfold UPDATE in Hin. apply in_map_iff in Hin as (r0 & <- & Hin). exists r0. split; [done|].
    destruct (rr_ID r0 =? rm_ID r) eqn:E; [done|]. rewrite E in Hk. done. }
  rewrite Hex in *. cbn [negb orb] in *.
  match goal with H : remote_checks _ = true |- _ => rename H into Hck end. split; [|exact (row_checked _ _ Hck)].
  split; [|done..]. apply Forall_UPDATE; [done|]. intros r0 _. exact Hck.
Qed.



Lemma reads_conform {A} (m : SE db error A) : (∀ d a d', m d = Ok (a, d') → d' = d) → conforms (λ _, True) m.
Proof. by intros Hm d a d' Hd ->%Hm. Qed.

Lemma conforms_reads {A} (m : SE db error A) : reads m → conforms (λ _, True) m.
Proof. by intros Hm d a d' Hd ->%Hm. Qed.

Lemma reads_catch {A} (m : SE db error A) : reads m → reads (catch m).
Proof. intros Hm d r d' H. unfold catch in H. destruct (m d) as [[a d1]|e] eqn:E; injection H as _ <-; [by eapply Hm|done]. Qed.
Lemma conforms_catch_reads {A} (m : SE db error A) : reads m → conforms (λ _, True) (catch m).
Proof. intros Hm. eapply conforms_weaken; [|by apply conforms_catch, conforms_reads]. done. Qed.

(** * Handlers *)

Section handlers.
Context (NormalizeURL : string → res string).

Lemma conforms_with_remote {A} (P : A → Prop) id (k : Remote → SE db error (response A)) :
  (∀ r, Remote_fine r → conforms (answers P) (k r)) → conforms (answers P) (with_remote (S := db) (T := sqliteTx) id k).
Proof.
  intros Hk. unfold with_remote. cbn [st_GetRemote sqlite_store]. eapply conforms_bind; [apply conforms_catch, conforms_GetRemote|].
  intros [r|e] Hr; [by apply Hk|]. destruct e; try apply conforms_throw. by apply conforms_ret.
Qed.

Lemma conforms_ListRemotes_handler url limit cursor :
  conforms (answers (page_conforms Remote_conforms)) (Handlers.ListRemotes (S := db) (T := sqliteTx) NormalizeURL url limit cursor).
Proof.
  unfold Handlers.ListRemotes. cbn [st_GetRemoteByURL st_ListRemotes sqlite_store]. destruct (url ≫= nonempty).
  - cbv zeta. eapply conforms_bind; [apply conforms_catch, conforms_GetRemoteByURL|]. intros [r|e] Hr.
    + apply conforms_ret. by apply Forall_singleton.
    + destruct e; try apply conforms_throw. apply conforms_ret. constructor.
  - eapply conforms_bind; [apply conforms_ListRemotes|]. intros p Hp. apply conforms_ret. by apply Forall_fmap.
Qed.

Lemma conforms_GetRemote_handler id : conforms (answers Remote_conforms) (Handlers.GetRemote (S := db) (T := sqliteTx) id).
Proof. apply conforms_with_remote. intros r Hr. by apply conforms_ret. Qed.

Lemma conforms_CreateRemote_handler now body :
  conforms (answers Remote_conforms) (Handlers.CreateRemote (S := db) (T := sqliteTx) NormalizeURL now body).
Proof.
  unfold Handlers.CreateRemote. cbn [st_CreateRemote sqlite_store]. destruct body as [body|]; [|by apply conforms_ret].
  destruct (String.eqb (cr_Url body) ""); [by apply conforms_ret|]. destruct (String.eqb (cr_Transport body) ""); [by apply conforms_ret|].
  destruct (NormalizeURL (cr_Url body)) as [norm|e]; [|destruct e; by apply conforms_ret || apply conforms_throw]. cbv zeta.
  destruct (String.eqb (cr_Transport body) TransportHTTPS || String.eqb (cr_Transport body) TransportSSH) eqn:Ht; [|by apply conforms_ret].
  cbn [negb]. eapply conforms_bind; [apply conforms_catch, conforms_CreateRemote|]. intros [id|e] _.
  - apply conforms_ret. cbn [answers]. unfold Remote_conforms. apply andb_true_iff. split; [|done]. apply andb_true_iff. split; [|done].
    change ((if String.eqb (cr_Transport body) TransportHTTPS then true else if String.eqb (cr_Transport body) TransportSSH then true else false) = true).
    revert Ht. by destruct (String.eqb _ _), (String.eqb _ _).
  - destruct e; by apply conforms_ret || apply conforms_throw.
Qed.

Lemma conforms_UpdateRemote_handler now id body :
  conforms (answers (λ r, Remote_conforms r ∧ ∀ status, body ≫= ur_Status = Some status → UpdateRemoteRequestStatus_Valid status = true))
    (Handlers.UpdateRemote (S := db) (T := sqliteTx) now id body).
Proof.
  apply conforms_with_remote. intros r Hr. destruct body as [body|]; [|by apply conforms_ret]. unfold update_remote_write. cbn [st_UpdateRemote sqlite_store].
  cbv zeta. eapply conforms_bind; [apply conforms_catch, conforms_UpdateRemote|]. intros [u|e] Hu.
  - apply conforms_ret. split; [exact Hu|]. cbn [mbind option_bind]. intros status Hs. unfold Remote_fine, Remote_conforms in Hu.
    rewrite !andb_true_iff in Hu. destruct Hu as [[_ Hu] _]. cbn [orm_Status remoteToOAPI rm_Status apply_update] in Hu. by rewrite Hs in Hu.
  - destruct e; by apply conforms_ret || apply conforms_throw.
Qed.

Lemma conforms_ListSyncs_handler id limit cursor :
  conforms (answers (page_conforms SyncEntry_conforms)) (Handlers.ListSyncs (S := db) (T := sqliteTx) id limit cursor).
Proof.
  apply conforms_with_remote. intros r _. cbn [st_ListSyncs sqlite_store]. eapply conforms_bind; [apply conforms_ListSyncs|].
  intros p Hp. apply conforms_ret. by apply Forall_fmap.
Qed.

Lemma conforms_ListTaintEvents_handler id limit cursor :
  conforms (answers (page_conforms TaintEvent_conforms)) (Handlers.ListTaintEvents (S := db) (T := sqliteTx) id limit cursor).
Proof.
  apply conforms_with_remote. intros r _. cbn [st_ListTaintEvents sqlite_store]. eapply conforms_bind; [apply conforms_ListTaintEvents|].
  intros p Hp. apply conforms_ret. by apply Forall_fmap.
Qed.

Lemma conforms_DeleteRemote_handler now id : conforms (answers (λ _, True)) (Handlers.DeleteRemote (S := db) (T := sqliteTx) now id).
Proof.
  apply conforms_with_remote. intros r _. cbn [st_SoftDeleteRemote sqlite_store]. eapply conforms_bind; [apply conforms_SoftDeleteRemote|].
  intros u _. by apply conforms_ret.
Qed.

Lemma conforms_AckTaintEvent_handler now principal id event body :
  conforms (answers (λ _, True)) (Handlers.AckTaintEvent (S := db) (T := sqliteTx) now principal id event body).
Proof.
  apply conforms_with_remote. intros r _. cbv zeta. cbn [st_AckTaintEvent sqlite_store]. case_match; [by apply conforms_ret|].
  eapply conforms_bind; [apply conforms_catch, conforms_AckTaintEvent|]. intros [u|e] _; [by apply conforms_ret|].
  destruct e; by apply conforms_ret || apply conforms_throw.
Qed.

Lemma conforms_Verify_handler now params : conforms (answers Verify_conforms) (Handlers.Verify (S := db) (T := sqliteTx) NormalizeURL now params).
Proof.
  assert (∀ remote tag c, conforms (answers Verify_conforms) (verify_tag (S := db) (T := sqliteTx) now remote tag c)) as Htag.
  { intros remote tag c. unfold verify_tag. cbn [st_GetRef st_LatestObservationForRef sqlite_store]. cbv zeta.
    assert (VerifyResponseConfidence_Valid (confidence_of now remote) = true) as Hc by (unfold confidence_of; by repeat case_match).
    assert (VerifyResponseSyncOutcome_Valid (sync_outcome_of remote) = true) as Ho by (unfold sync_outcome_of; by repeat case_match).
    eapply conforms_bind; [apply conforms_catch_reads, reads_bind; [apply reads_one|intros ?; apply reads_ret]|].
    intros [ref|e] _; [|destruct e; try apply conforms_throw; apply conforms_ret; unfold answers, Verify_conforms; cbn [vr_Status vr_Confidence vr_SyncOutcome vr_Taint]; by rewrite Hc; cbn; rewrite Ho].
    eapply conforms_bind; [apply conforms_catch_reads|].
    { unfold SqliteStore.LatestObservationForRef. apply reads_bind; [apply reads_one|intros [[? ?] ?]; apply reads_ret]. }
    intros proof _. apply conforms_ret. unfold answers, Verify_conforms. cbn [vr_Status vr_Confidence vr_SyncOutcome vr_Taint].
    assert (VerifyResponseStatus_Valid (status_of ref c) = true) as -> by (unfold status_of; by repeat case_match).
    rewrite Hc. cbn [when from_option andb]. rewrite Ho. by destruct (rf_Tainted ref). }
  assert (reads (resolve_remote (S := db) (T := sqliteTx) NormalizeURL (vp_Remote params))) as Hres.
  { unfold resolve_remote. cbn [st_GetRemote st_GetRemoteByURL sqlite_store]. apply reads_bind.
    - destruct (parseID (vp_Remote params)); [|apply reads_ret]. apply reads_catch, reads_bind; [apply reads_one|intros; apply reads_ret].
    - intros [r|e]; [apply reads_ret|]. cbv zeta. apply reads_bind; [|intros; apply reads_ret].
      apply reads_catch, reads_bind; [apply reads_one|intros; apply reads_ret]. }
  unfold Handlers.Verify. cbv zeta. repeat (case_match; try by apply conforms_ret).
  all: eapply conforms_bind; [apply conforms_reads, Hres|]; intros [rem|] _; [apply Htag|by apply conforms_ret].
Qed.

End handlers.

(** C23. Every answer stays within the enumerations of the API.  On a store whose rows meet the
    CHECK constraints of the schema, each of these handlers leaves such a store, and in the
    body of a success every transport, status, hash, trigger, reason, verdict, confidence and sync
    outcome is a value the specification lists; so a PATCH with any other status is not
    answered as a success. *)
Theorem answers_in_enums NormalizeURL :
  (∀ url limit cursor, conforms (answers (page_conforms Remote_conforms)) (Handlers.ListRemotes (S := db) (T := sqliteTx) NormalizeURL url limit cursor)) ∧
  (∀ now body, conforms (answers Remote_conforms) (Handlers.CreateRemote (S := db) (T := sqliteTx) NormalizeURL now body)) ∧
  (∀ id, conforms (answers Remote_conforms) (Handlers.GetRemote (S := db) (T := sqliteTx) id)) ∧
  (∀ now id body, conforms (answers (λ r, Remote_conforms r ∧ ∀ status, body ≫= ur_Status = Some status → UpdateRemoteRequestStatus_Valid status = true))
     (Handlers.UpdateRemote (S := db) (T := sqliteTx) now id body)) ∧
  (∀ now id, conforms (answers (λ _, True)) (Handlers.DeleteRemote (S := db) (T := sqliteTx) now id)) ∧
  (∀ id limit cursor, conforms (answers (page_conforms SyncEntry_conforms)) (Handlers.ListSyncs (S := db) (T := sqliteTx) id limit cursor)) ∧
  (∀ id limit cursor, conforms (answers (page_conforms TaintEvent_conforms)) (Handlers.ListTaintEvents (S := db) (T := sqliteTx) id limit cursor)) ∧
  (∀ now principal id event body, conforms (answers (λ _, True)) (Handlers.AckTaintEvent (S := db) (T := sqliteTx) now principal id event body)) ∧
  (∀ now params, conforms (answers Verify_conforms) (Handlers.Verify (S := db) (T := sqliteTx) NormalizeURL now params)).
Proof.
  split_and!; intros *; [apply conforms_ListRemotes_handler|apply conforms_CreateRemote_handler|apply conforms_GetRemote_handler|
    apply conforms_UpdateRemote_handler|apply conforms_DeleteRemote_handler|apply conforms_ListSyncs_handler|apply conforms_ListTaintEvents_handler|
    apply conforms_AckTaintEvent_handler|apply conforms_Verify_handler].
Qed.

(** A PATCH with an unknown status is not refused: it fails on the constraint of the schema
    and is answered with status 500. *)
Theorem patch_unknown_status :
  Handlers.UpdateRemote (S := db) (T := sqliteTx) 9 1 (Some (mkUpdateRemoteRequest None None None (Some "stopped"))) sample_db1 = Err ErrSQL.
Proof. vm_compute. exact eq_refl. Qed.

Lemma sample_checked : checked sample_db1.
Proof. split; vm_compute; repeat constructor. Qed.

Lemma answers_in_enums_witness : ∃ v d', Handlers.Verify (S := db) (T := sqliteTx) Ok 20 (mkVerifyParams "1" "v1" None) sample_db1 = Ok (Success 200 v, d') ∧
  checked d' ∧ Verify_conforms v.
Proof.
  destruct (answers_in_enums Ok) as (_ & _ & _ & _ & _ & _ & _ & _ & Hv).
  destruct (Handlers.Verify (S := db) (T := sqliteTx) Ok 20 (mkVerifyParams "1" "v1" None) sample_db1) as [[r d']|er] eqn:E; [|vm_compute in E; discriminate E].
  destruct (Hv 20 (mkVerifyParams "1" "v1" None) sample_db1 r d' sample_checked E) as [Hd Hr].
  destruct r as [code v|code msg]; [|vm_compute in E; discriminate E]. exists v, d'. split; [|exact (conj Hd Hr)].
  assert (code = 200) as -> by (vm_compute in E; by injection E as <- _ _). reflexivity.
Defined.
