(* ===== verification/Overlap.v ===== *)
(** Requests and syncs that overlap.  In the other files a handler or a sync runs on the store
    without a pause; here it is taken apart at its calls on the store, each of which is one
    transaction of the database, and goroutines take turns between them.  A call may fail for
    a reason of the database's own, a goroutine may never get its next turn, and several
    processes may share the store.  [internal/api/handlers.go] and [internal/sync/remote.go],
    again, call by call; that a goroutine left alone does what those files say is
    [sync_alone] and the [..._alone] lemmas. *)
From S2P Require Import Prelude GoStrings Sha256 Model Chain SyncDiff StoreSpec Lock SyncRemote SyncCorrect Handlers.
#[local] Open Scope Z_scope.

(** * Goroutines *)

Section overlap.
Context {S T : Type} `{Tx T} `{Store S T}.

(** What a goroutine does next: a call, and where it is once it has the answer. *)
Inductive action (L : Type) : Type :=
  | Perform {X : Type} (op : S → res X * S) (next : res X → L)
  | Finished.
#[global] Arguments Perform {L X}.
#[global] Arguments Finished {L}.

(** One turn on the store, and a turn in which the call fails and changes nothing. *)
Definition perform {L} (a : action L) (s : S) : option (L * S) :=
  match a with
  | Perform op next => let '(r, s') := op s in Some (next r, s')
  | Finished => None
  end.

Definition refuse {L} (e : error) (a : action L) : option L :=
  match a with
  | Perform _ next => Some (next (Err e))
  | Finished => None
  end.

Definition map_action {L M} (f : L → M) (a : action L) : action M :=
  match a with
  | Perform op next => Perform op (λ r, f (next r))
  | Finished => Finished
  end.

(** A method of the store as a call. *)
Definition stmt {A} (m : SE S error A) (s : S) : res A * S :=
  match m s with
  | Ok (a, s') => (Ok a, s')
  | Err e => (Err e, s)
  end.

(** ** Handlers *)

(** A handler as a program over calls, with its answer at the end. *)
Inductive prog (A : Type) : Type :=
  | Return (a : A)
  | Ask {X : Type} (op : S → res X * S) (next : res X → prog A).
#[global] Arguments Return {A}.
#[global] Arguments Ask {A X}.

Definition prog_action {A} (p : prog A) : action (prog A) :=
  match p with
  | Return _ => Finished
  | Ask op next => Perform op next
  end.

(** The program left alone. *)
Fixpoint run_alone {A} (p : prog A) (s : S) : A * S :=
  match p with
  | Return a => (a, s)
  | Ask op next => let '(r, s') := op s in run_alone (next r) s'
  end.

Context (NormalizeURL : string → res string).

Definition with_remote_calls {A} (id : Z) (k : Remote → prog (res (response A))) : prog (res (response A)) :=
  Ask (stmt (st_GetRemote id)) (λ r,
    match r with
    | Ok r => k r
    | Err ErrNotFound => Return (Ok (Refused 404 "remote not found"))
    | Err e => Return (Err e)
    end).

Definition CreateRemote_calls (now : Z) (body : option CreateRemoteRequest) : prog (res (response oRemote)) :=
  match body with
  | None => Return (Ok (Refused 422 "url is required"))
  | Some body =>
      if String.eqb (cr_Url body) "" then Return (Ok (Refused 422 "url is required"))
      else if String.eqb (cr_Transport body) "" then Return (Ok (Refused 422 "transport is required"))
      else match NormalizeURL (cr_Url body) with
           | Err ErrBadURL => Return (Ok (Refused 422 "bad url"))
           | Err e => Return (Err e)
           | Ok normURL =>
               let transport := cr_Transport body in
               if negb (String.eqb transport TransportHTTPS || String.eqb transport TransportSSH)
               then Return (Ok (Refused 422 "transport must be https or ssh"))
               else
                 let syncInterval := match cr_SyncIntervalNs body with
                                     | Some i => if 0 <? i then i else 5 * 60 * 1000000000
                                     | None => 5 * 60 * 1000000000
                                     end in
                 let syncInterval := if syncInterval <? minSyncInterval then minSyncInterval else syncInterval in
                 let stalenessBudget := match cr_StalenessBudgetNs body with
                                        | Some b => if 0 <? b then b else 60 * 60 * 1000000000
                                        | None => 60 * 60 * 1000000000
                                        end in
                 let r id := mkRemote id (cr_Url body) normURL transport syncInterval stalenessBudget
                               (default true (cr_TaintAnyTagDeletion body))
                               None RemoteActive 0 "" 0 genesis_head 0 None now now in
                 Ask (stmt (st_CreateRemote (r 0))) (λ id,
                   match id with
                   | Ok id => Return (Ok (Success 201 (remoteToOAPI (r id))))
                   | Err ErrConflict => Return (Ok (Refused 409 "normalized_url already exists"))
                   | Err e => Return (Err e)
                   end)
           end
  end.

Definition DeleteRemote_calls (now id : Z) : prog (res (response ())) :=
  with_remote_calls id (λ _,
    Ask (stmt (st_SoftDeleteRemote id now)) (λ u,
      match u with
      | Ok _ => Return (Ok (Success 204 ()))
      | Err e => Return (Err e)
      end)).

Definition AckTaintEvent_calls (now : Z) (principal : option string) (id eventId : Z) (body : option AckRequest)
    : prog (res (response ())) :=
  with_remote_calls id (λ _,
    let ackedBy := match body with
                   | Some b => if String.eqb (ak_AckedBy b) "" then principalOf principal else ak_AckedBy b
                   | None => principalOf principal
                   end in
    let note := default "" (body ≫= ak_AckNote) in
    if (maxAckedByLen <? len ackedBy) || (maxAckNoteLen <? len note)
    then Return (Ok (Refused 422 "acked_by must be <=256 and ack_note <=2048 bytes"))
    else
      Ask (stmt (st_AckTaintEvent eventId ackedBy note now)) (λ a,
        match a with
        | Ok _ => Return (Ok (Success 204 ()))
        | Err ErrNotFound => Return (Ok (Refused 404 "taint event not found"))
        | Err ErrConflict => Return (Ok (Refused 409 "already acknowledged"))
        | Err e => Return (Err e)
        end)).

Definition verify_tag_calls (now : Z) (remote : Remote) (tag suppliedCommit : string) : prog (res (response VerifyResponse)) :=
  let confidence := confidence_of now remote in
  let remoteInfo := Some (rm_ID remote, rm_NormalizedURL remote) in
  let lastSynced := Some (rm_LastOkNS remote) in
  let outcome := Some (sync_outcome_of remote) in
  Ask (stmt (st_GetRef (rm_ID remote) tag)) (λ ref,
    match ref with
    | Err ErrNotFound =>
        Return (Ok (Success 200 (mkVerifyResp StatusDoesntExist confidence tag remoteInfo None None lastSynced outcome None None)))
    | Err e => Return (Err e)
    | Ok ref =>
        let recorded := mkVerifyRecorded (Some (rf_FirstSeenNS ref)) (Some (rf_LastSeenNS ref))
                          (nonzero_hex (rf_CurrentOID ref)) (nonzero_hex (rf_CurrentPeeledOID ref)) in
        let taint := if rf_Tainted ref then Some (mkVerifyTaint (rf_TaintFirstNS ref) None None None) else None in
        Ask (stmt (st_LatestObservationForRef (rf_ID ref))) (λ proof,
          let ledgerProof := match proof with
                             | Ok p => Some (mkVerifyProof (pf_RemoteID p) (EncodeToString (pf_RowHash p)) (pf_Seq p))
                             | Err _ => None
                             end in
          Return (Ok (Success 200 (mkVerifyResp (status_of ref suppliedCommit) confidence tag remoteInfo (Some recorded)
                                     (nonempty suppliedCommit) lastSynced outcome taint ledgerProof))))
    end).

Definition not_tracked (tag : string) : VerifyResponse :=
  mkVerifyResp StatusNotTracked ConfAuthoritative tag None None None None None None None.

(** The lookup by url, when there is no id or no remote has it. *)
Definition resolve_url_calls (now : Z) (p : VerifyParams) (suppliedCommit : string) : prog (res (response VerifyResponse)) :=
  let normURL := match NormalizeURL (vp_Remote p) with Ok n => n | Err _ => "" end in
  let normURL := if String.eqb normURL "" then vp_Remote p else normURL in
  Ask (stmt (st_GetRemoteByURL normURL)) (λ r,
    match r with
    | Ok r => verify_tag_calls now r (vp_Tag p) suppliedCommit
    | Err _ => Return (Ok (Success 200 (not_tracked (vp_Tag p))))
    end).

Definition Verify_calls (now : Z) (p : VerifyParams) : prog (res (response VerifyResponse)) :=
  if negb (validTagName (vp_Tag p)) then Return (Ok (Refused 422 "invalid tag name"))
  else if maxRemoteParamLen <? len (vp_Remote p) then Return (Ok (Refused 422 "remote exceeds 2048 bytes"))
  else
    let commit := match vp_Commit p ≫= nonempty with
                  | None => Some ""
                  | Some c => let c := ToLower c in if reOID c then Some c else None
                  end in
    match commit with
    | None => Return (Ok (Refused 422 "commit must be 40 or 64 hex chars"))
    | Some suppliedCommit =>
        if String.eqb (vp_Remote p) "" then Return (Ok (Refused 422 "remote is required"))
        else match parseID (vp_Remote p) with
             | Some id =>
                 Ask (stmt (st_GetRemote id)) (λ r,
                   match r with
                   | Ok r => verify_tag_calls now r (vp_Tag p) suppliedCommit
                   | Err _ => resolve_url_calls now p suppliedCommit
                   end)
             | None => resolve_url_calls now p suppliedCommit
             end
    end.

(** PATCH, with a body: the row is read, changed in memory and written back. *)
Inductive patch_pc : Type :=
  | PGet
  | PWrite (r : Remote)
  | PDone (resp : res (response oRemote)).

Definition patch_action (now id : Z) (body : UpdateRemoteRequest) (pc : patch_pc) : action patch_pc :=
  match pc with
  | PGet => Perform (stmt (st_GetRemote id)) (λ r,
      match r with
      | Ok r => PWrite r
      | Err ErrNotFound => PDone (Ok (Refused 404 "remote not found"))
      | Err e => PDone (Err e)
      end)
  | PWrite r =>
      let r' := apply_update body now r in
      Perform (stmt (st_UpdateRemote r')) (λ u,
        match u with
        | Ok _ => PDone (Ok (Success 200 (remoteToOAPI r')))
        | Err ErrNotFound => PDone (Ok (Refused 404 "remote not found"))
        | Err e => PDone (Err e)
        end)
  | PDone _ => Finished
  end.

(** ** A sync *)

(** What one sync is given: what git answers it, the order of its map, its clocks. *)
Record sync_env : Type := mkSyncEnv {
  sx_git : string → res (list LsRemoteRef);
  sx_error_text : error → string;
  sx_range : gmap string Ref → list (string * Ref);
  sx_holder : string;
  sx_rd : Readings;
  sx_rid : Z;
}.

(** What git and the runtime promise it: every tag once, with an id, and the range of a map. *)
Definition env_ok (x : sync_env) : Prop :=
  (∀ u lsRefs, sx_git x u = Ok lsRefs → Forall ls_wf lsRefs ∧ NoDup (ls_Name <$> lsRefs)) ∧
  ∀ m, sx_range x m ≡ₚ map_to_list m.

(** The call a sync is about to make, with what it has read so far. *)
Inductive sync_pc : Type :=
  | SyGet
  | SyAcquire (r : Remote)
  | SyLsHealth (r : Remote) (lease : Lease) (lsErr : error)
  | SyLsRelease (r : Remote) (lease : Lease) (lsErr : error)
  | SyTags (r : Remote) (lease : Lease) (lsRefs : list LsRemoteRef)
  | SyTagsRelease (r : Remote) (lease : Lease) (e : error)
  | SyTx (r : Remote) (lease : Lease) (lsRefs : list LsRemoteRef) (prior : list Ref)
  | SyTxRelease (r : Remote) (lease : Lease) (txErr : error)
  | SyTxHealth (lease : Lease) (txErr : error)
  | SyHead (lease : Lease) (lsRefs : list LsRemoteRef) (syncID changed : Z)
  | SyRelease (lease : Lease) (lsRefs : list LsRemoteRef) (syncID changed : Z) (headAfter : bytes) (newLen : Z)
  | SyHealth (result : SyncResult)
  | SyDone (result : option SyncResult) (err : option error).

Definition failed_result (lease : Lease) : SyncResult :=
  mkSyncResult 0 SyncFailed 0 0 (le_ChainHeadAtLease lease) (le_ChainHeadAtLease lease).

(** git runs between the lease and the next call. *)
Definition listed (x : sync_env) (r : Remote) (lease : Lease) : sync_pc :=
  match sx_git x (rm_URL r) with
  | Err lsErr => SyLsHealth r lease lsErr
  | Ok lsRefs => SyTags r lease lsRefs
  end.

Definition sync_action (x : sync_env) (pc : sync_pc) : action sync_pc :=
  let rid := sx_rid x in
  let rd := sx_rd x in
  match pc with
  | SyGet => Perform (stmt (st_GetRemote rid)) (λ r,
      match r with
      | Ok r => SyAcquire r
      | Err e => SyDone None (Some e)
      end)
  | SyAcquire r => Perform (stmt (AcquireRemoteLease (rd_lease rd) rid (sx_holder x) leaseTTL)) (λ l,
      match l with
      | Ok lease => listed x r lease
      | Err e => SyDone None (Some e)
      end)
  | SyLsHealth r lease lsErr =>
      Perform (stmt (st_SetRemoteHealth (rd_wall rd) rid RemoteDegraded (sx_error_text x lsErr) (rd_start rd)))
        (λ _, SyLsRelease r lease lsErr)
  | SyLsRelease r lease lsErr =>
      Perform (stmt (Release (Some lease) (le_ChainHeadAtLease lease) (rm_ChainLen r)))
        (λ _, SyDone (Some (failed_result lease)) (Some lsErr))
  | SyTags r lease lsRefs => Perform (stmt (st_ListTags rid)) (λ l,
      match l with
      | Ok prior => SyTx r lease lsRefs prior
      | Err e => SyTagsRelease r lease e
      end)
  | SyTagsRelease r lease e =>
      Perform (stmt (Release (Some lease) (le_ChainHeadAtLease lease) (rm_ChainLen r))) (λ _, SyDone None (Some e))
  | SyTx r lease lsRefs prior =>
      Perform (st_WithTx (sync_tx (sx_range x) rd rid (rm_TaintAnyTagDeletion r) (le_ChainHeadAtLease lease)
                 (index_by_name prior) lsRefs)) (λ t,
        match t with
        | Ok (syncID, changed) => SyHead lease lsRefs syncID changed
        | Err txErr => SyTxRelease r lease txErr
        end)
  | SyTxRelease r lease txErr =>
      Perform (stmt (Release (Some lease) (le_ChainHeadAtLease lease) (rm_ChainLen r))) (λ _, SyTxHealth lease txErr)
  | SyTxHealth lease txErr =>
      Perform (stmt (st_SetRemoteHealth (rd_wall rd) rid RemoteDegraded (sx_error_text x txErr) (rd_end rd)))
        (λ _, SyDone (Some (failed_result lease)) (Some txErr))
  | SyHead lease lsRefs syncID changed => Perform (stmt (st_GetChainHead rid)) (λ h,
      match h with
      | Ok (headAfter, newLen) => SyRelease lease lsRefs syncID changed headAfter newLen
      | Err e => SyDone None (Some e)
      end)
  | SyRelease lease lsRefs syncID changed headAfter newLen =>
      Perform (stmt (Release (Some lease) headAfter newLen)) (λ u,
        match u with
        | Ok _ => SyHealth (mkSyncResult syncID SyncOk (Z.of_nat (length lsRefs)) changed (le_ChainHeadAtLease lease) headAfter)
        | Err e => SyDone None (Some e)
        end)
  | SyHealth result =>
      Perform (stmt (st_SetRemoteHealth (rd_wall rd) rid RemoteActive "" (rd_end rd))) (λ _, SyDone (Some result) None)
  | SyDone _ _ => Finished
  end.

(** [n] turns in a row. *)
Fixpoint turns {L} (act : L → action L) (n : nat) (l : L) (s : S) : L * S :=
  match n with
  | O => (l, s)
  | Datatypes.S n => match perform (act l) s with
                     | Some (l', s') => turns act n l' s'
                     | None => (l, s)
                     end
  end.

(** * All of them *)

Inductive answer : Type :=
  | ARemote (a : res (response oRemote))
  | AUnit (a : res (response ()))
  | AVerify (a : res (response VerifyResponse))
  | AOther.

Fixpoint prog_map {A B} (f : A → B) (p : prog A) : prog B :=
  match p with
  | Return a => Return (f a)
  | Ask op next => Ask op (λ r, prog_map f (next r))
  end.

Inductive job : Type :=
  | JRequest (p : prog answer)
  | JPatch (now id : Z) (body : UpdateRemoteRequest) (pc : patch_pc)
  | JSync (x : sync_env) (pc : sync_pc).

Definition job_action (j : job) : action job :=
  match j with
  | JRequest p => map_action JRequest (prog_action p)
  | JPatch now id body pc => map_action (JPatch now id body) (patch_action now id body pc)
  | JSync x pc => map_action (JSync x) (sync_action x pc)
  end.

(** Only reads, however it goes on: what the handlers that are not listed above do. *)
Fixpoint reader {A} (p : prog A) : Prop :=
  match p with
  | Return _ => True
  | Ask op next => (∀ s, (op s).2 = s) ∧ ∀ r, reader (next r)
  end.

(** How a goroutine begins. *)
Inductive begins : job → Prop :=
  | begins_create now body : begins (JRequest (prog_map ARemote (CreateRemote_calls now body)))
  | begins_delete now id : begins (JRequest (prog_map AUnit (DeleteRemote_calls now id)))
  | begins_ack now principal id event body : begins (JRequest (prog_map AUnit (AckTaintEvent_calls now principal id event body)))
  | begins_verify now params : begins (JRequest (prog_map AVerify (Verify_calls now params)))
  | begins_reader p : reader p → begins (JRequest p)
  | begins_patch now id body : begins (JPatch now id body PGet)
  | begins_sync x : env_ok x → begins (JSync x SyGet).

(** The store and the goroutines on it, those of every process. *)
Record world : Type := mkWorld { w_store : S; w_jobs : list job }.

(** What may happen.  [allowed s others j] restricts the turns that are considered: those of
    [j] on the store [s] among the [others]. *)
Inductive turn (allowed : S → list job → job → Prop) : world → world → Prop :=
  | turn_begin w j : begins j → turn allowed w (mkWorld (w_store w) (w_jobs w ++ [j]))
  | turn_call s l1 j l2 j' s' : perform (job_action j) s = Some (j', s') → allowed s (l1 ++ l2) j →
      turn allowed (mkWorld s (l1 ++ j :: l2)) (mkWorld s' (l1 ++ j' :: l2))
  | turn_fail s l1 j l2 e j' : refuse e (job_action j) = Some j' →
      turn allowed (mkWorld s (l1 ++ j :: l2)) (mkWorld s (l1 ++ j' :: l2))
  | turn_killed s l1 j l2 : turn allowed (mkWorld s (l1 ++ j :: l2)) (mkWorld s (l1 ++ l2)).

(** An execution as a list of events; an event that cannot happen is skipped. *)
Inductive event : Type :=
  | EBegin (j : job)
  | ETurn (i : nat)
  | EFail (i : nat) (e : error).

Definition play_one (ev : event) (w : world) : world :=
  match ev with
  | EBegin j => mkWorld (w_store w) (w_jobs w ++ [j])
  | ETurn i => match w_jobs w !! i ≫= λ j, perform (job_action j) (w_store w) with
               | Some (j', s') => mkWorld s' (<[i := j']> (w_jobs w))
               | None => w
               end
  | EFail i e => match w_jobs w !! i ≫= λ j, refuse e (job_action j) with
                 | Some j' => mkWorld (w_store w) (<[i := j']> (w_jobs w))
                 | None => w
                 end
  end.

Fixpoint play (evs : list event) (w : world) : world :=
  match evs with
  | [] => w
  | ev :: evs => play evs (play_one ev w)
  end.

Fixpoint may_play (allowed : S → list job → job → Prop) (evs : list event) (w : world) : Prop :=
  match evs with
  | [] => True
  | ev :: evs =>
      match ev with
      | EBegin j => begins j
      | ETurn i => ∀ j, w_jobs w !! i = Some j → allowed (w_store w) (delete i (w_jobs w)) j
      | EFail _ _ => True
      end ∧ may_play allowed evs (play_one ev w)
  end.

(** The answer of a program whose calls find the stores [ss], one each. *)
Fixpoint answer_on {A} (p : prog A) (ss : list S) : option A :=
  match p with
  | Return a => Some a
  | Ask op next =>
      match ss with
      | s :: ss => answer_on (next (op s).1) ss
      | [] => None
      end
  end.

(** The remote a sync is at work on under its lease. *)
Definition working (j : job) : option Z :=
  match j with
  | JSync x (SyLsHealth _ _ _ | SyLsRelease _ _ _ | SyTags _ _ _ | SyTagsRelease _ _ _ | SyTx _ _ _ _ | SyTxRelease _ _ _
            | SyHead _ _ _ _ | SyRelease _ _ _ _ _ _) => Some (sx_rid x)
  | _ => None
  end.

(** * Executions *)

Lemma play_one_turn allowed ev w : may_play allowed [ev] w → rtc (turn allowed) w (play_one ev w).
Proof.
  intros [Ha _]. destruct w as [s jobs]. assert (∀ i (j j' : job), jobs !! i = Some j →
    jobs = take i jobs ++ j :: drop (Datatypes.S i) jobs ∧ <[i:=j']> jobs = take i jobs ++ j' :: drop (Datatypes.S i) jobs ∧
    delete i jobs = take i jobs ++ drop (Datatypes.S i) jobs) as Hsplit.
  { intros i j j' Hi. split; [by rewrite take_drop_middle|]. split; [|apply delete_take_drop].
    apply insert_take_drop. by eapply lookup_lt_Some. }
  destruct ev as [j|i|i e]; cbn in *.
  - by apply rtc_once, turn_begin.
  - destruct (jobs !! i) as [j|] eqn:Hi; cbn; [|done]. destruct (perform _ s) as [[j' s']|] eqn:Hp; [|done].
    destruct (Hsplit i j j' Hi) as (E1 & -> & E3). rewrite E1 at 1. apply rtc_once, turn_call; [done|]. rewrite <- E3. by apply Ha.
  - destruct (jobs !! i) as [j|] eqn:Hi; cbn; [|done]. destruct (refuse e _) as [j'|] eqn:Hp; [|done].
    destruct (Hsplit i j j' Hi) as (E1 & -> & _). rewrite E1 at 1. by eapply rtc_once, turn_fail.
Qed.

Lemma play_turns allowed evs w : may_play allowed evs w → rtc (turn allowed) w (play evs w).
Proof.
  revert w. induction evs as [|ev evs IH]; intros w; [done|]. intros [Ha Hm]. etrans; [|by apply IH].
  by apply play_one_turn.
Qed.

(** * Left alone

    Without others a goroutine does what the handler or the sync of the other files does. *)

#[local] Ltac go := cbn [turns perform run_alone sync_action patch_action]; try unfold stmt at 1.

Lemma create_alone now body s : run_alone (CreateRemote_calls now body) s = stmt (CreateRemote (T := T) NormalizeURL now body) s.
Proof.
  unfold CreateRemote_calls, CreateRemote. destruct body as [body|]; [|reflexivity].
  destruct (String.eqb (cr_Url body) ""); [reflexivity|]. destruct (String.eqb (cr_Transport body) ""); [reflexivity|].
  destruct (NormalizeURL (cr_Url body)) as [u|e]; [|by destruct e]. destruct (negb _); [reflexivity|].
  unfold stmt, catch, mbind, SE_bind. cbn [run_alone]. cbv zeta. destruct (st_CreateRemote _ s) as [[id s']|e]; [reflexivity|by destruct e].
Qed.

(** Looking a remote up does not change the store. *)
Context (lookup_id : ∀ id s r s', st_GetRemote (T := T) id s = Ok (r, s') → s' = s).
Context (lookup_url : ∀ u s r s', st_GetRemoteByURL (T := T) u s = Ok (r, s') → s' = s).

Lemma with_remote_alone {A} id (k : Remote → prog (res (response A))) (h : Remote → SE S error (response A)) s :
  (∀ r, run_alone (k r) s = stmt (h r) s) →
  run_alone (with_remote_calls id k) s = stmt (with_remote (T := T) id h) s.
Proof.
  intros Hk. unfold with_remote_calls, with_remote, catch, mbind, SE_bind. cbn [run_alone]. unfold stmt at 1 2.
  destruct (st_GetRemote id s) as [[r s']|e] eqn:E; [|by destruct e].
  rewrite (lookup_id _ _ _ _ E). apply Hk.
Qed.

Lemma delete_alone now id s : run_alone (DeleteRemote_calls now id) s = stmt (DeleteRemote (T := T) now id) s.
Proof.
  apply with_remote_alone. intros r. cbn [run_alone]. unfold stmt, mbind, SE_bind.
  by destruct (st_SoftDeleteRemote id now s) as [[u s']|e].
Qed.

Lemma ack_alone now principal id event body s :
  run_alone (AckTaintEvent_calls now principal id event body) s = stmt (AckTaintEvent (T := T) now principal id event body) s.
Proof.
  apply with_remote_alone. intros r. cbv zeta. destruct (_ || _); [done|]. cbn [run_alone]. unfold stmt, catch, mbind, SE_bind.
  destruct (st_AckTaintEvent _ _ _ _ s) as [[u s']|e]; [done|by destruct e].
Qed.

Lemma patch_alone now id body s : turns (patch_action now id body) 2 PGet s =
  let '(r, s') := stmt (UpdateRemote (T := T) now id (Some body)) s in (PDone r, s').
Proof.
  unfold UpdateRemote, with_remote, update_remote_write, stmt, catch, mbind, SE_bind. go.
  destruct (st_GetRemote id s) as [[r s1]|e] eqn:E; [|by destruct e]. rewrite (lookup_id _ _ _ _ E). go.
  destruct (st_UpdateRemote _ s) as [[u s2]|e]; [done|by destruct e].
Qed.

Lemma verify_tag_alone now r tag c s : run_alone (verify_tag_calls now r tag c) s = stmt (verify_tag (T := T) now r tag c) s.
Proof.
  unfold verify_tag_calls, verify_tag, catch, mbind, SE_bind. cbn [run_alone]. unfold stmt.
  destruct (st_GetRef _ _ s) as [[ref s1]|e]; [|by destruct e]. cbn [run_alone].
  by destruct (st_LatestObservationForRef _ s1) as [[p s2]|e].
Qed.

Lemma verify_alone now p s : run_alone (Verify_calls now p) s = stmt (Verify (T := T) NormalizeURL now p) s.
Proof.
  unfold Verify_calls, Verify. destruct (negb _); [done|]. destruct (_ <? _); [done|]. cbv zeta.
  destruct (match vp_Commit p ≫= nonempty with None => _ | Some c => _ end) as [c|]; [|done].
  destruct (String.eqb (vp_Remote p) ""); [done|]. unfold resolve_remote, resolve_url_calls, catch, mbind, SE_bind, mret, SE_ret.
  assert (∀ r, run_alone (verify_tag_calls now r (vp_Tag p) c) s = stmt (verify_tag (T := T) now r (vp_Tag p) c) s) as Ht
    by (intros; apply verify_tag_alone).
  unfold stmt in *. destruct (parseID (vp_Remote p)) as [id|]; cbn [run_alone].
  - destruct (st_GetRemote id s) as [[r s1]|e] eqn:E; [rewrite (lookup_id _ _ _ _ E); apply Ht|]. cbn [run_alone].
    destruct (st_GetRemoteByURL _ s) as [[r s1]|e'] eqn:E'; [rewrite (lookup_url _ _ _ _ E'); apply Ht|done].
  - destruct (st_GetRemoteByURL _ s) as [[r s1]|e'] eqn:E'; [rewrite (lookup_url _ _ _ _ E'); apply Ht|done].
Qed.

Lemma sync_alone x s : turns (sync_action x) 7 SyGet s =
  let '(res, e, s') := SyncRemote (T := T) (sx_git x) (sx_error_text x) (sx_range x) (sx_holder x) (sx_rd x) (sx_rid x) s in (SyDone res e, s').
Proof.
  unfold SyncRemote, ignoring. go. destruct (st_GetRemote _ s) as [[r s1]|e]; [|done].
  go. destruct (AcquireRemoteLease _ _ _ _ s1) as [[lease s2]|e]; [|done]. unfold listed.
  destruct (sx_git x (rm_URL r)) as [lsRefs|lsErr]; go.
  - destruct (st_ListTags _ s2) as [[prior s3]|e]; go.
    + destruct (st_WithTx _ s3) as [[[syncID changed]|txErr] s4]; go.
      * destruct (st_GetChainHead _ s4) as [[[headAfter newLen] s5]|e]; [|done]. go.
        destruct (Release _ _ _ s5) as [[[] s6]|e]; [|done]. go. by destruct (st_SetRemoteHealth _ _ _ _ _ s6) as [[[] s7]|e].
      * destruct (Release _ _ _ s4) as [[[] s5]|e]; go; by destruct (st_SetRemoteHealth _ _ _ _ _ _) as [[[] s6]|e'].
    + by destruct (Release _ _ _ s2) as [[[] s4]|e'].
  - destruct (st_SetRemoteHealth _ _ _ _ _ s2) as [[[] s3]|e]; go; by destruct (Release _ _ _ _) as [[[] s4]|e'].
Qed.
End overlap.
