(* ===== verification/OverlapProps.v ===== *)
(** What survives when requests and syncs overlap, on the SQLite store: everything, as long as a
    sync is not overtaken on its own remote and PATCH does not fall into one
    ([overlap_keeps_evidence]); and what is lost otherwise ([expired_lease_loses_taint],
    [stale_length_breaks_chain]; PATCH is [patch_rewinds_chain]). *)
From S2P Require Import Prelude GoStrings Sha256 Model Chain SyncDiff Sqlc StoreSpec SqliteStore SqliteTx SqliteSpec Lock SyncRemote SyncCorrect SyncProps StoreProps Handlers HandlersProps ServerProps Testutil Overlap.
#[local] Open Scope Z_scope.

(** * What a sync needs of the others *)

(** The lease, the tags and the chain of [rid] stay as they are. *)
Record keeps (rid : Z) (a a' : Abs) : Prop := {
  ke_lease : a_leases a' !! rid = a_leases a !! rid;
  ke_refs name : a_refs a' !! (rid, name) = a_refs a !! (rid, name);
  ke_chain rem : a_remotes a !! rid = Some rem →
    ∃ rem', a_remotes a' !! rid = Some rem' ∧ rm_ChainHeadHash rem' = rm_ChainHeadHash rem ∧ rm_ChainLen rem' = rm_ChainLen rem;
}.

Lemma keeps_refl rid a : keeps rid a a.
Proof. split; eauto. Qed.
Lemma rests_keeps rid a a' : rests a a' → keeps rid a a'.
Proof. intros (Hr & Hl & Hc). split; [by rewrite Hl|intros; by rewrite Hr|eauto]. Qed.

Abbreviation act := (job_action (S := db) (T := sqliteTx)).

(** The two calls that go wrong when somebody got in the way: taking the lease of [rid] at [now]
    with the row [r], and writing back the row [r]. *)
Inductive watch : Type :=
  | WAcquire (rid now : Z) (r : Remote)
  | WPatch (r : Remote).

Definition watched (j : job (S := db)) : option watch :=
  match j with
  | JSync x (SyAcquire r) => Some (WAcquire (sx_rid x) (rd_lease (sx_rd x)) r)
  | JPatch _ _ _ (PWrite r) => Some (WPatch r)
  | _ => None
  end.

(** The turns in which nobody gets in the way of a sync: a lease is not taken from a sync that
    is still at work, no sync of the remote commits between the read of its row and the lease,
    nor between the read and the write of PATCH. *)
Definition undisturbed (d : db) (others : list (job (S := db))) (j : job (S := db)) : Prop :=
  match watched j with
  | Some (WAcquire rid now r) =>
      (∀ k l, k ∈ others → working k = Some rid → a_leases (db_abs d) !! rid = Some l → now ≤ al_expires l) ∧
      (∀ rem, a_remotes (db_abs d) !! rid = Some rem → rm_ChainLen rem = rm_ChainLen r)
  | Some (WPatch r) =>
      ∀ rem, a_remotes (db_abs d) !! rm_ID r = Some rem →
        rm_ChainHeadHash r = rm_ChainHeadHash rem ∧ rm_ChainLen r = rm_ChainLen rem
  | None => True
  end.

(** * What a goroutine knows between two of its turns *)

(** A call that neither the evidence nor a sync minds. *)
Definition quiet {X} (op : db → res X * db) : Prop :=
  ∀ d, db_good d → sound d (op d).2 ∧ rests (db_abs d) (db_abs (op d).2).

Fixpoint quiet_prog {A} (p : prog (S := db) A) : Prop :=
  match p with
  | Return _ => True
  | Ask op next => quiet op ∧ ∀ r, quiet_prog (next r)
  end.

(** The lease a sync works under, and the chain it found when it got it. *)
Definition held (a : Abs) (x : sync_env) (lease : Lease) : Prop :=
  let expires := wrap64 (rd_lease (sx_rd x) + leaseTTL) in
  a_leases a !! sx_rid x = Some (mkAbsLease (sx_holder x) (rd_lease (sx_rd x)) expires) ∧
  ∃ head, lease = mkLease (sx_rid x) (sx_holder x) (rd_lease (sx_rd x)) expires head.

Definition at_lease (a : Abs) (x : sync_env) (r : Remote) (lease : Lease) : Prop :=
  held a x lease ∧ ∃ rem, a_remotes a !! sx_rid x = Some rem ∧
    rm_ChainHeadHash rem = le_ChainHeadAtLease lease ∧ rm_ChainLen rem = rm_ChainLen r.

Definition listing_ok (lsRefs : list LsRemoteRef) : Prop := Forall ls_wf lsRefs ∧ NoDup (ls_Name <$> lsRefs).

Definition sync_knows (a : Abs) (x : sync_env) (pc : sync_pc) : Prop :=
  match pc with
  | SyGet | SyAcquire _ | SyTxHealth _ _ | SyHealth _ | SyDone _ _ => True
  | SyLsHealth r lease _ | SyLsRelease r lease _ | SyTagsRelease r lease _ | SyTxRelease r lease _ => at_lease a x r lease
  | SyTags r lease lsRefs => at_lease a x r lease ∧ listing_ok lsRefs
  | SyTx r lease lsRefs prior => at_lease a x r lease ∧ listing_ok lsRefs ∧ tags_of a (sx_rid x) (index_by_name prior)
  | SyHead lease _ _ _ => held a x lease ∧ is_Some (a_remotes a !! sx_rid x)
  | SyRelease lease _ _ _ headAfter newLen =>
      held a x lease ∧ ∃ rem, a_remotes a !! sx_rid x = Some rem ∧ rm_ChainHeadHash rem = headAfter ∧ rm_ChainLen rem = newLen
  end.

Definition knows (d : db) (j : job (S := db)) : Prop :=
  match j with
  | JRequest p => quiet_prog p
  | JPatch _ _ _ _ => True
  | JSync x pc => env_ok x ∧ sync_knows (db_abs d) x pc
  end.

Lemma held_keeps a a' x lease : keeps (sx_rid x) a a' → held a x lease → held a' x lease.
Proof. intros Hk [Hl Hh]. split; [|done]. by rewrite (ke_lease _ _ _ Hk). Qed.

Lemma at_lease_keeps a a' x r lease : keeps (sx_rid x) a a' → at_lease a x r lease → at_lease a' x r lease.
Proof.
  intros Hk [Hh (rem & Hr & H1 & H2)]. split; [by eapply held_keeps|].
  destruct (ke_chain _ _ _ Hk rem Hr) as (rem' & Hr' & E1 & E2). exists rem'. split; [done|]. split; congruence.
Qed.

(** What a sync knows stays true while the others leave its remote alone. *)
Lemma sync_knows_keeps a a' x pc : keeps (sx_rid x) a a' → sync_knows a x pc → sync_knows a' x pc.
Proof.
  intros Hk. destruct pc; cbn; try done; try by apply at_lease_keeps.
  - intros [? ?]. split; [by eapply at_lease_keeps|done].
  - intros (? & ? & Ht). split; [by eapply at_lease_keeps|]. split; [done|]. intros name. by rewrite (ke_refs _ _ _ Hk).
  - intros [? [rem Hr]]. split; [by eapply held_keeps|]. destruct (ke_chain _ _ _ Hk rem Hr) as (rem' & -> & _). done.
  - intros [? (rem & Hr & H1 & H2)]. split; [by eapply held_keeps|].
    destruct (ke_chain _ _ _ Hk rem Hr) as (rem' & Hr' & E1 & E2). exists rem'. split; [done|]. split; congruence.
Qed.

Lemma knows_keeps d d' j : (∀ rid, working j = Some rid → keeps rid (db_abs d) (db_abs d')) → knows d j → knows d' j.
Proof.
  destruct j as [p|now id body pc|x pc]; [done|done|]. intros Hk [He Hs]. split; [done|].
  destruct pc; try done; by (eapply sync_knows_keeps; [apply Hk|]).
Qed.

(** * The calls of a handler *)

Lemma quiet_reads {A} (m : SE db error A) : reads m → quiet (stmt m).
Proof.
  intros Hm d Hd. unfold stmt. destruct (m d) as [[a d']|e] eqn:E; cbn; [apply Hm in E as ->|]; (split; [done|]; split_and!; eauto).
Qed.

Lemma quiet_stmt {A} (m : SE db error A) :
  (∀ d a d', db_good d → m d = Ok (a, d') → sound d d' ∧ rests (db_abs d) (db_abs d')) → quiet (stmt m).
Proof.
  intros Hm d Hd. unfold stmt. destruct (m d) as [[a d']|e] eqn:E; cbn; [by eapply Hm|]. split; [done|]. split_and!; eauto.
Qed.

Lemma quiet_GetRemote id : quiet (stmt (SqliteStore.GetRemote id)).
Proof. apply quiet_reads, reads_bind; [apply reads_one|intros; apply reads_ret]. Qed.
Lemma quiet_GetRemoteByURL u : quiet (stmt (SqliteStore.GetRemoteByURL u)).
Proof. apply quiet_reads, reads_bind; [apply reads_one|intros; apply reads_ret]. Qed.
Lemma quiet_GetRef rid name : quiet (stmt (SqliteStore.GetRef rid name)).
Proof. apply quiet_reads, reads_bind; [apply reads_one|intros; apply reads_ret]. Qed.
Lemma quiet_LatestObservationForRef id : quiet (stmt (SqliteStore.LatestObservationForRef id)).
Proof. apply quiet_reads, reads_bind; [apply reads_one|intros [[? ?] ?]; apply reads_ret]. Qed.

Lemma quiet_CreateRemote r : rm_ChainHeadHash r = genesis_head → rm_ChainLen r = 0 → quiet (stmt (SqliteStore.CreateRemote r)).
Proof.
  intros Hh Hl. apply quiet_stmt. intros d id d' Hd H. split; [by eapply safe_CreateRemote|].
  destruct (CreateRemote_good r d id d' Hd Hh Hl H) as (_ & Hr & Hnone).
  assert (a_refs (db_abs d') = a_refs (db_abs d) ∧ a_leases (db_abs d') = a_leases (db_abs d)) as [E1 E2].
  { unfold SqliteStore.CreateRemote in H. apply SE_bind_ok in H as (row & d1 & H%run_with_ok & [= _ <-]).
    unfold Sqlc.CreateRemote in H. by step_ok H. }
  split_and!; [done..|]. intros k rem Hk. exists rem. rewrite Hr, lookup_insert_ne; [done|]. congruence.
Qed.

Lemma quiet_SoftDeleteRemote id now : quiet (stmt (SqliteStore.SoftDeleteRemote id now)).
Proof. apply quiet_stmt. intros d u d' _. apply SoftDeleteRemote_rests. Qed.

Lemma quiet_AckTaintEvent id by_ note now : quiet (stmt (SqliteStore.AckTaintEvent id by_ note now)).
Proof.
  apply quiet_stmt. intros d u d' _ H. split; [by eapply safe_AckTaintEvent|].
  injection (proj1 (run_with_ok _ _ _ _) H) as _ <-. split_and!; eauto.
Qed.

Create HintDb quiet.
#[export] Hint Resolve quiet_GetRemote quiet_GetRemoteByURL quiet_GetRef quiet_LatestObservationForRef quiet_SoftDeleteRemote
  quiet_AckTaintEvent : quiet.
#[export] Hint Extern 1 (quiet (stmt (SqliteStore.CreateRemote _))) => apply quiet_CreateRemote; reflexivity : quiet.

(** Taking a program apart, call by call. *)
Ltac quietly := repeat match goal with
  | |- ∀ _, _ => intros ?
  | |- True => exact I
  | |- quiet_prog (Return _) => exact I
  | |- quiet_prog (Ask _ _) => split; [solve [auto with quiet]|intros ?]
  | |- quiet_prog (let _ := _ in _) => cbv zeta
  | |- quiet_prog (match _ with _ => _ end) => case_match
  | _ => solve [auto with quiet]
  end.

Lemma quiet_map {A B} (f : A → B) (p : prog A) : quiet_prog p → quiet_prog (prog_map f p).
Proof. induction p as [a|X op next IH]; [done|]. intros [Hop Hn]. split; [done|]. intros r. by apply IH. Qed.

Lemma quiet_reader {A} (p : prog A) : reader p → quiet_prog p.
Proof.
  induction p as [a|X op next IH]; [done|]. intros [Hop Hn]. split; [|intros r; by apply IH].
  intros d Hd. rewrite Hop. split; [done|]. split_and!; eauto.
Qed.

Section requests.
Context (NormalizeURL : string → res string).

Lemma quiet_with_remote {A} id (k : Remote → prog (S := db) (res (response A))) :
  (∀ r, quiet_prog (k r)) → quiet_prog (with_remote_calls (T := sqliteTx) id k).
Proof. intros Hk. unfold with_remote_calls. cbn [st_GetRemote sqlite_store]. quietly. Qed.

Lemma quiet_create now body : quiet_prog (CreateRemote_calls (S := db) (T := sqliteTx) NormalizeURL now body).
Proof. unfold CreateRemote_calls. cbn [st_CreateRemote sqlite_store]. quietly. Qed.
Lemma quiet_delete now id : quiet_prog (DeleteRemote_calls (S := db) (T := sqliteTx) now id).
Proof. apply quiet_with_remote. intros r. cbn [st_SoftDeleteRemote sqlite_store]. quietly. Qed.
Lemma quiet_ack now principal id event body : quiet_prog (AckTaintEvent_calls (S := db) (T := sqliteTx) now principal id event body).
Proof. apply quiet_with_remote. intros r. cbn [st_AckTaintEvent sqlite_store]. quietly. Qed.
Lemma quiet_verify_tag now r tag c : quiet_prog (verify_tag_calls (S := db) (T := sqliteTx) now r tag c).
Proof. unfold verify_tag_calls. cbn [st_GetRef st_LatestObservationForRef sqlite_store]. quietly. Qed.
Lemma quiet_resolve_url now p c : quiet_prog (resolve_url_calls (S := db) (T := sqliteTx) NormalizeURL now p c).
Proof. unfold resolve_url_calls. cbn [st_GetRemoteByURL sqlite_store]. quietly. apply quiet_verify_tag. Qed.
Lemma quiet_verify now p : quiet_prog (Verify_calls (S := db) (T := sqliteTx) NormalizeURL now p).
Proof.
  unfold Verify_calls. cbn [st_GetRemote sqlite_store]. quietly; first [apply quiet_verify_tag|apply quiet_resolve_url].
Qed.

Lemma begins_knows d j : begins (T := sqliteTx) NormalizeURL j → knows d j.
Proof.
  intros [now body|now id|now principal id event body|now params|p Hp|now id body|x Hx].
  - apply (quiet_map (A := res (response _))), quiet_create.
  - apply (quiet_map (A := res (response _))), quiet_delete.
  - apply (quiet_map (A := res (response _))), quiet_ack.
  - apply (quiet_map (A := res (response _))), quiet_verify.
  - by apply quiet_reader.
  - done.
  - done.
Qed.

Lemma begins_idle j : begins (S := db) (T := sqliteTx) NormalizeURL j → working j = None.
Proof. by intros []. Qed.
End requests.

(** * The calls of a sync *)

(** What one turn of a sync leaves behind: the store is in order and has lost nothing, the sync
    knows what it relies on next, the other remotes rest, and a lease is taken only when there
    was none or it had expired. *)
Record turn_ok (d : db) (x : sync_env) (pc pc' : sync_pc) (d' : db) : Prop := {
  tk_good : db_good d';
  tk_extends : extends (db_abs d) (db_abs d');
  tk_knows : sync_knows (db_abs d') x pc';
  tk_keeps rid : (rid = sx_rid x → working (S := db) (JSync x pc) = None ∧ working (S := db) (JSync x pc') = None) →
    keeps rid (db_abs d) (db_abs d');
  tk_lease : working (S := db) (JSync x pc) = None → working (S := db) (JSync x pc') ≠ None →
    lease_free (db_abs d) (sx_rid x) (rd_lease (sx_rd x));
}.

(** A turn that changes nothing. *)
Lemma turn_same d x pc pc' :
  db_good d → sync_knows (db_abs d) x pc' → (working (S := db) (JSync x pc) = None → working (S := db) (JSync x pc') = None) → turn_ok d x pc pc' d.
Proof. intros Hd Hk Hw. split; [done|done|done|intros; apply keeps_refl|]. intros H1 H2. by apply Hw in H1. Qed.

(** Between a turn and the next, before the lease or after it. *)
Lemma turn_idle d x pc pc' d' :
  sound d d' ∧ rests (db_abs d) (db_abs d') → db_good d → (sync_knows (db_abs d') x pc') →
  (working (S := db) (JSync x pc) = None → working (S := db) (JSync x pc') = None) → turn_ok d x pc pc' d'.
Proof.
  intros [Hs Hr] Hd Hk Hw. destruct (Hs Hd) as [Hd' He]. split; [done|done|done|intros; by apply rests_keeps|].
  intros H1 H2. by apply Hw in H1.
Qed.

Lemma health_rests now id status lastErr lastOk d u d' : db_ok d → status ∈ [RemoteActive; RemoteDegraded; RemotePaused] →
  SqliteStore.SetRemoteHealth now id status lastErr lastOk d = Ok (u, d') → sound d d' ∧ rests (db_abs d) (db_abs d').
Proof.
  intros Hok Hst H. destruct (SetRemoteHealth_spec d now id status lastErr lastOk Hok Hst) as (d1 & H1 & Hok1 & E).
  rewrite H in H1. injection H1 as _ <-. rewrite E. split; [|by apply rests_alter].
  intros [_ Hg]. rewrite E. split; [split; [done|rewrite E; by apply good_health]|by apply extends_same].
Qed.

Lemma stmt_health now id status lastErr lastOk d : db_ok d → status ∈ [RemoteActive; RemoteDegraded; RemotePaused] →
  let d' := (stmt (SqliteStore.SetRemoteHealth now id status lastErr lastOk) d).2 in sound d d' ∧ rests (db_abs d) (db_abs d').
Proof.
  intros Hok Hst. unfold stmt. destruct (SqliteStore.SetRemoteHealth _ _ _ _ _ d) as [[u d']|e] eqn:E; cbn; [by eapply health_rests|].
  split; [done|]. split_and!; eauto.
Qed.

(** Releasing with the chain the remote has gives the lease back and moves nothing else. *)
Lemma stmt_release d x lease rem : db_good d → held (db_abs d) x lease → a_remotes (db_abs d) !! sx_rid x = Some rem →
  let d' := (stmt (Release (S := db) (T := sqliteTx) (Some lease) (rm_ChainHeadHash rem) (rm_ChainLen rem)) d).2 in
  db_good d' ∧ extends (db_abs d) (db_abs d') ∧ ∀ rid, rid ≠ sx_rid x → keeps rid (db_abs d) (db_abs d').
Proof.
  intros [Hok Hg] [_ [head ->]] Hrem. unfold stmt, Release. cbn [st_ReleaseLeaseCAS sqlite_store le_RemoteID le_Holder le_ChainHeadAtLease].
  destruct (SqliteStore.ReleaseLeaseCAS _ _ _ _ _ d) as [[[] d']|e] eqn:E; cbn; [|split; [done|]; split; [done|intros; apply keeps_refl]].
  apply sqlite_release_refines in E as [Hok' Hr]; [|done]. eapply release_same in Hr; [|done]. split; [|split].
  - split; [done|]. rewrite Hr. by apply good_leases.
  - rewrite Hr. by apply extends_same.
  - intros rid Hne. rewrite Hr. split; [|done|eauto]. cbn. unfold drop_lease.
    destruct (a_leases (db_abs d) !! sx_rid x) as [l|]; [|done]. case_match; [|done]. by rewrite lookup_delete_ne.
Qed.

Lemma turn_release d x pc pc' lease rem : db_good d → held (db_abs d) x lease → a_remotes (db_abs d) !! sx_rid x = Some rem →
  working (S := db) (JSync x pc) = Some (sx_rid x) → (∀ a, sync_knows a x pc') →
  turn_ok d x pc pc' (stmt (Release (S := db) (T := sqliteTx) (Some lease) (rm_ChainHeadHash rem) (rm_ChainLen rem)) d).2.
Proof.
  intros Hd Hh Hrem Hw Hk. destruct (stmt_release d x lease rem Hd Hh Hrem) as (Hg & He & Hkeep). split; [done|done|apply Hk| |].
  - intros rid Hr. apply Hkeep. intros ->. by destruct (Hr eq_refl) as [E _]; rewrite Hw in E.
  - intros E. by rewrite Hw in E.
Qed.

(** The lease. *)
Lemma turn_acquire d x r : db_good d → env_ok x →
  (∀ rem, a_remotes (db_abs d) !! sx_rid x = Some rem → rm_ChainLen rem = rm_ChainLen r) →
  ∀ pc' d', perform (sync_action (S := db) (T := sqliteTx) x (SyAcquire r)) d = Some (pc', d') → turn_ok d x (SyAcquire r) pc' d'.
Proof.
  intros Hd [Hgit _] Hlen pc' d'. destruct Hd as [Hok Hg]. cbn [perform sync_action]. unfold stmt.
  pose proof (AcquireRemoteLease_spec (S := db) (T := sqliteTx) d (rd_lease (sx_rd x)) (sx_rid x) (sx_holder x) leaseTTL Hok I (sqlite_no_regrant _ _ _ _ _)) as Hacq.
  destruct (AcquireRemoteLease _ _ _ _ d) as [[lease d1]|e]; intros [= <- <-]; [|by apply turn_same].
  destruct Hacq as (Hok1 & rem & Hrem & Hfree & -> & Habs). cbn in Hrem, Hfree, Habs. set (lease := mkLease _ _ _ _ _).
  assert (at_lease (db_abs d1) x r lease) as Hat.
  { rewrite Habs. split; [split; [cbn; apply lookup_insert_eq|by eexists]|]. exists rem. split; [done|]. split; [done|by apply Hlen]. }
  split.
  - split; [done|]. cbn in Hok1. rewrite Habs. by apply good_leases.
  - rewrite Habs. by apply extends_same.
  - unfold listed. destruct (sx_git x (rm_URL r)) as [lsRefs|lsErr] eqn:E; cbn; [|done]. split; [done|]. by eapply Hgit.
  - intros rid Hr. assert (rid ≠ sx_rid x) as Hne.
    { intros ->. destruct (Hr eq_refl) as [_ E]. unfold listed in E. by destruct (sx_git x (rm_URL r)). }
    rewrite Habs. split; [cbn; by rewrite lookup_insert_ne|done|eauto].
  - intros _ _ l Hl. by apply Hfree.
Qed.

(** The transaction: it commits the whole sync, or nothing. *)
Lemma turn_tx d x r lease lsRefs prior : db_good d → env_ok x → sync_knows (db_abs d) x (SyTx r lease lsRefs prior) →
  ∀ pc' d', perform (sync_action (S := db) (T := sqliteTx) x (SyTx r lease lsRefs prior)) d = Some (pc', d') →
  turn_ok d x (SyTx r lease lsRefs prior) pc' d'.
Proof.
  intros [Hok Hg] [_ Hrange] (Hat & [Hwf Hnd] & Hprior) pc' d'. pose proof Hat as [[Hlease Hh] (rem & Hrem & Hhead & _)].
  cbn [perform sync_action st_WithTx sqlite_store].
  destruct (sqlite_with_tx_spec d Hok) as (t0 & Ht0 & Hta & _ & Htx).
  set (body := sync_tx _ _ _ _ _ _ _). specialize (Htx _ body).
  destruct (sync_tx_run (T := sqliteTx) (sx_range x) (sx_rd x) (sx_rid x) (rm_TaintAnyTagDeletion r) (le_ChainHeadAtLease lease) (index_by_name prior) lsRefs t0)
    as (syncID & n & t' & Hrun & Hok' & Hgood' & Hrem' & Hleases & Heff); try done.
  { cbn [t_abs sqlite_tx_spec]. by rewrite Hta. } { cbn [t_abs sqlite_tx_spec]. by rewrite Hta, Hrem. }
  { rewrite <- Hhead. by rewrite (good_head_length _ _ _ Hg Hrem). } { cbn [t_abs sqlite_tx_spec]. by rewrite Hta. }
  cbn [t_ok t_abs sqlite_tx_spec] in Hok', Hgood', Hrem', Hleases, Heff. fold body in Hrun. rewrite Hrun in Htx. rewrite Hta in Hleases, Heff.
  destruct (Htx Hok') as [(_ & s2 & E & Hok2 & Habs)|(Hbad & _)]; [|by destruct Hbad; apply Hgood'].
  rewrite E. intros [= <- <-]. rewrite <- Habs in *. split.
  - done.
  - destruct (se_rows _ _ _ _ _ _ _ _ _ Heff) as (seen & del & rows & Hobs & _). split.
    + intros k. unfold ledger. rewrite Hobs, filter_app. by eexists.
    + destruct (se_events _ _ _ _ _ _ _ _ _ Heff) as [l ->]. rewrite fmap_app. by eexists.
    + intros k ref Hk Ht. eapply effect_keeps_taint; try done; [by apply (good_tags _ Hg k)|apply Hgood'|apply Hg].
  - split; [|done]. split; [by rewrite Hleases|done].
  - intros rid Hr. assert (rid ≠ sx_rid x) as Hne by (intros ->; by destruct (Hr eq_refl)).
    split; [by rewrite Hleases|intros; by rewrite (se_other_refs _ _ _ _ _ _ _ _ _ Heff)|].
    intros rem0 Hr0. exists rem0. by rewrite (se_other_remotes _ _ _ _ _ _ _ _ _ Heff).
  - done.
Qed.

(** One turn of a sync. *)
Lemma sync_turn d x pc : db_good d → env_ok x → sync_knows (db_abs d) x pc →
  match pc with
  | SyAcquire r => ∀ rem, a_remotes (db_abs d) !! sx_rid x = Some rem → rm_ChainLen rem = rm_ChainLen r
  | _ => True
  end →
  ∀ pc' d', perform (sync_action (S := db) (T := sqliteTx) x pc) d = Some (pc', d') → turn_ok d x pc pc' d'.
Proof.
  intros Hd Hx Hk Hlen pc' d'. pose proof Hd as [Hok Hg].
  destruct pc as [|r|r lease e|r lease e|r lease l|r lease e|r lease l prior|r lease e|lease e|lease l id n|lease l id n h len|res|res e].
  - cbn [perform sync_action st_GetRemote sqlite_store]. unfold stmt. rewrite GetRemote_spec.
    destruct (a_remotes _ !! _); intros [= <- <-]; by apply turn_same.
  - by apply turn_acquire.
  - cbn [perform sync_action st_SetRemoteHealth sqlite_store]. pose proof (stmt_health (rd_wall (sx_rd x)) (sx_rid x) RemoteDegraded
      (sx_error_text x e) (rd_start (sx_rd x)) d Hok ltac:(set_solver)) as Hh.
    destruct (stmt _ d) as [u d1]. intros [= <- <-]. apply turn_idle; [done|done| |done].
    eapply (sync_knows_keeps _ _ x (SyLsRelease r lease e)); [apply rests_keeps, Hh|done].
  - destruct Hk as (Hh & rem & Hrem & E1 & E2). cbn [perform sync_action]. rewrite <- E1, <- E2.
    pose proof (turn_release d x (SyLsRelease r lease e) (SyDone (Some (failed_result lease)) (Some e)) lease rem Hd Hh Hrem eq_refl (λ _, I)) as Ht.
    destruct (stmt _ d) as [u d1]. intros [= <- <-]. exact Ht.
  - cbn [perform sync_action st_ListTags sqlite_store]. unfold stmt. destruct Hk as [Hat Hls].
    pose proof (index_prior (S := db) (T := sqliteTx) d (sx_rid x)) as Hi.
    destruct (Hi Hok (ok_refs _ (good_abs _ Hg))) as (prior & Hl & Hp).
    cbn in Hl. rewrite Hl. intros [= <- <-]. by apply turn_same.
  - destruct Hk as (Hh & rem & Hrem & E1 & E2). cbn [perform sync_action]. rewrite <- E1, <- E2.
    pose proof (turn_release d x (SyTagsRelease r lease e) (SyDone None (Some e)) lease rem Hd Hh Hrem eq_refl (λ _, I)) as Ht.
    destruct (stmt _ d) as [u d1]. intros [= <- <-]. exact Ht.
  - by apply turn_tx.
  - destruct Hk as (Hh & rem & Hrem & E1 & E2). cbn [perform sync_action]. rewrite <- E1, <- E2.
    pose proof (turn_release d x (SyTxRelease r lease e) (SyTxHealth lease e) lease rem Hd Hh Hrem eq_refl (λ _, I)) as Ht.
    destruct (stmt _ d) as [u d1]. intros [= <- <-]. exact Ht.
  - cbn [perform sync_action st_SetRemoteHealth sqlite_store]. pose proof (stmt_health (rd_wall (sx_rd x)) (sx_rid x) RemoteDegraded
      (sx_error_text x e) (rd_end (sx_rd x)) d Hok ltac:(set_solver)) as Hh.
    destruct (stmt _ d) as [u d1]. intros [= <- <-]. by apply turn_idle.
  - cbn [perform sync_action st_GetChainHead sqlite_store]. unfold stmt. rewrite GetChainHead_spec. destruct Hk as [Hh [rem Hrem]].
    rewrite Hrem. intros [= <- <-]. apply turn_same; [done| |done]. split; [done|]. by exists rem.
  - destruct Hk as (Hh & rem & Hrem & <- & <-). cbn [perform sync_action].
    destruct (stmt _ d) as [u d1] eqn:E. intros [= <- <-].
    pose proof (turn_release d x (SyRelease lease l id n (rm_ChainHeadHash rem) (rm_ChainLen rem))
      (match u with Ok _ => SyHealth (mkSyncResult id SyncOk (Z.of_nat (length l)) n (le_ChainHeadAtLease lease) (rm_ChainHeadHash rem))
       | Err e => SyDone None (Some e) end) lease rem Hd Hh Hrem eq_refl) as Ht.
    rewrite E in Ht. apply Ht. by destruct u.
  - cbn [perform sync_action st_SetRemoteHealth sqlite_store]. pose proof (stmt_health (rd_wall (sx_rd x)) (sx_rid x) RemoteActive
      "" (rd_end (sx_rd x)) d Hok ltac:(set_solver)) as Hh.
    destruct (stmt _ d) as [u d1]. intros [= <- <-]. by apply turn_idle.
  - done.
Qed.

(** * All of them *)

Lemma working_lease d k rid : knows d k → working k = Some rid → ∃ l, a_leases (db_abs d) !! rid = Some l.
Proof.
  destruct k as [p|now id body pc|x pc]; [done|done|]. intros [_ Hk] Hw.
  assert (∀ lease, held (db_abs d) x lease → ∃ l, a_leases (db_abs d) !! sx_rid x = Some l) as Hh by (intros lease [-> _]; by eexists).
  destruct pc; try done; injection Hw as <-; cbn in Hk;
    first [by eapply Hh; apply Hk|by destruct Hk as [[? _] _]; eapply Hh].
Qed.

(** A sync starts to work only by taking the lease. *)
Lemma enters d x pc pc' d' : perform (sync_action (S := db) (T := sqliteTx) x pc) d = Some (pc', d') →
  working (S := db) (JSync x pc) = None → working (S := db) (JSync x pc') ≠ None → ∃ r, pc = SyAcquire r.
Proof.
  destruct pc; try done; cbn [perform sync_action]; destruct (stmt _ d) as [[a|e] d1]; intros [= <- <-] _ Hw; try done; by eexists.
Qed.

Lemma working_sync x pc rid : working (S := db) (JSync x pc) = Some rid → rid = sx_rid x.
Proof. by destruct pc; intros [= <-]. Qed.

(** One turn of [j]: the store is in order, nothing is lost, everyone knows what it relies on, and
    no two syncs work on one remote. *)
Lemma call_ok d others j j' d' :
  db_good d → knows d j → Forall (knows d) others → NoDup (omap working (j :: others)) → undisturbed d others j →
  perform (act j) d = Some (j', d') →
  db_good d' ∧ extends (db_abs d) (db_abs d') ∧ knows d' j' ∧ Forall (knows d') others ∧ NoDup (omap working (j' :: others)).
Proof.
  intros Hd Hj Ho Hnd Hu Hp.
  assert (rests (db_abs d) (db_abs d') → Forall (knows d') others) as Hrests.
  { intros Hr. eapply Forall_impl; [exact Ho|]. intros k. apply knows_keeps. intros rid _. by apply rests_keeps. }
  destruct j as [p|now id body pc|x pc].
  - destruct p as [a|X op next]; [done|]. cbn [perform job_action map_action prog_action] in Hp. destruct Hj as [Hop Hn].
    destruct (Hop d Hd) as [Hs Hr]. destruct (op d) as [r d1]. injection Hp as <- <-. destruct (Hs Hd) as [Hd1 He].
    split; [done|]. split; [done|]. split; [apply Hn|]. by split; [apply Hrests|].
  - destruct pc as [|r|resp]; [| |done]; cbn [perform job_action map_action patch_action st_GetRemote st_UpdateRemote sqlite_store] in Hp.
    + pose proof (quiet_GetRemote id d Hd) as [Hs Hr]. destruct (stmt _ d) as [r d1]. injection Hp as <- <-. destruct (Hs Hd).
      split; [done|]. split; [done|]. split; [done|]. split; [by apply Hrests|]. exact Hnd.
    + assert (sound d d' ∧ rests (db_abs d) (db_abs d') ∧ ∃ resp, j' = JPatch now id body (PDone resp)) as (Hs & Hr & resp & ->).
      { unfold stmt in Hp. destruct (SqliteStore.UpdateRemote _ d) as [[[] d1]|e] eqn:E; injection Hp as <- <-.
        - apply sound_UpdateRemote in E as [? ?]; [|done]. eauto.
        - split; [done|]. split; [split_and!; eauto|]. destruct e; eauto. }
      destruct (Hs Hd). split; [done|]. split; [done|]. split; [done|]. split; [by apply Hrests|]. exact Hnd.
  - destruct Hj as [Hx Hk]. cbn [job_action] in Hp.
    assert (∃ pc', j' = JSync x pc' ∧ perform (sync_action (S := db) (T := sqliteTx) x pc) d = Some (pc', d')) as (pc' & -> & Hp').
    { destruct (sync_action x pc) as [Y op next|]; [|done]. cbn [perform map_action] in *. destruct (op d) as [r d1]. injection Hp as <- <-. eauto. }
    pose proof (sync_turn d x pc Hd Hx Hk) as Ht. destruct (Ht ltac:(by destruct pc; try done; apply Hu) pc' d' Hp') as [Hg He Hk' Hkeep Hlease].
    assert (∀ k, k ∈ others → working k = Some (sx_rid x) → working (S := db) (JSync x pc) = None ∧ working (S := db) (JSync x pc') = None) as Hout.
    { intros k Hin Hw. assert (working (S := db) (JSync x pc) = None) as Hn.
      { destruct (working (JSync x pc)) as [rid|] eqn:E; [|done]. exfalso. pose proof (working_sync _ _ _ E) as ->.
        cbn [omap list_omap] in Hnd. rewrite E in Hnd. apply NoDup_cons in Hnd as [Hnin _]. apply Hnin, list_elem_of_omap. eauto. }
      split; [done|]. destruct (working (JSync x pc')) as [rid|] eqn:E; [|done]. exfalso.
      destruct (enters d x pc pc' d' Hp' Hn) as [r ->]; [by rewrite E|].
      rewrite Forall_forall in Ho. destruct (working_lease d k _ (Ho k Hin) Hw) as [l Hl].
      pose proof (proj1 Hu k l Hin Hw Hl) as Hle. specialize (Hlease Hn ltac:(done) l Hl). lia. }
    split; [done|]. split; [done|]. split; [done|]. split.
    + rewrite Forall_forall in *. intros k Hin. eapply knows_keeps; [|by apply Ho]. intros rid Hw. apply Hkeep. intros ->. by eapply Hout.
    + cbn [omap list_omap] in *. destruct (working (JSync x pc')) as [rid|] eqn:E.
      * pose proof (working_sync _ _ _ E) as ->. apply NoDup_cons. split; [|by destruct (working (JSync x pc)); [apply NoDup_cons in Hnd as [_ ?]|]].
        intros (k & Hin & Hw)%list_elem_of_omap. destruct (Hout k Hin Hw) as [_ E2]. congruence.
      * by destruct (working (JSync x pc)); [apply NoDup_cons in Hnd as [_ ?]|].
Qed.

(** A call that fails: what the goroutine does next asks for nothing new. *)
Lemma fail_ok d e j j' : knows d j → refuse e (act j) = Some j' → knows d j' ∧ (working j' = None ∨ working j' = working j).
Proof.
  intros Hj Hr. destruct j as [p|now id body pc|x pc].
  - destruct p as [a|X op next]; [done|]. injection Hr as <-. split; [apply Hj|by left].
  - destruct pc; try done; injection Hr as <-; (split; [done|by left]).
  - destruct Hj as [Hx Hk]. destruct pc; try done; injection Hr as <-; cbn in Hk |- *; (split; [split; [done|]|auto]); try done; try apply Hk.
Qed.

Record settled (w : world (S := db)) : Prop := {
  sd_good : db_good (w_store w);
  sd_knows : Forall (knows (w_store w)) (w_jobs w);
  sd_alone : NoDup (omap working (w_jobs w));
}.

Section overlap.
Context (NormalizeURL : string → res string).
Abbreviation calm_turn := (turn (S := db) (T := sqliteTx) NormalizeURL undisturbed).

Lemma calm_settled w w' : calm_turn w w' → settled w → settled w' ∧ extends (db_abs (w_store w)) (db_abs (w_store w')).
Proof.
  intros Ht [Hg Hk Ha]. destruct Ht as [w j Hb|s l1 j l2 j' s' Hp Hu|s l1 j l2 e j' Hr|s l1 j l2]; cbn [w_store w_jobs] in *.
  - split; [|done]. split; cbn [w_store w_jobs]; [done| |].
    + apply Forall_app. split; [done|]. constructor; [by eapply begins_knows|constructor].
    + rewrite omap_app. cbn [omap list_omap]. by rewrite (begins_idle _ _ Hb), app_nil_r.
  - assert (∀ k : job, l1 ++ k :: l2 ≡ₚ k :: l1 ++ l2) as HP by (intros; by rewrite Permutation_middle).
    rewrite (HP j) in Hk, Ha. apply Forall_cons in Hk as [Hj Ho].
    destruct (call_ok s (l1 ++ l2) j j' s' Hg Hj Ho Ha Hu Hp) as (H1 & H2 & H3 & H4 & H5). split; [|done].
    split; cbn [w_store w_jobs]; [done|rewrite (HP j'); by constructor|by rewrite (HP j')].
  - split; [|done]. assert (∀ k : job, l1 ++ k :: l2 ≡ₚ k :: l1 ++ l2) as HP by (intros; by rewrite Permutation_middle).
    rewrite (HP j) in Hk, Ha. apply Forall_cons in Hk as [Hj Ho]. destruct (fail_ok s e j j' Hj Hr) as [Hj' Hw].
    split; cbn [w_store w_jobs]; [done|rewrite (HP j'); by constructor|rewrite (HP j')].
    cbn [omap list_omap] in *. destruct Hw as [-> | ->]; [|done]. by destruct (working j); [apply NoDup_cons in Ha as [_ ?]|].
  - split; [|done]. rewrite <- Permutation_middle in Hk, Ha. apply Forall_cons in Hk as [_ Ho].
    split; cbn [w_store w_jobs]; [done|done|]. cbn [omap list_omap] in Ha. by destruct (working j); [apply NoDup_cons in Ha as [_ ?]|].
Qed.

Lemma calm_turns w w' : rtc calm_turn w w' → settled w → settled w' ∧ extends (db_abs (w_store w)) (db_abs (w_store w')).
Proof.
  induction 1 as [|w w1 w' Ht _ IH]; [done|]. intros Hs. destruct (calm_settled _ _ Ht Hs) as [Hs1 E1].
  destruct (IH Hs1) as [Hs' E2]. split; [done|by etrans].
Qed.

(** A verification whose calls fall on stores that hold the tainted tag answers so. *)
Lemma verify_on now p id ss a : well_formed p → parseID (vp_Remote p) = Some id →
  Forall (λ d, db_good d ∧ ∃ r, a_refs (db_abs d) !! (id, vp_Tag p) = Some r ∧ rf_Tainted r = true) ss →
  answer_on (Verify_calls (S := db) (T := sqliteTx) NormalizeURL now p) ss = Some a →
  ∃ resp, a = Ok (Success 200 resp) ∧ vr_Status resp = StatusTainted.
Proof.
  intros (Ht & Hl & Hne & c & Hc) Hid Hss. unfold Verify_calls. rewrite Ht. cbn [negb].
  destruct (Z.ltb_spec maxRemoteParamLen (len (vp_Remote p))); [lia|]. unfold commit_of in Hc. rewrite Hc.
  destruct (String.eqb_spec (vp_Remote p) ""); [done|]. rewrite Hid. cbn [answer_on st_GetRemote sqlite_store].
  destruct Hss as [|d ss [Hd (r & Hr & Htaint)] Hss]; [done|]. unfold stmt. rewrite GetRemote_spec.
  destruct (db_good_ref_remote _ _ _ _ Hd Hr) as [rem Hrem]. rewrite Hrem. cbn [fst]. pose proof (remote_key _ _ _ Hrem) as Hkey.
  unfold verify_tag_calls. cbn [answer_on st_GetRef sqlite_store].
  destruct Hss as [|d2 ss [Hd2 (r2 & Hr2 & Ht2)] Hss]; [done|]. unfold stmt. rewrite GetRef_spec, Hkey, Hr2. cbn [fst answer_on st_LatestObservationForRef sqlite_store].
  destruct Hss as [|d3 ss _ _]; [done|]. intros [= <-]. eexists. split; [done|]. cbn [vr_Status]. by apply status_of_cases.
Qed.

End overlap.

(** * A run of two goroutines *)

Definition sample_env (o : OID) (t : Z) : sync_env := mkSyncEnv (λ _, Ok (listing o)) no_text map_to_list "w" (sample_readings t) 1.
Definition failing_env (t : Z) : sync_env := mkSyncEnv (λ _, Err ErrSQL) no_text map_to_list "w" (sample_readings t) 1.

Lemma sample_env_ok o t : oid_wf o → env_ok (sample_env o t).
Proof. intros Ho. split; [|done]. intros u l [= <-]. by apply listing_wf. Qed.
Lemma failing_env_ok t : env_ok (failing_env t).
Proof. by split. Qed.

Abbreviation sample_play := (play (S := db) (T := sqliteTx)).
Abbreviation bad_url := (λ _ : string, Err ErrBadURL).

(** A sync finds the moved tag while the remote is being deleted and a PATCH passes by. *)
Definition busy : list (event (S := db)) :=
  [EBegin (JSync (sample_env oid_b 500000000000) SyGet); ETurn 0; ETurn 0;
   EBegin (JPatch 7 1 empty_patch PGet); ETurn 1; EBegin (JRequest (prog_map AUnit (DeleteRemote_calls (T := sqliteTx) 40 1)));
   ETurn 2; ETurn 0; ETurn 1; ETurn 2; ETurn 0; EFail 0 ErrSQL].
Definition busy_world : world := sample_play busy (mkWorld sample_db1 []).

Lemma idle_turn (w : world (S := db)) i :
  watched <$> w_jobs w !! i = Some None → ∀ j, w_jobs w !! i = Some j → undisturbed (w_store w) (delete i (w_jobs w)) j.
Proof. intros H j Hj. rewrite Hj in H. injection H as H. unfold undisturbed. by rewrite H. Qed.

Lemma watched_turn (w : world (S := db)) i v d : w_store w = d →
  watched <$> w_jobs w !! i = Some (Some v) →
  match v with
  | WAcquire rid _ r => omap working (delete i (w_jobs w)) = [] ∧ option_map rm_ChainLen (a_remotes (db_abs d) !! rid) = Some (rm_ChainLen r)
  | WPatch r => option_map (λ rem, (rm_ChainHeadHash rem, rm_ChainLen rem)) (a_remotes (db_abs d) !! rm_ID r) = Some (rm_ChainHeadHash r, rm_ChainLen r)
  end → ∀ j, w_jobs w !! i = Some j → undisturbed d (delete i (w_jobs w)) j.
Proof.
  intros <- H Hv j Hj. rewrite Hj in H. injection H as H. unfold undisturbed. rewrite H. destruct v as [rid now r|r].
  - destruct Hv as [Hw Hv]. split.
    + intros k l Hk Hwk _. exfalso. assert (rid ∈ omap working (delete i (w_jobs w))) as Hin by (apply list_elem_of_omap; eauto).
      rewrite Hw in Hin. by apply elem_of_nil in Hin.
    + intros rem Hr. rewrite Hr in Hv. by injection Hv.
  - intros rem Hr. rewrite Hr in Hv. by injection Hv.
Qed.

Lemma busy_may : may_play (T := sqliteTx) bad_url undisturbed busy (mkWorld sample_db1 []).
Proof.
  cbn [may_play busy].
  repeat match goal with
  | |- _ ∧ _ => split
  | |- True => exact I
  | |- begins _ _ => constructor
  | |- env_ok _ => apply sample_env_ok, oid_b_wf
  | |- ∀ j, _ !! _ = Some j → _ => first [apply idle_turn; vm_compute; exact eq_refl|eapply watched_turn; vm_compute; first [exact eq_refl|by split]]
  end.
Qed.


(** * What goes wrong otherwise *)

Abbreviation free := (λ (_ : db) (_ : list (job (S := db))) (_ : job (S := db)), True).

Lemma may_play_free evs w : Forall (λ ev, match ev with EBegin j => begins (S := db) (T := sqliteTx) bad_url j | _ => True end) evs →
  may_play (T := sqliteTx) bad_url free evs w.
Proof. intros H. revert w. induction H as [|ev evs Hev _ IH]; intros w; [done|]. split; [by destruct ev|apply IH]. Qed.

Ltac all_begin := repeat match goal with
  | |- Forall _ _ => constructor
  | |- begins _ _ => constructor
  | |- env_ok (failing_env _) => apply failing_env_ok
  | |- env_ok _ => apply sample_env_ok; first [exact oid_a_wf|exact oid_b_wf]
  | |- True => exact I
  | _ => progress cbn beta iota
  end.

(** Two syncs of one remote.  The lease of the first runs out, the second takes it, finds the tag
    moved and taints it; then the first commits what it read before. *)
Definition overtaken : list (event (S := db)) :=
  [EBegin (JSync (sample_env oid_a 500000000000) SyGet); ETurn 0; ETurn 0; ETurn 0;
   EBegin (JSync (sample_env oid_b 700000000000) SyGet); ETurn 1; ETurn 1; ETurn 1; ETurn 1].

(** A lease that has run out is not noticed by the sync that holds it: [SyncRemote] reads the tags
    before its transaction and does not look at the lease again.  The taint the other sync
    recorded is gone from the tag, and GET /v1/verify answers ok. *)
Theorem expired_lease_loses_taint : ∃ w1 w2 r1 r2 resp,
  rtc (turn (T := sqliteTx) bad_url free) (mkWorld sample_db1 []) w1 ∧ rtc (turn (T := sqliteTx) bad_url free) w1 w2 ∧
  a_refs (db_abs (w_store w1)) !! (1, "v1") = Some r1 ∧ rf_Tainted r1 = true ∧
  a_refs (db_abs (w_store w2)) !! (1, "v1") = Some r2 ∧ rf_Tainted r2 = false ∧
  Verify (S := db) (T := sqliteTx) bad_url 710000000000 sample_params (w_store w2) = Ok (Success 200 resp, w_store w2) ∧
  vr_Status resp = StatusOK.
Proof.
  exists (sample_play overtaken (mkWorld sample_db1 [])), (sample_play [ETurn 0] (sample_play overtaken (mkWorld sample_db1 []))).
  eexists _, _, _. split; [|split].
  - apply play_turns, may_play_free. all_begin.
  - apply play_turns, may_play_free. all_begin.
  - split; [vm_compute; exact eq_refl|]. split; [vm_compute; exact eq_refl|]. split; [vm_compute; exact eq_refl|].
    split; [vm_compute; exact eq_refl|]. split; [vm_compute; exact eq_refl|]. vm_compute. exact eq_refl.
Qed.

(** A sync that read the row before another one committed, and whose listing fails. *)
Definition stale_row : list (event (S := db)) :=
  [EBegin (JSync (failing_env 500000000000) SyGet); ETurn 0;
   EBegin (JSync (sample_env oid_a 5) SyGet); ETurn 1; ETurn 1; ETurn 1; ETurn 1; ETurn 1; ETurn 1; ETurn 1;
   ETurn 0; ETurn 0; ETurn 0].

(** The failing sync gives its lease back with the length it read before it had the lease: the
    head stays and the length of the chain is rewound. *)
Theorem stale_length_breaks_chain : ∃ w,
  rtc (turn (T := sqliteTx) bad_url free) (mkWorld sample_db []) w ∧ ¬ chain_ok (db_abs (w_store w)) ∧
  ∃ rem, a_remotes (db_abs (w_store w)) !! 1 = Some rem ∧ rm_ChainLen rem = 0 ∧ rm_ChainHeadHash rem ≠ genesis_head ∧
    length (ledger (db_abs (w_store w)) 1) = 1%nat.
Proof.
  exists (sample_play stale_row (mkWorld sample_db [])). split.
  - apply play_turns, may_play_free. all_begin.
  - assert (∃ rem, a_remotes (db_abs (w_store (sample_play stale_row (mkWorld sample_db [])))) !! 1 = Some rem ∧ rm_ChainLen rem = 0 ∧
      rm_ChainHeadHash rem ≠ genesis_head ∧ length (ledger (db_abs (w_store (sample_play stale_row (mkWorld sample_db [])))) 1) = 1%nat) as Hex.
    { eexists. split; [vm_compute; exact eq_refl|]. split; [vm_compute; exact eq_refl|]. split; [vm_compute; discriminate|vm_compute; exact eq_refl]. }
    split; [|exact Hex]. destruct Hex as (rem & Hr & Hl & _ & Hn). intros Hc. destruct (Hc 1 rem Hr) as (_ & _ & E). rewrite Hl, Hn in E. discriminate E.
Qed.

(** A store that cannot be read is answered as a remote that nobody registered. *)
Theorem unreadable_store_not_tracked : ∃ a,
  run_alone (Verify_calls (T := sqliteTx) bad_url 50 sample_params) sample_db1 = (a, sample_db1) ∧
  (∀ resp, a = Ok (Success 200 resp) → vr_Status resp ≠ StatusNotTracked) ∧
  refuse ErrSQL (prog_action (Verify_calls (T := sqliteTx) bad_url 50 sample_params)) ≫= (λ p, refuse ErrSQL (prog_action p))
    = Some (Return (Ok (Success 200 (not_tracked "v1")))).
Proof.
  eexists. split; [vm_compute; exact eq_refl|]. split; [intros resp [= <-]; discriminate|]. vm_compute. exact eq_refl.
Qed.

(** A PATCH around the first sync of a remote. *)
Definition straddling : list (event (S := db)) :=
  [EBegin (JPatch 30 1 empty_patch PGet); ETurn 0;
   EBegin (JSync (sample_env oid_a 5) SyGet); ETurn 1; ETurn 1; ETurn 1; ETurn 1; ETurn 1; ETurn 1; ETurn 1; ETurn 0].

(** It puts the chain back to its beginning, and the auditor of the tests, who reads no row of a
    chain whose length is 0, passes the store. *)
Theorem audit_misses_rewound_chain : ∃ w,
  rtc (turn (T := sqliteTx) bad_url free) (mkWorld sample_db []) w ∧ ¬ chain_ok (db_abs (w_store w)) ∧
  length (ledger (db_abs (w_store w)) 1) = 1%nat ∧ AssertChainIntact (T := sqliteTx) 5 1 (w_store w) = Some (Ok ()).
Proof.
  exists (sample_play straddling (mkWorld sample_db [])). split.
  - apply play_turns, may_play_free. all_begin.
  - assert (∃ rem, a_remotes (db_abs (w_store (sample_play straddling (mkWorld sample_db [])))) !! 1 = Some rem ∧ rm_ChainLen rem = 0) as (rem & Hr & Hl)
      by (eexists; split; vm_compute; exact eq_refl).
    assert (length (ledger (db_abs (w_store (sample_play straddling (mkWorld sample_db [])))) 1) = 1%nat) as Hn by (vm_compute; exact eq_refl).
    split; [|split; [exact Hn|vm_compute; exact eq_refl]]. intros Hc. destruct (Hc 1 rem Hr) as (_ & _ & E). rewrite Hl, Hn in E. discriminate E.
Qed.
