(* ===== verification/Ops.v ===== *)
(** What surrounds the server: the probes and the collectors (internal/api/ops.go and
    metrics.go), the version (internal/buildinfo), the level of the log
    (internal/config/logging.go) and the flags of cmd/git-taintedd/main.go.

    Parameters are the answer of [Ping], the handlers of net/http/pprof, the registry of
    Prometheus, the build information of the runtime and the texts of flag errors. *)
From S2P Require Import Prelude GoStrings GoHttp GoFlag Auth Server.
#[local] Open Scope Z_scope.

(** * The version *)

Record BuildInfo : Type := mkBuildInfo {
  Main_Version : string;
  Settings : list (string * string);
}.

(** The loop over the settings: the last revision, and whether the tree was modified. *)
Fixpoint vcs_settings (l : list (string * string)) (rev dirty : string) : string * string :=
  match l with
  | [] => (rev, dirty)
  | (key, value) :: l =>
      if String.eqb key "vcs.revision" then vcs_settings l value dirty
      else if String.eqb key "vcs.modified" then vcs_settings l rev (if String.eqb value "true" then "-dirty" else dirty)
      else vcs_settings l rev dirty
  end.

(** [buildinfo.String], on what the linker injected and what the runtime knows. *)
Definition version_string (Version : string) (ReadBuildInfo : option BuildInfo) : string :=
  let v := TrimSpace Version in
  if negb (String.eqb v "") && negb (String.eqb v "dev") then v
  else
    match ReadBuildInfo with
    | None => "dev"
    | Some bi =>
        let v := Main_Version bi in
        if negb (String.eqb v "") && negb (String.eqb v "(devel)") then v
        else
          let '(rev, dirty) := vcs_settings (Settings bi) "" "" in
          if negb (String.eqb rev "") then "dev+" +:+ (if 12 <? len rev then stake 12 rev else rev) +:+ dirty else "dev"
    end.

(** * The level of the log *)

Inductive Level : Type :=
  | LevelDebug
  | LevelInfo
  | LevelWarn
  | LevelError.

Definition ParseLevel (s : string) : Level :=
  let l := ToLower (TrimSpace s) in
  if String.eqb l "debug" then LevelDebug
  else if String.eqb l "warn" || String.eqb l "warning" then LevelWarn
  else if String.eqb l "error" then LevelError
  else LevelInfo.

(** slog's numbers, and the handler of a logger: it drops what is below its level. *)
Definition level_number (l : Level) : Z :=
  match l with
  | LevelDebug => -4
  | LevelInfo => 0
  | LevelWarn => 4
  | LevelError => 8
  end.

Record Logger : Type := mkLogger { lg_Level : Level }.

Definition NewLogger (level : string) : Logger := mkLogger (ParseLevel level).

Definition Enabled (log : Logger) (l : Level) : bool := level_number (lg_Level log) <=? level_number l.

(** Errors are logged whatever is configured. *)
Lemma errors_logged level : Enabled (NewLogger level) LevelError = true.
Proof. unfold Enabled, NewLogger. cbn. by destruct (ParseLevel level). Qed.

(** * Collectors *)

(** Buckets are in ten-thousandths of a second; [None] are those of the library. *)
Inductive collector_kind : Type :=
  | CounterKind
  | HistogramKind (buckets : option (list Z)).

Record collector : Type := mkCollector {
  co_Namespace : string;
  co_Name : string;
  co_Help : string;
  co_kind : collector_kind;
  co_labels : list string;
}.

Definition fqName (c : collector) : string := co_Namespace c +:+ "_" +:+ co_Name c.

Record Metrics (Registry : Type) : Type := mkMetrics {
  me_Registry : Registry;
  me_SyncTotal : collector;
  me_SyncErrorsTotal : collector;
  me_SyncDurationSeconds : collector;
  me_TagsTaintedTotal : collector;
  me_VerifyDuration : collector;
}.
#[global] Arguments mkMetrics {Registry}.
#[global] Arguments me_Registry {Registry}.

Definition syncTotal : collector :=
  mkCollector "git_tainted" "sync_total" "Total number of sync runs (by trigger and status)." CounterKind ["trigger"; "status"].
Definition syncErrors : collector :=
  mkCollector "git_tainted" "sync_errors_total" "Total number of sync runs that failed." CounterKind ["trigger"].
Definition syncDuration : collector :=
  mkCollector "git_tainted" "sync_duration_seconds" "Duration of a sync run in seconds." (HistogramKind None) ["trigger"].
Definition tagsTainted : collector :=
  mkCollector "git_tainted" "tags_tainted_total" "Total number of taint events appended (all reasons)." CounterKind [].
Definition verifyDuration : collector :=
  mkCollector "git_tainted" "verify_latency_seconds" "Latency of GET /v1/verify in seconds."
    (HistogramKind (Some [1; 5; 10; 50; 100; 500; 1000])) ["status"].

(** [MustRegister] panics on collectors of one name. *)
Definition NewMetrics {Registry} (MustRegister : list collector → option Registry) : option (Metrics Registry) :=
  reg ← MustRegister [syncTotal; syncErrors; syncDuration; tagsTainted; verifyDuration];
  Some (mkMetrics reg syncTotal syncErrors syncDuration tagsTainted verifyDuration).

Lemma collectors_distinct : NoDup (map fqName [syncTotal; syncErrors; syncDuration; tagsTainted; verifyDuration]).
Proof. apply NoDup_ListNoDup. cbn. repeat constructor; cbn; intuition discriminate. Qed.

(** * Probes *)

(** A pattern that ends in a slash matches the paths below it. *)
Fixpoint subtree_match (pat segs : list string) : bool :=
  match pat, segs with
  | [], [] => false
  | [], _ => true
  | l :: pat, s :: segs => String.eqb l s && subtree_match pat segs
  | _, [] => false
  end.

(** The handler of net/http/pprof at a path. *)
Definition pprof_route (segs : list string) : option string :=
  let at_ name := segs_match [Lit "debug"; Lit "pprof"; Lit name] segs in
  if at_ "cmdline" then Some "Cmdline"
  else if at_ "profile" then Some "Profile"
  else if at_ "symbol" then Some "Symbol"
  else if at_ "trace" then Some "Trace"
  else if subtree_match ["debug"; "pprof"] segs then Some "Index"
  else None.

Definition ops_routes : list route := [parse_pattern "healthz" "GET /healthz"; parse_pattern "readyz" "GET /readyz"].

Section ops.
Context {S : Type} (Ping : S → option string) (pprof : string → Request → http_response).
Context (mux_default : Request → http_response).

Definition healthz : http_response := mkResponse 200 "ok".

(** [Ping] answers the text of its error; the probe does without a store. *)
Definition readyz (store : option S) : http_response :=
  match store ≫= Ping with
  | Some err => mkResponse 503 ("not ready: " +:+ err)
  | None => mkResponse 200 "ready"
  end.

Definition OpsHandler (store : option S) (pprofEnabled : bool) (r : Request) : http_response :=
  match mux_serves ops_routes r with
  | Some op => if String.eqb op "healthz" then healthz else readyz store
  | None =>
      if pprofEnabled && String.eqb (cleanPath (r_EscapedPath r)) (r_EscapedPath r) then
        match pprof_route (segments (r_EscapedPath r)) with
        | Some name => pprof name r
        | None => mux_default r
        end
      else mux_default r
  end.

(** The listener of its own for the collectors. *)
Definition MetricsHandler {Registry} (scrape : Registry → http_response) (m : Metrics Registry) (r : Request) : http_response :=
  match mux_serves [parse_pattern "metrics" "GET /metrics"] r with
  | Some _ => scrape (me_Registry m)
  | None => mux_default r
  end.
End ops.

(** * Flags of the server *)

Definition serverUsage : string := "git-taintedd — the git-tainted server.

Polls registered git remotes (via `git ls-remote --tags`), records each
tag's oid in an append-only, per-remote, SHA-256 hash-chained ledger, and serves
the verify/admin API. Configured entirely via GT_* environment variables;
migrations are embedded in the binary (no db/ folder needed at runtime).

Usage:
  git-taintedd [--version|-v] [--help|-h]

Environment variables (all GT_*):

  Database
  --------
  GT_DB_DRIVER                 Storage backend: sqlite (default) or mysql
  GT_SQLITE_PATH               Path to the SQLite DB file (required if driver=sqlite)
  GT_MYSQL_DSN                 MySQL DSN (required if driver=mysql);
                               needs multiStatements=true&parseTime=false&clientFoundRows=true

  HTTP server
  -----------
  GT_LISTEN_ADDR               API listen address          (default: 127.0.0.1:8080)
                               Serves HTTP/1.1 + h2c on a single cleartext listener.

  Scheduler / sync
  ----------------
  GT_SYNC_CONCURRENCY          Max concurrent in-flight syncs        (default: 4)
  GT_SYNC_DEFAULT_INTERVAL_NS  Default sync interval in unix-ns       (default: 300000000000  = 5 min)
  GT_SCHEDULER_TICK_NS         Scheduler wake-up tick interval in ns  (default: 5000000000   = 5 s)
  GT_STALENESS_BUDGET_NS       How far past due a sync may be before
                               it is considered stale, in ns           (default: 3600000000000 = 1 h)

  Git runner
  ----------
  GT_GIT_BIN                   Path or name of the git binary         (default: git)
  GT_GIT_TIMEOUT_NS            Per-ls-remote deadline in ns           (default: 60000000000 = 60 s)
  GT_PROTOCOL_ALLOWLIST        Colon-separated git transport schemes
                               the syncer will accept                  (default: https:ssh)
  GT_HOST_ALLOWLIST            Colon-separated allowed host patterns;
                               empty = allow all                       (default: " +:+ quoted EmptyString +:+ ")

  Observability
  -------------
  GT_LOG_LEVEL                 Structured log level: debug|info|warn|error (default: info)
  GT_METRICS_ADDR              Dedicated Prometheus listener address.
                               Empty (default) = metrics DISABLED — no /metrics endpoint,
                               no collection. Set to e.g. 127.0.0.1:9090 to enable.
  GT_PPROF_ENABLED             Expose /debug/pprof/* on the API listener (default: false).
                               Set to true only in controlled environments.

  Cache (verify hot path)
  -----------------------
  Otter caching Store decorator on the verify read path, invalidated by
  per-remote generation counters bumped strictly after each write commits.
  Disabling it returns the bare store (zero overhead, identical behavior).

  GT_CACHE_ENABLED             Enable the verify-path cache             (default: true)
  GT_CACHE_MAX_ENTRIES         Max entries per logical Otter cache      (default: 100000)
  GT_CACHE_TTL_NS              Staleness backstop in ns; independent of
                               the immediate generation invalidation.
                               0 disables the TTL.                       (default: 60000000000 = 60 s)

  Auth (control endpoints only)
  -----------------------------
  Gates ONLY the five mutating control operations (create/update/delete remote,
  trigger sync, ack taint event). Reads (verify, all GETs) and health probes are
  never gated. Default mode " +:+ quoted "none" +:+ " reproduces the loopback/edge-proxy posture.

  GT_AUTH_MODE                 none (default) | apikey | basic | jwks.
                               Unknown value is a fatal startup error.
  GT_API_KEYS                  apikey mode: comma-separated raw keys. Each is
                               SHA-256-hashed at load and the cleartext dropped.
  GT_API_KEYS_SHA256           apikey mode: comma-separated lowercase-hex SHA-256
                               key digests (raw key never enters the env).
                               apikey mode needs at least one key via either var.
                               Client sends Authorization: Bearer <key> or X-API-Key.
  GT_BASIC_AUTH                basic mode: comma-separated user:bcrypt-hash entries
                               (htpasswd-style; raw passwords never in the env).
                               Client sends HTTP Basic. At least one entry required.
  GT_JWKS_URL                  jwks mode: JWKS endpoint URL (required).
  GT_JWT_ISSUER                jwks mode: expected iss claim (required).
  GT_JWT_AUDIENCE              jwks mode: expected aud claim (required).
  GT_JWT_ALGS                  jwks mode: comma-separated signature-algorithm
                               allowlist (default: RS256,ES256). " +:+ quoted "none" +:+ " and all
                               HS* algorithms are always rejected.

  Seed-on-bootstrap (peer seeding)
  --------------------------------
  When GT_SEED_SERVERS is set AND this server's remotes table is EMPTY, the server
  bootstraps its baseline from one or more peer git-tainted servers (adopting their
  remotes, current tag projections, and taint history) instead of starting blind.
  It reuses the peers' open read endpoints (no credentials), rebuilds its own
  hash-chain, and commits the whole import in ONE transaction (a crash rolls back
  so the next boot re-seeds cleanly). Best-effort: a failure starts the server
  empty, never aborting startup.

  GT_SEED_SERVERS              Comma/space-separated peer base URLs.
                               Empty (default) = seeding DISABLED.
  GT_SEED_QUORUM               Min peers that must AGREE to adopt a remote/tag fact
                               (default: 1). 1 = trust a single peer; N>1 = require
                               corroboration. Must be <= the number of servers.
  GT_SEED_REMOTES              Optional comma-separated glob allowlist on adopted
                               remote URLs (default: all).
  GT_SEED_CONCURRENCY          Max in-flight peer HTTP requests        (default: 8)
  GT_SEED_TIMEOUT_NS           Per-request HTTP deadline in ns         (default: 30000000000 = 30 s)
  GT_SEED_INSECURE             Allow plaintext http:// to non-loopback peers (default: false)
  GT_SEED_MAX_REMOTES          Fail-loud ceiling on remotes in the seed txn (default: 5000)
  GT_SEED_MAX_OBSERVATIONS     Fail-loud ceiling on total observations      (default: 200000)
  GT_SEED_MAX_PAGES            Per-resource pagination safety bound         (default: 10000)
".

Record flag_outcome : Type := mkFlagOutcome {
  fo_Stdout : list string;
  fo_Stderr : list string;
  fo_Code : Z;
  fo_Handled : bool;
}.

(** [flag_text] is what [flag] says of arguments it refuses; the set prints it, and the usage,
    before [handleFlags] does. *)
Definition handleFlags (flag_text : list string → string) (version : string) (args : list string) : flag_outcome :=
  match flag_parse (own [("version", BoolFlag)] ++ [("v", ("version", BoolFlag))]) args ∅ with
  | Err ErrHelp => mkFlagOutcome [serverUsage] [] 0 true
  | Err FlagError => mkFlagOutcome [serverUsage] [flag_text args +:+ nl; "error: " +:+ flag_text args +:+ nl] 2 true
  | Ok (vals, _) =>
      if get_bool vals "version" false then mkFlagOutcome ["git-taintedd " +:+ version +:+ nl] [] 0 true
      else mkFlagOutcome [] [] 0 false
  end.
