(* ===== verification/Daemon.v ===== *)
(** cmd/git-taintedd/main.go: the server process, from its flags and environment to its exit.

    [boot] is the part of [run] before the goroutines start.  [step] is the rest as a
    transition system: the scheduler, the listener and its requests, the forced syncs they
    start, the signal, and the shutdown of [run] itself, the deferred close of the store
    included.  A request and a sync act on the store at one step each, when they finish; the
    interleaving of their calls is Overlap.v.

    Parameters, beside those of the components, are database/sql with its drivers and the
    migration of the opened database, the subprocess of git and the peers of the seeder. *)
From S2P Require Import Prelude GoStrings GoNum GoMaps GoTime GoHttp GoUrl GoJson Sha256 Model Chain StoreSpec Sqlc MysqlStore LsRemote SyncRemote Scheduler Handlers SeedMerge Seed Config Auth OapiWire Server Ops.
#[local] Open Scope Z_scope.

(** * Opening a store *)

(** An error keeps its identity when it is wrapped; the handle of a database that is not
    returned is closed, which is left out. *)
Section open.
Context {DB : Type} (sql_Open : string → string → res DB) (db_Ping : DB → res ()) (db_Exec : string → DB → res DB).

Fixpoint exec_pragmas (pragmas : list string) (db : DB) : res DB :=
  match pragmas with
  | [] => Ok db
  | pragma :: pragmas => db ← db_Exec pragma db; exec_pragmas pragmas db
  end.

Definition sqlite_Open (RunMigrations : DB → res DB) (path : string) : res DB :=
  db ← sql_Open "sqlite" path;
  _ ← db_Ping db;
  db ← exec_pragmas ["PRAGMA journal_mode = WAL"; "PRAGMA foreign_keys = ON"] db;
  RunMigrations db.

Definition mysql_Open (ParseDSN : string → res dsn_config) (Migrate : DB → res DB) (dsn : string) : res DB :=
  _ ← validateMySQLDSN ParseDSN dsn;
  db ← sql_Open "mysql" dsn;
  _ ← db_Ping db;
  Migrate db.
End open.

(** * The wiring of [run] *)

(** [git.Config]. *)
Record gitConfig : Type := mkGitConfig {
  gc_GitBin : string;
  gc_Timeout : Z;
  gc_ProtocolAllow : string;
}.

Definition NewExecGitRunner (cfg : gitConfig) : gitConfig :=
  mkGitConfig (if String.eqb (gc_GitBin cfg) "" then "git" else gc_GitBin cfg) (gc_Timeout cfg) (gc_ProtocolAllow cfg).

(** The runner of the tests, which may speak other protocols. *)
Definition NewRunnerWithProtocols (gitBin : string) (timeout : Z) (allowProtocol : string) : gitConfig :=
  let gitBin := if String.eqb gitBin "" then "git" else gitBin in
  mkGitConfig gitBin timeout allowProtocol.

(** What the goroutines are started with. *)
Record wiring : Type := mkWiring {
  w_git : gitConfig;
  w_holder : string;
  w_tick : Z;
  w_concurrency : Z;
  w_listen : string;
  w_metrics : option string;
  w_pprof : bool;
}.

Definition wire (cfg : Config) (pid : Z) : wiring := {|
  w_git := NewExecGitRunner (mkGitConfig (cf_GitBin cfg) (cf_GitTimeout cfg) (cf_ProtocolAllowlist cfg));
  w_holder := "git-taintedd-" +:+ FormatInt pid;
  w_tick := cf_SchedulerTick cfg;
  w_concurrency := cf_SyncConcurrency cfg;
  w_listen := cf_ListenAddr cfg;
  w_metrics := if negb (String.eqb (cf_MetricsAddr cfg) "") then Some (cf_MetricsAddr cfg) else None;
  w_pprof := cf_PprofEnabled cfg |}.

(** Where the mux of the process sends a request; a path that is not clean, and the pprof
    subtree without its slash, are redirected. *)
Inductive target : Type :=
  | ToAPI
  | ToOps
  | Redirected.

Definition mux_target (pprofEnabled : bool) (r : Request) : target :=
  let segs := segments (cleanPath (r_EscapedPath r)) in
  if negb (String.eqb (cleanPath (r_EscapedPath r)) (r_EscapedPath r))
     || pprofEnabled && segs_match [Lit "debug"; Lit "pprof"] segs then Redirected
  else if segs_match [Lit "healthz"] segs || segs_match [Lit "readyz"] segs
     || pprofEnabled && subtree_match ["debug"; "pprof"] segs then ToOps
  else ToAPI.

(** * The process *)

Section daemon.
Context {S T : Type} `{Store S T} `{Tx T}.
Context (NormalizeURL : string → res string).
Context (bind_int64 : string → result string Z) (bind_string : string → result string string).
Context (query_string : bool → string → Values → result bind_error (option string)).
Context (query_int query_int64 : string → Values → result bind_error (option Z)).
Context (error_text : error → string) (decode_error : string → string) (malformed : string → bool).
Context (bcrypt_Cost : string → bool) (CompareHashAndPassword : string → string → bool).
Context (jws_Parse : string → option (list jws_header)) (IsSymmetric : string → bool).
Context (LookupSignatureAlgorithm : string → option string).
Context (jwt_Parse : string → list jwk → string → string → Z → Z → option (option string)).
Context (AddKey : list jwk → jwk → option (list jwk)) (cache_ok : string → bool).
Context (mux_default : Request → http_response) (Ping : S → option string) (pprof : string → Request → http_response).

(** The mux of the process. *)
Definition serve (w : wiring) (now : Z) (e : idp) (r : http_request) (st : server_state (S := S)) : option (reply * server_state (S := S)) :=
  match mux_target (w_pprof w) (h_Head r) with
  | ToAPI => ServeHTTP NormalizeURL bind_int64 bind_string query_string query_int query_int64 error_text decode_error malformed
      CompareHashAndPassword jws_Parse IsSymmetric jwt_Parse AddKey mux_default true now e r st
  | ToOps => Some ((OpsHandler Ping pprof mux_default (Some (sv_store st)) (w_pprof w) (h_Head r), None), st)
  | Redirected => Some ((mux_default (h_Head r), None), st)
  end.

(** The runner the syncer is given: a subprocess of the configured binary and deadline.  What
    it prints depends on the state [n] the remotes are in when it runs. *)
Context {net : Type} (exec_git : net → string → Z → list string → list string → process_end).
Definition git_LsRemote (n : net) (g : gitConfig) (rawURL : string) : res (list LsRemoteRef) :=
  LsRemote (λ argv env, run argv (exec_git n (gc_GitBin g) (gc_Timeout g) argv env)) (gc_ProtocolAllow g) rawURL None.

Definition sync_store (n : net) (w : wiring) (range : gmap string Ref → list (string * Ref)) (rd : Readings) (rid : Z) (s : S) : S :=
  (SyncRemote (git_LsRemote n (w_git w)) error_text range (w_holder w) rd rid s).2.

(** ** Start *)

Inductive boot_error : Type :=
  | ConfigFailed (e : config_error)
  | OpenFailed (e : error)
  | AuthFailed (e : setup_error).

Context (open_sqlite open_mysql : string → res S).
Context (range : ∀ A, Range A) (peer_of : string → peer) (order : list nat) (orders : string → list nat).

Definition open_store (cfg : Config) : res S :=
  if String.eqb (cf_DBDriver cfg) "mysql" then open_mysql (cf_MySQLDSN cfg) else open_sqlite (cf_SQLitePath cfg).

(** The bootstrap from the peers, before anything else runs. *)
Definition seed_bootstrap (cfg : Config) (now : Z) (st : S) : S :=
  if SeedEnabled (seed_config cfg) then Seed.Run (seed_config cfg) range peer_of order orders now st else st.

(** [now] is what the clock says when the seeder writes; a store that was opened is closed
    again when the authenticator cannot be built. *)
Definition boot (get : Lookup) (pid now : Z) : result boot_error (wiring * server_state (S := S)) :=
  match Load get with
  | Err e => Err (ConfigFailed e)
  | Ok cfg =>
      match open_store cfg with
      | Err e => Err (OpenFailed e)
      | Ok st =>
          match FromConfig bcrypt_Cost IsSymmetric LookupSignatureAlgorithm cache_ok cfg with
          | Err e => Err (AuthFailed e)
          | Ok authn => Ok (wire cfg pid, mkServer (seed_bootstrap cfg now st) ∅ authn)
          end
      end
  end.

(** ** The state of a running process *)

Inductive listener : Type :=
  | Listening
  | ShuttingDown
  | Down.

(** Where [run] is. *)
Inductive main_pc : Type :=
  | Waiting
  | AwaitScheduler
  | ShutHTTP
  | ShutMetrics
  | AwaitSchedulerFailed (err : option string)
  | Closing (err : option string)
  | Returning (err : option string)
  | Exited (code : Z).

Record process : Type := mkProcess {
  p_server : server_state (S := S);
  p_running : list Z;
  p_cancelled : bool;
  p_schedDone : bool;
  p_http : listener;
  p_requests : list http_request;
  p_forced : list Z;
  p_errCh : option (option string);
  p_signal : bool;
  p_closed : bool;
  p_main : main_pc;
}.

Definition started (st : server_state (S := S)) : process :=
  mkProcess st [] false false Listening [] [] None false false Waiting.

Definition exit_code (err : option string) : Z := match err with None => 0 | Some _ => 1 end.

(** ** Steps *)

Definition alive (p : process) : Prop := ∀ code, p_main p ≠ Exited code.

Definition set_store (st : server_state (S := S)) (s : S) : server_state (S := S) := mkServer s (sv_forced st) (sv_authn st).

(** The scheduler's part of the process, and a change of it. *)
Definition scheduler_of (p : process) : sched (S := S) := mkSched (sv_store (p_server p)) (p_running p) (p_cancelled p).
Definition with_scheduler (p : process) (s : sched (S := S)) : process :=
  mkProcess (set_store (p_server p) (sc_store s)) (sc_running s) (sc_cancelled s) (p_schedDone p) (p_http p) (p_requests p) (p_forced p)
    (p_errCh p) (p_signal p) (p_closed p) (p_main p).
Definition with_requests (p : process) (st : server_state (S := S)) requests forced : process :=
  mkProcess st (p_running p) (p_cancelled p) (p_schedDone p) (p_http p) requests forced (p_errCh p) (p_signal p) (p_closed p) (p_main p).
Definition with_http (p : process) http errCh : process :=
  mkProcess (p_server p) (p_running p) (p_cancelled p) (p_schedDone p) http (p_requests p) (p_forced p) errCh (p_signal p) (p_closed p) (p_main p).
Definition with_main (p : process) cancelled closed main : process :=
  mkProcess (p_server p) (p_running p) cancelled (p_schedDone p) (p_http p) (p_requests p) (p_forced p) (p_errCh p) (p_signal p) closed main.
Definition with_signal (p : process) : process :=
  mkProcess (p_server p) (p_running p) (p_cancelled p) (p_schedDone p) (p_http p) (p_requests p) (p_forced p) (p_errCh p) true (p_closed p) (p_main p).
Definition with_schedDone (p : process) : process :=
  mkProcess (p_server p) (p_running p) (p_cancelled p) true (p_http p) (p_requests p) (p_forced p) (p_errCh p) (p_signal p) (p_closed p) (p_main p).

(** What [range] over a map of tags may be. *)
Definition any_order (range : gmap string Ref → list (string * Ref)) : Prop := ∀ m, range m ≡ₚ map_to_list m.

(** Everything beside [run] itself: the operating system, the scheduler's goroutines, the
    listener's, and the forced syncs'.  On a closed store requests and syncs change
    nothing. *)
Inductive background (w : wiring) : process → process → Prop :=
  | bg_signal p : background w p (with_signal p)
  | bg_tick now p : p_schedDone p = false → p_closed p = false →
      background w p (with_scheduler p (poll (Z.to_nat (w_concurrency w)) now (scheduler_of p)))
  | bg_sync n rd rng l1 rid l2 p : p_running p = l1 ++ rid :: l2 → any_order rng → p_closed p = false →
      background w p (with_scheduler p (mkSched (sync_store n w rng rd rid (sv_store (p_server p))) (l1 ++ l2) (p_cancelled p)))
  | bg_drained p : p_cancelled p = true → p_running p = [] → background w p (with_schedDone p)
  | bg_request r p : p_http p = Listening →
      background w p (with_requests p (p_server p) (p_requests p ++ [r]) (p_forced p))
  | bg_response now e l1 r l2 resp started st p : p_requests p = l1 ++ r :: l2 → p_closed p = false →
      serve w now e r (p_server p) = Some ((resp, started), st) →
      background w p (with_requests p st (l1 ++ l2) (p_forced p ++ option_list started))
  | bg_response_closed l1 r l2 p : p_requests p = l1 ++ r :: l2 → p_closed p = true →
      background w p (with_requests p (p_server p) (l1 ++ l2) (p_forced p))
  | bg_forced n rd rng l1 rid l2 p : p_forced p = l1 ++ rid :: l2 → any_order rng → p_closed p = false →
      background w p (with_requests p (set_store (p_server p) (sync_store n w rng rd rid (sv_store (p_server p)))) (p_requests p) (l1 ++ l2))
  | bg_forced_closed l1 rid l2 p : p_forced p = l1 ++ rid :: l2 → p_closed p = true →
      background w p (with_requests p (p_server p) (p_requests p) (l1 ++ l2))
  | bg_listener_fails err p : p_http p = Listening → background w p (with_http p Down (Some (Some err))).

(** [run] from its select on; the results of the metrics server's shutdown are only logged. *)
Inductive main_step : process → process → Prop :=
  | main_signal p : p_main p = Waiting → p_signal p = true → main_step p (with_main p true (p_closed p) AwaitScheduler)
  | main_failed err p : p_main p = Waiting → p_errCh p = Some err →
      main_step p (with_main p true (p_closed p) (AwaitSchedulerFailed err))
  | main_drained p : p_main p = AwaitScheduler → p_schedDone p = true →
      main_step p (with_main (match p_http p with Listening => with_http p ShuttingDown (Some None) | _ => p end)
        (p_cancelled p) (p_closed p) ShutHTTP)
  | main_http_drained p : p_main p = ShutHTTP → p_requests p = [] →
      main_step p (with_main (with_http p Down (p_errCh p)) (p_cancelled p) (p_closed p) ShutMetrics)
  | main_http_timeout p : p_main p = ShutHTTP → p_requests p ≠ [] →
      main_step p (with_main p (p_cancelled p) (p_closed p) (Closing (Some "context deadline exceeded")))
  | main_metrics p : p_main p = ShutMetrics → main_step p (with_main p (p_cancelled p) (p_closed p) (Closing None))
  | main_failed_drained err p : p_main p = AwaitSchedulerFailed err → p_schedDone p = true →
      main_step p (with_main p (p_cancelled p) (p_closed p) (Closing err))
  | main_close err p : p_main p = Closing err → main_step p (with_main p (p_cancelled p) true (Returning err))
  | main_exit err p : p_main p = Returning err → main_step p (with_main p (p_cancelled p) (p_closed p) (Exited (exit_code err))).

(** Nothing moves once the process is gone. *)
Definition step (w : wiring) (p p' : process) : Prop := alive p ∧ (background w p p' ∨ main_step p p').
End daemon.
