(* ===== verification/DaemonProps.v ===== *)
(** The server process: what lasts while it runs, and what its shutdown waits for. *)
From S2P Require Import Prelude GoStrings GoNum GoMaps GoTime GoHttp GoUrl GoJson Sha256 Model Chain StoreSpec Sqlc SqliteStore SqliteTx SqliteSpec LsRemote SyncRemote SyncCorrect SyncProps Scheduler Handlers HandlersProps SeedMerge SeedProps Seed SeedWrite Config Auth OapiWire Server ServerProps Ops Daemon.
#[local] Open Scope Z_scope.

Section lifecycle.
Context {S T : Type} `{Store S T} `{Tx T}.
Context (NormalizeURL : string → res string).
Context (bind_int64 : string → result string Z) (bind_string : string → result string string).
Context (query_string : bool → string → Values → result bind_error (option string)).
Context (query_int query_int64 : string → Values → result bind_error (option Z)).
Context (error_text : error → string) (decode_error : string → string) (malformed : string → bool).
Context (CompareHashAndPassword : string → string → bool).
Context (jws_Parse : string → option (list jws_header)) (IsSymmetric : string → bool).
Context (jwt_Parse : string → list jwk → string → string → Z → Z → option (option string)).
Context (AddKey : list jwk → jwk → option (list jwk)).
Context (mux_default : Request → http_response) (Ping : S → option string) (pprof : string → Request → http_response).
Context {net : Type} (some_net : net) (exec_git : net → string → Z → list string → list string → process_end) (w : wiring).

Abbreviation a_background := (background (S := S) (T := T) NormalizeURL bind_int64 bind_string query_string query_int query_int64 error_text decode_error
  malformed CompareHashAndPassword jws_Parse IsSymmetric jwt_Parse AddKey mux_default Ping pprof exec_git w).
Abbreviation a_step := (step (S := S) (T := T) NormalizeURL bind_int64 bind_string query_string query_int query_int64 error_text decode_error
  malformed CompareHashAndPassword jws_Parse IsSymmetric jwt_Parse AddKey mux_default Ping pprof exec_git w).

(** How far [run] has come. *)
Definition rank (m : main_pc) : nat :=
  match m with
  | Waiting => 0
  | AwaitScheduler | AwaitSchedulerFailed _ => 1
  | ShutHTTP => 2
  | ShutMetrics => 3
  | Closing _ => 4
  | Returning _ => 5
  | Exited _ => 6
  end.

(** [run] returns without an error. *)
Definition clean (m : main_pc) : bool :=
  match m with
  | ShutMetrics | Closing None | Returning None | Exited 0 => true
  | _ => false
  end.

(** Where only a signal leads. *)
Definition signalled (m : main_pc) : bool :=
  match m with
  | AwaitScheduler | ShutHTTP => true
  | _ => clean m
  end.

Record orderly (p : process (S := S)) : Prop := {
  or_bound : (length (p_running p) ≤ Z.to_nat (w_concurrency w))%nat;
  or_done : p_schedDone p = true → p_cancelled p = true ∧ p_running p = [];
  or_cancelled : (1 ≤ rank (p_main p))%nat → p_cancelled p = true;
  or_main : (2 ≤ rank (p_main p))%nat → p_schedDone p = true;
  or_closed : p_closed p = true ↔ (5 ≤ rank (p_main p))%nat;
  or_http : p_http p = Listening → (rank (p_main p) ≤ 1)%nat ∧ p_errCh p = None;
  or_err : p_errCh p = Some None → (2 ≤ rank (p_main p))%nat;
  or_failed : ∀ err, p_main p = AwaitSchedulerFailed err → err ≠ None ∧ p_errCh p = Some err;
  or_clean : clean (p_main p) = true → p_requests p = [] ∧ p_http p = Down;
  or_signal : signalled (p_main p) = true → p_signal p = true;
  or_code : ∀ code, p_main p = Exited code → code = 0 ∨ code = 1;
}.

Lemma orderly_started st : orderly (started st).
Proof. split; cbn; try done; try lia. intros _. split; [lia|done]. Qed.

Lemma poll_shape now s : sc_cancelled (poll (S := S) (Z.to_nat (w_concurrency w)) now s) = sc_cancelled s ∧
  ((length (sc_running s) ≤ Z.to_nat (w_concurrency w))%nat →
   (length (sc_running (poll (S := S) (Z.to_nat (w_concurrency w)) now s)) ≤ Z.to_nat (w_concurrency w))%nat) ∧
  (sc_cancelled s = true → sc_running (poll (S := S) (Z.to_nat (w_concurrency w)) now s) = sc_running s).
Proof.
  unfold poll. destruct (st_SelectDueRemotes _ _ _) as [[due store]|]; [|done]. destruct (sc_cancelled s) eqn:E; cbn; [done|].
  split; [done|]. split; [apply spawn_bound|done].
Qed.

Lemma orderly_background p p' : a_background p p' → orderly p → orderly p'.
Proof.
  intros Hb [Hbound Hdone Hcan Hmain Hclosed Hhttp Herr Hfailed Hclean Hsig Hcode].
  destruct Hb as [p|now p Hd Hc|n rd rng l1 rid l2 p Hr Hrng Hc|p Hc Hr|r p Hl|now e l1 r l2 resp sd st p Hr Hc Hs|l1 r l2 p Hr Hc
    |n rd rng l1 rid l2 p Hf Hrng Hc|l1 rid l2 p Hf Hc|err p Hl].
  - by split.
  - destruct (poll_shape now (scheduler_of p)) as (H1 & H2 & H3). split; cbn; try done; try (by apply H2); [by rewrite Hd|by rewrite H1].
  - assert (p_schedDone p ≠ true) as Hnd by (intros Hd; destruct (Hdone Hd) as [_ E]; rewrite Hr in E; by destruct l1).
    split; cbn; try done. rewrite Hr in Hbound. rewrite length_app in *. cbn in Hbound. lia.
  - by split.
  - split; cbn; try done. intros Hcl. exfalso. destruct (Hclean Hcl) as [_ E]. by rewrite Hl in E.
  - split; cbn; try done. intros Hcl. destruct (Hclean Hcl) as [E _]. rewrite Hr in E. by destruct l1.
  - split; cbn; try done. intros Hcl. destruct (Hclean Hcl) as [E _]. rewrite Hr in E. by destruct l1.
  - by split.
  - by split.
  - destruct (Hhttp Hl) as [_ He]. split; cbn; try done.
    + intros err' [_ E]%Hfailed. by rewrite He in E.
    + intros Hcl. by destruct (Hclean Hcl).
Qed.

(** The side conditions of a step of [run]. *)
Ltac settle Hdone Hcan Hmain Hclosed Hhttp Herr Hclean Hsig := intros; cbn in *;
  solve [ done | lia | congruence | rewrite Hclosed; lia
        | by match goal with H : p_schedDone _ = true |- _ => destruct (Hdone H) end
        | apply Hmain; lia
        | apply Hcan; lia
        | by apply Hclean | by apply Hsig
        | match goal with H : p_http _ = Listening |- _ => destruct (Hhttp H); first [lia | split; [lia|done]] end
        | match goal with H : p_errCh _ = Some None |- _ => apply Herr in H; lia end ].

Lemma orderly_main p p' : main_step p p' → orderly p → orderly p'.
Proof.
  intros Hm [Hbound Hdone Hcan Hmain Hclosed Hhttp Herr Hfailed Hclean Hsig Hcode].
  destruct Hm as [p Hp Hs|err p Hp He|p Hp Hd|p Hp Hr|p Hp Hr|p Hp|err p Hp Hd|err p Hp|err p Hp]; rewrite Hp in *; cbn [rank clean signalled] in *.
  - split; settle Hdone Hcan Hmain Hclosed Hhttp Herr Hclean Hsig.
  - assert (err ≠ None) as Hne by (intros ->; apply Herr in He; lia). split; try (settle Hdone Hcan Hmain Hclosed Hhttp Herr Hclean Hsig). cbn. by intros ? [= <-].
  - destruct (p_http p) eqn:El; split; settle Hdone Hcan Hmain Hclosed Hhttp Herr Hclean Hsig.
  - split; settle Hdone Hcan Hmain Hclosed Hhttp Herr Hclean Hsig.
  - split; settle Hdone Hcan Hmain Hclosed Hhttp Herr Hclean Hsig.
  - split; try (settle Hdone Hcan Hmain Hclosed Hhttp Herr Hclean Hsig).
  - destruct (Hfailed err eq_refl) as [Hne He]. split; try (settle Hdone Hcan Hmain Hclosed Hhttp Herr Hclean Hsig); cbn.
    + intros Hl. destruct (Hhttp Hl). congruence.
    + by destruct err.
    + by destruct err.
  - split; settle Hdone Hcan Hmain Hclosed Hhttp Herr Hclean Hsig.
  - split; try (settle Hdone Hcan Hmain Hclosed Hhttp Herr Hclean Hsig); cbn.
    + by destruct err.
    + by destruct err.
    + intros code [= <-]. destruct err; auto.
Qed.

Lemma orderly_steps p p' : rtc a_step p p' → orderly p → orderly p'.
Proof.
  induction 1 as [|p p1 p' [_ [Hb|Hm]] _ IH]; [done|..]; intros Ho; apply IH; [by eapply orderly_background|by eapply orderly_main].
Qed.

(** ** The way out *)

Lemma main_can_step p p' : main_step p p' → alive p → a_step p p'.
Proof. intros Hm Ha. split; [done|by right]. Qed.

Lemma can_return p err : p_main p = Closing err → ∃ p', rtc a_step p p' ∧ p_main p' = Exited (exit_code err).
Proof.
  intros Hp. eexists. split; [|shelve]. eapply rtc_l; [apply main_can_step; [by apply main_close|by intros ? E; rewrite Hp in E]|].
  eapply rtc_l; [apply main_can_step; [by eapply (main_exit err)|done]|]. apply rtc_refl. Unshelve. done.
Qed.

Lemma can_shut_http p : p_main p = ShutHTTP → ∃ p' code, rtc a_step p p' ∧ p_main p' = Exited code.
Proof.
  intros Hp. assert (alive p) as Ha by (intros ? E; by rewrite Hp in E). destruct (p_requests p) as [|r l] eqn:Er.
  - edestruct (can_return (with_main (with_main (with_http p Down (p_errCh p)) (p_cancelled p) (p_closed p) ShutMetrics) (p_cancelled p) (p_closed p) (Closing None)))
      as (p' & Hs & He); [done|]. exists p'. eexists. split; [|exact He].
    eapply rtc_l; [apply main_can_step; [by apply main_http_drained|done]|]. eapply rtc_l; [apply main_can_step; [by apply main_metrics|done]|done].
  - edestruct (can_return (with_main p (p_cancelled p) (p_closed p) (Closing (Some "context deadline exceeded")))) as (p' & Hs & He); [done|].
    exists p'. eexists. split; [|exact He]. eapply rtc_l; [apply main_can_step; [apply main_http_timeout; [done|by rewrite Er]|done]|done].
Qed.

(** Some readings of the clock. *)
Definition rd0 : Readings := mkReadings 0 0 0 (λ _, 0) 0 0.

(** The running syncs finish and the scheduler returns. *)
Lemma can_drain p : orderly p → (rank (p_main p) ≤ 2)%nat → p_cancelled p = true →
  ∃ p', rtc a_step p p' ∧ p_schedDone p' = true ∧ p_main p' = p_main p.
Proof.
  remember (p_running p) as l eqn:El. revert p El. induction l as [|rid l IH]; intros p El Ho Hr Hc.
  - exists (with_schedDone p). split; [|done]. apply rtc_once. split; [intros ? E; rewrite E in Hr; cbn in Hr; lia|]. left. by apply bg_drained.
  - assert (p_closed p = false) as Hcl.
    { destruct (p_closed p) eqn:E; [|done]. apply (or_closed _ Ho) in E. lia. }
    set (p1 := with_scheduler p (mkSched (sync_store (T := T) error_text exec_git some_net w map_to_list rd0 rid (sv_store (p_server p))) l (p_cancelled p))).
    assert (a_background p p1) as Hb by by (eapply bg_sync with (n := some_net) (rd := rd0) (rng := map_to_list) (l1 := []); [done|intros ?; done|done]).
    destruct (IH p1) as (p' & Hs & Hd & Hm); [done|by eapply orderly_background|done..|].
    exists p'. split; [|done]. eapply rtc_l; [|exact Hs]. split; [|by left]. intros ? E. rewrite E in Hr. cbn in Hr. lia.
Qed.

(** From wherever it is, the process can be made to exit: a signal is all it takes. *)
Lemma can_exit p : orderly p → ∃ p' code, rtc a_step p p' ∧ p_main p' = Exited code.
Proof.
  intros Ho. destruct (p_main p) as [| | | |err|err|err|code] eqn:Hp.
  - set (p1 := with_signal p). assert (orderly p1) as Ho1 by (by eapply orderly_background; [apply bg_signal|]).
    set (p2 := with_main p1 true (p_closed p1) AwaitScheduler).
    assert (main_step p1 p2) as Hm by (by apply main_signal).
    assert (orderly p2) as Ho2 by (by eapply orderly_main).
    destruct (can_drain p2 Ho2) as (p3 & Hs & Hd & Hm3); [cbn; lia|done|].
    destruct (can_shut_http _ (eq_refl : p_main (with_main (match p_http p3 with Listening => with_http p3 ShuttingDown (Some None) | _ => p3 end)
      (p_cancelled p3) (p_closed p3) ShutHTTP) = ShutHTTP)) as (p4 & code & Hs4 & He).
    exists p4, code. split; [|done]. eapply rtc_l; [split; [by intros ? E; rewrite Hp in E|left; apply bg_signal]|].
    eapply rtc_l; [apply main_can_step; [exact Hm|by intros ? E; cbn in E; rewrite Hp in E]|].
    etrans; [exact Hs|]. eapply rtc_l; [apply main_can_step; [by apply main_drained|by intros ? E; rewrite Hm3 in E]|exact Hs4].
  - destruct (can_drain p Ho) as (p3 & Hs & Hd & Hm3); [rewrite Hp; cbn; lia|apply (or_cancelled _ Ho); rewrite Hp; cbn; lia|].
    rewrite Hp in Hm3. edestruct (can_shut_http (with_main (match p_http p3 with Listening => with_http p3 ShuttingDown (Some None) | _ => p3 end)
      (p_cancelled p3) (p_closed p3) ShutHTTP) eq_refl) as (p4 & code & Hs4 & He).
    exists p4, code. split; [|done]. etrans; [exact Hs|]. eapply rtc_l; [apply main_can_step; [by apply main_drained|by intros ? E; rewrite Hm3 in E]|exact Hs4].
  - by apply can_shut_http.
  - destruct (can_return (with_main p (p_cancelled p) (p_closed p) (Closing None)) None eq_refl) as (p' & Hs & He).
    exists p'. eexists. split; [|exact He]. eapply rtc_l; [apply main_can_step; [by apply main_metrics|by intros ? E; rewrite Hp in E]|exact Hs].
  - destruct (can_drain p Ho) as (p3 & Hs & Hd & Hm3); [rewrite Hp; cbn; lia|apply (or_cancelled _ Ho); rewrite Hp; cbn; lia|].
    rewrite Hp in Hm3. destruct (can_return (with_main p3 (p_cancelled p3) (p_closed p3) (Closing err)) err eq_refl) as (p' & Hs' & He).
    exists p'. eexists. split; [|exact He]. etrans; [exact Hs|].
    eapply rtc_l; [apply main_can_step; [by apply main_failed_drained|by intros ? E; rewrite Hm3 in E]|exact Hs'].
  - destruct (can_return p err Hp) as (p' & Hs & He). by exists p', (exit_code err).
  - exists (with_main p (p_cancelled p) (p_closed p) (Exited (exit_code err))), (exit_code err). split; [|done].
    apply rtc_once, main_can_step; [by apply main_exit|by intros ? E; rewrite Hp in E].
  - exists p, code. by split; [apply rtc_refl|].
Qed.

(** C31. The shutdown of the server.  However requests, ticks, syncs, failures of the listener
    and the signal fall, never more syncs are in flight than the configured concurrency;
    when the store is closed the scheduler is cancelled and none of its syncs is still
    running; the process exits with code 0 only after a signal, with the listener down and
    every request answered, and with 0 or 1 only after it has closed the store; and from
    every state it can still reach its exit. *)
Theorem shutdown_drains st p : rtc a_step (started st) p →
  (length (p_running p) ≤ Z.to_nat (w_concurrency w))%nat ∧
  (p_closed p = true → p_cancelled p = true ∧ p_running p = []) ∧
  (p_main p = Exited 0 → p_signal p = true ∧ p_requests p = [] ∧ p_http p = Down) ∧
  (∀ code, p_main p = Exited code → (code = 0 ∨ code = 1) ∧ p_closed p = true) ∧
  ∃ p' code, rtc a_step p p' ∧ p_main p' = Exited code.
Proof.
  intros Hs%orderly_steps; [|apply orderly_started]. pose proof Hs as [Hb Hd _ Hm Hc _ _ _ Hcl Hsig Hcode].
  split; [done|]. split; [intros H5%Hc; apply Hd, Hm; lia|]. split; [intros E; rewrite E in *; split; [by apply Hsig|by apply Hcl]|].
  split; [|by apply can_exit]. intros code E. split; [by apply Hcode|]. apply Hc. rewrite E. cbn. lia.
Qed.
End lifecycle.

(** * The whole server over SQLite *)

(** The tags git lists are well formed. *)
Lemma ParseLsRemote_wf out algo refs : ParseLsRemote out algo = Ok refs → Forall ls_wf refs.
Proof.
  unfold ParseLsRemote. destruct (negb _); [done|]. destruct (scan_lines out) as [lines tooLong].
  intros (st & Hp & H)%result_bind_ok. destruct tooLong; simplify_eq. apply parse_lines_ls_ok in Hp; [|constructor].
  eapply Forall_impl; [exact Hp|]. intros r (Ho & _ & Ha). split; [done|]. destruct (ls_IsAnnotatedTag r); [right; apply Ha|by left].
Qed.

Section service.
Context (NormalizeURL : string → res string).
Context (bind_int64 : string → result string Z) (bind_string : string → result string string).
Context (query_string : bool → string → Values → result bind_error (option string)).
Context (query_int query_int64 : string → Values → result bind_error (option Z)).
Context (error_text : error → string) (decode_error : string → string) (malformed : string → bool).
Context (bcrypt_Cost : string → bool) (CompareHashAndPassword : string → string → bool).
Context (jws_Parse : string → option (list jws_header)) (IsSymmetric : string → bool).
Context (LookupSignatureAlgorithm : string → option string).
Context (jwt_Parse : string → list jwk → string → string → Z → Z → option (option string)).
Context (AddKey : list jwk → jwk → option (list jwk)) (cache_ok : string → bool).
Context (mux_default : Request → http_response) (Ping : db → option string) (pprof : string → Request → http_response).
Context {net : Type} (exec_git : net → string → Z → list string → list string → process_end).
Context (open_sqlite open_mysql : string → res db).
Context (range : ∀ A, Range A) (peer_of : string → peer) (order : list nat) (orders : string → list nat).

Abbreviation db_serve := (serve (S := db) (T := sqliteTx) NormalizeURL bind_int64 bind_string query_string query_int query_int64 error_text decode_error
  malformed CompareHashAndPassword jws_Parse IsSymmetric jwt_Parse AddKey mux_default Ping pprof).
Abbreviation db_step := (step (S := db) (T := sqliteTx) NormalizeURL bind_int64 bind_string query_string query_int query_int64 error_text decode_error
  malformed CompareHashAndPassword jws_Parse IsSymmetric jwt_Parse AddKey mux_default Ping pprof exec_git).
Abbreviation db_boot := (boot (S := db) (T := sqliteTx) bcrypt_Cost IsSymmetric LookupSignatureAlgorithm cache_ok open_sqlite open_mysql
  range peer_of order orders).

(** git lists every tag once. *)
Definition lists_once (g : gitConfig) : Prop := ∀ n url refs, git_LsRemote exec_git n g url = Ok refs → NoDup (ls_Name <$> refs).

Definition store_of (p : process (S := db)) : db := sv_store (p_server p).

Lemma sync_sound n w rng rd rid d :
  lists_once (w_git w) → any_order rng → sound d (sync_store (S := db) (T := sqliteTx) error_text exec_git n w rng rd rid d).
Proof.
  intros Honce Hrng Hd. unfold sync_store.
  destruct (SyncRemote (git_LsRemote exec_git n (w_git w)) error_text rng (w_holder w) rd rid d) as [[res e] d'] eqn:E.
  destruct (sync_preserves (git_LsRemote exec_git n (w_git w)) error_text rng (w_holder w) rd rid d res e d' Hd) as (Hd' & Hl & He & Ht).
  - intros u l Hu. split; [|by apply (Honce n u)]. unfold git_LsRemote, LsRemote in Hu. apply result_bind_ok in Hu as (out & _ & Hu).
    destruct (negb _); [by injection Hu as <-|]. by eapply ParseLsRemote_wf.
  - done.
  - done.
  - split; [done|]. split; [done| |done]. cbn [snd]. destruct He as [l ->]. rewrite fmap_app. by eexists.
Qed.

Lemma poll_sound n now s : sound (sc_store s) (sc_store (poll (S := db) (T := sqliteTx) n now s)).
Proof.
  unfold poll. cbn [st_SelectDueRemotes sqlite_store]. destruct (SqliteStore.SelectDueRemotes _ _ _) as [[due d]|] eqn:E; [|done].
  apply safe_SelectDueRemotes in E. by case_match.
Qed.

Lemma serve_sound w now e r st rep st' : db_serve w now e r st = Some (rep, st') → sound (sv_store st) (sv_store st').
Proof. unfold serve. case_match; [apply ServeHTTP_sound|by intros [= _ <-]..]. Qed.

Lemma step_sound w p p' : lists_once (w_git w) → db_step w p p' → sound (store_of p) (store_of p').
Proof.
  intros Honce [_ [Hb|Hm]].
  - destruct Hb; try done; unfold store_of; cbn [p_server with_scheduler with_requests set_store sv_store].
    + apply (poll_sound _ now (scheduler_of p)).
    + by apply sync_sound.
    + by eapply serve_sound.
    + by apply sync_sound.
  - destruct Hm; try done. by destruct (p_http p).
Qed.

Lemma steps_sound w p p' : lists_once (w_git w) → rtc (db_step w) p p' → sound (store_of p) (store_of p').
Proof. intros Honce. induction 1 as [|p p1 p' Hs _ IH]; [done|]. etrans; [by eapply step_sound|done]. Qed.

(** The peers answer in form, when they are asked at all. *)
Definition peers_in_form (get : Lookup) : Prop := ∀ cfg, Load get = Ok cfg → SeedEnabled (seed_config cfg) = true →
  views_ok (fetchAll (seed_config cfg) peer_of (peerURLs (seed_config cfg)) order orders).1.

Lemma boot_good get pid now w st : (∀ A, range_ok (range A)) → (∀ path d, open_sqlite path = Ok d ∨ open_mysql path = Ok d → db_good d) →
  peers_in_form get → db_boot get pid now = Ok (w, st) → db_good (sv_store st).
Proof.
  intros Hrange Hopen Hpeers. unfold boot. destruct (Load get) as [cfg|] eqn:El; [|done].
  destruct (open_store open_sqlite open_mysql cfg) as [d|] eqn:Eo; [|done]. destruct (FromConfig _ _ _ _ cfg) as [a|]; [|done]. intros [= _ <-].
  assert (db_good d) as Hd.
  { unfold open_store in Eo. case_match; [apply (Hopen (cf_MySQLDSN cfg))|apply (Hopen (cf_SQLitePath cfg))]; auto. }
  cbn [sv_store]. unfold seed_bootstrap. destruct (SeedEnabled (seed_config cfg)) eqn:Es; [|done]. apply Run_good; [done| |by apply Hpeers|done].
  destruct (Load_bounds get cfg El) as [Hok _]. cbn. enough (1 ≤ cf_SeedQuorum cfg) by lia. apply (co_quorum _ Hok).
  intros E. unfold SeedEnabled in Es. cbn in Es. by rewrite E in Es.
Qed.

End service.

(** * A server to run *)

(** The sample remote after its tag has moved. *)
Definition tainted_db : db := Eval vm_compute in synced (listing oid_b) 500000000000 sample_db1.
Lemma tainted_db_good : db_good tainted_db.
Proof.
  assert (tainted_db = synced (listing oid_b) 500000000000 sample_db1) as -> by (vm_compute; reflexivity).
  apply synced_good; [apply sample_db1_good|apply oid_b_wf].
Qed.
Definition tainted_tag : Ref := Eval vm_compute in default sample_tag1 (a_refs (db_abs tainted_db) !! (1, "v1")).

Definition plain_env : Lookup := λ key, snd <$> List.find (λ kv, String.eqb kv.1 key) [("GT_SQLITE_PATH", "/var/lib/gt.db")].
Definition no_git (n : ()) (bin : string) (timeout : Z) (argv env : list string) : process_end := mkProcessEnd None None "" "".
Definition bind_digits (s : string) : result string Z := match ParseInt s with Some z => Ok z | None => Err s end.
Definition sample_request (method path : string) : http_request := mkHttp (mkRequest method path (λ _, "")) "" "".

Definition sample_boot : result boot_error (wiring * server_state (S := db)) :=
  boot (S := db) (T := sqliteTx) (λ _, false) (λ _, false) (λ _, None) (λ _, false) (λ _, Ok tainted_db) (λ _, Err ErrSQL)
    seed_range (λ _, mkPeer false (λ _, Err ErrSQL) (λ _ _, Err ErrSQL) (λ _ _, Err ErrSQL)) [] (λ _, []) plain_env 7 1.
Definition sample_wiring : wiring := mkWiring (mkGitConfig "git" Minute "https:ssh") "git-taintedd-7" (5 * Second) 4 "127.0.0.1:8080" None false.
Definition sample_server : server_state (S := db) := mkServer tainted_db ∅ noneAuth.

Definition sample_serve : wiring → Z → idp → http_request → server_state (S := db) → option (reply * server_state (S := db)) :=
  serve (S := db) (T := sqliteTx) (λ _, Err ErrBadURL) bind_digits Ok (λ _ _ _, Ok None) (λ _ _, Ok None) (λ _ _, Ok None) (λ _, "error") id (λ _, false)
    (λ _ _, false) (λ _, None) (λ _, false) (λ _ _ _ _ _ _, None) (λ _ _, None) (λ _, mkResponse 404 "") (λ _, None) (λ _ _, mkResponse 200 "").
Definition sample_step : process → process → Prop :=
  step (S := db) (T := sqliteTx) (λ _, Err ErrBadURL) bind_digits Ok (λ _ _ _, Ok None) (λ _ _, Ok None) (λ _ _, Ok None) (λ _, "error") id (λ _, false)
    (λ _ _, false) (λ _, None) (λ _, false) (λ _ _ _ _ _ _, None) (λ _ _, None) (λ _, mkResponse 404 "") (λ _, None) (λ _ _, mkResponse 200 "")
    no_git sample_wiring.

Lemma no_git_once g : lists_once no_git g.
Proof. intros n url refs [= <-]. constructor. Qed.

Lemma sample_booted : sample_boot = Ok (sample_wiring, sample_server).
Proof. vm_compute. exact eq_refl. Qed.

(** One request, from its arrival to its response. *)
Lemma sample_exchange p now r resp sd st : p_main p = Waiting → p_http p = Listening → p_closed p = false → p_requests p = [] →
  sample_serve sample_wiring now (mkIdp None None false 0) r (p_server p) = Some ((resp, sd), st) →
  rtc sample_step p (with_requests p st [] (p_forced p ++ option_list sd)).
Proof.
  intros Hm Hl Hc Hr Hs. assert (alive p) as Ha by (intros ? E; by rewrite Hm in E).
  eapply rtc_l; [split; [done|left; by apply (bg_request _ _ _ _ _ _ _ _ _ _ _ _ _ _ _ _ _ _ _ r)]|].
  apply rtc_once. split; [intros ? E; cbn in E; by rewrite Hm in E|]. left.
  eapply (bg_response _ _ _ _ _ _ _ _ _ _ _ _ _ _ _ _ _ _ _ now (mkIdp None None false 0) [] r [] resp sd st (with_requests p (p_server p) (p_requests p ++ [r]) (p_forced p)));
    [cbn; by rewrite Hr|done|exact Hs].
Qed.

(** An idle process told to stop: the state in which its store has just been closed. *)
Definition stopped (p : process (S := db)) : process :=
  mkProcess (p_server p) [] true true Down [] (p_forced p) (Some None) true true (Returning None).

Lemma sample_stops p : p_main p = Waiting → p_http p = Listening → p_running p = [] → p_requests p = [] → rtc sample_step p (stopped p).
Proof.
  intros Hm Hl Hr Hq. destruct p as [st running can dn http reqs forced errCh sig cl main]. cbn in *. subst.
  eapply rtc_l; [split; [done|left; apply bg_signal]|]. eapply rtc_l; [split; [done|right; by apply main_signal]|].
  eapply rtc_l; [split; [done|left; by apply bg_drained]|]. eapply rtc_l; [split; [done|right; by apply main_drained]|].
  eapply rtc_l; [split; [done|right; by apply main_http_drained]|]. eapply rtc_l; [split; [done|right; by apply main_metrics]|].
  apply rtc_once. split; [done|]. right. match goal with |- main_step ?p _ => exact (main_close None p eq_refl) end.
Qed.

Definition exited (p : process (S := db)) : process := with_main (stopped p) true true (Exited 0).
Lemma sample_exits p : p_main p = Waiting → p_http p = Listening → p_running p = [] → p_requests p = [] → rtc sample_step p (exited p).
Proof.
  intros. eapply rtc_r; [by apply sample_stops|]. split; [done|]. right. by apply (main_exit None (stopped p)).
Qed.

Lemma shutdown_drains_witness : p_requests (exited (started sample_server)) = [] ∧ p_closed (exited (started sample_server)) = true.
Proof.
  destruct (shutdown_drains (S := db) (T := sqliteTx) (λ _, Err ErrBadURL) bind_digits Ok (λ _ _ _, Ok None) (λ _ _, Ok None) (λ _ _, Ok None) (λ _, "error") id (λ _, false)
    (λ _ _, false) (λ _, None) (λ _, false) (λ _ _ _ _ _ _, None) (λ _ _, None) (λ _, mkResponse 404 "") (λ _, None) (λ _ _, mkResponse 200 "")
    () no_git sample_wiring sample_server (exited (started sample_server))) as (_ & _ & H0 & Hcode & _); [by apply sample_exits|].
  split; [by apply H0|]. by apply (Hcode 0).
Defined.

Definition sample_deleted : reply * server_state (S := db) := Eval vm_compute in
  default ((mkResponse 0 "", None), sample_server) (sample_serve sample_wiring 40 (mkIdp None None false 0) (sample_request "DELETE" "/v1/remotes/1") sample_server).
Definition after_delete : process := with_requests (started sample_server) sample_deleted.2 [] [].


(** * What the shutdown does not wait for *)

Definition sample_triggered : reply * server_state (S := db) := Eval vm_compute in
  default ((mkResponse 0 "", None), sample_server)
    (sample_serve sample_wiring 40 (mkIdp None None false 0) (sample_request "POST" "/v1/remotes/1/sync") sample_server).

(** A forced sync that was accepted is not waited for: the store is closed under it. *)
Theorem forced_sync_not_drained : h_Status sample_triggered.1.1 = 202 ∧
  ∃ p, rtc sample_step (started sample_server) p ∧ p_closed p = true ∧ p_forced p = [1] ∧ p_main p = Returning None.
Proof.
  split; [reflexivity|]. exists (stopped (with_requests (started sample_server) sample_triggered.2 [] [1])). split; [|done].
  etrans; [|by apply sample_stops].
  apply (sample_exchange (started sample_server) 40 (sample_request "POST" "/v1/remotes/1/sync") sample_triggered.1.1 (Some 1)); [done..|].
  vm_compute. exact eq_refl.
Qed.

(** * Settings that do nothing *)

Definition with_hosts (c : Config) (hosts : string) : Config :=
  mkConfig (cf_DBDriver c) (cf_SQLitePath c) (cf_MySQLDSN c) (cf_ListenAddr c) (cf_SyncConcurrency c) (cf_SyncDefaultInterval c)
    (cf_SchedulerTick c) (cf_StalenessBudget c) (cf_GitBin c) (cf_GitTimeout c) (cf_ProtocolAllowlist c) hosts (cf_LogLevel c)
    (cf_MetricsAddr c) (cf_PprofEnabled c) (cf_CacheEnabled c) (cf_CacheMaxEntries c) (cf_CacheTTL c) (cf_AuthMode c) (cf_APIKeys c)
    (cf_APIKeysSHA256 c) (cf_BasicAuth c) (cf_JWKSURL c) (cf_JWTIssuer c) (cf_JWTAudience c) (cf_JWTAlgs c) (cf_SeedServers c)
    (cf_SeedQuorum c) (cf_SeedRemotes c) (cf_SeedConcurrency c) (cf_SeedTimeout c) (cf_SeedInsecure c) (cf_SeedMaxRemotes c)
    (cf_SeedMaxObservations c) (cf_SeedMaxPages c).

(** The allowlist of hosts reaches neither git, the authenticator, the store nor the seeder. *)
Theorem host_allowlist_ignored c hosts pid cost sym alg cache {S} (open_sqlite open_mysql : string → res S) :
  wire (with_hosts c hosts) pid = wire c pid ∧ open_store open_sqlite open_mysql (with_hosts c hosts) = open_store open_sqlite open_mysql c ∧
  FromConfig cost sym alg cache (with_hosts c hosts) = FromConfig cost sym alg cache c ∧ seed_config (with_hosts c hosts) = seed_config c.
Proof. done. Qed.
