(* ===== verification/GitServer.v ===== *)
(** The repositories the tests serve (internal/testutil/gitserver.go): the fixture that makes
    commits and tags by running git and publishes them for the syncs under test.  git, the
    file system and net/http/cgi are parameters; what is modelled is every command the fixture
    runs, its environment, its order and what becomes of the output. *)
From S2P Require Import Prelude GoStrings GoNum GoMaps Sha256 Model LsRemote GoHttp Daemon.
#[local] Open Scope Z_scope.

(** How a git command ended: [Output], [CombinedOutput] and the error of both. *)
Record cmd_end : Type := mkCmdEnd {
  pr_stdout : string;
  pr_combined : string;
  pr_err : option string;
}.

(** Why the fixture ends the test. *)
Inductive fatal : Type :=
  | GitFailed (args : list string) (dir err : string) (out : option string)
  | MkdirFailed (dir err : string)
  | TempFailed (err : string)
  | WriteFailed (err : string)
  | InvalidAlgo (algo : HashAlgo)
  | InvalidOID (hexStr : string) (algo : HashAlgo)
  | NoBackend.

(** [labels] maps the label of a commit to its full hex oid. *)
Record RepoBuilder : Type := mkRepoBuilder {
  rb_dir : string;
  rb_bareDir : string;
  rb_algo : HashAlgo;
  rb_labels : gmap string string;
}.

(** [filepath.Join] of an absolute directory and a name. *)
Definition join_path (dir name : string) : string := Clean (dir +:+ "/" +:+ name).

(** [map[string]string] at a key that may be absent. *)
Definition label_of (b : RepoBuilder) (label : string) : string := default "" (rb_labels b !! label).

(** Integer division of Go truncates. *)
Definition gitTimeEnv (committerNS authorNS : Z) : list string :=
  let committerSec := Z.quot committerNS 1000000000 in
  let authorSec := Z.quot authorNS 1000000000 in
  ["GIT_COMMITTER_DATE=@" +:+ FormatInt committerSec +:+ " +0000"; "GIT_AUTHOR_DATE=@" +:+ FormatInt authorSec +:+ " +0000"].

Definition baseGitEnv (path : string) : list string :=
  ["PATH=" +:+ path; "HOME=/tmp"; "GIT_CONFIG_GLOBAL=/dev/null"; "GIT_CONFIG_NOSYSTEM=1"; "GIT_AUTHOR_NAME=Test";
   "GIT_AUTHOR_EMAIL=test@example.com"; "GIT_COMMITTER_NAME=Test"; "GIT_COMMITTER_EMAIL=test@example.com"].

(** The machine the fixture runs on: its programs and files are a [W]. *)
Record machine (W : Type) : Type := mkMachine {
  mc_git : string → list string → list string → W → cmd_end * W;
  mc_MkdirAll : string → W → option string * W;
  mc_MkdirTemp : string → W → result string string * W;
  mc_WriteFile : string → string → W → option string * W;
  mc_Stat : string → bool;
  mc_LookPath : string → option string;
  mc_PATH : string;
}.
Arguments mkMachine {W}.
Arguments mc_git {W}. Arguments mc_MkdirAll {W}. Arguments mc_MkdirTemp {W}. Arguments mc_WriteFile {W}.
Arguments mc_Stat {W}. Arguments mc_LookPath {W}. Arguments mc_PATH {W}.

Section fixture.
Context {W : Type} (m : machine W).

(** Running git, by what becomes of a failure and of the output. *)
Definition git_process (dir : string) (env args : list string) : SE W fatal cmd_end := λ w, Ok (mc_git m dir env args w).

Definition runGitEnv (dir : string) (extraEnv args : list string) : SE W fatal () :=
  p ← git_process dir (baseGitEnv (mc_PATH m) ++ extraEnv) args;
  match pr_err p with
  | Some err => throw (GitFailed args dir err (Some (pr_combined p)))
  | None => mret ()
  end.

Definition runGit (dir : string) (args : list string) : SE W fatal () :=
  p ← git_process dir (baseGitEnv (mc_PATH m)) args;
  match pr_err p with
  | Some err => throw (GitFailed args dir err (Some (pr_combined p)))
  | None => mret ()
  end.

Definition runGitWithOutput (dir : string) (args : list string) : SE W fatal (string * option string) :=
  p ← git_process dir (baseGitEnv (mc_PATH m)) args;
  mret (pr_stdout p, pr_err p).

Definition runGitOutput (dir : string) (args : list string) : SE W fatal string :=
  p ← git_process dir (baseGitEnv (mc_PATH m)) args;
  match pr_err p with
  | Some err => throw (GitFailed args dir err None)
  | None => mret (pr_stdout p)
  end.

Definition currentBranchName (dir : string) : SE W fatal string :=
  r ← runGitWithOutput dir ["rev-parse"; "--abbrev-ref"; "HEAD"];
  mret (TrimSpace r.1).

(** Calls on the file system that end the test when they fail. *)
Definition must (f : W → option string * W) (failed : string → fatal) : SE W fatal () := λ w,
  match f w with
  | (Some err, _) => Err (failed err)
  | (None, w) => Ok ((), w)
  end.

Definition must_temp (pattern : string) : SE W fatal string := λ w,
  match mc_MkdirTemp m pattern w with
  | (Err err, _) => Err (TempFailed err)
  | (Ok dir, w) => Ok (dir, w)
  end.

(** ** Repositories *)

Definition NewRepo (root name : string) (algo : HashAlgo) : SE W fatal RepoBuilder :=
  let bareDir := join_path root name in
  _ ← must (mc_MkdirAll m bareDir) (MkdirFailed bareDir);
  if negb (HashAlgo_Valid algo) then throw (InvalidAlgo algo)
  else
    let objectFormat := "--object-format=" +:+ algo in
    _ ← runGit bareDir ["init"; "--bare"; "--initial-branch=main"; objectFormat];
    _ ← runGit bareDir ["config"; "receive.denyCurrentBranch"; "ignore"];
    _ ← runGit bareDir ["config"; "http.receivepack"; "true"];
    _ ← runGit bareDir ["config"; "uploadpack.allowFilter"; "true"];
    _ ← runGit bareDir ["config"; "uploadpack.allowAnySHA1InWant"; "true"];
    workDir ← must_temp "tl-work-*";
    _ ← runGit workDir ["init"; "--initial-branch=main"; objectFormat];
    _ ← runGit workDir ["config"; "user.email"; "test@example.com"];
    _ ← runGit workDir ["config"; "user.name"; "Test"];
    _ ← runGit workDir ["remote"; "add"; "origin"; bareDir];
    mret (mkRepoBuilder workDir bareDir algo ∅).

Definition push (b : RepoBuilder) : SE W fatal () :=
  _ ← runGit (rb_dir b) ["push"; "--force"; "origin"; "--all"];
  runGit (rb_dir b) ["push"; "--force"; "origin"; "--tags"].

Definition parseOIDHex (b : RepoBuilder) (hexStr : string) : SE W fatal OID :=
  let hexStr := TrimSpace hexStr in
  match ParseOID hexStr (rb_algo b) with
  | Err _ => throw (InvalidOID hexStr (rb_algo b))
  | Ok oid => mret oid
  end.

(** The branch is made the current one. *)
Definition switch_branch (b : RepoBuilder) (env : list string) (branch parent : string) : SE W fatal () :=
  current ← currentBranchName (rb_dir b);
  if String.eqb current branch then mret ()
  else
    r ← runGitWithOutput (rb_dir b) ["branch"; "--list"; branch];
    if bool_decide (r.2 ≠ None) || String.eqb (TrimSpace r.1) ""
    then runGitEnv (rb_dir b) env ["checkout"; "-b"; branch; label_of b parent]
    else runGitEnv (rb_dir b) env ["checkout"; branch].

Definition commitWithMessage (b : RepoBuilder) (branch label : string) (parents : list string) (committerNS authorNS : Z)
    (message : string) : SE W fatal (OID * RepoBuilder) :=
  let env := gitTimeEnv committerNS authorNS in
  let commitFile := join_path (rb_dir b) ("commit-" +:+ label +:+ ".txt") in
  let content := "label=" +:+ label +:+ " committer=" +:+ FormatInt committerNS +:+ " author=" +:+ FormatInt authorNS +:+ String newline "" in
  _ ← must (mc_WriteFile m commitFile content) WriteFailed;
  _ ← match parents with
      | [] =>
          _ ← runGitEnv (rb_dir b) env ["checkout"; "--orphan"; branch];
          _ ← git_process (rb_dir b) (baseGitEnv (mc_PATH m)) ["rm"; "-rf"; "--cached"; "."];
          mret ()
      | parent :: _ => switch_branch b env branch parent
      end;
  _ ← runGitEnv (rb_dir b) env ["add"; "."];
  _ ← runGitEnv (rb_dir b) env ["commit"; "-m"; message];
  out ← runGitOutput (rb_dir b) ["rev-parse"; "HEAD"];
  let hexOID := TrimSpace out in
  let b := mkRepoBuilder (rb_dir b) (rb_bareDir b) (rb_algo b) (<[label := hexOID]> (rb_labels b)) in
  _ ← push b;
  oid ← parseOIDHex b hexOID;
  mret (oid, b).

Definition Commit (b : RepoBuilder) (branch label : string) (parents : list string) (committerNS authorNS : Z)
    : SE W fatal (OID * RepoBuilder) :=
  commitWithMessage b branch label parents committerNS authorNS ("commit " +:+ label).

Definition LightweightTag (b : RepoBuilder) (name atLabel : string) : SE W fatal OID :=
  let hexOID := label_of b atLabel in
  _ ← runGit (rb_dir b) ["tag"; "-f"; name; hexOID];
  _ ← push b;
  out ← runGitOutput (rb_dir b) ["rev-parse"; name];
  let tagHex := TrimSpace out in
  parseOIDHex b tagHex.

Definition AnnotatedTag (b : RepoBuilder) (name atLabel message : string) (taggerNS : Z) : SE W fatal OID :=
  let hexOID := label_of b atLabel in
  let env := gitTimeEnv taggerNS taggerNS in
  _ ← runGitEnv (rb_dir b) env ["tag"; "-f"; "-a"; "-m"; message; name; hexOID];
  _ ← push b;
  out ← runGitOutput (rb_dir b) ["rev-parse"; name];
  let tagHex := TrimSpace out in
  parseOIDHex b tagHex.

(** ** The server *)

Definition findGitHTTPBackend : SE W fatal string :=
  let candidates := ["/usr/lib/git-core/git-http-backend"; "/usr/libexec/git-core/git-http-backend";
                     "/usr/local/lib/git-core/git-http-backend"] in
  match List.find (mc_Stat m) candidates with
  | Some p => mret p
  | None => match mc_LookPath m "git-http-backend" with
            | Some p => mret p
            | None => throw NoBackend
            end
  end.

(** The CGI program a request is handed to. *)
Record cgi_handler : Type := mkCGI { cgi_Path : string; cgi_Env : list string; cgi_Dir : string }.
Record GitServer : Type := mkGitServer { gs_Handler : cgi_handler; gs_URL : string; gs_Root : string }.

Definition StartGitServer (listen : cgi_handler → string) : SE W fatal GitServer :=
  root ← must_temp "tl-gitserver-*";
  httpBackend ← findGitHTTPBackend;
  let h := mkCGI httpBackend ["GIT_PROJECT_ROOT=" +:+ root; "GIT_HTTP_EXPORT_ALL=1"] root in
  mret (mkGitServer h (listen h) root).
End fixture.

(** The store of the tests: a database in a new file. *)
Definition NewTestStore {DB} (CreateTemp : string → res string) (Close : string → res ())
    (sql_Open : string → string → res DB) (db_Ping : DB → res ()) (db_Exec : string → DB → res DB) (RunMigrations : DB → res DB) : res DB :=
  f ← CreateTemp "git-tainted-testutil-*.db";
  _ ← Close f;
  sqlite_Open sql_Open db_Ping db_Exec RunMigrations f.

Definition GitServer_URL (s : GitServer) (repoName : string) : string := gs_URL s +:+ "/" +:+ repoName.

(** * What the fixture depends on *)

(** The same programs as far as they are run without the configuration of the user: with an
    environment that begins with the fixture's own. *)
Record agree {W} (m1 m2 : machine W) : Prop := {
  ag_PATH : mc_PATH m1 = mc_PATH m2;
  ag_git dir extra args w : mc_git m1 dir (baseGitEnv (mc_PATH m1) ++ extra) args w = mc_git m2 dir (baseGitEnv (mc_PATH m1) ++ extra) args w;
  ag_MkdirAll p w : mc_MkdirAll m1 p w = mc_MkdirAll m2 p w;
  ag_MkdirTemp p w : mc_MkdirTemp m1 p w = mc_MkdirTemp m2 p w;
  ag_WriteFile p c w : mc_WriteFile m1 p c w = mc_WriteFile m2 p c w;
}.

Definition same {W E A} (f g : SE W E A) : Prop := ∀ w, f w = g w.

Lemma same_refl {W E A} (f : SE W E A) : same f f.
Proof. done. Qed.
Lemma same_bind {W E A B} (f g : SE W E A) (k h : A → SE W E B) : same f g → (∀ a, same (k a) (h a)) → same (f ≫= k) (g ≫= h).
Proof. intros Hf Hk w. unfold mbind, SE_bind. rewrite Hf. destruct (g w) as [[a w']|e]; [apply Hk|done]. Qed.

Section hermetic.
Context {W : Type} (m1 m2 : machine W) (Hag : agree m1 m2).

Lemma same_git dir extra args :
  same (git_process m1 dir (baseGitEnv (mc_PATH m1) ++ extra) args) (git_process m2 dir (baseGitEnv (mc_PATH m2) ++ extra) args).
Proof. intros w. unfold git_process. by rewrite <- (ag_PATH _ _ Hag), (ag_git _ _ Hag). Qed.

Lemma same_git_plain dir args :
  same (git_process m1 dir (baseGitEnv (mc_PATH m1)) args) (git_process m2 dir (baseGitEnv (mc_PATH m2)) args).
Proof. intros w. pose proof (same_git dir [] args w) as H. by rewrite !app_nil_r in H. Qed.

Lemma same_runGitEnv dir extra args : same (runGitEnv m1 dir extra args) (runGitEnv m2 dir extra args).
Proof. apply same_bind; [apply same_git|intros; apply same_refl]. Qed.
Lemma same_runGit dir args : same (runGit m1 dir args) (runGit m2 dir args).
Proof. apply same_bind; [apply same_git_plain|intros; apply same_refl]. Qed.
Lemma same_runGitWithOutput dir args : same (runGitWithOutput m1 dir args) (runGitWithOutput m2 dir args).
Proof. apply same_bind; [apply same_git_plain|intros; apply same_refl]. Qed.
Lemma same_runGitOutput dir args : same (runGitOutput m1 dir args) (runGitOutput m2 dir args).
Proof. apply same_bind; [apply same_git_plain|intros; apply same_refl]. Qed.
Lemma same_must (f g : W → option string * W) e : (∀ w, f w = g w) → same (must f e) (must g e).
Proof. intros H w. unfold must. by rewrite H. Qed.
Lemma same_temp p : same (must_temp m1 p) (must_temp m2 p).
Proof. intros w. unfold must_temp. by rewrite (ag_MkdirTemp _ _ Hag). Qed.

Create HintDb same.
#[local] Hint Resolve same_refl same_bind same_git same_git_plain same_runGitEnv same_runGit same_runGitWithOutput same_runGitOutput
  same_must same_temp ag_MkdirAll ag_WriteFile : same.

Lemma same_push b : same (push m1 b) (push m2 b).
Proof. unfold push. eauto with same. Qed.
#[local] Hint Resolve same_push : same.

Lemma same_switch b env branch parent : same (switch_branch m1 b env branch parent) (switch_branch m2 b env branch parent).
Proof.
  unfold switch_branch, currentBranchName. apply same_bind; [eauto with same|]. intros current. destruct (String.eqb _ _); [apply same_refl|].
  apply same_bind; [apply same_runGitWithOutput|]. intros r. destruct (_ || _); apply same_runGitEnv.
Qed.

(** Nothing the fixture makes depends on how git behaves in an environment other than its own:
    the configuration of the user and of the system is switched off in every command. *)
Theorem fixture_hermetic root name algo b branch label parents c a atLabel message :
  same (NewRepo m1 root name algo) (NewRepo m2 root name algo) ∧
  same (Commit m1 b branch label parents c a) (Commit m2 b branch label parents c a) ∧
  same (LightweightTag m1 b name atLabel) (LightweightTag m2 b name atLabel) ∧
  same (AnnotatedTag m1 b name atLabel message c) (AnnotatedTag m2 b name atLabel message c).
Proof.
  repeat split.
  - unfold NewRepo. apply same_bind; [eauto with same|]. intros []. destruct (negb _); [apply same_refl|]. repeat (apply same_bind; [eauto with same|intros ?]). apply same_refl.
  - unfold Commit, commitWithMessage. apply same_bind; [eauto with same|intros []].
    apply same_bind; [destruct parents; [repeat (apply same_bind; [eauto with same|intros ?])|apply same_switch]; apply same_refl|intros []].
    repeat (apply same_bind; [eauto with same|intros ?]). apply same_refl.
  - unfold LightweightTag. repeat (apply same_bind; [eauto with same|intros ?]). apply same_refl.
  - unfold AnnotatedTag. repeat (apply same_bind; [eauto with same|intros ?]). apply same_refl.
Qed.
End hermetic.

(** * What the fixture returns *)

Section results.
Context {W : Type} (m : machine W).

Lemma bind_Ok {E A B} (f : SE W E A) (k : A → SE W E B) w r : (f ≫= k) w = Ok r → ∃ a w', f w = Ok (a, w') ∧ k a w' = Ok r.
Proof. unfold mbind, SE_bind. destruct (f w) as [[a w']|e]; [eauto|done]. Qed.

Lemma parseOIDHex_ok b s (w : W) oid w' : parseOIDHex b s w = Ok (oid, w') → ParseOID (TrimSpace s) (rb_algo b) = Ok oid ∧ w' = w.
Proof. unfold parseOIDHex. destruct (ParseOID _ _) eqn:E; [|done]. intros [= <- <-]. by split. Qed.

(** A commit that was made is recorded under its label with an id of the repository's format,
    and nothing else of the builder changes. *)
Theorem commit_recorded b branch label parents c a w oid b' w' :
  Commit m b branch label parents c a w = Ok ((oid, b'), w') →
  oid_wf oid ∧ Algo oid = rb_algo b ∧ ParseOID (TrimSpace (label_of b' label)) (rb_algo b) = Ok oid ∧
  rb_labels b' = <[label := label_of b' label]> (rb_labels b) ∧ rb_dir b' = rb_dir b ∧ rb_bareDir b' = rb_bareDir b ∧ rb_algo b' = rb_algo b.
Proof.
  unfold Commit, commitWithMessage. intros H.
  repeat match goal with H : (_ ≫= _) _ = Ok _ |- _ => apply bind_Ok in H as (? & ? & ? & H) end.
  match goal with H : parseOIDHex _ _ _ = Ok _ |- _ => apply parseOIDHex_ok in H as [Hp ->] end. injection H as <- <- <-. cbn in *.
  unfold label_of. cbn. rewrite lookup_insert_eq. cbn. split; [by eapply ParseOID_wf|]. apply ParseOID_ok in Hp as Hp'. destruct Hp' as (_ & _ & _ & Ha & _).
  by repeat split.
Qed.

(** Of the parents only the first is looked at, and none when the branch is checked out: a merge
    cannot be made, and a commit is not made on the parent it names. *)
Theorem parents_ignored b branch label p q ps qs c a w :
  Commit m b branch label (p :: ps) c a w = Commit m b branch label (p :: qs) c a w ∧
  ((∀ w, ∃ w', currentBranchName m (rb_dir b) w = Ok (branch, w')) →
   Commit m b branch label (p :: ps) c a w = Commit m b branch label (q :: qs) c a w).
Proof.
  split; [done|]. intros Hcur. unfold Commit, commitWithMessage. apply same_bind; [apply same_refl|intros []].
  apply same_bind; [|intros; apply same_refl]. intros w1. unfold switch_branch, mbind, SE_bind. destruct (Hcur w1) as (w2 & ->). by rewrite String.eqb_refl.
Qed.
End results.

(** ** A tag that is no object

    git keeps, for a repository, what a name stands for.  Of the three commands the fixture uses,
    [tag -f] binds a name to a commit, [push] changes nothing here, and [rev-parse] prints the id
    and a newline. *)
Lemma hex_no_space c : lower_hex_byte c = true → is_space c = false.
Proof. by destruct c as [[] [] [] [] [] [] [] []]. Qed.

Lemma trim_right_hex s t : string_forall lower_hex_byte s = true → trim_right is_space (s +:+ t) = s +:+ trim_right is_space t.
Proof.
  induction s as [|c s IH]; [done|]. cbn. intros [Hc Hs]%andb_true_iff. by rewrite (hex_no_space _ Hc), IH.
Qed.

Lemma TrimSpace_line s : string_forall lower_hex_byte s = true → TrimSpace (s +:+ String newline "") = s.
Proof.
  intros Hs. unfold TrimSpace. assert (trim_left is_space (s +:+ String newline "") = s +:+ (if String.eqb s "" then "" else String newline "")) as ->.
  { destruct s as [|c s]; [done|]. cbn in *. apply andb_true_iff in Hs as [Hc _]. by rewrite (hex_no_space _ Hc). }
  rewrite trim_right_hex by done. destruct (String.eqb s ""); cbn; apply append_nil_r.
Qed.

Lemma TrimSpace_hex s : string_forall lower_hex_byte s = true → TrimSpace s = s.
Proof.
  intros Hs. unfold TrimSpace. assert (trim_left is_space s = s) as ->.
  { destruct s as [|c s]; [done|]. cbn in *. apply andb_true_iff in Hs as [Hc _]. by rewrite (hex_no_space _ Hc). }
  rewrite <- (append_nil_r s) at 1. rewrite trim_right_hex by done. apply append_nil_r.
Qed.

Section lightweight.
Context {W : Type} (m : machine W) (b : RepoBuilder) (name : string) (named : W → option string).
Context (tag_binds : ∀ env hex p w w', mc_git m (rb_dir b) env ["tag"; "-f"; name; hex] w = (p, w') → pr_err p = None → named w' = Some hex).
Context (push_keeps : ∀ env what p w w', mc_git m (rb_dir b) env ["push"; "--force"; "origin"; what] w = (p, w') → named w' = named w).
Context (rev_parse_prints : ∀ env p w w', mc_git m (rb_dir b) env ["rev-parse"; name] w = (p, w') → pr_err p = None →
  ∃ hex, named w = Some hex ∧ pr_stdout p = hex +:+ String newline "").

Lemma runGit_ok dir args w u w' : runGit m dir args w = Ok (u, w') →
  ∃ p, mc_git m dir (baseGitEnv (mc_PATH m)) args w = (p, w') ∧ pr_err p = None.
Proof.
  unfold runGit, git_process, mbind, SE_bind. destruct (mc_git _ _ _ _ w) as [p w1]. destruct (pr_err p) eqn:E; [done|]. intros [= _ <-]. eauto.
Qed.

(** The id of a lightweight tag is the id of its commit. *)
Theorem lightweight_tag_is_commit label hex oid w w' :
  rb_labels b !! label = Some hex → string_forall lower_hex_byte hex = true →
  LightweightTag m b name label w = Ok (oid, w') → Hex oid = hex ∧ Algo oid = rb_algo b ∧ oid_wf oid.
Proof.
  intros Hl Hx. unfold LightweightTag, label_of. rewrite Hl. cbn [default]. intros (u & w1 & Htag & H)%bind_Ok.
  apply bind_Ok in H as (u' & w3 & Hpush & H). unfold push in Hpush. apply bind_Ok in Hpush as (u2 & w2 & Hp1 & Hp2).
  apply bind_Ok in H as (out & w4 & Hout & H). apply parseOIDHex_ok in H as [Hparse _].
  apply runGit_ok in Htag as (p & Hp & He). pose proof (tag_binds _ _ _ _ _ Hp He) as Hn.
  apply runGit_ok in Hp1 as (p1 & Hg1 & _). apply push_keeps in Hg1. apply runGit_ok in Hp2 as (p2 & Hg2 & _). apply push_keeps in Hg2.
  unfold runGitOutput, git_process, mbind, SE_bind in Hout. destruct (mc_git m (rb_dir b) _ ["rev-parse"; name] w3) as [p3 w5] eqn:Hr.
  destruct (pr_err p3) eqn:He3; [done|]. injection Hout as <- <-. destruct (rev_parse_prints _ _ _ _ Hr He3) as (hex' & Hn' & Ho).
  assert (hex' = hex) as -> by (rewrite Hg2, Hg1, Hn in Hn'; by injection Hn'). rewrite Ho, TrimSpace_line, TrimSpace_hex in Hparse by done.
  apply ParseOID_wf in Hparse as Hw. apply ParseOID_ok in Hparse as (_ & _ & _ & Ha & Hh & _). done.
Qed.
End lightweight.

(** A machine whose git knows one tag, of the name v1. *)
Definition toy_git (dir : string) (env args : list string) (w : option string) : cmd_end * option string :=
  match args with
  | ["tag"; "-f"; "v1"; hex] => (mkCmdEnd "" "" None, Some hex)
  | ["rev-parse"; "v1"] => match w with
                           | Some hex => (mkCmdEnd (hex +:+ String newline "") hex None, w)
                           | None => (mkCmdEnd "" "" (Some "exit status 128"), w)
                           end
  | _ => (mkCmdEnd "" "" None, w)
  end.
Definition toy : machine (option string) :=
  mkMachine toy_git (λ _ w, (None, w)) (λ _ w, (Ok "/tmp/tl-work-1", w)) (λ _ _ w, (None, w)) (λ _, false) (λ _, None) "/usr/bin".
Definition toy_hex : string := EncodeToString (replicate 20 (byte_of_Z 173)).
Definition toy_builder : RepoBuilder := mkRepoBuilder "/tmp/tl-work-1" "/srv/r.git" SHA1 {["c1" := toy_hex]}.

Lemma toy_tag : ∃ oid, LightweightTag toy toy_builder "v1" "c1" None = Ok (oid, Some toy_hex).
Proof. eexists. vm_compute. reflexivity. Qed.

Lemma lightweight_tag_is_commit_witness : ∃ oid,
  LightweightTag toy toy_builder "v1" "c1" None = Ok (oid, Some toy_hex) ∧ Hex oid = toy_hex ∧ Algo oid = SHA1.
Proof.
  destruct toy_tag as (oid & E). exists oid. split; [exact E|].
  destruct (lightweight_tag_is_commit toy toy_builder "v1" id) with (label := "c1") (hex := toy_hex) (oid := oid) (w := @None string) (w' := Some toy_hex)
    as (Hh & Ha & _).
  - intros env hex p w0 w' [= <- <-] _. reflexivity.
  - intros env what p w0 w' [= <- <-]. reflexivity.
  - intros env p w0 w' Hp He. destruct w0 as [hex|]; injection Hp as <- <-; [by exists hex|discriminate He].
  - vm_compute. reflexivity.
  - vm_compute. reflexivity.
  - exact E.
  - split; [exact Hh|exact Ha].
Defined.
