(* ===== verification/Ctl.v ===== *)
(** cmd/git-tainted-ctl: the operator's command line tool.  A run takes its arguments and
    environment and talks to a server through an exchange that threads the world's state.

    Left out are the texts of library errors and of usage messages: the tool's standard error
    is the diagnostic [diag]. *)
From S2P Require Import Prelude GoStrings GoNum GoTime GoMaps GoHttp GoUrl GoJson GoFlag.
#[local] Open Scope Z_scope.

(** * client.go: credentials *)

Definition exitOK : Z := 0.
Definition exitUsage : Z := 2.
Definition exitNotFound : Z := 3.
Definition exitUnauth : Z := 4.
Definition exitConflict : Z := 5.
Definition exitServerError : Z := 6.

Inductive authCreds : Type :=
  | authNone
  | authAPIKey (value : string)
  | authToken (value : string)
  | authBasic (value : string).

Fixpoint envValue (environ : list string) (key : string) : string :=
  match environ with
  | [] => ""
  | e :: environ => if HasPrefix e (key +:+ "=") then sdrop (String.length (key +:+ "=")) e else envValue environ key
  end.

Definition envBool (environ : list string) (key : string) : bool :=
  existsb (String.eqb (ToLower (TrimSpace (envValue environ key)))) ["1"; "true"; "yes"; "on"].

Definition resolveAuth (apiKeyFlag tokenFlag basicFlag : string) (environ : list string) : authCreds :=
  let set s := negb (String.eqb s "") in
  if set apiKeyFlag then authAPIKey apiKeyFlag
  else if set tokenFlag then authToken tokenFlag
  else if set basicFlag then authBasic basicFlag
  else if set (envValue environ "GT_API_KEY") then authAPIKey (envValue environ "GT_API_KEY")
  else if set (envValue environ "GT_TOKEN") then authToken (envValue environ "GT_TOKEN")
  else if set (envValue environ "GT_BASIC_AUTH") then authBasic (envValue environ "GT_BASIC_AUTH")
  else authNone.

(** The headers it sets. *)
Definition applyAuth (a : authCreds) : list (string * string) :=
  match a with
  | authNone => []
  | authAPIKey v => [("Authorization", "Bearer " +:+ v); ("X-Api-Key", v)]
  | authToken v => [("Authorization", "Bearer " +:+ v)]
  | authBasic v => [("Authorization", "Basic " +:+ b64_encode v)]
  end.

Definition httpStatusToExitCode (status : Z) : Z :=
  if existsb (Z.eqb status) [200; 201; 202; 204] then exitOK
  else if status =? 404 then exitNotFound
  else if (status =? 401) || (status =? 403) then exitUnauth
  else if status =? 409 then exitConflict
  else if 500 <=? status then exitServerError
  else exitUsage.

Definition apiError (rawBody : string) : string :=
  match (ms ← unmarshal rawBody ≫= members; field "error" to_string "" ms) with
  | Some e => if negb (String.eqb e "") then e else if negb (String.eqb rawBody "") then rawBody else "unknown error"
  | None => if negb (String.eqb rawBody "") then rawBody else "unknown error"
  end.

(** ** The transport guard *)

Section guard.
(** [netip.ParseAddr] behind brackets, and whether a text with a colon is a loopback address. *)
Context (parse_bracketed : string → option string) (loopback_ip6 : string → bool).

Definition isLoopbackHost (host : string) : bool := if key_matches "localhost" host then true else ip_loopback loopback_ip6 host.

(** [None] is an error. *)
Definition checkServerURL (raw : string) (insecure : bool) : option () :=
  match Parse parse_bracketed raw with
  | None => None
  | Some u =>
      if String.eqb (u_Host u) "" then None
      else if String.eqb (u_Scheme u) "https" then Some ()
      else if String.eqb (u_Scheme u) "http" then if insecure || isLoopbackHost (Hostname u) then Some () else None
      else None
  end.
End guard.

(** ** Wire types *)

Record wireRemote : Type := mkWireRemote {
  wr_ID : Z; wr_URL : string; wr_NormalizedURL : string; wr_Transport : string; wr_SyncIntervalNS : Z;
  wr_StalenessBudgetNS : Z; wr_TaintAnyTagDeletion : bool; wr_HashAlgo : option string; wr_Status : string;
  wr_LastOKNS : Z; wr_LastErr : string; wr_ConsecutiveFailures : Z; wr_ChainLen : Z; wr_RemovedAtNS : option Z;
  wr_CreatedAtNS : Z; wr_UpdatedAtNS : Z;
}.
Record wireTag : Type := mkWireTag {
  wt_ID : Z; wt_RemoteID : Z; wt_TagName : string; wt_CurrentOID : option string; wt_CurrentPeeledOID : option string;
  wt_IsAnnotated : bool; wt_FirstOID : option string; wt_FirstSeenNS : Z; wt_LastSeenNS : Z; wt_LastChangedNS : Z;
  wt_Deleted : bool; wt_Tainted : bool; wt_TaintFirstNS : option Z; wt_ObservationCount : Z;
}.
Record wireTaintEvent : Type := mkWireTaintEvent {
  we_ID : Z; we_RemoteID : Z; we_RefID : Z; we_Reason : string; we_ObservationID : option Z; we_FromOID : option string;
  we_ToOID : option string; we_DetectedAtNS : Z; we_AckedAtNS : option Z; we_AckedBy : option string;
  we_AckNote : option string; we_Detail : string;
}.
Record wireSyncEntry : Type := mkWireSyncEntry {
  ws_ID : Z; ws_RemoteID : Z; ws_Trigger : string; ws_StartedNS : Z; ws_FinishedNS : Z; ws_Status : string;
  ws_TagsSeen : Z; ws_TagsChanged : Z; ws_Error : string; ws_ChainHeadBefore : option string; ws_ChainHeadAfter : option string;
}.
(** [wireRemoteList], [wireTagList], [wireTaintEventList] and [wireSyncAuditList]. *)
Record wireList (A : Type) : Type := mkWireList { wl_Items : option (list A); wl_NextCursor : option Z }.
Arguments mkWireList {A}.
Arguments wl_Items {A}.
Arguments wl_NextCursor {A}.

Record wireCreateRemoteReq : Type := mkWireCreate {
  wc_URL : string; wc_Transport : string; wc_SyncIntervalNS : option Z; wc_TaintAnyTagDeletion : option bool;
}.
Record wireUpdateRemoteReq : Type := mkWireUpdate {
  wu_SyncIntervalNS : option Z; wu_StalenessBudgetNS : option Z; wu_Status : option string;
}.
Record wireAckReq : Type := mkWireAck { wk_AckedBy : string; wk_AckNote : string }.

Abbreviation ptr_int64 := (to_ptr to_int64 0).
Abbreviation ptr_string := (to_ptr to_string "").

Definition wireRemote_of (j : json) : option wireRemote :=
  ms ← members j;
  id ← field "id" to_int64 0 ms; url ← field "url" to_string "" ms; norm ← field "normalized_url" to_string "" ms;
  transport ← field "transport" to_string "" ms; interval ← field "sync_interval_ns" to_int64 0 ms;
  budget ← field "staleness_budget_ns" to_int64 0 ms; taint ← field "taint_any_tag_deletion" to_bool false ms;
  algo ← field "hash_algo" ptr_string None ms; status ← field "status" to_string "" ms;
  ok ← field "last_ok_ns" to_int64 0 ms; err ← field "last_err" to_string "" ms;
  failures ← field "consecutive_failures" to_int64 0 ms; chain ← field "chain_len" to_int64 0 ms;
  removed ← field "removed_at_ns" ptr_int64 None ms; created ← field "created_at_ns" to_int64 0 ms;
  updated ← field "updated_at_ns" to_int64 0 ms;
  Some (mkWireRemote id url norm transport interval budget taint algo status ok err failures chain removed created updated).

Definition wireTag_of (j : json) : option wireTag :=
  ms ← members j;
  id ← field "id" to_int64 0 ms; remote ← field "remote_id" to_int64 0 ms; name ← field "tag_name" to_string "" ms;
  current ← field "current_oid" ptr_string None ms; peeled ← field "current_peeled_oid" ptr_string None ms;
  annotated ← field "is_annotated" to_bool false ms; first ← field "first_oid" ptr_string None ms;
  seen ← field "first_seen_ns" to_int64 0 ms; last ← field "last_seen_ns" to_int64 0 ms;
  changed ← field "last_changed_ns" to_int64 0 ms; deleted ← field "deleted" to_bool false ms;
  tainted ← field "tainted" to_bool false ms; taint ← field "taint_first_ns" ptr_int64 None ms;
  count ← field "observation_count" to_int64 0 ms;
  Some (mkWireTag id remote name current peeled annotated first seen last changed deleted tainted taint count).

Definition wireTaintEvent_of (j : json) : option wireTaintEvent :=
  ms ← members j;
  id ← field "id" to_int64 0 ms; remote ← field "remote_id" to_int64 0 ms; ref ← field "ref_id" to_int64 0 ms;
  reason ← field "reason" to_string "" ms; obs ← field "observation_id" ptr_int64 None ms;
  from ← field "from_oid" ptr_string None ms; to ← field "to_oid" ptr_string None ms;
  at_ ← field "detected_at_ns" to_int64 0 ms; acked ← field "acked_at_ns" ptr_int64 None ms;
  by_ ← field "acked_by" ptr_string None ms; note ← field "ack_note" ptr_string None ms;
  detail ← field "detail" to_string "" ms;
  Some (mkWireTaintEvent id remote ref reason obs from to at_ acked by_ note detail).

Definition wireSyncEntry_of (j : json) : option wireSyncEntry :=
  ms ← members j;
  id ← field "id" to_int64 0 ms; remote ← field "remote_id" to_int64 0 ms; trigger ← field "trigger" to_string "" ms;
  started ← field "started_ns" to_int64 0 ms; finished ← field "finished_ns" to_int64 0 ms;
  status ← field "status" to_string "" ms; seen ← field "tags_seen" to_int64 0 ms; changed ← field "tags_changed" to_int64 0 ms;
  err ← field "error" to_string "" ms; before ← field "chain_head_before" ptr_string None ms;
  after ← field "chain_head_after" ptr_string None ms;
  Some (mkWireSyncEntry id remote trigger started finished status seen changed err before after).

Definition wireList_of {A} (elem : json → option A) (j : json) : option (wireList A) :=
  ms ← members j;
  items ← field "items" (to_slice elem) None ms; next ← field "next_cursor" ptr_int64 None ms;
  Some (mkWireList items next).

Definition json_of_create (r : wireCreateRemoteReq) : json :=
  JObj ([("url", JStr (wc_URL r)); ("transport", JStr (wc_Transport r))] ++
        opt_member "sync_interval_ns" JInt (wc_SyncIntervalNS r) ++ opt_member "taint_any_tag_deletion" JBool (wc_TaintAnyTagDeletion r)).
Definition json_of_update (r : wireUpdateRemoteReq) : json :=
  JObj (opt_member "sync_interval_ns" JInt (wu_SyncIntervalNS r) ++ opt_member "staleness_budget_ns" JInt (wu_StalenessBudgetNS r) ++
        opt_member "status" JStr (wu_Status r)).
Definition json_of_ack (r : wireAckReq) : json := JObj ([("acked_by", JStr (wk_AckedBy r))] ++ str_member "ack_note" (wk_AckNote r)).

(** What [--json] prints. *)
Definition json_of_wireRemote (r : wireRemote) : json := JObj (
  [("id", JInt (wr_ID r)); ("url", JStr (wr_URL r)); ("normalized_url", JStr (wr_NormalizedURL r)); ("transport", JStr (wr_Transport r));
   ("sync_interval_ns", JInt (wr_SyncIntervalNS r)); ("staleness_budget_ns", JInt (wr_StalenessBudgetNS r));
   ("taint_any_tag_deletion", JBool (wr_TaintAnyTagDeletion r))] ++
  opt_member "hash_algo" JStr (wr_HashAlgo r) ++
  [("status", JStr (wr_Status r)); ("last_ok_ns", JInt (wr_LastOKNS r)); ("last_err", JStr (wr_LastErr r));
   ("consecutive_failures", JInt (wr_ConsecutiveFailures r)); ("chain_len", JInt (wr_ChainLen r))] ++
  opt_member "removed_at_ns" JInt (wr_RemovedAtNS r) ++
  [("created_at_ns", JInt (wr_CreatedAtNS r)); ("updated_at_ns", JInt (wr_UpdatedAtNS r))]).
Definition json_of_wireTag (t : wireTag) : json := JObj (
  [("id", JInt (wt_ID t)); ("remote_id", JInt (wt_RemoteID t)); ("tag_name", JStr (wt_TagName t))] ++
  opt_member "current_oid" JStr (wt_CurrentOID t) ++ opt_member "current_peeled_oid" JStr (wt_CurrentPeeledOID t) ++
  [("is_annotated", JBool (wt_IsAnnotated t))] ++ opt_member "first_oid" JStr (wt_FirstOID t) ++
  [("first_seen_ns", JInt (wt_FirstSeenNS t)); ("last_seen_ns", JInt (wt_LastSeenNS t)); ("last_changed_ns", JInt (wt_LastChangedNS t));
   ("deleted", JBool (wt_Deleted t)); ("tainted", JBool (wt_Tainted t))] ++
  opt_member "taint_first_ns" JInt (wt_TaintFirstNS t) ++ [("observation_count", JInt (wt_ObservationCount t))]).
Definition json_of_wireTaintEvent (e : wireTaintEvent) : json := JObj (
  [("id", JInt (we_ID e)); ("remote_id", JInt (we_RemoteID e)); ("ref_id", JInt (we_RefID e)); ("reason", JStr (we_Reason e))] ++
  opt_member "observation_id" JInt (we_ObservationID e) ++ opt_member "from_oid" JStr (we_FromOID e) ++
  opt_member "to_oid" JStr (we_ToOID e) ++ [("detected_at_ns", JInt (we_DetectedAtNS e))] ++
  opt_member "acked_at_ns" JInt (we_AckedAtNS e) ++ opt_member "acked_by" JStr (we_AckedBy e) ++
  opt_member "ack_note" JStr (we_AckNote e) ++ [("detail", JStr (we_Detail e))]).
Definition json_of_wireSyncEntry (s : wireSyncEntry) : json := JObj (
  [("id", JInt (ws_ID s)); ("remote_id", JInt (ws_RemoteID s)); ("trigger", JStr (ws_Trigger s)); ("started_ns", JInt (ws_StartedNS s));
   ("finished_ns", JInt (ws_FinishedNS s)); ("status", JStr (ws_Status s)); ("tags_seen", JInt (ws_TagsSeen s));
   ("tags_changed", JInt (ws_TagsChanged s))] ++
  str_member "error" (ws_Error s) ++ opt_member "chain_head_before" JStr (ws_ChainHeadBefore s) ++
  opt_member "chain_head_after" JStr (ws_ChainHeadAfter s)).
Definition json_of_wireList {A} (f : A → json) (l : wireList A) : json :=
  JObj ([("items", match wl_Items l with Some items => JArr (map f items) | None => JNull end)] ++ opt_member "next_cursor" JInt (wl_NextCursor l)).

(** * fmt *)

(** [%-nd] and [%-ns] pad on the right, by runes. *)
Fixpoint spaces (n : nat) : string :=
  match n with
  | O => ""
  | S n => String " " (spaces n)
  end.
Definition pad_right (width : nat) (s : string) : string := s +:+ spaces (width - length (chunks s)).

Definition boolStr (b : bool) : string := if b then "yes" else "no".

Definition line (cells : list string) : string := Join cells "  " +:+ nl.

Definition printRemoteTable (remotes : list wireRemote) : string :=
  let row id status transport url := line [pad_right 6 id; pad_right 8 status; pad_right 10 transport; url] in
  row "ID" "STATUS" "TRANSPORT" "URL" +:+
  Join (map (λ r, row (FormatInt (wr_ID r)) (wr_Status r) (wr_Transport r) (wr_NormalizedURL r)) remotes) "".

Definition printSyncTable (syncs : list wireSyncEntry) : string :=
  let row id status trigger seen chgd started :=
    line [pad_right 6 id; pad_right 8 status; pad_right 9 trigger; pad_right 4 seen; pad_right 4 chgd; started] in
  row "ID" "STATUS" "TRIGGER" "SEEN" "CHGD" "STARTED" +:+
  Join (map (λ s, row (FormatInt (ws_ID s)) (ws_Status s) (ws_Trigger s) (FormatInt (ws_TagsSeen s)) (FormatInt (ws_TagsChanged s))
    (FormatRFC3339 (ws_StartedNS s))) syncs) "".

Definition printTagTable (tags : list wireTag) : string :=
  let row id tainted deleted tag := line [pad_right 6 id; pad_right 8 tainted; pad_right 8 deleted; tag] in
  row "ID" "TAINTED" "DELETED" "TAG" +:+
  Join (map (λ t, row (FormatInt (wt_ID t)) (boolStr (wt_Tainted t)) (boolStr (wt_Deleted t)) (wt_TagName t)) tags) "".

Definition printTaintTable (events : list wireTaintEvent) : string :=
  let row id ref reason detected acked := line [pad_right 6 id; pad_right 6 ref; pad_right 24 reason; pad_right 26 detected; acked] in
  row "ID" "REF" "REASON" "DETECTED" "ACKED_BY" +:+
  Join (map (λ e, row (FormatInt (we_ID e)) (FormatInt (we_RefID e)) (we_Reason e) (FormatRFC3339 (we_DetectedAtNS e))
    (default "-" (we_AckedBy e))) events) "".

(** * Query values *)

Definition isURLSafe (b : ascii) : bool := is_alnum b || elem_char b "-_.~:/@".
Fixpoint urlQueryEscape (s : string) : string :=
  match s with
  | EmptyString => ""
  | String b s =>
      (if isURLSafe b then String b ""
       else String "%" (String (upper_hex_digit (N_of_ascii b / 16)) (String (upper_hex_digit (N_of_ascii b mod 16)) ""))) +:+ urlQueryEscape s
  end.

(** * Arguments *)

(** The flags with the tokens taken for their values, and the other arguments. *)
Fixpoint separate (args : list string) : list string * list string :=
  match args with
  | [] => ([], [])
  | a :: args =>
      if HasPrefix a "-" then
        match args with
        | v :: args' =>
            if negb (Contains a "=") && negb (HasPrefix v "-") then
              let '(flags, positionals) := separate args' in (a :: v :: flags, positionals)
            else let '(flags, positionals) := separate args in (a :: flags, positionals)
        | [] => ([a], [])
        end
      else let '(flags, positionals) := separate args in (flags, a :: positionals)
  end.
Definition separateFlags (args : list string) : list string := let '(flags, positionals) := separate args in flags ++ positionals.

(** * Commands *)

(** One diagnostic on standard error: what [flag] prints, a message of the tool, an argument
    that does not parse, an error of the exchange, or what the server said. *)
Inductive diag : Type :=
  | FlagUsage
  | Message (text : string)
  | BadArgument (name value : string)
  | Transport (text : string)
  | ServerSaid (text : string).

Record outcome : Type := mkOutcome {
  o_Exit : Z;
  o_Stdout : string;
  o_Stderr : option diag;
}.
Definition done_with (stdout : string) : outcome := mkOutcome exitOK stdout None.
Definition usage (d : diag) : outcome := mkOutcome exitUsage "" (Some d).

Record http_call : Type := mkCall {
  c_Method : string;
  c_URL : string;
  c_Header : list (string * string);
  c_Body : option string;
}.

Record client : Type := mkClient {
  cl_server : string;
  cl_auth : authCreds;
  cl_timeout : Z;
}.

Section commands.
Context {W : Type}.
(** One round trip of [http.Client.Do] and [io.ReadAll] within a timeout: the text of an error,
    or a status and a body. *)
Context (exchange : Z → http_call → W → result string (Z * string) * W).
(** [%q] of a text. *)
Context (Quote : string → string).

Abbreviation command := (W → outcome * W).
Definition finish (o : outcome) : command := λ w, (o, w).

Definition do (cl : client) (method path : string) (body : option json) : W → result string (Z * string) * W :=
  exchange (cl_timeout cl)
    (mkCall method (TrimRight (cl_server cl) "/" +:+ path)
       (match body with Some _ => [("Content-Type", "application/json")] | None => [] end ++
        [("Accept", "application/json")] ++ applyAuth (cl_auth cl))
       (print <$> body)).

(** The value a successful response holds, if one is wanted. *)
Definition doJSON {A} (cl : client) (method path : string) (body : option json) (out : option (json → option A))
    : W → result string (Z * string * option A) * W := λ w,
  let '(r, w) := do cl method path body w in
  (match r with
   | Err e => Err ("calling server: " +:+ e)
   | Ok (status, raw) =>
       match out with
       | Some of_json =>
           if Z.quot status 100 =? 2 then
             match unmarshal raw ≫= of_json with
             | Some a => Ok (httpStatusToExitCode status, raw, Some a)
             | None => Err "parsing response"
             end
           else Ok (httpStatusToExitCode status, raw, None)
       | None => Ok (httpStatusToExitCode status, raw, None)
       end
   end, w).

(** The common end of the commands: an error of the exchange, an exit code with what the
    server said, or the output for what was read, which is the zero value after a success
    without a value. *)
Definition with_response {A} (cl : client) (method path : string) (body : option json) (out : option (json → option A))
    (said : string → string) (k : option A → outcome) : command := λ w,
  let '(r, w) := doJSON cl method path body out w in
  (match r with
   | Err e => usage (Transport e)
   | Ok (code, raw, a) => if negb (code =? exitOK) then mkOutcome code "" (Some (ServerSaid (said (apiError raw)))) else k a
   end, w).

(** [fs.Parse]: help is a success. *)
Definition with_flags (fs : formal) (args : list string) (k : actual → list string → command) : command :=
  match flag_parse fs args ∅ with
  | Err ErrHelp => finish (mkOutcome exitOK "" (Some FlagUsage))
  | Err FlagError => finish (usage FlagUsage)
  | Ok (vals, rest) => k vals rest
  end.

Definition parse_id (name arg : string) (k : Z → command) : command :=
  match ParseInt arg with
  | Some id => k id
  | None => finish (usage (BadArgument name arg))
  end.

(** A duration flag that may be empty. *)
Definition opt_duration (name value : string) (k : option Z → command) : command :=
  if String.eqb value "" then k None
  else match ParseDuration value with
       | Some d => k (Some d)
       | None => finish (usage (BadArgument name value))
       end.

Definition remote_path (id : Z) : string := "/v1/remotes/" +:+ FormatInt id.

(** ** remote *)

Definition transport_of (rawURL : string) : string :=
  if HasPrefix rawURL "ssh://" || negb (Contains rawURL "://") && Contains rawURL "@" then "ssh" else "https".

Definition runRemoteAdd (args : list string) (cl : client) : command :=
  with_flags (own [("interval", StringFlag); ("disabled", BoolFlag)]) (separateFlags args) (λ vals rest,
  match rest with
  | [rawURL] =>
      opt_duration "--interval" (get_string vals "interval" "") (λ interval,
      let req := mkWireCreate rawURL (transport_of rawURL) interval (if get_bool vals "disabled" false then Some false else None) in
      with_response cl "POST" "/v1/remotes" (Some (json_of_create req)) (Some wireRemote_of) (λ e, "server returned error: " +:+ e) (λ out,
        let '(id, url) := match out with Some r => (wr_ID r, wr_NormalizedURL r) | None => (0, "") end in
        done_with ("created remote id=" +:+ FormatInt id +:+ " url=" +:+ url +:+ nl)))
  | _ => finish (usage (Message "remote add requires exactly one argument: <url>"))
  end).

(** A list, as JSON or as a table and the cursor of the next page. *)
Definition show_list {A} (jsonFlag : bool) (f : A → json) (table : list A → string) (out : option (wireList A)) : outcome :=
  let l := default (mkWireList None None) out in
  if jsonFlag then done_with (encode_indent (json_of_wireList f l))
  else done_with (table (default [] (wl_Items l)) +:+
         match wl_NextCursor l with Some c => "(next cursor: " +:+ FormatInt c +:+ ")" +:+ nl | None => "" end).

Definition show_remote (jsonFlag : bool) (r : wireRemote) : outcome :=
  done_with (if jsonFlag then encode_indent (json_of_wireRemote r) else printRemoteTable [r]).

Definition runRemoteList (args : list string) (globalJSON : bool) (cl : client) : command :=
  with_flags (own [("json", BoolFlag); ("limit", IntFlag); ("cursor", IntFlag)]) args (λ vals _,
  let limit := get_int vals "limit" 0 in
  let cursor := get_int vals "cursor" 0 in
  let params := (if 0 <? limit then ["limit=" +:+ FormatInt limit] else []) ++ (if 0 <? cursor then ["cursor=" +:+ FormatInt cursor] else []) in
  let path := "/v1/remotes" +:+ match params with [] => "" | _ => "?" +:+ Join params "&" end in
  with_response cl "GET" path None (Some (wireList_of wireRemote_of)) id
    (show_list (get_bool vals "json" globalJSON) json_of_wireRemote printRemoteTable)).

Definition zeroRemote : wireRemote := mkWireRemote 0 "" "" "" 0 0 false None "" 0 "" 0 0 None 0 0.

Definition runRemoteGet (args : list string) (globalJSON : bool) (cl : client) : command :=
  with_flags (own [("json", BoolFlag)]) (separateFlags args) (λ vals rest,
  let jsonFlag := get_bool vals "json" globalJSON in
  match rest with
  | [arg] =>
      match ParseInt arg with
      | Some i => with_response cl "GET" (remote_path i) None (Some wireRemote_of) id (λ out, show_remote jsonFlag (default zeroRemote out))
      | None =>
          with_response cl "GET" ("/v1/remotes?url=" +:+ urlQueryEscape arg) None (Some (wireList_of wireRemote_of)) id (λ out,
            match out ≫= wl_Items with
            | Some (r :: _) => show_remote jsonFlag r
            | _ => mkOutcome exitNotFound "" (Some (BadArgument "no remote found for url" arg))
            end)
      end
  | _ => finish (usage (Message "remote get requires exactly one argument: <id|url>"))
  end).

Definition status_flag (enabled : string) : option (option string) :=
  if String.eqb enabled "" then Some None
  else if existsb (String.eqb (ToLower enabled)) ["true"; "1"; "yes"] then Some (Some "active")
  else if existsb (String.eqb (ToLower enabled)) ["false"; "0"; "no"] then Some (Some "paused")
  else None.

Definition runRemoteUpdate (args : list string) (cl : client) : command :=
  with_flags (own [("interval", StringFlag); ("enabled", StringFlag)]) (separateFlags args) (λ vals rest,
  match rest with
  | [arg] =>
      parse_id "id" arg (λ i,
      opt_duration "--interval" (get_string vals "interval" "") (λ interval,
      match status_flag (get_string vals "enabled" "") with
      | None => finish (usage (Message "--enabled must be true or false"))
      | Some status =>
          match interval, status with
          | None, None => finish (usage (Message "remote update requires at least one of --interval or --enabled"))
          | _, _ =>
              with_response cl "PATCH" (remote_path i) (Some (json_of_update (mkWireUpdate interval None status))) (Some wireRemote_of) id (λ out,
                let r := default zeroRemote out in
                done_with ("updated remote id=" +:+ FormatInt (wr_ID r) +:+ " status=" +:+ wr_Status r +:+ nl))
          end
      end))
  | _ => finish (usage (Message "remote update requires exactly one argument: <id>"))
  end).

(** A command without a value in its response. *)
Definition no_value : option (json → option ()) := None.

Definition runRemoteRm (args : list string) (cl : client) : command :=
  with_flags (own []) (separateFlags args) (λ _ rest,
  match rest with
  | [arg] =>
      parse_id "id" arg (λ i, with_response cl "DELETE" (remote_path i) None no_value id (λ _, done_with ("deleted remote id=" +:+ FormatInt i +:+ nl)))
  | _ => finish (usage (Message "remote rm requires exactly one argument: <id>"))
  end).

Definition runRemote (args : list string) (globalJSON : bool) (cl : client) : command :=
  match args with
  | [] => finish (usage FlagUsage)
  | sub :: args =>
      if String.eqb sub "add" then runRemoteAdd args cl
      else if String.eqb sub "list" then runRemoteList args globalJSON cl
      else if String.eqb sub "get" then runRemoteGet args globalJSON cl
      else if String.eqb sub "update" then runRemoteUpdate args cl
      else if String.eqb sub "rm" then runRemoteRm args cl
      else finish (usage (BadArgument "unknown remote subcommand" sub))
  end.

(** ** sync, syncs, tags, taint *)

Definition runSync (args : list string) (cl : client) : command :=
  with_flags (own []) args (λ _ rest,
  match rest with
  | [arg] =>
      parse_id "id" arg (λ i, with_response cl "POST" (remote_path i +:+ "/sync") None no_value id (λ _,
        done_with ("sync queued for remote id=" +:+ FormatInt i +:+ " (202 Accepted)" +:+ nl)))
  | _ => finish (usage (Message "sync requires exactly one argument: <id>"))
  end).

Definition runSyncs (args : list string) (globalJSON : bool) (cl : client) : command :=
  with_flags (own [("json", BoolFlag); ("limit", IntFlag)]) (separateFlags args) (λ vals rest,
  match rest with
  | [arg] =>
      parse_id "id" arg (λ i,
      let limit := get_int vals "limit" 0 in
      with_response cl "GET" (remote_path i +:+ "/syncs" +:+ (if 0 <? limit then "?limit=" +:+ FormatInt limit else "")) None
        (Some (wireList_of wireSyncEntry_of)) id (show_list (get_bool vals "json" globalJSON) json_of_wireSyncEntry printSyncTable))
  | _ => finish (usage (Message "syncs requires exactly one argument: <id>"))
  end).

Definition runTags (args : list string) (globalJSON : bool) (cl : client) : command :=
  with_flags (own [("json", BoolFlag)]) (separateFlags args) (λ vals rest,
  match rest with
  | [arg] =>
      parse_id "id" arg (λ i,
      with_response cl "GET" (remote_path i +:+ "/tags") None (Some (wireList_of wireTag_of)) id
        (show_list (get_bool vals "json" globalJSON) json_of_wireTag printTagTable))
  | _ => finish (usage (Message "tags requires exactly one argument: <id>"))
  end).

Definition runTaintList (args : list string) (globalJSON : bool) (cl : client) : command :=
  with_flags (own [("json", BoolFlag)]) (separateFlags args) (λ vals rest,
  match rest with
  | [arg] =>
      parse_id "id" arg (λ i,
      with_response cl "GET" (remote_path i +:+ "/taint-events") None (Some (wireList_of wireTaintEvent_of)) id
        (show_list (get_bool vals "json" globalJSON) json_of_wireTaintEvent printTaintTable))
  | _ => finish (usage (Message "taint list requires exactly one argument: <id>"))
  end).

Definition runTaintAck (args : list string) (cl : client) : command :=
  with_flags (own [("note", StringFlag); ("by", StringFlag)]) (separateFlags args) (λ vals rest,
  match rest with
  | [remote; event] =>
      parse_id "remoteId" remote (λ remoteID, parse_id "eventId" event (λ eventID,
      let by_ := get_string vals "by" "" in
      if String.eqb by_ "" then finish (usage (Message "--by is required for taint ack"))
      else
        with_response cl "POST" (remote_path remoteID +:+ "/taint-events/" +:+ FormatInt eventID +:+ "/ack")
          (Some (json_of_ack (mkWireAck by_ (get_string vals "note" "")))) no_value id (λ _,
            done_with ("taint event " +:+ FormatInt eventID +:+ " acknowledged by " +:+ Quote by_ +:+ nl))))
  | _ => finish (usage (Message "taint ack requires two arguments: <remoteId> <eventId>"))
  end).

Definition runTaint (args : list string) (globalJSON : bool) (cl : client) : command :=
  match args with
  | [] => finish (usage (Message "taint requires a subcommand: list|ack"))
  | sub :: args =>
      if String.eqb sub "list" then runTaintList args globalJSON cl
      else if String.eqb sub "ack" then runTaintAck args cl
      else finish (usage (BadArgument "unknown taint subcommand" sub))
  end.

(** * main.go *)

Context (parse_bracketed : string → option string) (loopback_ip6 : string → bool) (version : string).

Definition global_flags : formal := own
  [("server", StringFlag); ("api-key", StringFlag); ("token", StringFlag); ("basic", StringFlag); ("timeout", StringFlag);
   ("insecure", BoolFlag); ("json", BoolFlag); ("version", BoolFlag)] ++
  [("v", ("version", BoolFlag))].

(** The switch over the subcommand. *)
Definition runCommand (sub : list string) (jsonFlag : bool) (cl : client) : command :=
  match sub with
  | [] => finish (usage FlagUsage)
  | cmd :: args =>
      if String.eqb cmd "remote" then runRemote args jsonFlag cl
      else if String.eqb cmd "sync" then runSync args cl
      else if String.eqb cmd "syncs" then runSyncs args jsonFlag cl
      else if String.eqb cmd "tags" then runTags args jsonFlag cl
      else if String.eqb cmd "taint" then runTaint args jsonFlag cl
      else finish (usage (BadArgument "unknown command" cmd))
  end.

Definition run (args environ : list string) : command :=
  with_flags global_flags args (λ vals sub,
  if get_bool vals "version" false then finish (done_with ("git-tainted-ctl " +:+ version +:+ nl))
  else
    let or_default a b := if String.eqb a "" then b else a in
    let server := or_default (or_default (get_string vals "server" "") (envValue environ "GT_CTL_SERVER")) "http://127.0.0.1:8080" in
    let insecure := get_bool vals "insecure" false || envBool environ "GT_CTL_INSECURE" in
    let auth := resolveAuth (get_string vals "api-key" "") (get_string vals "token" "") (get_string vals "basic" "") environ in
    opt_duration "--timeout" (get_string vals "timeout" "10s") (λ timeout,
    match checkServerURL parse_bracketed loopback_ip6 server insecure with
    | None => finish (usage (BadArgument "server URL" server))
    | Some _ =>
        runCommand sub (get_bool vals "json" false) (mkClient server auth (default (10 * Second) timeout))
    end)).
End commands.
