(* ===== verification/WireProps.v ===== *)
(** The JSON between the server and the control tool: each side reads what the other writes,
    text included. *)
From S2P Require Import Prelude GoStrings GoNum GoJson GoJsonProps Model StoreSpec Handlers OapiWire Ctl.
#[local] Open Scope Z_scope.

(** * Objects of a fixed shape *)

(** The lists of members the two sides build: literals and optional members. *)
Lemma field_opt_skip {A B} name assign (zero : A) n (f : B → json) v ms :
  key_matches name n = false → field name assign zero (opt_member n f v ++ ms) = field name assign zero ms.
Proof. intros H. destruct v; [|done]. by apply field_skip. Qed.

Lemma field_opt_take {A B} name (assign : json → option A → option (option A)) n (f : B → json) (g : B → A) v ms :
  key_matches name n = true → (∀ b, v = Some b → assign (f b) None = Some (Some (g b))) →
  field name assign None (opt_member n f v ++ ms) = field name assign (g <$> v) ms.
Proof. intros H Ha. destruct v as [b|]; [|done]. apply field_take; [done|by apply Ha]. Qed.

(** A value field whose member is optional. *)
Lemma field_def_take {A B} name (assign : json → A → option A) zero n (f : B → json) (g : B → A) v ms :
  key_matches name n = true → (∀ b, v = Some b → assign (f b) zero = Some (g b)) →
  field name assign zero (opt_member n f v ++ ms) = field name assign (default zero (g <$> v)) ms.
Proof. intros H Ha. destruct v as [b|]; [|done]. apply field_take; [done|by apply Ha]. Qed.

Lemma field_cons_skip {A} name assign (zero : A) n j ms :
  key_matches name n = false → field name assign zero ((n, j) :: ms) = field name assign zero ms.
Proof. intros H. by apply field_skip. Qed.
Lemma to_int64_JInt z old : int64_ok z → to_int64 (JInt z) old = Some z.
Proof. apply ParseInt_FormatInt. Qed.
Lemma field_int name n z old ms : key_matches name n = true → int64_ok z →
  field name to_int64 old ((n, JInt z) :: ms) = field name to_int64 z ms.
Proof. intros. apply field_take; [done|by apply to_int64_JInt]. Qed.
Lemma field_str name n s old ms : key_matches name n = true → field name to_string old ((n, JStr s) :: ms) = field name to_string s ms.
Proof. intros. by apply field_take. Qed.
Lemma field_bool name n b old ms : key_matches name n = true → field name to_bool old ((n, JBool b) :: ms) = field name to_bool b ms.
Proof. intros. by apply field_take. Qed.

(** What is cleaned: the strings. *)
Lemma map_clean_opt_str n (v : option string) ms : to_valid n = n →
  map (λ m, (to_valid m.1, clean m.2)) (opt_member n JStr v ++ ms) = opt_member n JStr (to_valid <$> v) ++ map (λ m, (to_valid m.1, clean m.2)) ms.
Proof. intros H. destruct v; [|done]. cbn [opt_member map app fst snd]. by rewrite H. Qed.
Lemma map_clean_opt {B} n (f : B → json) v ms : to_valid n = n → (∀ b, clean (f b) = f b) →
  map (λ m, (to_valid m.1, clean m.2)) (opt_member n f v ++ ms) = opt_member n f v ++ map (λ m, (to_valid m.1, clean m.2)) ms.
Proof. intros H Hf. destruct v; [|done]. cbn [opt_member map app fst snd]. by rewrite H, Hf. Qed.
Lemma map_clean_cons n j ms : to_valid n = n →
  map (λ m, (to_valid m.1, clean m.2)) ((n, j) :: ms) = (n, clean j) :: map (λ m, (to_valid m.1, clean m.2)) ms.
Proof. intros H. cbn [map fst snd]. by rewrite H. Qed.
Lemma clean_JObj ms : clean (JObj ms) = JObj (map (λ m, (to_valid m.1, clean m.2)) ms).
Proof. done. Qed.

Lemma numbers_opt {B} n (f : B → json) v ms : (∀ b, numbers_ok (f b) = true) →
  forallb (λ m, numbers_ok m.2) (opt_member n f v ++ ms) = forallb (λ m, numbers_ok m.2) ms.
Proof. intros H. destruct v; [|done]. cbn. by rewrite H. Qed.
Lemma numbers_JInt z : numbers_ok (JInt z) = true.
Proof. apply valid_FormatInt. Qed.

Definition flat (j : json) : Prop := nesting j = 0.
Lemma nesting_flat ms : Forall (λ m, flat m.2) ms → nesting (JObj ms) ≤ 1.
Proof. cbn. intros H. induction H as [|m ms Hm _ IH]; [cbn; lia|]. cbn. rewrite Hm. lia. Qed.
Lemma flat_opt {B} n (f : B → json) v ms : (∀ b, flat (f b)) → Forall (λ m, flat m.2) ms → Forall (λ m, flat m.2) (opt_member n f v ++ ms).
Proof. intros Hf Hm. destruct v; [|done]. constructor; [apply Hf|done]. Qed.

(** A closed boolean. *)
Ltac by_eval := vm_compute; exact eq_refl.

(** The members of an object, up to the end. *)
Ltac close_members :=
  match goal with
  | |- context [JObj ?ms] => lazymatch ms with context [app] => rewrite <- (app_nil_r ms), <- ?app_assoc; cbn [app] | _ => idtac end
  end.

(** Read one field off a list of members. *)
Ltac read_field :=
  repeat first
    [ rewrite field_cons_skip by by_eval
    | rewrite field_opt_skip by by_eval
    | rewrite field_int by first [assumption | by_eval]
    | rewrite field_str by by_eval
    | rewrite field_bool by by_eval ];
  rewrite ?field_nil.

(** * Remotes *)

(** What fits the machine integers of the source. *)
Definition Remote_fits (r : oRemote) : Prop :=
  Forall int64_ok [orm_Id r; orm_SyncIntervalNs r; orm_StalenessBudgetNs r; orm_LastOkNs r; orm_ConsecutiveFailures r; orm_ChainLen r;
    orm_CreatedAtNs r; orm_UpdatedAtNs r] ∧ from_option int64_ok True (orm_RemovedAtNs r).

(** The tool's view of a remote. *)
Definition view_Remote (r : oRemote) : wireRemote :=
  mkWireRemote (orm_Id r) (to_valid (orm_Url r)) (to_valid (orm_NormalizedUrl r)) (to_valid (orm_Transport r)) (orm_SyncIntervalNs r)
    (orm_StalenessBudgetNs r) (orm_TaintAnyTagDeletion r) (to_valid <$> orm_HashAlgo r) (to_valid (orm_Status r)) (orm_LastOkNs r)
    (to_valid (orm_LastErr r)) (orm_ConsecutiveFailures r) (orm_ChainLen r) (orm_RemovedAtNs r) (orm_CreatedAtNs r) (orm_UpdatedAtNs r).

Lemma ptr_int64_take name n (v : option Z) ms : key_matches name n = true → from_option int64_ok True v →
  field name Ctl.ptr_int64 None (opt_member n JInt v ++ ms) = field name Ctl.ptr_int64 v ms.
Proof.
  intros Hn Hv. rewrite (field_opt_take _ _ _ _ id) by (done || by intros b ->; cbn -[to_int64 JInt]; unfold to_ptr; cbn [JInt]; rewrite (to_int64_JInt b) by exact Hv).
  by destruct v.
Qed.
Lemma ptr_string_take name n (v : option string) ms : key_matches name n = true →
  field name Ctl.ptr_string None (opt_member n JStr v ++ ms) = field name Ctl.ptr_string v ms.
Proof. intros Hn. rewrite (field_opt_take _ _ _ _ id) by done. by destruct v. Qed.

Lemma clean_JInt z : clean (JInt z) = JInt z.
Proof. done. Qed.
Lemma bind_Some_step {A B} (m : option A) (k : A → option B) a b : m = Some a → k a = b → (m ≫= k) = b.
Proof. by intros -> <-. Qed.

(** Clean a list of members. *)
Ltac clean_members :=
  rewrite clean_JObj;
  repeat first
    [ rewrite map_clean_cons by by_eval
    | rewrite map_clean_opt_str by by_eval
    | rewrite map_clean_opt by first [by_eval | reflexivity] ];
  cbn [clean map]; rewrite ?clean_JInt.

(** Read every field of a struct. *)
Ltac read_one :=
  read_field;
  try (first [rewrite ptr_int64_take by first [assumption | by_eval] | rewrite ptr_string_take by by_eval]; read_field);
  reflexivity.
Ltac read_members := repeat (lazymatch goal with |- (_ ≫= _) = _ => idtac end; eapply bind_Some_step; [read_one|cbv beta]); try reflexivity.

Lemma read_Remote r : Remote_fits r → wireRemote_of (clean (json_of_Remote r)) = Some (view_Remote r).
Proof.
  intros [Hf Hr]. rewrite !Forall_cons in Hf. destruct_and!. unfold json_of_Remote. close_members. clean_members.
  unfold wireRemote_of. cbn [members mbind option_bind].
  read_members.
Qed.

(** * Tags, taint events and syncs *)

Definition Tag_fits (t : oTag) : Prop :=
  Forall int64_ok [otg_Id t; otg_RemoteId t; otg_FirstSeenNs t; otg_LastSeenNs t; otg_ObservationCount t] ∧
  from_option int64_ok True (otg_LastChangedNs t) ∧ from_option int64_ok True (otg_TaintFirstNs t).
Definition view_Tag (t : oTag) : wireTag :=
  mkWireTag (otg_Id t) (otg_RemoteId t) (to_valid (otg_TagName t)) (to_valid <$> otg_CurrentOid t) (to_valid <$> otg_CurrentPeeledOid t)
    (default false (otg_IsAnnotated t)) (to_valid <$> otg_FirstOid t) (otg_FirstSeenNs t) (otg_LastSeenNs t) (default 0 (otg_LastChangedNs t))
    (otg_Deleted t) (otg_Tainted t) (otg_TaintFirstNs t) (otg_ObservationCount t).

Definition TaintEvent_fits (e : oTaintEvent) : Prop :=
  Forall int64_ok [ote_Id e; ote_RemoteId e; ote_RefId e; ote_DetectedAtNs e] ∧
  from_option int64_ok True (ote_ObservationId e) ∧ from_option int64_ok True (ote_AckedAtNs e).
Definition view_TaintEvent (e : oTaintEvent) : wireTaintEvent :=
  mkWireTaintEvent (ote_Id e) (ote_RemoteId e) (ote_RefId e) (to_valid (ote_Reason e)) (ote_ObservationId e) (to_valid <$> ote_FromOid e)
    (to_valid <$> ote_ToOid e) (ote_DetectedAtNs e) (ote_AckedAtNs e) (to_valid <$> ote_AckedBy e) (to_valid <$> ote_AckNote e)
    (default "" (to_valid <$> ote_Detail e)).

Definition SyncEntry_fits (s : oSyncEntry) : Prop :=
  Forall int64_ok [osy_Id s; osy_RemoteId s; osy_StartedNs s; osy_FinishedNs s; osy_TagsSeen s; osy_TagsChanged s].
Definition view_SyncEntry (s : oSyncEntry) : wireSyncEntry :=
  mkWireSyncEntry (osy_Id s) (osy_RemoteId s) (to_valid (osy_Trigger s)) (osy_StartedNs s) (osy_FinishedNs s) (to_valid (osy_Status s))
    (osy_TagsSeen s) (osy_TagsChanged s) (default "" (to_valid <$> osy_Error s)) (to_valid <$> osy_ChainHeadBefore s)
    (to_valid <$> osy_ChainHeadAfter s).

(** A value field that is a pointer on the other side. *)
Lemma opt_int_take name n (v : option Z) ms : key_matches name n = true → from_option int64_ok True v →
  field name to_int64 0 (opt_member n JInt v ++ ms) = field name to_int64 (default 0 v) ms.
Proof. intros Hn Hv. destruct v as [z|]; [|done]. by apply field_int. Qed.
Lemma opt_str_take name n (v : option string) ms : key_matches name n = true →
  field name to_string "" (opt_member n JStr v ++ ms) = field name to_string (default "" v) ms.
Proof. intros Hn. destruct v as [s|]; [|done]. by apply field_str. Qed.
Lemma opt_bool_take name n (v : option bool) ms : key_matches name n = true →
  field name to_bool false (opt_member n JBool v ++ ms) = field name to_bool (default false v) ms.
Proof. intros Hn. destruct v as [b|]; [|done]. by apply field_bool. Qed.
Lemma ptr_bool_take name n (v : option bool) ms : key_matches name n = true →
  field name OapiWire.ptr_bool None (opt_member n JBool v ++ ms) = field name OapiWire.ptr_bool v ms.
Proof. intros Hn. rewrite (field_opt_take _ _ _ _ id) by done. by destruct v. Qed.

Ltac read_one ::=
  read_field;
  try (first
    [ rewrite ptr_int64_take by first [assumption | by_eval]
    | rewrite ptr_string_take by by_eval
    | rewrite ptr_bool_take by by_eval
    | rewrite opt_int_take by first [assumption | by_eval]
    | rewrite opt_str_take by by_eval
    | rewrite opt_bool_take by by_eval ]; read_field);
  reflexivity.

Ltac read_struct := close_members; clean_members; cbn [members mbind option_bind]; read_members.

Lemma read_Tag t : Tag_fits t → wireTag_of (clean (json_of_Tag t)) = Some (view_Tag t).
Proof. intros (Hf & ? & ?). rewrite !Forall_cons in Hf. destruct_and!. unfold json_of_Tag, wireTag_of. read_struct. Qed.

Lemma read_TaintEvent e : TaintEvent_fits e → wireTaintEvent_of (clean (json_of_TaintEvent e)) = Some (view_TaintEvent e).
Proof. intros (Hf & ? & ?). rewrite !Forall_cons in Hf. destruct_and!. unfold json_of_TaintEvent, wireTaintEvent_of. read_struct. Qed.

Lemma read_SyncEntry s : SyncEntry_fits s → wireSyncEntry_of (clean (json_of_SyncEntry s)) = Some (view_SyncEntry s).
Proof. intros Hf. unfold SyncEntry_fits in Hf. rewrite !Forall_cons in Hf. destruct_and!. unfold json_of_SyncEntry, wireSyncEntry_of. read_struct. Qed.

(** * Lists *)

Lemma mapM_Some_fmap {A B C} (f : A → option B) (g : C → A) (h : C → B) l :
  Forall (λ c, f (g c) = Some (h c)) l → mapM f (map g l) = Some (map h l).
Proof. induction 1 as [|c l Hc _ IH]; [done|]. cbn. by rewrite Hc, IH. Qed.

Lemma read_page {A B} (enc : A → json) (dec : json → option B) (view : A → B) (p : page A) :
  Forall (λ a, dec (clean (enc a)) = Some (view a)) (Items p) → from_option int64_ok True (NextCursor p) →
  wireList_of dec (clean (json_of_page enc p)) = Some (mkWireList (Some (map view (Items p))) (NextCursor p)).
Proof.
  intros Hi Hc. unfold json_of_page, wireList_of. close_members. clean_members. cbn [members mbind option_bind].
  eapply bind_Some_step.
  { rewrite (field_take "items" _ _ ("items", JArr (map clean (map enc (Items p)))) _ (Some (map view (Items p)))); [|by_eval|].
    - rewrite field_opt_skip by by_eval. reflexivity.
    - cbn [snd to_slice]. rewrite map_map. by rewrite (mapM_Some_fmap _ _ view). }
  cbv beta. read_members.
Qed.

(** * Requests *)

Lemma read_create c : from_option int64_ok True (wc_SyncIntervalNS c) →
  CreateRemoteRequest_of (clean (json_of_create c)) =
    Some (mkCreateRemoteRequest (to_valid (wc_URL c)) (to_valid (wc_Transport c)) (wc_SyncIntervalNS c) None (wc_TaintAnyTagDeletion c)).
Proof. intros ?. unfold json_of_create, CreateRemoteRequest_of. read_struct. Qed.

Lemma read_update u : from_option int64_ok True (wu_SyncIntervalNS u) → from_option int64_ok True (wu_StalenessBudgetNS u) →
  UpdateRemoteRequest_of (clean (json_of_update u)) =
    Some (mkUpdateRemoteRequest (wu_SyncIntervalNS u) (wu_StalenessBudgetNS u) None (to_valid <$> wu_Status u)).
Proof. intros ? ?. unfold json_of_update, UpdateRemoteRequest_of. read_struct. Qed.

Lemma read_ack a : AckRequest_of (clean (json_of_ack a)) = Some (mkAckRequest (to_valid (wk_AckedBy a)) (to_valid <$> nonempty (wk_AckNote a))).
Proof.
  unfold json_of_ack, AckRequest_of. replace (str_member "ack_note" (wk_AckNote a)) with (opt_member "ack_note" JStr (nonempty (wk_AckNote a)))
    by (unfold str_member, nonempty; by destruct (String.eqb _ _)). read_struct.
Qed.

(** * Whole texts *)

(** Every object the two sides exchange is flat but for lists and verdicts. *)
Definition flat_object (j : json) : Prop := numbers_ok j = true ∧ nesting j ≤ 1.

Lemma numbers_cons n j ms : numbers_ok j = true →
  forallb (λ m : string * json, numbers_ok m.2) ((n, j) :: ms) = forallb (λ m : string * json, numbers_ok m.2) ms.
Proof. intros H. cbn [forallb snd]. by rewrite H. Qed.

Ltac flat_struct :=
  close_members; split;
  [ cbn [numbers_ok]; repeat first [rewrite numbers_cons by first [apply numbers_JInt | reflexivity] | rewrite numbers_opt by first [apply numbers_JInt | reflexivity]]; reflexivity
  | apply nesting_flat; repeat first [apply Forall_nil_2 | apply Forall_cons_2; [reflexivity|] | apply flat_opt; [reflexivity|]] ].

Lemma flat_Error msg : flat_object (json_of_Error msg).
Proof. split; cbn; [done|lia]. Qed.
Lemma flat_Remote r : flat_object (json_of_Remote r).
Proof. unfold json_of_Remote. flat_struct. Qed.
Lemma flat_Tag t : flat_object (json_of_Tag t).
Proof. unfold json_of_Tag. flat_struct. Qed.
Lemma flat_TaintEvent e : flat_object (json_of_TaintEvent e).
Proof. unfold json_of_TaintEvent. flat_struct. Qed.
Lemma flat_SyncEntry s : flat_object (json_of_SyncEntry s).
Proof. unfold json_of_SyncEntry. flat_struct. Qed.
Lemma flat_create c : flat_object (json_of_create c).
Proof. unfold json_of_create. flat_struct. Qed.
Lemma flat_update u : flat_object (json_of_update u).
Proof. unfold json_of_update. flat_struct. Qed.
Lemma flat_ack a : flat_object (json_of_ack a).
Proof.
  unfold json_of_ack, str_member. destruct (String.eqb _ _); split; cbn; try done; lia.
Qed.

Lemma page_depth {A} (enc : A → json) (p : page A) : (∀ a, flat_object (enc a)) →
  numbers_ok (json_of_page enc p) = true ∧ nesting (json_of_page enc p) ≤ 3.
Proof.
  intros He. unfold json_of_page. close_members. split.
  - cbn [numbers_ok]. rewrite numbers_cons. { rewrite numbers_opt by apply numbers_JInt. done. }
    cbn [numbers_ok]. induction (Items p) as [|a l IH]; [done|]. cbn [map forallb]. destruct (He a) as [-> _]. exact IH.
  - assert (foldr (λ v d, Z.max (nesting v) d) 0 (map enc (Items p)) ≤ 1) as H.
    { induction (Items p) as [|a l IH]; [cbn; lia|]. cbn. destruct (He a) as [_ ?]. lia. }
    cbn [nesting app foldr snd]. destruct (NextCursor p); cbn; lia.
Qed.

Lemma unmarshal_encode {A} (j : json) (of_json : json → option A) : numbers_ok j = true → nesting j ≤ 3 →
  unmarshal (encode j) ≫= of_json = of_json (clean j).
Proof. intros Hn Hd. destruct (json_roundtrip j nl) as [E _]; [by right|done|unfold maxNestingDepth; lia|]. unfold encode. by rewrite E. Qed.

Lemma decode_print {A} (j : json) (of_json : json → option A) : numbers_ok j = true → nesting j ≤ 3 →
  decode (print j) ≫= of_json = of_json (clean j).
Proof.
  intros Hn Hd. destruct (json_roundtrip j "") as [_ E]; [by left|done|unfold maxNestingDepth; lia|]. rewrite append_nil_r in E. by rewrite E.
Qed.

Lemma flat_depth j : flat_object j → numbers_ok j = true ∧ nesting j ≤ 3.
Proof. intros [? ?]. split; [done|lia]. Qed.

(** What the tool reads in the body the server writes for a struct or a page of them. *)
Definition reads_as {A B} (enc : A → json) (dec : json → option B) (a : A) (b : B) : Prop := unmarshal (encode (enc a)) ≫= dec = Some b.

Lemma reads_object {A B} (enc : A → json) (dec : json → option B) a b :
  flat_object (enc a) → dec (clean (enc a)) = Some b → reads_as enc dec a b.
Proof. intros [Hn Hd]%flat_depth Hr. unfold reads_as. by rewrite unmarshal_encode. Qed.

Lemma reads_page {A B} (enc : A → json) (dec : json → option B) (fits : A → Prop) (view : A → B) (p : page A) :
  (∀ a, flat_object (enc a)) → (∀ a, fits a → dec (clean (enc a)) = Some (view a)) →
  Forall fits (Items p) → from_option int64_ok True (NextCursor p) →
  reads_as (json_of_page enc) (wireList_of dec) p (mkWireList (Some (map view (Items p))) (NextCursor p)).
Proof.
  intros Hflat Hread Hi Hc. destruct (page_depth enc p Hflat) as [Hn Hd]. unfold reads_as. rewrite unmarshal_encode by done.
  apply read_page; [|done]. eapply Forall_impl; [exact Hi|exact Hread].
Qed.


Definition sample_tags : page oTag :=
  mkPage [mkOTag 7 1 (String "118" (String "255" "<1>")) false true 1 2 (Some 3) 4 None (Some "aa") None None (Some 2)] (Some 7).

