(* ===== verification/CtlProps.v ===== *)
(** Properties of the control tool: what a run asks of the network and what its exit code
    means; query values; the arguments it misreads. *)
From S2P Require Import Prelude GoStrings GoNum GoTime GoHttp GoUrl GoJson GoFlag Ctl.
#[local] Open Scope Z_scope.

(** * One request *)

Section run.
Context {W : Type} (exchange : Z → http_call → W → result string (Z * string) * W) (Quote : string → string).
Context (parse_bracketed : string → option string) (loopback_ip6 : string → bool) (version : string).

(** What the exit code says of an exchange: an error is 2, an HTTP status that is no success is
    its code; a success may still be unreadable (2) or an empty search (3). *)
Definition told (r : result string (Z * string)) (o : outcome) : Prop :=
  match r with
  | Err _ => o_Exit o = exitUsage
  | Ok (status, _) =>
      if httpStatusToExitCode status =? exitOK then o_Exit o ∈ [exitOK; exitUsage; exitNotFound]
      else o_Exit o = httpStatusToExitCode status
  end.

(** The request goes to the client's server with its credentials. *)
Definition addressed (cl : client) (timeout : Z) (call : http_call) : Prop :=
  timeout = cl_timeout cl ∧ (∃ path, c_URL call = TrimRight (cl_server cl) "/" +:+ path) ∧ ∃ headers, c_Header call = headers ++ applyAuth (cl_auth cl).

(** No request, and no success but for a message of [flag]; or one. *)
Definition silent (o : outcome) : Prop := o_Exit o = exitOK → o_Stderr o = Some FlagUsage.
Definition single (cl : client) (c : W → outcome * W) : Prop := ∀ w,
  ((c w).2 = w ∧ silent (c w).1) ∨
  ∃ timeout call, addressed cl timeout call ∧ (c w).2 = (exchange timeout call w).2 ∧ told (exchange timeout call w).1 (c w).1.

Lemma single_finish cl o : silent o → single cl (finish o).
Proof. intros H w. by left. Qed.

Lemma single_flags cl fs args k : (∀ vals rest, single cl (k vals rest)) → single cl (with_flags fs args k).
Proof.
  intros H w. unfold with_flags. destruct (flag_parse fs args ∅) as [[vals rest]|[]]; [apply H|by left..].
Qed.

Lemma single_id cl name arg k : (∀ i, single cl (k i)) → single cl (parse_id name arg k).
Proof. intros H. unfold parse_id. destruct (ParseInt arg); [apply H|by apply single_finish]. Qed.

Lemma single_duration cl name v k : (∀ d, single cl (k d)) → single cl (opt_duration name v k).
Proof.
  intros H. unfold opt_duration. destruct (String.eqb v ""); [apply H|]. destruct (ParseDuration v); [apply H|by apply single_finish].
Qed.

Lemma single_response {A} cl method path body (out : option (json → option A)) said k :
  (∀ a, o_Exit (k a) ∈ [exitOK; exitUsage; exitNotFound]) → single cl (with_response exchange cl method path body out said k).
Proof.
  intros Hk w. right. unfold with_response, doJSON, do. set (call := mkCall _ _ _ _). exists (cl_timeout cl), call.
  split; [split; [done|split; [by eexists|]]|].
  { unfold call. cbn [c_Header]. eexists (_ ++ _). by rewrite <- app_assoc. }
  destruct (exchange (cl_timeout cl) call w) as [[[status raw]|e] w']; [|done]. cbn [fst snd].
  assert (∀ a, told (Ok (status, raw)) (if negb (httpStatusToExitCode status =? exitOK)
    then mkOutcome (httpStatusToExitCode status) "" (Some (ServerSaid (said (apiError raw)))) else k a)) as Hdone.
  { intros a. unfold told. destruct (httpStatusToExitCode status =? exitOK); [apply Hk|done]. }
  destruct out as [of_json|]; [|by split]. destruct (Z.eqb_spec (Z.quot status 100) 2) as [Hs|Hs]; [|by split].
  destruct (unmarshal raw ≫= of_json) as [a|]; split; [done|apply Hdone|done|]. unfold told.
  destruct (httpStatusToExitCode status =? exitOK) eqn:E; [cbn; set_solver|]. cbn. revert E. unfold httpStatusToExitCode.
  assert (200 ≤ status < 300).
  { pose proof (Z.quot_rem' status 100) as Hq. pose proof (Z.rem_bound_abs status 100 ltac:(done)). rewrite Hs in Hq.
    pose proof (Z.rem_bound_pos status 100 ltac:(lia) ltac:(lia)). lia. } destruct (existsb _ _); [done|].
  rewrite !(proj2 (Z.eqb_neq status _)) by lia. cbn [orb]. destruct (Z.leb_spec 500 status); [lia|done].
Qed.

Lemma single_done {A} (f : A → string) a : o_Exit (done_with (f a)) ∈ [exitOK; exitUsage; exitNotFound].
Proof. cbn. set_solver. Qed.

Lemma show_list_exit {A} j (f : A → json) t o : o_Exit (show_list j f t o) ∈ [exitOK; exitUsage; exitNotFound].
Proof. unfold show_list. destruct j; cbn; set_solver. Qed.

Ltac single_step :=
  first
    [ apply single_finish; intros [=]
    | apply single_flags; intros ? ?
    | apply single_id; intros ?
    | apply single_duration; intros ?
    | apply single_response; intros ?; first [apply show_list_exit | cbn; repeat case_match; cbn; set_solver]
    | case_match ].
Ltac single_command := repeat single_step.

Lemma single_remote cl args g : single cl (runRemote exchange args g cl).
Proof.
  unfold runRemote. destruct args as [|sub args]; [single_step|].
  destruct (String.eqb sub "add"); [unfold runRemoteAdd; single_command|].
  destruct (String.eqb sub "list"); [unfold runRemoteList; single_command|].
  destruct (String.eqb sub "get"); [unfold runRemoteGet; single_command|].
  destruct (String.eqb sub "update"); [unfold runRemoteUpdate; single_command|].
  destruct (String.eqb sub "rm"); [unfold runRemoteRm; single_command|single_step].
Qed.

Lemma single_taint cl args g : single cl (runTaint exchange Quote args g cl).
Proof.
  unfold runTaint. destruct args as [|sub args]; [single_step|].
  destruct (String.eqb sub "list"); [unfold runTaintList; single_command|].
  destruct (String.eqb sub "ack"); [unfold runTaintAck; single_command|single_step].
Qed.

Lemma single_runCommand cl sub g : single cl (runCommand exchange Quote sub g cl).
Proof.
  unfold runCommand. destruct sub as [|cmd args]; [single_step|].
  destruct (String.eqb cmd "remote"); [apply single_remote|].
  destruct (String.eqb cmd "sync"); [unfold runSync; single_command|].
  destruct (String.eqb cmd "syncs"); [unfold runSyncs; single_command|].
  destruct (String.eqb cmd "tags"); [unfold runTags; single_command|].
  destruct (String.eqb cmd "taint"); [apply single_taint|single_step].
Qed.

Lemma told_success r o : told r o → o_Exit o = exitOK → ∃ status raw, r = Ok (status, raw) ∧ status ∈ [200; 201; 202; 204].
Proof.
  destruct r as [[status raw]|e]; [|by intros -> [=]]. intros H Ho. exists status, raw. split; [done|]. revert H. unfold told.
  destruct (Z.eqb_spec (httpStatusToExitCode status) exitOK) as [E|E]; [intros _|by rewrite Ho; intros Hx; rewrite <- Hx in E].
  revert E. unfold httpStatusToExitCode. destruct (existsb _ _) eqn:Ex; [|by repeat case_match].
  intros _. apply existsb_exists in Ex as (x & Hx%list_elem_of_In & ->%Z.eqb_eq). done.
Qed.

Lemma opt_duration_cases name v (k : option Z → W → outcome * W) w :
  (∃ d, opt_duration name v k w = k d w) ∨ opt_duration name v k w = (usage (BadArgument name v), w).
Proof. unfold opt_duration. destruct (String.eqb v ""); [by eauto|]. destruct (ParseDuration v); [by eauto|by right]. Qed.

(** The settings of a run. *)
Definition may_be_plain (args environ : list string) : bool :=
  match flag_parse global_flags args ∅ with
  | Ok (vals, _) => get_bool vals "insecure" false || envBool environ "GT_CTL_INSECURE"
  | Err _ => false
  end.
Definition credentials (args environ : list string) : authCreds :=
  match flag_parse global_flags args ∅ with
  | Ok (vals, _) => resolveAuth (get_string vals "api-key" "") (get_string vals "token" "") (get_string vals "basic" "") environ
  | Err _ => authNone
  end.

(** C22. A run makes at most one request, to a server that has passed the guard against
    plaintext, with the credentials of its flags and environment; and its exit code can be
    trusted: without a request it is a success only for help and the version, an error of the
    exchange is a 2, an HTTP status that is no success is reported as its code, and exit
    code 0 after a request means that the server answered 200, 201, 202 or 204. *)
Theorem ctl_one_request args environ w :
  let '(o, w') := run exchange Quote parse_bracketed loopback_ip6 version args environ w in
  (w' = w ∧ (o_Exit o = exitOK → o_Stderr o = Some FlagUsage ∨ o_Stdout o = "git-tainted-ctl " +:+ version +:+ nl)) ∨
  ∃ cl call, checkServerURL parse_bracketed loopback_ip6 (cl_server cl) (may_be_plain args environ) = Some () ∧
    cl_auth cl = credentials args environ ∧ addressed cl (cl_timeout cl) call ∧
    let r := exchange (cl_timeout cl) call w in
    w' = r.2 ∧ told r.1 o ∧ (o_Exit o = exitOK → ∃ status raw, r.1 = Ok (status, raw) ∧ status ∈ [200; 201; 202; 204]).
Proof.
  unfold run, with_flags, may_be_plain, credentials. destruct (flag_parse global_flags args ∅) as [[vals sub]|[]]; [|left; by auto..].
  destruct (get_bool vals "version" false); [left; by auto|]. cbv zeta.
  set (auth := resolveAuth _ _ _ _).
  match goal with |- context [opt_duration ?n ?v ?k w] => destruct (opt_duration_cases n v k w) as [[d ->] | ->] end; [|left; by split].
  set (server := if String.eqb _ "" then "http://127.0.0.1:8080" else _). set (insecure := get_bool vals "insecure" false || _).
  destruct (checkServerURL parse_bracketed loopback_ip6 server insecure) as [[]|] eqn:Hc; [|left; by split].
  set (cl := mkClient server auth _). destruct (runCommand exchange Quote sub _ cl w) as [o w'] eqn:E.
  destruct (single_runCommand cl sub (get_bool vals "json" false) w) as [[H1 H2]|(timeout & call & Ha & H1 & H2)]; rewrite E in H1, H2; cbn [fst snd] in *.
  - left. split; [done|]. intros Ho. left. by apply H2.
  - right. pose proof Ha as (-> & _). exists cl, call. split_and!; [done|done|done|done|done|by apply told_success].
Qed.

(** A flag without a value takes the argument after it for its value: before the url it cuts
    the flags behind the url off. *)
Lemma bool_flag_swallows_url url cl w : HasPrefix url "-" = false →
  runRemoteAdd exchange ["--disabled"; url; "--interval"; "5m"] cl w =
    (usage (Message "remote add requires exactly one argument: <url>"), w).
Proof.
  intros Hu. unfold runRemoteAdd. assert (separateFlags ["--disabled"; url; "--interval"; "5m"] = ["--disabled"; url; "--interval"; "5m"]) as ->.
  { unfold separateFlags. cbn -[HasPrefix Contains]. rewrite Hu. reflexivity. }
  unfold with_flags. assert (flag_parse (own [("interval", StringFlag); ("disabled", BoolFlag)]) ["--disabled"; url; "--interval"; "5m"] ∅ =
    Ok (<["disabled" := VBool true]> ∅, [url; "--interval"; "5m"])) as ->; [|done].
  cbn -[HasPrefix len]. change (len "--disabled" <? 2) with false. cbn -[HasPrefix len]. rewrite Hu. by rewrite orb_true_r.
Qed.

(** [--disabled] registers an active remote whose deleted tags are not taints. *)
Lemma disabled_is_no_pause url cl w : HasPrefix url "-" = false →
  ∃ said k, runRemoteAdd exchange [url; "--disabled"] cl w =
    with_response exchange cl "POST" "/v1/remotes" (Some (json_of_create (mkWireCreate url (transport_of url) None (Some false)))) (Some wireRemote_of) said k w.
Proof.
  intros Hu. unfold runRemoteAdd. assert (separateFlags [url; "--disabled"] = ["--disabled"; url]) as ->.
  { unfold separateFlags. cbn -[HasPrefix Contains]. rewrite Hu. reflexivity. }
  unfold with_flags. assert (flag_parse (own [("interval", StringFlag); ("disabled", BoolFlag)]) ["--disabled"; url] ∅ = Ok (<["disabled" := VBool true]> ∅, [url])) as ->.
  { cbn -[HasPrefix len]. change (len "--disabled" <? 2) with false. cbn -[HasPrefix len]. rewrite Hu. by rewrite orb_true_r. }
  cbn. eauto.
Qed.
End run.
