(* ===== verification/Cli.v ===== *)
(** cmd/git-tainted/main.go: the command line tool from its arguments to its exit code, around
    the consolidation of Consolidate.v.

    git, the HTTP exchange with a server and the texts of library errors are parameters; an
    answer of the exchange is its status and body. *)
From S2P Require Import Prelude GoStrings GoNum GoMaps GoTime GoHttp GoUrl GoJson GoFlag GitUrl Consolidate.
#[local] Open Scope Z_scope.

Definition usage_text : string := "Usage: git tainted [flags]

Run inside a working git repository. Resolves the remote URL and the tag at HEAD,
calls one or more git-tainted server /v1/verify endpoints, consolidates the verdicts,
and exits with a meaningful code.

Flags:
  --server <url>              Server base URL (repeatable; env: GT_SERVERS, GT_SERVER)
  --mode <mode>               Consolidation mode: quorum|unanimous|any-bad|first (env: GT_MODE, default: quorum)
  --freshness-window <dur>    Freshness window for quorum (env: GT_FRESHNESS_WINDOW_NS in ns, default: 15m)
  --timeout <dur>             Per-server HTTP timeout (default: 10s)
  --remote <name>             Git remote name to resolve (default: origin)
  --url <url>                 Remote URL override (skips git remote get-url)
  --tag <name>                Tag name override (skips git describe --exact-match HEAD)
  --json                      Emit machine-readable JSON verdict to stdout
  --strict                    Exit 10 instead of 0 when verdict is ok but confidence=stale
  --insecure                  Allow plaintext http:// servers to non-loopback hosts (env: GT_INSECURE)
  --version, -v               Print version and exit
  --help, -h                  Print this help and exit

Exit codes:
  0   ok (authoritative), or ok (stale) without --strict
  2   usage / request / parse error / all servers unreachable
  3   mismatch  — tag records a different commit than you have
  4   tainted   — tag was rewritten on the remote
  5   doesnt_exist  — tag is not known on the remote
  6   not_tracked   — remote is not registered with the server
  7   no_consensus  — servers disagree and no mode produced a result
  10  ok (stale) with --strict

Multiple servers:
  Repeat --server (or set GT_SERVERS=url1,url2) to query multiple independent
  servers and consolidate with --mode (default: quorum). See README for details.

Limitations (§15):
  Within-interval transient tamper is invisible; trust-on-first-observation per
  remote; SHA-1 probabilistic immutability. See the server documentation.
".

(** * The response of a server *)

(** A struct field of a response: a pointer to a struct whose own fields are pointers. *)
Definition remoteInfo_of (j : json) (old : remoteInfo) : option remoteInfo :=
  ms ← members j;
  id ← field "id" (to_ptr to_int64 0) (vi_ID old) ms; url ← field "normalized_url" (to_ptr to_string "") (vi_NormalizedURL old) ms;
  Some (mkRemoteInfo id url).
Definition recordedInfo_of (j : json) (old : recordedInfo) : option recordedInfo :=
  ms ← members j;
  ref ← field "ref_oid" (to_ptr to_string "") (vi_RefOID old) ms;
  peeled ← field "peeled_commit_oid" (to_ptr to_string "") (vi_PeeledCommitOID old) ms;
  first ← field "first_seen_ns" (to_ptr to_int64 0) (vi_FirstSeenNS old) ms;
  last ← field "last_seen_ns" (to_ptr to_int64 0) (vi_LastSeenNS old) ms;
  Some (mkRecordedInfo ref peeled first last).
Definition taintInfo_of (j : json) (old : taintInfo) : option taintInfo :=
  ms ← members j;
  reason ← field "reason" (to_ptr to_string "") (vi_Reason old) ms;
  first ← field "first_tainted_at_ns" (to_ptr to_int64 0) (vi_FirstTaintedAtNS old) ms;
  from ← field "from_oid" (to_ptr to_string "") (vi_FromOID old) ms; to ← field "to_oid" (to_ptr to_string "") (vi_ToOID old) ms;
  Some (mkTaintInfo reason first from to).

Definition verifyResponse_of (j : json) : option verifyResponse :=
  ms ← members j;
  status ← field "status" to_string "" ms; confidence ← field "confidence" to_string "" ms; tag ← field "tag" to_string "" ms;
  remote ← field "remote" (to_ptr remoteInfo_of (mkRemoteInfo None None)) None ms;
  recorded ← field "recorded" (to_ptr recordedInfo_of (mkRecordedInfo None None None None)) None ms;
  supplied ← field "supplied_commit" (to_ptr to_string "") None ms;
  taint ← field "taint" (to_ptr taintInfo_of (mkTaintInfo None None None None)) None ms;
  last ← field "last_synced_ns" (to_ptr to_int64 0) None ms; outcome ← field "sync_outcome" (to_ptr to_string "") None ms;
  Some (mkVerifyResponse status confidence tag remote recorded supplied taint last outcome).

Definition json_of_remoteInfo (i : remoteInfo) : json :=
  JObj (opt_member "id" JInt (vi_ID i) ++ opt_member "normalized_url" JStr (vi_NormalizedURL i)).
Definition json_of_recordedInfo (i : recordedInfo) : json :=
  JObj (opt_member "ref_oid" JStr (vi_RefOID i) ++ opt_member "peeled_commit_oid" JStr (vi_PeeledCommitOID i) ++
        opt_member "first_seen_ns" JInt (vi_FirstSeenNS i) ++ opt_member "last_seen_ns" JInt (vi_LastSeenNS i)).
Definition json_of_taintInfo (i : taintInfo) : json :=
  JObj (opt_member "reason" JStr (vi_Reason i) ++ opt_member "first_tainted_at_ns" JInt (vi_FirstTaintedAtNS i) ++
        opt_member "from_oid" JStr (vi_FromOID i) ++ opt_member "to_oid" JStr (vi_ToOID i)).
Definition json_of_verifyResponse (v : verifyResponse) : json := JObj (
  [("status", JStr (v_Status v)); ("confidence", JStr (v_Confidence v)); ("tag", JStr (v_Tag v))] ++
  opt_member "remote" json_of_remoteInfo (v_Remote v) ++ opt_member "recorded" json_of_recordedInfo (v_Recorded v) ++
  opt_member "supplied_commit" JStr (v_SuppliedCommit v) ++ opt_member "taint" json_of_taintInfo (v_Taint v) ++
  opt_member "last_synced_ns" JInt (v_LastSyncedNS v) ++ opt_member "sync_outcome" JStr (v_SyncOutcome v)).

(** The members a number or a list leaves out when it is zero or empty. *)
Definition int_member (name : string) (z : Z) : list (string * json) := if z =? 0 then [] else [(name, JInt z)].
Definition list_member (name : string) (l : list json) : list (string * json) := match l with [] => [] | _ => [(name, JArr l)] end.

Definition json_of_entry (e : serverJSONEntry) : json := JObj (
  [("url", JStr (j_URL e)); ("reachable", JBool (j_Reachable e))] ++ str_member "status" (j_Status e) ++
  str_member "confidence" (j_Confidence e) ++ int_member "last_synced_ns" (j_LastSyncedNS e) ++ str_member "error" (j_Error e)).
Definition json_of_multi (o : multiJSONOutput) : json := JObj (
  [("mode", JStr (mode_string (j_Mode o))); ("freshness_window_ns", JInt (j_FreshnessWindowNS o)); ("final_status", JStr (j_FinalStatus o));
   ("exit_code", JInt (j_ExitCode o)); ("reason", JStr (j_Reason o)); ("servers", JArr (map json_of_entry (j_Servers o)))] ++
  list_member "dissent" (map json_of_entry (j_Dissent o))).

(** * Arguments *)

(** [fmt.Sscanf] with [%d] into an int64: what follows the number is ignored. *)
Definition Sscanf_d (s : string) : option Z :=
  let s := trim_left (λ c, is_space c && negb (Ascii.eqb c "010")) s in
  let '(sign, rest) := match s with String c t => if elem_char c "+-" then (String c "", t) else ("", s) | EmptyString => ("", "") end in
  let '(digits, _) := span is_digit rest in
  if String.eqb digits "" then None else ParseInt (sign +:+ digits).

Definition cli_flags : formal := own
  [("server", MultiFlag); ("mode", StringFlag); ("freshness-window", StringFlag); ("timeout", StringFlag); ("remote", StringFlag);
   ("url", StringFlag); ("tag", StringFlag); ("json", BoolFlag); ("strict", BoolFlag); ("insecure", BoolFlag); ("version", BoolFlag)] ++
  [("v", ("version", BoolFlag))].

Definition parse_mode (s : string) : option Mode :=
  if String.eqb s "quorum" then Some ModeQuorum
  else if String.eqb s "unanimous" then Some ModeUnanimous
  else if String.eqb s "any-bad" then Some ModeAnyBad
  else if String.eqb s "first" then Some ModeFirst
  else None.

(** What a subprocess leaves: its output, an exit status with its standard error, or an error
    that is none of its own. *)
Inductive exec_result : Type :=
  | Exited (out : string)
  | ExitError (err stderr : string)
  | NotRun (err : string).

(** What goes wrong with the url of a server. *)
Inductive server_url_error : Type := InvalidServer | PlaintextRefused | NotHTTP.

Section cli.
(** [netip.ParseAddr] behind brackets, a loopback address with a colon, letters outside ASCII. *)
Context (parse_bracketed : string → option string) (loopback_ip6 : string → bool) (unicode_lower : string → string).
(** [%q], and the texts of errors: of flags, of a number or duration, of an url, of a decoder. *)
Context (quote : string → string) (flag_text : list string → string) (number_text duration_text url_text decode_text : string → string).
(** git in a directory, and a GET within a timeout. *)
Context (exec : string → list string → exec_result) (http_get : Z → string → result string (Z * string)).

Definition isLoopbackHost (host : string) : bool := if key_matches "localhost" host then true else ip_loopback loopback_ip6 host.

Definition checkServerURL (raw : string) (insecure : bool) : option server_url_error :=
  match Parse parse_bracketed raw with
  | None => Some InvalidServer
  | Some u =>
      if String.eqb (u_Host u) "" then Some InvalidServer
      else if String.eqb (u_Scheme u) "https" then None
      else if String.eqb (u_Scheme u) "http" then if insecure || isLoopbackHost (Hostname u) then None else Some PlaintextRefused
      else Some NotHTTP
  end.
Definition server_url_text (raw : string) (e : server_url_error) : string :=
  match e with
  | InvalidServer => "invalid server URL " +:+ quote raw
  | PlaintextRefused => "refusing plaintext server " +:+ quote raw +:+ " over the network — use https:// or pass --insecure"
  | NotHTTP => "server URL " +:+ quote raw +:+ " must be http or https"
  end.

(** ** git *)

Definition runGitIn (dir : string) (args : list string) : result string string :=
  match exec dir args with
  | Exited out => Ok out
  | ExitError err stderr => Err (err +:+ ": " +:+ TrimSpace stderr)
  | NotRun err => Err err
  end.
Definition gitRemoteURL (dir remoteName : string) : result string string :=
  out ← runGitIn dir ["remote"; "get-url"; remoteName]; Ok (TrimSpace out).
Definition gitDescribeTag (dir : string) : result string string :=
  out ← runGitIn dir ["describe"; "--tags"; "--exact-match"; "HEAD"]; Ok (TrimSpace out).
Definition gitRevParse (dir ref : string) : result string string :=
  out ← runGitIn dir ["rev-parse"; ref]; Ok (TrimSpace out).

(** ** One server *)

(** The error of a 422: what is decoded before an error counts. *)
Definition rejected_text (body : string) : string :=
  match decode body ≫= members with
  | Some ms => foldl (λ e m, if key_matches "error" m.1 then match m.2 with JStr s => s | _ => e end else e) "" ms
  | None => ""
  end.

Definition verify_query (remoteURL tagName commit : string) : gmap string string :=
  <["commit" := commit]> (<["tag" := tagName]> {["remote" := remoteURL]}).

Definition callVerifyCtx (timeout : Z) (serverURL remoteURL tagName commit : string) : result string verifyResponse :=
  let reqURL := TrimRight serverURL "/" +:+ "/v1/verify?" +:+ Encode (verify_query remoteURL tagName commit) in
  match Parse parse_bracketed reqURL with
  | None => Err ("building request: " +:+ url_text reqURL)
  | Some _ =>
      match http_get timeout reqURL with
      | Err e => Err ("calling server: " +:+ e)
      | Ok (status, body) =>
          if status =? 422 then
            let e := rejected_text body in
            Err (if negb (String.eqb e "") then "server rejected request (422): " +:+ e else "server returned 422")
          else if negb (status =? 200) then Err ("server returned HTTP " +:+ FormatInt status)
          else
            match decode body ≫= verifyResponse_of with
            | None => Err ("parsing response: " +:+ decode_text body)
            | Some resp => if String.eqb (v_Status resp) "" then Err "response missing status field" else Ok resp
            end
      end
  end.

(** ** The run *)

(** A diagnostic ends the run with code 2. *)
Definition usage_error {A} (msg : string) : result output A := Err (mkOutput [] [msg] 2).

Definition resolve_mode (modeFlag : string) (environ : list string) : result output Mode :=
  let mode :=
    if negb (String.eqb modeFlag "") then modeFlag
    else let mv := envValue environ "GT_MODE" in if negb (String.eqb mv "") then mv else "quorum" in
  match parse_mode mode with
  | Some m => Ok m
  | None => usage_error ("error: unknown --mode " +:+ quote mode +:+ " (want quorum|unanimous|any-bad|first)" +:+ nl)
  end.

Definition resolve_window (freshnessWindowStr : string) (environ : list string) : result output Z :=
  if negb (String.eqb freshnessWindowStr "") then
    match ParseDuration freshnessWindowStr with
    | Some d => Ok d
    | None => usage_error ("error: invalid --freshness-window " +:+ quote freshnessWindowStr +:+ ": " +:+ duration_text freshnessWindowStr +:+ nl)
    end
  else
    let fwns := envValue environ "GT_FRESHNESS_WINDOW_NS" in
    if negb (String.eqb fwns "") then
      match Sscanf_d fwns with
      | Some ns => Ok ns
      | None => usage_error ("error: invalid GT_FRESHNESS_WINDOW_NS " +:+ quote fwns +:+ ": " +:+ number_text fwns +:+ nl)
      end
    else Ok (15 * Minute).

Definition resolve_timeout (timeoutStr : string) : result output Z :=
  if negb (String.eqb timeoutStr "") then
    match ParseDuration timeoutStr with
    | Some d => Ok d
    | None => usage_error ("error: invalid --timeout " +:+ quote timeoutStr +:+ ": " +:+ duration_text timeoutStr +:+ nl)
    end
  else Ok (10 * Second).

Fixpoint check_servers (servers : list string) (insecure : bool) : result output () :=
  match servers with
  | [] => Ok ()
  | s :: servers =>
      match checkServerURL s insecure with
      | Some e => usage_error ("error: " +:+ server_url_text s e +:+ nl)
      | None => check_servers servers insecure
      end
  end.

Definition resolve_remote_url (dir urlFlag remoteFlag : string) : result output string :=
  remoteURL ← (if String.eqb urlFlag "" then
                 match gitRemoteURL dir remoteFlag with
                 | Ok u => Ok u
                 | Err e => usage_error ("error: cannot resolve remote " +:+ quote remoteFlag +:+ ": " +:+ e +:+ nl)
                 end
               else Ok urlFlag);
  match ValidateURL parse_bracketed unicode_lower remoteURL with
  | Some _ => Ok remoteURL
  | None => usage_error ("error: remote URL validation failed: " +:+ url_text remoteURL +:+ nl)
  end.

Definition resolve_tag (dir tagFlag : string) : result output string :=
  tagName ← (if String.eqb tagFlag "" then
               match gitDescribeTag dir with
               | Ok t => Ok t
               | Err _ => usage_error ("error: HEAD is not at a tag (use --tag to specify one)" +:+ nl)
               end
             else Ok tagFlag);
  if String.eqb tagName "" then usage_error ("error: could not determine tag name" +:+ nl) else Ok tagName.

Definition resolve_commit (dir : string) : result output string :=
  match gitRevParse dir "HEAD^{commit}" with
  | Ok c => Ok c
  | Err e => usage_error ("error: cannot resolve HEAD^{commit}: " +:+ e +:+ nl)
  end.

(** What the run has resolved before it asks. *)
Record settings : Type := mkSettings {
  se_servers : list string;
  se_mode : Mode;
  se_window : Z;
  se_timeout : Z;
  se_remoteURL : string;
  se_tag : string;
  se_commit : string;
  se_json : bool;
  se_strict : bool;
}.

Definition resolve (dir : string) (vals : actual) (environ : list string) : result output settings :=
  let servers := resolveServers (get_multi vals "server") environ in
  mode ← resolve_mode (get_string vals "mode" "") environ;
  window ← resolve_window (get_string vals "freshness-window" "") environ;
  timeout ← resolve_timeout (get_string vals "timeout" "10s");
  _ ← check_servers servers (get_bool vals "insecure" false || envBool environ "GT_INSECURE");
  remoteURL ← resolve_remote_url dir (get_string vals "url" "") (get_string vals "remote" "origin");
  tag ← resolve_tag dir (get_string vals "tag" "");
  commit ← resolve_commit dir;
  Ok (mkSettings servers mode window timeout remoteURL tag commit (get_bool vals "json" false) (get_bool vals "strict" false)).

(** The clock at the output, the order of the loops over maps and of the goroutines, the build. *)
Context (now : Z) (range : Range Z) (order : list nat) (version : string).

Definition ask (st : settings) : list ServerResult :=
  fanOut (λ srv, callVerifyCtx (se_timeout st) srv (se_remoteURL st) (se_tag st) (se_commit st)) order (se_servers st).

Definition report (st : settings) (results : list ServerResult) : output :=
  match se_servers st, results with
  | [_], sr :: _ =>
      match resp sr with
      | Some r =>
          match verdict quote now r (se_remoteURL st) (se_commit st) (se_json st) (se_strict st) with
          | inl (r, c) => mkOutput [encode_indent (json_of_verifyResponse r)] [] c
          | inr o => o
          end
      | None => mkOutput [] ["error: " +:+ default "<nil>" (SErr sr) +:+ nl] 2
      end
  | _, _ =>
      let con := consolidate range now results (se_mode st) (se_window st) in
      if se_json st then
        let '(o, c) := emitMultiJSON con (se_mode st) (se_window st) in mkOutput [encode_indent (json_of_multi o)] [] c
      else emitMultiHuman now con results (se_mode st) (se_strict st)
  end.

Definition runWithConfig (args environ : list string) (dir : string) : output :=
  match flag_parse cli_flags args ∅ with
  | Err ErrHelp => mkOutput [] [usage_text] 0
  | Err FlagError => mkOutput [] [flag_text args; usage_text] 2
  | Ok (vals, rest) =>
      if get_bool vals "version" false then mkOutput ["git-tainted " +:+ version +:+ nl] [] 0
      else
        match rest with
        | arg :: _ => mkOutput [] ["error: unexpected argument " +:+ quote arg +:+ nl; usage_text] 2
        | [] =>
            match resolve dir vals environ with
            | Err o => o
            | Ok st => report st (ask st)
            end
        end
  end.

Definition run (args environ : list string) : output := runWithConfig args environ "".
End cli.
