(* ===== verification/EndToEnd.v ===== *)
(** The command line tool against the server: what a run of git-tainted says is what the
    server's store holds, through query, router, handler and JSON. *)
From S2P Require Import Prelude GoStrings GoNum GoMaps GoTime GoHttp GoUrl GoJson GoJsonProps GoFlag Sha256 Model Chain StoreSpec Sqlc SqliteTx SqliteSpec SyncProps Handlers HandlersProps Config Auth OapiWire Server Ctl WireProps GitUrl Consolidate ConsolidateProps Cli.
#[local] Open Scope Z_scope.

(** * The body of a verdict *)

Definition view_remote (r : Z * string) : remoteInfo := mkRemoteInfo (Some r.1) (Some (to_valid r.2)).
Definition view_recorded (c : VerifyRecorded) : recordedInfo :=
  mkRecordedInfo (to_valid <$> vc_RefOid c) (to_valid <$> vc_PeeledCommitOid c) (vc_FirstSeenNs c) (vc_LastSeenNs c).
Definition view_taint (t : VerifyTaint) : taintInfo :=
  mkTaintInfo (to_valid <$> vt_Reason t) (vt_FirstTaintedAtNs t) (to_valid <$> vt_FromOid t) (to_valid <$> vt_ToOid t).
(** The tool's view of a verdict. *)
Definition view_Verify (v : VerifyResponse) : verifyResponse :=
  mkVerifyResponse (to_valid (vr_Status v)) (to_valid (vr_Confidence v)) (to_valid (vr_Tag v)) (view_remote <$> vr_Remote v)
    (view_recorded <$> vr_Recorded v) (to_valid <$> vr_SuppliedCommit v) (view_taint <$> vr_Taint v) (vr_LastSyncedNs v)
    (to_valid <$> vr_SyncOutcome v).

(** Machine integers, where the tool reads them. *)
Definition Verify_fits (v : VerifyResponse) : Prop :=
  from_option int64_ok True (vr_LastSyncedNs v) ∧ from_option (λ r, int64_ok r.1) True (vr_Remote v) ∧
  from_option (λ c, from_option int64_ok True (vc_FirstSeenNs c) ∧ from_option int64_ok True (vc_LastSeenNs c)) True (vr_Recorded v) ∧
  from_option (λ t, from_option int64_ok True (vt_FirstTaintedAtNs t)) True (vr_Taint v).

Lemma map_clean_opt_any {B} n (f : B → json) v ms : to_valid n = n →
  map (λ m, (to_valid m.1, clean m.2)) (opt_member n f v ++ ms) = opt_member n (clean ∘ f) v ++ map (λ m, (to_valid m.1, clean m.2)) ms.
Proof. intros H. destruct v; [|done]. cbn [opt_member map app fst snd]. by rewrite H. Qed.

(** A pointer to a struct. *)
Lemma field_ptr_take {A B} name (assign : json → A → option A) zero n (f : B → json) (g : B → A) v ms :
  key_matches name n = true → (∀ b, v = Some b → f b ≠ JNull ∧ assign (f b) zero = Some (g b)) →
  field name (to_ptr assign zero) None (opt_member n f v ++ ms) = field name (to_ptr assign zero) (g <$> v) ms.
Proof.
  intros H Ha. apply field_opt_take; [done|]. intros b Hb. destruct (Ha b Hb) as [Hn Hr]. unfold to_ptr. cbn [default]. rewrite Hr.
  by destruct (f b).
Qed.

Ltac read_inner := close_members; clean_members; cbn [members mbind option_bind]; read_members.

Definition json_of_wire_remote (r : Z * string) : json := JObj [("id", JInt r.1); ("normalized_url", JStr r.2)].
Definition json_of_wire_recorded (c : VerifyRecorded) : json := JObj (
  opt_member "first_seen_ns" JInt (vc_FirstSeenNs c) ++ opt_member "last_seen_ns" JInt (vc_LastSeenNs c) ++
  opt_member "peeled_commit_oid" JStr (vc_PeeledCommitOid c) ++ opt_member "ref_oid" JStr (vc_RefOid c)).
Definition json_of_wire_taint (t : VerifyTaint) : json := JObj (
  opt_member "first_tainted_at_ns" JInt (vt_FirstTaintedAtNs t) ++ opt_member "from_oid" JStr (vt_FromOid t) ++
  opt_member "reason" JStr (vt_Reason t) ++ opt_member "to_oid" JStr (vt_ToOid t)).
Definition json_of_wire_proof (p : VerifyProof) : json :=
  JObj [("remote_id", JInt (vl_RemoteId p)); ("row_hash", JStr (vl_RowHash p)); ("seq", JInt (vl_Seq p))].

Lemma read_remoteInfo r : int64_ok r.1 →
  remoteInfo_of (clean (json_of_wire_remote r)) (mkRemoteInfo None None) = Some (view_remote r).
Proof.
  intros Hr. change (json_of_wire_remote r) with (JObj (opt_member "id" JInt (Some r.1) ++ opt_member "normalized_url" JStr (Some r.2))).
  assert (from_option int64_ok True (Some r.1)) by done. unfold remoteInfo_of, vi_ID, vi_NormalizedURL. read_inner.
Qed.
Lemma read_recordedInfo c : from_option int64_ok True (vc_FirstSeenNs c) → from_option int64_ok True (vc_LastSeenNs c) →
  recordedInfo_of (clean (json_of_wire_recorded c)) (mkRecordedInfo None None None None) = Some (view_recorded c).
Proof. intros ? ?. unfold recordedInfo_of, json_of_wire_recorded. cbn [vi_RefOID vi_PeeledCommitOID vi_FirstSeenNS vi_LastSeenNS]. read_inner. Qed.
Lemma read_taintInfo t : from_option int64_ok True (vt_FirstTaintedAtNs t) →
  taintInfo_of (clean (json_of_wire_taint t)) (mkTaintInfo None None None None) = Some (view_taint t).
Proof. intros ?. unfold taintInfo_of, json_of_wire_taint. cbn [vi_Reason vi_FirstTaintedAtNS vi_FromOID vi_ToOID]. read_inner. Qed.

Lemma read_verify v : Verify_fits v → verifyResponse_of (clean (json_of_VerifyResponse v)) = Some (view_Verify v).
Proof.
  intros (H1 & H2 & H3 & H4). unfold json_of_VerifyResponse. fold json_of_wire_proof json_of_wire_recorded json_of_wire_remote json_of_wire_taint.
  close_members. rewrite clean_JObj.
  rewrite map_clean_cons, (map_clean_opt "last_synced_ns") by by_eval || reflexivity. do 3 rewrite map_clean_opt_any by by_eval.
  rewrite map_clean_cons by by_eval. do 2 rewrite map_clean_opt_str by by_eval. rewrite map_clean_cons, map_clean_opt_any by by_eval. cbn [clean map].
  unfold verifyResponse_of. cbn [members mbind option_bind].
  do 3 (eapply bind_Some_step; [read_one|cbv beta]).
  eapply bind_Some_step; [read_field; rewrite (field_ptr_take _ _ _ _ _ view_remote); [read_field; reflexivity|by_eval|]|cbv beta].
  { intros r Hr. split; [done|]. apply read_remoteInfo. by rewrite Hr in H2. }
  eapply bind_Some_step; [read_field; rewrite (field_ptr_take _ _ _ _ _ view_recorded); [read_field; reflexivity|by_eval|]|cbv beta].
  { intros r Hr. split; [done|]. rewrite Hr in H3. by apply read_recordedInfo; apply H3. }
  eapply bind_Some_step; [read_one|cbv beta].
  eapply bind_Some_step; [read_field; rewrite (field_ptr_take _ _ _ _ _ view_taint); [read_field; reflexivity|by_eval|]|cbv beta].
  { intros r Hr. split; [done|]. rewrite Hr in H4. by apply read_taintInfo. }
  read_members.
Qed.

Lemma nesting_mix ms : Forall (λ m : string * json, nesting m.2 ≤ 1) ms → nesting (JObj ms) ≤ 2.
Proof. cbn [nesting]. intros H. induction H as [|m ms Hm _ IH]; [cbn; lia|]. cbn [foldr]. lia. Qed.
Lemma shallow_opt {B} n (f : B → json) v ms : (∀ b, nesting (f b) ≤ 1) → Forall (λ m : string * json, nesting m.2 ≤ 1) ms →
  Forall (λ m : string * json, nesting m.2 ≤ 1) (opt_member n f v ++ ms).
Proof. intros Hf Hm. destruct v; [|done]. constructor; [apply Hf|done]. Qed.

Lemma flat_wire_remote r : flat_object (json_of_wire_remote r).
Proof. unfold json_of_wire_remote. flat_struct. Qed.
Lemma flat_wire_proof p : flat_object (json_of_wire_proof p).
Proof. unfold json_of_wire_proof. flat_struct. Qed.
Lemma flat_wire_recorded c : flat_object (json_of_wire_recorded c).
Proof. unfold json_of_wire_recorded. flat_struct. Qed.
Lemma flat_wire_taint t : flat_object (json_of_wire_taint t).
Proof. unfold json_of_wire_taint. flat_struct. Qed.

Lemma verify_depth v : numbers_ok (json_of_VerifyResponse v) = true ∧ nesting (json_of_VerifyResponse v) ≤ 3.
Proof.
  unfold json_of_VerifyResponse. fold json_of_wire_proof json_of_wire_recorded json_of_wire_remote json_of_wire_taint. close_members. split.
  - cbn [numbers_ok]. repeat first [rewrite numbers_cons by reflexivity | rewrite numbers_opt
      by first [apply numbers_JInt | reflexivity | apply flat_wire_remote | apply flat_wire_proof | apply flat_wire_recorded | apply flat_wire_taint]]. done.
  - etrans; [apply nesting_mix|lia].
    repeat first [apply Forall_nil_2 | apply Forall_cons_2; [cbn; lia|] | apply shallow_opt;
      [first [intros ?; cbn; lia | apply flat_wire_remote | apply flat_wire_proof | apply flat_wire_recorded | apply flat_wire_taint]|]].
Qed.

Lemma decode_verify v : Verify_fits v → decode (encode (json_of_VerifyResponse v)) ≫= verifyResponse_of = Some (view_Verify v).
Proof.
  intros Hv. destruct (verify_depth v) as [Hn Hd]. destruct (json_roundtrip (json_of_VerifyResponse v) nl) as [_ E]; [by right|done|unfold maxNestingDepth; lia|].
  unfold encode. rewrite E. by apply read_verify.
Qed.

(** * What a store says of a tag *)

(** The status of a request that is well formed: the remote of the normal form and the row. *)
Inductive says (d : db) (norm tag commit : string) : string → Remote → Prop :=
  | says_missing rem : a_remotes (db_abs d) !! rm_ID rem = Some rem → rm_NormalizedURL rem = norm → rm_RemovedAtNS rem = None →
      a_refs (db_abs d) !! (rm_ID rem, tag) = None → says d norm tag commit "doesnt_exist" rem
  | says_row rem ref : a_remotes (db_abs d) !! rm_ID rem = Some rem → rm_NormalizedURL rem = norm → rm_RemovedAtNS rem = None →
      a_refs (db_abs d) !! (rm_ID rem, tag) = Some ref → says d norm tag commit (status_of ref commit) rem.
Definition untracked (d : db) (norm : string) : Prop :=
  ∀ id r, a_remotes (db_abs d) !! id = Some r → rm_NormalizedURL r = norm → rm_RemovedAtNS r ≠ None.

(** The whole meaning of a verdict. *)
Definition verdict_of (d : db) (now : Z) (norm tag commit : string) (v : VerifyResponse) : Prop :=
  untracked d norm ∧ vr_Status v = "not_tracked" ∧ vr_Confidence v = ConfAuthoritative ∨
  ∃ rem, says d norm tag commit (vr_Status v) rem ∧ vr_Confidence v = confidence_of now rem.

(** The rows hold machine integers. *)
Definition machine_ints (a : Abs) : Prop :=
  (∀ id r, a_remotes a !! id = Some r → int64_ok (rm_ID r) ∧ int64_ok (rm_LastOkNS r)) ∧
  (∀ k r, a_refs a !! k = Some r → int64_ok (rf_FirstSeenNS r) ∧ int64_ok (rf_LastSeenNS r) ∧ from_option int64_ok True (rf_TaintFirstNS r)).

Lemma Contains_cons c a s : Contains (String a s) (String c "") = Ascii.eqb c a || Contains s (String c "").
Proof.
  unfold Contains. cbn [Index]. unfold HasPrefix. rewrite prefix_cons. destruct (Ascii.eqb_spec c a) as [->|Hn]; destruct (ascii_dec _ _); try done.
  - by destruct s.
  - by destruct (Index s _).
Qed.
Lemma Contains_byte c s : Contains s (String c "") = match IndexByte s c with Some _ => true | None => false end.
Proof.
  induction s as [|a s IH]; [done|]. rewrite Contains_cons, IH. unfold IndexByte. cbn [IndexFunc]. destruct (Ascii.eqb c a); [done|]. by destruct (IndexFunc _ s).
Qed.

(** An url is no number. *)
Lemma parse_digits_in c : is_digit c = false → ∀ s acc, Contains s (String c "") = true → parse_digits s acc = None.
Proof.
  intros Hc. induction s as [|a s IH]; intros acc; [done|]. cbn [parse_digits]. intros Hin.
  destruct ((Z.of_N (N_of_ascii a) <? 48) || (57 <? Z.of_N (N_of_ascii a))) eqn:Ha; [done|]. apply IH. rewrite Contains_cons in Hin.
  destruct (Ascii.eqb_spec c a) as [->|_]; [|exact Hin]. exfalso. revert Ha Hc. unfold is_digit. rewrite orb_false_iff, andb_false_iff, !Z.ltb_ge, !N.leb_gt. lia.
Qed.

Section end_to_end.
Context (parse_bracketed : string → option string) (loopback_ip6 : string → bool) (unicode_lower : string → string).
Context (quote : string → string) (flag_text : list string → string) (number_text duration_text url_text decode_text : string → string).
Context (exec : string → list string → exec_result) (http_get : Z → string → result string (Z * string)).
Context (bind_int64 : string → result string Z) (bind_string : string → result string string).
Context (query_string : bool → string → Values → result bind_error (option string)).
Context (query_int query_int64 : string → Values → result bind_error (option Z)).
Context (error_text : error → string) (decode_error : string → string) (malformed : string → bool).
Context (CompareHashAndPassword : string → string → bool).
Context (jws_Parse : string → option (list jws_header)) (IsSymmetric : string → bool).
Context (jwt_Parse : string → list jwk → string → string → Z → Z → option (option string)).
Context (AddKey : list jwk → jwk → option (list jwk)) (mux_default : Request → http_response).
Context (has_syncer : bool) (now : Z) (e : idp) (header : string → string).

Abbreviation accepts := (ValidateURL parse_bracketed unicode_lower).
Abbreviation normalize := (NormalizeURL parse_bracketed unicode_lower).

(** A parameter that is there once is bound to its value. *)
Hypothesis query_once : ∀ required name vs v,
  List.filter (λ kv, String.eqb kv.1 name) vs = [(name, v)] → query_string required name vs = Ok (Some v).

(** A GET of a path and a query, answered by a server. *)
Definition get_from (st : server_state (S := db)) (path query : string) : result string (Z * string) :=
  match ServeHTTP (S := db) (T := sqliteTx) normalize bind_int64 bind_string query_string query_int query_int64 error_text decode_error malformed
          CompareHashAndPassword jws_Parse IsSymmetric jwt_Parse AddKey mux_default has_syncer now e
          (mkHttp (mkRequest "GET" path header) query "") st with
  | Some ((r, _), _) => Ok (h_Status r, h_Text r)
  | None => Err "EOF"
  end.

(** The server at a base url has a state. *)
Definition reaches (base : string) (st : server_state (S := db)) : Prop :=
  ∀ timeout query, http_get timeout (base +:+ "/v1/verify?" +:+ query) = get_from st "/v1/verify" query.

(** A base url without slash at the end, query and fragment. *)
Definition plain_base (base : string) : Prop :=
  TrimRight base "/" = base ∧ string_forall (λ c, negb (Ascii.eqb c "?") && negb (Ascii.eqb c "#")) base = true ∧
  is_Some (Parse parse_bracketed (base +:+ "/v1/verify")).

(** ** Server side *)

Lemma verify_query_sorted url tag commit :
  ParseQuery (Encode (verify_query url tag commit)) = [("commit", commit); ("remote", url); ("tag", tag)].
Proof. rewrite ParseQuery_Encode; [vm_compute; exact eq_refl| |vm_compute; discriminate]. intros E. apply (f_equal (.!! "tag")) in E. vm_compute in E. discriminate. Qed.

Lemma routed st : NewServer CompareHashAndPassword jws_Parse IsSymmetric jwt_Parse AddKey e st (mkRequest "GET" "/v1/verify" header) =
  Some (Handled "verify" None, st).
Proof. vm_compute. exact eq_refl. Qed.

(** The answer of the server is that of the handler. *)
Lemma get_verify st url tag commit :
  get_from st "/v1/verify" (Encode (verify_query url tag commit)) =
    let r := (respond error_text VisitVerifyResponse (Verify (S := db) (T := sqliteTx) normalize now (mkVerifyParams url tag (Some commit))) (sv_store st)).1 in
    Ok (h_Status r, h_Text r).
Proof.
  unfold get_from, ServeHTTP. cbn [h_Head]. rewrite routed. cbn [mbind option_bind]. unfold dispatch.
  assert (∀ op : string, String.eqb "verify" "verify" = true) as _ by done.
  cbn [String.eqb Ascii.eqb Bool.eqb]. unfold on_store, siw_Verify, req_string, opt_string, Query. cbn [h_RawQuery]. rewrite verify_query_sorted.
  rewrite (query_once true "remote" _ url) by done. cbn [query_param default]. rewrite (query_once true "tag" _ tag) by done. cbn [query_param default].
  rewrite (query_once false "commit" _ commit) by done. cbn [query_param]. unfold strict_Verify. cbn [sv_store from_option].
  destruct (respond _ _ _ (sv_store st)) as [r s']. done.
Qed.

Lemma validated url u norm t : accepts url = Some (u, norm, t) → u = url ∧ Contains url ":" = true ∧ norm ≠ "" ∧ url ≠ "" ∧ len url ≤ maxRemoteParamLen.
Proof.
  unfold ValidateURL. intros H. destruct (String.eqb_spec url "") as [|Hne]; [done|]. destruct (Z.ltb_spec maxURLLen (len url)) as [|Hlen]; [done|].
  destruct (match IndexFunc isControl url with Some _ => true | None => false end); [done|].
  destruct (HasPrefix url "-"); [done|]. destruct (Contains url "::"); [done|].
  assert (∀ scheme port, normalizeURLScheme parse_bracketed unicode_lower url scheme port ≠ Some "" ∨ scheme = "") as Hs.
  { intros scheme port. destruct scheme as [|c scheme]; [by right|left]. unfold normalizeURLScheme. destruct (Parse _ _) as [a|]; [|done]. cbn [mbind option_bind].
    destruct (negb _); [done|]. destruct (_ || _); [done|]. intros (ui & _ & E)%bind_Some. discriminate E. }
  assert (∀ p, HasPrefix url p = true → Contains p ":" = true → Contains url ":" = true) as Hc.
  { intros p Hp Hin. unfold HasPrefix in Hp. apply prefix_spec in Hp as [s ->]. clear -Hin. revert Hin. induction p as [|a p IH]; [done|].
    cbn [String.append]. rewrite !Contains_cons. destruct (Ascii.eqb ":" a); [done|exact IH]. }
  change maxRemoteParamLen with maxURLLen.
  destruct (HasPrefix url "https://") eqn:E1; [|destruct (HasPrefix url "ssh://") eqn:E2; [|destruct (isSCPLike url) eqn:E3; [|done]]];
    apply bind_Some in H as (n & Hn & [= <- <- <-]).
  - split_and!; [done|by apply (Hc "https://")| |done|done]. intros ->. by destruct (Hs "https" "443").
  - split_and!; [done|by apply (Hc "ssh://")| |done|done]. intros ->. by destruct (Hs "ssh" "22").
  - split_and!; [done| | |done|done].
    + revert E3. unfold isSCPLike. destruct (Contains url "://"); [done|]. intros [_ H]%andb_true_iff. rewrite Contains_byte.
      destruct (IndexByte url ":"); [done|]. cbn [index_int] in H. apply Z.ltb_lt in H. exfalso. destruct (IndexByte url "@"); cbn [index_int] in H; lia.
    + intros ->. revert Hn. unfold normalizeSCP. destruct (IndexByte url "@"); [|done]. cbn [mbind option_bind]. repeat (case_match; try done).
Qed.

Lemma parseID_url url : Contains url ":" = true → parseID url = None.
Proof. intros H. unfold parseID. by rewrite (parse_digits_in ":"). Qed.

(** The remote of a request that names an url. *)
Lemma resolve_url d url u norm t : db_ok d → accepts url = Some (u, norm, t) →
  match resolve_remote (S := db) (T := sqliteTx) normalize url d with
  | Ok (Some rem, d') => d' = d ∧ a_remotes (db_abs d) !! rm_ID rem = Some rem ∧ rm_NormalizedURL rem = norm ∧ rm_RemovedAtNS rem = None
  | Ok (None, d') => d' = d ∧ untracked d norm
  | Err _ => False
  end.
Proof.
  intros Hok Hv. destruct (validated _ _ _ _ Hv) as (-> & Hc & Hn & _ & _). unfold resolve_remote. rewrite parseID_url by done.
  unfold mbind, SE_bind, mret, SE_ret. cbn iota beta. assert (normalize url = Ok norm) as -> by (unfold NormalizeURL; by rewrite Hv).
  destruct (String.eqb_spec norm "") as [|_]; [done|]. unfold catch.
  pose proof (get_remote_by_url_spec (S := db) (T := sqliteTx) d norm Hok) as H. destruct (st_GetRemoteByURL norm d) as [[rem d']|er].
  - destruct H as (-> & H1 & H2 & H3). done.
  - destruct H as [-> H]. split; [done|]. exact H.
Qed.

Lemma verify_tag_answer rem d tag c :
  db_ok d → machine_ints (db_abs d) → a_remotes (db_abs d) !! rm_ID rem = Some rem →
  ∃ v, verify_tag (S := db) (T := sqliteTx) now rem tag c d = Ok (Success 200 v, d) ∧ Verify_fits v ∧
    vr_Confidence v = confidence_of now rem ∧
    vr_Status v = match a_refs (db_abs d) !! (rm_ID rem, tag) with None => StatusDoesntExist | Some ref => status_of ref c end.
Proof.
  intros Hok [Hrem Href] Hr. destruct (Hrem _ _ Hr) as [H1 H2]. unfold verify_tag, mbind, SE_bind. unfold catch at 1.
  rewrite (get_ref_spec (S := db) (T := sqliteTx)) by done. change (s_abs d) with (db_abs d).
  destruct (a_refs (db_abs d) !! (rm_ID rem, tag)) as [ref|] eqn:E; [|by eexists].
  destruct (catch_latest (rf_ID ref) d) as [r Hl]. cbn [st_LatestObservationForRef sqlite_store]. rewrite Hl.
  destruct (Href _ _ E) as (H3 & H4 & H5). eexists. split; [done|]. split; [|done]. split_and!; [done|done|done|]. cbn. by destruct (rf_Tainted ref).
Qed.

(** The handler on the parameters the tool sends. *)
Lemma verify_answer d url u norm t tag commit : db_ok d → machine_ints (db_abs d) → accepts url = Some (u, norm, t) →
  let p := mkVerifyParams url tag (Some commit) in
  let run := Verify (S := db) (T := sqliteTx) normalize now p d in
  if validTagName tag && match commit_of (Some commit) with Some _ => true | None => false end then
    ∃ v, run = Ok (Success 200 v, d) ∧ Verify_fits v ∧ verdict_of d now norm tag (default "" (commit_of (Some commit))) v
  else ∃ msg, run = Ok (Handlers.Refused 422 msg, d).
Proof.
  intros Hok Hints Hv p run. destruct (validated _ _ _ _ Hv) as (-> & _ & _ & Hne & Hlen). subst p run. unfold Verify. cbn [vp_Tag vp_Remote vp_Commit].
  destruct (validTagName tag) eqn:Ht; cbn [negb andb]; [|by eexists]. destruct (Z.ltb_spec maxRemoteParamLen (len url)); [lia|].
  change (match Some commit ≫= nonempty with None => Some "" | Some c => if reOID (ToLower c) then Some (ToLower c) else None end) with (commit_of (Some commit)).
  destruct (commit_of (Some commit)) as [c|]; [|by eexists]. destruct (String.eqb_spec url ""); [done|].
  pose proof (resolve_url d url url norm t Hok Hv) as Hres. unfold mbind, SE_bind.
  destruct (resolve_remote normalize url d) as [[[rem|] d']|er]; [| |done].
  - destruct Hres as (-> & H1 & H2 & H3). destruct (verify_tag_answer rem d tag c Hok Hints H1) as (v & Hrun & Hfit & Hconf & Hst).
    exists v. split; [exact Hrun|]. split; [done|]. right. exists rem. split; [|done]. rewrite Hst. cbn [default].
    destruct (a_refs (db_abs d) !! (rm_ID rem, tag)) as [ref|] eqn:E; [by eapply says_row|by eapply says_missing].
  - destruct Hres as (-> & Hun). eexists. split; [done|]. split; [done|]. by left.
Qed.

(** ** The answer the tool gets *)

Definition asked (base url tag commit : string) (timeout : Z) : result string verifyResponse :=
  callVerifyCtx parse_bracketed url_text decode_text http_get timeout base url tag commit.

Lemma query_chars q : string_forall (λ c, negb (is_ctl c) && negb (Ascii.eqb c "#")) (QueryEscape q) = true.
Proof.
  eapply string_forall_impl; [|apply QueryEscape_chars]. intros c Hc. assert (for_bytes (λ c, negb (escaped_char c) || negb (is_ctl c) && negb (Ascii.eqb c "#")) = true) as H by (vm_compute; exact eq_refl).
  apply (for_bytes_spec _ c) in H. cbn beta in H. by rewrite Hc in H.
Qed.

Lemma query_text_chars url tag commit : string_forall (λ c, negb (is_ctl c) && negb (Ascii.eqb c "#")) (Encode (verify_query url tag commit)) = true.
Proof.
  assert (Encode (verify_query url tag commit) = Join (map pair_text [("commit", commit); ("remote", url); ("tag", tag)]) "&") as ->.
  { unfold Encode. assert (sort_Strings (map fst (map_to_list (verify_query url tag commit))) = ["commit"; "remote"; "tag"]) as -> by (vm_compute; exact eq_refl). done. }
  unfold pair_text. cbn [map Join fst snd]. rewrite !string_forall_append. by rewrite !query_chars.
Qed.

Lemma asked_answer base st url u norm t tag commit timeout :
  reaches base st → plain_base base → db_ok (sv_store st) → machine_ints (db_abs (sv_store st)) → accepts url = Some (u, norm, t) →
  if validTagName tag && match commit_of (Some commit) with Some _ => true | None => false end then
    ∃ v, asked base url tag commit timeout = Ok (view_Verify v) ∧ verdict_of (sv_store st) now norm tag (default "" (commit_of (Some commit))) v
  else ∃ msg, asked base url tag commit timeout = Err msg.
Proof.
  intros Hreach (Htrim & Hchars & Hparse) Hok Hints Hv. unfold asked, callVerifyCtx. rewrite Htrim.
  assert (is_Some (Parse parse_bracketed (base +:+ "/v1/verify?" +:+ Encode (verify_query url tag commit)))) as [purl ->].
  { change ("/v1/verify?" +:+ Encode (verify_query url tag commit)) with ("/v1/verify" +:+ "?" +:+ Encode (verify_query url tag commit)).
    rewrite append_assoc, Parse_query; [done| | |apply query_text_chars].
    - by rewrite string_forall_append, Hchars.
    - intros E. apply (f_equal String.length) in E. rewrite append_length in E. cbn in E. lia. }
  rewrite Hreach, get_verify. pose proof (verify_answer (sv_store st) url u norm t tag commit Hok Hints Hv) as Hrun. cbv zeta in Hrun |- *.
  destruct (validTagName tag && _).
  - destruct Hrun as (v & Hrun & Hfit & Hverd). unfold respond. rewrite Hrun. cbn [fst h_Status h_Text VisitVerifyResponse write_json].
    change (200 =? 422) with false. change (200 =? 200) with true. cbn iota. cbn [negb]. rewrite decode_verify by done. exists v. split; [|done].
    assert (v_Status (view_Verify v) ≠ "") as Hst; [|by destruct (String.eqb_spec (v_Status (view_Verify v)) "")].
    cbn [v_Status view_Verify]. destruct Hverd as [(_ & -> & _)|(rem & Hs & _)]; [by vm_compute|]. destruct Hs; [by vm_compute|].
    unfold status_of. repeat case_match; by vm_compute.
  - destruct Hrun as (msg & Hrun). unfold respond. rewrite Hrun. cbn [fst h_Status h_Text VisitVerifyResponse write_json].
    change (422 =? 422) with true. cbn iota. eexists. reflexivity.
Qed.

(** ** Runs *)

Context (shown : Z) (range : Range Z) (order : list nat) (version : string).

Abbreviation the_run := (runWithConfig parse_bracketed loopback_ip6 unicode_lower quote flag_text number_text duration_text url_text decode_text
  exec http_get shown range order version).

(** The arguments, the environment and git settle what the run asks. *)
Definition settled (args environ : list string) (dir : string) (st : settings) : Prop :=
  ∃ vals, flag_parse cli_flags args ∅ = Ok (vals, []) ∧ get_bool vals "version" false = false ∧
    resolve parse_bracketed loopback_ip6 unicode_lower quote number_text duration_text url_text exec dir vals environ = Ok st.

(** The server takes the tag for a tag name and the commit for an object id. *)
Definition request_ok (st : settings) : bool :=
  validTagName (se_tag st) && match commit_of (Some (se_commit st)) with Some _ => true | None => false end.

(** A registered remote of the normal form has an untainted row for the tag, with no other commit than that. *)
Definition holds_clean (d : db) (norm tag commit : string) : Prop :=
  ∃ rem ref, a_remotes (db_abs d) !! rm_ID rem = Some rem ∧ rm_NormalizedURL rem = norm ∧ rm_RemovedAtNS rem = None ∧
    a_refs (db_abs d) !! (rm_ID rem, tag) = Some ref ∧ rf_Tainted ref = false ∧ ∀ o, recorded_commit ref = Some o → Hex o = commit.

(** A server the tool can reach: its state, which is in order. *)
Definition serves (base : string) (sv : server_state (S := db)) : Prop :=
  reaches base sv ∧ plain_base base ∧ db_ok (sv_store sv) ∧ machine_ints (db_abs (sv_store sv)).

Lemma settled_run args environ dir st : settled args environ dir st →
  the_run args environ dir = report quote shown range st (ask parse_bracketed url_text decode_text http_get order st).
Proof. intros (vals & Hp & Hv & Hr). unfold runWithConfig. by rewrite Hp, Hv, Hr. Qed.

Lemma settled_url args environ dir st : settled args environ dir st → ∃ u norm t, accepts (se_remoteURL st) = Some (u, norm, t).
Proof.
  intros (vals & _ & _ & Hr). unfold resolve in Hr. repeat (apply result_bind_ok in Hr as (? & ? & Hr)). injection Hr as <-. cbn [se_remoteURL].
  match goal with H : resolve_remote_url _ _ _ _ _ _ _ _ = Ok _ |- _ => revert H end. unfold resolve_remote_url.
  intros (r & _ & Hval)%result_bind_ok. destruct (ValidateURL _ _ r) as [[[a b] c]|] eqn:E; [|done]. injection Hval as <-. eauto.
Qed.

Lemma status_words d norm tag c status rem : says d norm tag c status rem → to_valid status = status.
Proof. destruct 1; [done|]. unfold status_of. by repeat case_match. Qed.

Lemma verdict_words d norm tag c v : verdict_of d now norm tag c v → v_Status (view_Verify v) = vr_Status v ∧ v_Confidence (view_Verify v) = vr_Confidence v.
Proof.
  intros [(_ & Hs & Hc)|(rem & Hs & Hc)]; cbn [view_Verify v_Status v_Confidence].
  - by rewrite Hs, Hc.
  - rewrite (status_words _ _ _ _ _ _ Hs), Hc. split; [done|]. unfold confidence_of. by repeat case_match.
Qed.

Lemma ok_holds d norm tag c v : c ≠ "" → verdict_of d now norm tag c v → vr_Status v = "ok" → holds_clean d norm tag c.
Proof.
  intros Hc [(_ & -> & _)|(rem & Hs & _)]; [done|]. intros Hok. destruct Hs as [rem|rem ref H1 H2 H3 H4]; [done|].
  apply status_of_cases in Hok as [Ht Ho]. exists rem, ref. split_and!; try done. destruct Ho as [->|Ho]; [done|exact Ho].
Qed.

Lemma commit_of_ne c c' : commit_of (Some c) = Some c' → c ≠ "" → c' ≠ "".
Proof.
  unfold commit_of. cbn [mbind option_bind]. unfold nonempty. destruct (String.eqb_spec c ""); [done|]. destruct (reOID (ToLower c)); [|done]. intros [= <-] _.
  by destruct c.
Qed.

(** The exit code of one verdict. *)
Lemma verdict_code r url commit json strict :
  match verdict quote shown r url commit json strict with inl (_, c) => c | inr o => code o end = exitCode r strict.
Proof.
  unfold verdict. destruct json; [done|]. unfold verdict_human, exitCode.
  destruct (String.eqb (v_Status r) "ok"); [destruct (String.eqb (v_Confidence r) "stale"), strict; done|]. by repeat case_match.
Qed.

(** The result of a server that is served. *)
Lemma served_result base sv st args environ dir u norm t :
  settled args environ dir st → accepts (se_remoteURL st) = Some (u, norm, t) → serves base sv →
  let r := server_result (λ srv, asked srv (se_remoteURL st) (se_tag st) (se_commit st) (se_timeout st)) base in
  if request_ok st then
    ∃ v, resp r = Some (view_Verify v) ∧ Reachable r = true ∧ Status r = vr_Status v ∧
      verdict_of (sv_store sv) now norm (se_tag st) (ToLower (se_commit st)) v
  else resp r = None ∧ Reachable r = false.
Proof.
  intros Hset Hv (Hreach & Hbase & Hok & Hints) r.
  pose proof (asked_answer base sv (se_remoteURL st) u norm t (se_tag st) (se_commit st) (se_timeout st) Hreach Hbase Hok Hints Hv) as Ha.
  subst r. unfold request_ok, server_result. destruct (validTagName (se_tag st) && _) eqn:Hr.
  - destruct Ha as (v & -> & Hverd). exists v. split; [done|]. split; [done|]. cbn [Status].
    assert (default "" (commit_of (Some (se_commit st))) = ToLower (se_commit st)) as Ec.
    { apply andb_true_iff in Hr as [_ Hc]. revert Hc. unfold commit_of. cbn [mbind option_bind]. unfold nonempty.
      destruct (String.eqb_spec (se_commit st) "") as [->|_]; [done|]. by destruct (reOID _). }
    rewrite Ec in Hverd. split; [apply (verdict_words _ _ _ _ _ Hverd)|done].
  - destruct Ha as (msg & ->). done.
Qed.

(** C6. What the tool says is what the server's store holds, from the command line to the row.
    When one server is asked and it refuses the request the exit code is 2.  Otherwise there
    is a verdict on the store of that server, for the registered remote of the normal form of
    the url, the tag and the commit, and the exit code is that of its status, 10 when a stale
    [ok] is asked for with [--strict].  So 0 and 10 mean that the store holds an untainted
    row of the tag with no other commit, and a tainted row is never reported as anything but
    4. *)
Theorem cli_end_to_end base sv st args environ dir :
  settled args environ dir st → se_servers st = [base] → se_commit st ≠ "" → order ≡ₚ [0%nat] → serves base sv →
  ∃ u norm t, accepts (se_remoteURL st) = Some (u, norm, t) ∧
    let c := code (the_run args environ dir) in
    let commit := ToLower (se_commit st) in
    if request_ok st then
      (∃ v, verdict_of (sv_store sv) now norm (se_tag st) commit v ∧
         c = if String.eqb (vr_Status v) "ok" && se_strict st && String.eqb (vr_Confidence v) "stale" then 10 else statusToExitCode (vr_Status v)) ∧
      (c = 0 ∨ c = 10 → holds_clean (sv_store sv) norm (se_tag st) commit)
    else c = 2.
Proof.
  intros Hset Hs Hne Hord Hserve. destruct (settled_url _ _ _ _ Hset) as (u & norm & t & Hv). exists u, norm, t. split; [done|]. cbv zeta.
  rewrite (settled_run _ _ _ _ Hset). unfold report, ask. rewrite Hs.
  assert (order = [0%nat]) as -> by (symmetry in Hord; by apply Permutation_length_1_inv in Hord).
  pose proof (served_result base sv st args environ dir u norm t Hset Hv Hserve) as Hr. cbv zeta in Hr. unfold asked in Hr.
  cbn [fanOut foldl list_lookup length replicate]. change (([base] : list string) !! 0%nat) with (Some base). cbn iota.
  set (sr := server_result _ base) in *. change (<[0%nat := sr]> [zero_result]) with [sr]. cbn iota. destruct (request_ok st).
  - destruct Hr as (v & Hresp & _ & _ & Hverd). rewrite Hresp.
    assert (∀ x, code (match verdict quote shown (view_Verify v) (se_remoteURL st) (se_commit st) (se_json st) (se_strict st) with
      | inl (r, c) => mkOutput (x r) [] c | inr o => o end) = exitCode (view_Verify v) (se_strict st)) as Hcode.
    { intros x. rewrite <- (verdict_code _ (se_remoteURL st) (se_commit st) (se_json st)). by destruct (verdict _ _ _ _ _ _ _) as [[r c]|o]. }
    rewrite (Hcode (λ r, [encode_indent (json_of_verifyResponse r)])). destruct (verdict_words _ _ _ _ _ Hverd) as [E1 E2].
    assert (exitCode (view_Verify v) (se_strict st) =
      if String.eqb (vr_Status v) "ok" && se_strict st && String.eqb (vr_Confidence v) "stale" then 10 else statusToExitCode (vr_Status v)) as E.
    { unfold exitCode, statusToExitCode. rewrite E1, E2. destruct (String.eqb_spec (vr_Status v) "ok"); cbn [andb]; [by destruct (se_strict st)|].
      destruct Hverd as [(_ & -> & _)|(rem & Hsay & _)]; [done|]. destruct Hsay as [|rem ref ? ? ? ?]; [done|].
      unfold status_of in *. by repeat case_match. }
    rewrite E. split; [by exists v|]. intros Hc. assert (vr_Status v = "ok") as Hok.
    { destruct (String.eqb_spec (vr_Status v) "ok"); [done|]. cbn [andb] in Hc. destruct Hc as [Hc|Hc]; [by apply statusToExitCode_zero in Hc|].
      exfalso. revert Hc. unfold statusToExitCode. by repeat case_match. }
    eapply ok_holds; [|exact Hverd|done]. by destruct (se_commit st).
  - destruct Hr as [-> _]. done.
Qed.

(** The servers that answered ok, among those that were asked. *)
Lemma votes_of_servers (call : string → result string verifyResponse) servers :
  votes "ok" (map (server_result call) servers) =
  Z.of_nat (length (List.filter (λ b, Reachable (server_result call b) && String.eqb (Status (server_result call b)) "ok") servers)).
Proof.
  unfold votes. f_equal. induction servers as [|b servers IH]; [done|]. cbn [map List.filter]. destruct (Reachable (server_result call b)); cbn [andb]; [|exact IH].
  cbn [List.filter]. destruct (String.eqb (Status (server_result call b)) "ok"); cbn [length]; [by rewrite IH|exact IH].
Qed.

(** A quorum says ok only with a strict majority of the configured servers. *)
Lemma quorum_ok_votes results w : range_ok range → results ≠ [] →
  FinalStatus (consolidate range shown results ModeQuorum w) = "ok" → Z.of_nat (length results) < votes "ok" results * 2.
Proof.
  intros Hrange Hne. unfold consolidate. destruct (List.filter Reachable results) as [|x xs] eqn:E; [done|]. rewrite <- E. clear E. unfold consolidateQuorum.
  pose proof (find_majority range results 0%nat Hrange) as Hm.
  set (maj := if negb _ then mkConsolidated _ _ _ _ _ _ else plain _ _ _ _).
  assert (FinalStatus maj = "ok" → Z.of_nat (length results) < votes "ok" results * 2) as Hmaj.
  { unfold maj. destruct (List.find _ _) as [[s n]|]; [|done]. destruct (String.eqb_spec s ""); cbn [negb FinalStatus plain]; [done|]. by intros ->. }
  destruct (List.filter (λ r, isBad (Status r)) _) as [|b bs] eqn:Eb; [exact Hmaj|]. destruct (List.filter (λ r, _ && _) _); [exact Hmaj|].
  match goal with |- context [if ?b then _ else maj] => destruct b end; [|exact Hmaj]. cbn [FinalStatus]. intros Hst. exfalso.
  assert (freshestBadServer b bs ∈ b :: bs) as Hin by apply freshestBadServer_spec. rewrite <- Eb in Hin.
  apply list_elem_of_In, filter_In in Hin as [_ Hbad]. by rewrite Hst in Hbad.
Qed.

(** What an exit code of several servers means. *)
Lemma several_code st results : se_servers st = map ServerURL results → (2 ≤ length results)%nat → se_mode st = ModeQuorum →
  code (report quote shown range st results) = 0 ∨ code (report quote shown range st results) = 10 →
  FinalStatus (consolidate range shown results ModeQuorum (se_window st)) = "ok".
Proof.
  intros Hs Hlen Hmode. unfold report. rewrite Hs, Hmode. destruct results as [|r1 [|r2 results]]; cbn in Hlen; [lia|lia|]. cbn [map].
  set (con := consolidate range shown _ ModeQuorum _).
  assert (∀ c, c = 0 ∨ c = 10 → (if String.eqb (FinalStatus con) "ok" && staleOK con && se_strict st then 10 else ExitCode con) = c ∨ ExitCode con = c →
    FinalStatus con = "ok") as Hcon.
  { intros c Hc He. assert (ExitCode con = statusToExitCode (FinalStatus con)) as Hex by apply consolidate_exit.
    destruct (String.eqb_spec (FinalStatus con) "ok"); [done|]. cbn [andb] in He. rewrite Hex in He.
    assert (statusToExitCode (FinalStatus con) = c) as E by tauto. destruct Hc as [-> | ->]; [by apply statusToExitCode_zero in E|].
    exfalso. revert E. unfold statusToExitCode. by repeat case_match. }
  intros Hc. apply (Hcon _ Hc). destruct (se_json st); [by right|by left].
Qed.

End end_to_end.

(** * Two servers on one machine *)

(** A server without authentication on the sample store, and its transport. *)
Definition sample_server : server_state (S := db) := mkServer sample_db1 ∅ noneAuth.
Definition bind_once (required : bool) (name : string) (vs : Values) : result bind_error (option string) :=
  match List.filter (λ kv, String.eqb kv.1 name) vs with
  | [] => if required then Err RequiredParameterError else Ok None
  | [(_, v)] => Ok (Some v)
  | _ => Err (BindError "multiple values")
  end.
Definition sample_get_from : server_state (S := db) → string → string → result string (Z * string) :=
  get_from (λ _, None) id (λ s, match ParseInt s with Some z => Ok z | None => Err s end) Ok bind_once (λ _ _, Ok None) (λ _ _, Ok None) (λ _, "error") id (λ _, false)
    (λ _ _, false) (λ _, None) (λ _, false) (λ _ _ _ _ _ _, None) (λ _ _, None) (λ _, mkResponse 404 "") false 20 (mkIdp None None false 0) (λ _, "").

(** The first two ports are served, the third is not. *)
Definition sample_port (n : string) : string := "http://127.0.0.1:808" +:+ n.
Definition sample_http_get (timeout : Z) (url : string) : result string (Z * string) :=
  if HasPrefix url (sample_port "1/v1/verify?") || HasPrefix url (sample_port "2/v1/verify?")
  then sample_get_from sample_server "/v1/verify" (sdrop (String.length (sample_port "1/v1/verify?")) url) else Err "connection refused".
Definition sample_git (dir : string) (args : list string) : exec_result := Exited (Hex oid_a +:+ nl).

Lemma bind_once_spec required name vs v :
  List.filter (λ kv, String.eqb kv.1 name) vs = [(name, v)] → bind_once required name vs = Ok (Some v).
Proof. intros H. unfold bind_once. by rewrite H. Qed.

Lemma sample_ints : machine_ints (db_abs sample_db1).
Proof.
  assert (a_remotes (db_abs sample_db1) = {[1 := sample_remote1]}) as E1 by (vm_compute; exact eq_refl).
  assert (a_refs (db_abs sample_db1) = {[(1, "v1") := sample_tag1]}) as E2 by (vm_compute; exact eq_refl).
  split; [rewrite E1|rewrite E2]; intros k r [_ <-]%lookup_singleton_Some; vm_compute; repeat split; discriminate.
Qed.

Definition sample_serves : string → server_state (S := db) → Prop :=
  serves (λ _, None) id sample_http_get (λ s, match ParseInt s with Some z => Ok z | None => Err s end) Ok bind_once (λ _ _, Ok None) (λ _ _, Ok None)
    (λ _, "error") id (λ _, false) (λ _ _, false) (λ _, None) (λ _, false) (λ _ _ _ _ _ _, None) (λ _ _, None) (λ _, mkResponse 404 "") false 20
    (mkIdp None None false 0) (λ _, "").

Lemma sample_served n : n ∈ ["1"; "2"] → sample_serves (sample_port n) sample_server.
Proof.
  intros Hn. split; [|split; [|split; [apply sample_db1_good|apply sample_ints]]].
  - intros timeout query. rewrite !elem_of_cons in Hn. destruct Hn as [->|[->|Hn]]; [| |by apply elem_of_nil in Hn];
      unfold sample_http_get; change (HasPrefix ?u ?p) with (String.prefix p u);
      (match goal with |- (if ?b then _ else _) = _ => assert (b = true) as -> by (cbn; destruct query; reflexivity) end); reflexivity.
  - rewrite !elem_of_cons in Hn. destruct Hn as [->|[->|Hn]]; [| |by apply elem_of_nil in Hn]; (split; [vm_compute; exact eq_refl|split; [vm_compute; exact eq_refl|eexists; vm_compute; exact eq_refl]]).
Qed.

Definition sample_run (args : list string) (order : list nat) : output :=
  runWithConfig (λ _, None) (λ _, false) id id (λ _, "flags") id id id id sample_git sample_http_get 30 sample_range order "dev" args [] "".

Definition sample_settings (servers : list string) (n : nat) : settings :=
  mkSettings (map sample_port (take n servers)) ModeQuorum (15 * Minute) (10 * Second) "https://h/r" "v1" (Hex oid_a) false false.

Lemma cli_end_to_end_witness : code (sample_run ["--server"; sample_port "1"; "--url"; "https://h/r"; "--tag=v1"] [0%nat]) = 0 ∧
  holds_clean sample_db1 "https://h/r" "v1" (Hex oid_a).
Proof.
  split; [vm_compute; exact eq_refl|].
  destruct (cli_end_to_end (λ _, None) (λ _, false) id id (λ _, "flags") id id id id sample_git sample_http_get
    (λ s, match ParseInt s with Some z => Ok z | None => Err s end) Ok bind_once (λ _ _, Ok None) (λ _ _, Ok None)
    (λ _, "error") id (λ _, false) (λ _ _, false) (λ _, None) (λ _, false) (λ _ _ _ _ _ _, None) (λ _ _, None) (λ _, mkResponse 404 "") false 20
    (mkIdp None None false 0) (λ _, "") bind_once_spec 30 sample_range [0%nat] "dev" (sample_port "1") sample_server (sample_settings ["1"] 1)
    ["--server"; sample_port "1"; "--url"; "https://h/r"; "--tag=v1"] [] "") as (u & norm & t & Hv & Hc).
  - eexists. split; [vm_compute; exact eq_refl|]. split; vm_compute; exact eq_refl.
  - reflexivity.
  - vm_compute. discriminate.
  - reflexivity.
  - apply sample_served. by left.
  - vm_compute in Hv. injection Hv as <- <- <-. destruct Hc as [_ Hc]. apply Hc. left. vm_compute. exact eq_refl.
Defined.

