(* ===== verification/SeedEndToEnd.v ===== *)
(** The seeder against the server: what a seeder fetches from a peer that runs this program
    is what the store of the peer holds, through query, router, handler, pages and JSON. *)
From S2P Require Import Prelude GoStrings GoNum GoMaps GoTime GoHttp GoUrl GoJson GoJsonProps Sha256 Model Chain StoreSpec Sqlc SqliteStore SqliteTx SqliteSpec SyncProps StoreProps Handlers HandlersProps Config Auth OapiWire Server Ctl WireProps GitUrl GitUrlProps ServerProps EndToEnd SeedMerge SeedProps Seed SeedWrite SeedClient.
#[local] Open Scope Z_scope.

(** * Pages *)

(** The highest id of a page, as the store computes it. *)
Definition page_next {A} (key : A → Z) (rows : list A) : Z := foldl (λ next r, if next <? key r then key r else next) 0 rows.

Lemma page_next_last {A} (key : A → Z) l a : StronglySorted Z.lt (key <$> l ++ [a]) → 0 < key a →
  page_next key (l ++ [a]) = key a.
Proof.
  intros Hs Hpos. unfold page_next. rewrite foldl_app. cbn.
  assert (foldl (λ next r, if next <? key r then key r else next) 0 l < key a) as Hlt; [|by destruct (Z.ltb_spec (foldl (λ next r, if next <? key r then key r else next) 0 l) (key a)); lia].
  assert (Forall (λ b, key b < key a) l) as Hf.
  { clear Hpos. induction l as [|b l IH]; [constructor|]. cbn in Hs. apply StronglySorted_inv in Hs as [Hs Hb]. constructor; [|auto].
    rewrite fmap_app, Forall_app in Hb. destruct Hb as [_ Hb]. by apply Forall_cons in Hb as [Hb _]. }
  clear Hs. revert Hpos. generalize 0. induction Hf as [|b l Hb _ IH]; intros z Hz; [done|]. cbn. apply IH. by destruct (Z.ltb_spec z (key b)).
Qed.

(** After a page the rows of higher id are the rest. *)
Lemma rows_after_page {A} (key : A → Z) l c n : StronglySorted Z.lt (key <$> l) → 0 ≤ c → (0 < n)%nat →
  let rows := List.filter (λ r, c <? key r) l in
  rows ≠ [] →
  c < page_next key (take n rows) ∧ List.filter (λ r, page_next key (take n rows) <? key r) l = drop n rows.
Proof.
  intros Hs Hc Hn rows Hne. pose proof (filter_keys_sorted key (λ r, c <? key r) l Hs) as Hr. fold rows in Hr.
  assert (take n rows ≠ []) as Ht by (destruct rows, n; done || lia).
  destruct (exists_last Ht) as (xs & x & E). rewrite E.
  assert (x ∈ rows) as Hx.
  { rewrite <- (take_drop n rows), E, !elem_of_app. left. right. by left. }
  assert (c < key x) as Hcx by (apply elem_of_filter_bool in Hx as [_ ?]; lia).
  rewrite <- (take_drop n rows), E in Hr. rewrite fmap_app in Hr. pose proof Hr as Hd.
  apply StronglySorted_app in Hr as (Hcross & H1 & H2). rewrite page_next_last by (done || lia). split; [done|].
  assert (List.filter (λ r, key x <? key r) l = List.filter (λ r, key x <? key r) rows) as ->.
  { subst rows. clear -Hcx. induction l as [|a l IH]; [done|]. cbn. destruct (Z.ltb_spec (key x) (key a)), (Z.ltb_spec c (key a)); try lia; cbn.
    - destruct (Z.ltb_spec (key x) (key a)); [by rewrite IH|lia].
    - destruct (Z.ltb_spec (key x) (key a)); [lia|done].
    - done. }
  rewrite <- (take_drop n rows) at 1. rewrite E, List.filter_app.
  rewrite (proj2 (filter_nil_iff _ _)), filter_all; [done|..].
  - intros a Ha. apply Z.ltb_lt. apply Hcross; [|by apply list_elem_of_fmap_2]. rewrite fmap_app. apply elem_of_app. right. by left.
  - intros a [Ha| ->%list_elem_of_singleton]%elem_of_app; [|lia]. rewrite fmap_app in H1. apply StronglySorted_app in H1 as (H1 & _ & _).
    assert (key a < key x); [|lia]. apply H1; [by apply list_elem_of_fmap_2|by left].
Qed.

Lemma page_next_ok {A} (key : A → Z) rows : Forall (λ r, int64_ok (key r)) rows → int64_ok (page_next key rows).
Proof.
  unfold page_next. assert (int64_ok 0) as H0 by done. revert H0. generalize 0. induction rows as [|r rows IH]; intros z Hz Hf; [done|].
  apply Forall_cons in Hf as [Hr Hf]. cbn. apply IH; [|done]. by destruct (z <? key r).
Qed.

(** Following the cursors of pages of [n] rows reads the rows in order. *)
Lemma paginate_rows {A B} (key : A → Z) (view : A → B) (l : list A) (n : nat) (get_page : Z → res (list B * option Z)) :
  StronglySorted Z.lt (key <$> l) → Forall (λ r, int64_ok (key r)) l → (0 < n)%nat →
  (∀ c, 0 ≤ c → int64_ok c → let rows := take n (List.filter (λ r, c <? key r) l) in
     get_page c = Ok (map view rows, Some (page_next key rows))) →
  ∀ maxPages c all, 0 ≤ c → int64_ok c →
  paginate get_page maxPages c all = Ok (all ++ map view (take (n * maxPages) (List.filter (λ r, c <? key r) l))).
Proof.
  intros Hs Hok Hn Hget. induction maxPages as [|m IH]; intros c all Hc Hc64; cbn [paginate].
  { rewrite Nat.mul_0_r. cbn. by rewrite app_nil_r. }
  rewrite Hget by done. cbv zeta. pose proof (rows_after_page key l c n Hs Hc Hn) as Hstep. cbv zeta in Hstep.
  destruct (List.filter (λ r, c <? key r) l) as [|r rows] eqn:E.
  { rewrite !take_nil. cbn. by rewrite app_nil_r. }
  rewrite <- E in *. destruct Hstep as [Hlt Hrest]; [by rewrite E|]. cbn [derefCursor default from_option id].
  assert (map view (take n (List.filter (λ r, c <? key r) l)) ≠ []) as Hne by (rewrite E; destruct n; [lia|done]).
  destruct (map view (take n _)) as [|b bs] eqn:Eb; [done|]. rewrite <- Eb. clear Hne Eb.
  destruct (Z.eqb_spec (page_next key (take n (List.filter (λ r, c <? key r) l))) 0) as [|_]; [lia|].
  destruct (Z.leb_spec (page_next key (take n (List.filter (λ r, c <? key r) l))) c) as [|_]; [lia|]. cbn [orb].
  rewrite IH; [|lia|].
  2:{ apply page_next_ok, Forall_take. rewrite Forall_forall in Hok |- *. intros x [Hx _]%elem_of_filter_bool. by apply Hok. }
  rewrite Hrest, <- app_assoc, <- map_app. do 3 f_equal. rewrite Nat.mul_succ_r, Nat.add_comm.
  by rewrite take_take_drop.
Qed.

(** * What the seeder reads of a body *)

Definition seed_Remote (r : Remote) : SeedMerge.wireRemote :=
  SeedMerge.mkWireRemote (rm_ID r) (to_valid (rm_URL r)) (to_valid (rm_NormalizedURL r)) (to_valid (rm_Transport r)) (rm_TaintAnyTagDeletion r).
Definition seed_Tag (r : Ref) : SeedMerge.wireTag :=
  SeedMerge.mkWireTag (rf_ID r) (rf_RemoteID r) (to_valid (rf_TagName r)) (to_valid <$> nonzero_hex (rf_CurrentOID r))
    (to_valid <$> nonzero_hex (rf_CurrentPeeledOID r)) (Some (rf_IsAnnotatedTag r)) (to_valid <$> nonzero_hex (rf_FirstOID r))
    (rf_FirstSeenNS r) (rf_LastSeenNS r) (rf_Deleted r) (rf_Tainted r) (rf_TaintFirstNS r).
Definition seed_TaintEvent (e : TaintEvent) : SeedMerge.wireTaintEvent :=
  SeedMerge.mkWireTaintEvent (te_ID e) (te_RemoteID e) (te_RefID e) (to_valid (te_Reason e)) (to_valid <$> nonzero_hex (te_FromOID e))
    (to_valid <$> nonzero_hex (te_ToOID e)) (te_DetectedAtNS e).

(** Machine integers in the columns that are read. *)
Definition Remote_ints (r : Remote) : Prop := int64_ok (rm_ID r).
Definition Ref_ints (r : Ref) : Prop :=
  Forall int64_ok [rf_ID r; rf_RemoteID r; rf_FirstSeenNS r; rf_LastSeenNS r] ∧ from_option int64_ok True (rf_TaintFirstNS r).
Definition Event_ints (e : TaintEvent) : Prop := Forall int64_ok [te_ID e; te_RemoteID e; te_RefID e; te_DetectedAtNS e].

Lemma read_seed_Remote r : Remote_ints r → seedRemote_of (clean (json_of_Remote (remoteToOAPI r))) = Some (seed_Remote r).
Proof.
  intros Hid. unfold Remote_ints in Hid. unfold json_of_Remote, seedRemote_of.
  cbn [orm_Id orm_Url orm_NormalizedUrl orm_Transport orm_TaintAnyTagDeletion remoteToOAPI]. read_struct.
Qed.
Lemma read_seed_Tag r : Ref_ints r → seedTag_of (clean (json_of_Tag (tagToOAPI r))) = Some (seed_Tag r).
Proof.
  intros [Hf Ht]. rewrite !Forall_cons in Hf. destruct_and!. unfold json_of_Tag, seedTag_of.
  change (from_option int64_ok True (otg_TaintFirstNs (tagToOAPI r))) in Ht. read_struct.
Qed.
Lemma read_seed_TaintEvent e : Event_ints e → seedTaintEvent_of (clean (json_of_TaintEvent (taintEventToOAPI e))) = Some (seed_TaintEvent e).
Proof.
  intros Hf. unfold Event_ints in Hf. rewrite !Forall_cons in Hf. destruct_and!. unfold json_of_TaintEvent, seedTaintEvent_of.
  read_struct.
Qed.

Lemma decode_encode {A} (j : json) (of_json : json → option A) : numbers_ok j = true → nesting j ≤ 3 →
  decode (encode j) ≫= of_json = of_json (clean j).
Proof. intros Hn Hd. destruct (json_roundtrip j nl) as [_ E]; [by right|done|unfold maxNestingDepth; lia|]. unfold encode. by rewrite E. Qed.

(** A page of rows. *)
Lemma decode_seed_list {R A B} (toOAPI : R → A) (enc : A → json) (dec : json → option B) (view : R → B) (rows : list R) next :
  (∀ a, flat_object (enc a)) → Forall (λ r, dec (clean (enc (toOAPI r))) = Some (view r)) rows → int64_ok next →
  decode (encode (json_of_page enc (mkPage (map toOAPI rows) (Some next)))) ≫= seedList_of dec = Some (map view rows, Some next).
Proof.
  intros Hflat Hread Hnext. destruct (page_depth enc (mkPage (map toOAPI rows) (Some next)) Hflat) as [Hn Hd].
  rewrite decode_encode by done. unfold json_of_page, seedList_of. close_members. clean_members. cbn [members mbind option_bind].
  eapply bind_Some_step.
  { rewrite (field_take "items" _ _ ("items", JArr (map clean (map enc (map toOAPI rows)))) _ (Some (map view rows))); [|by_eval|].
    - rewrite field_opt_skip by by_eval. reflexivity.
    - cbn [snd to_slice]. rewrite !map_map. by rewrite (mapM_Some_fmap _ _ view). }
  cbv beta. assert (from_option int64_ok True (Some next)) by done. read_members.
Qed.

(** * Urls *)

Lemma scheme_go_more p : ∀ a first x y, scheme_go first a = Some (Some (x, y)) → scheme_go first (a +:+ p) = Some (Some (x, y +:+ p)).
Proof.
  induction a as [|c a IH]; intros first x y; [by destruct first|]. cbn [String.append scheme_go]. set (l := _ || _). destruct l.
  - destruct (scheme_go false a) as [[[x' y']|]|] eqn:E; cbn; intros [= <- <-]. by rewrite (IH _ _ _ E).
  - destruct (Ascii.eqb c ":"); [|done]. destruct first; [done|]. by intros [= <- <-].
Qed.

Lemma HasPrefix_more a b p : HasPrefix a p = true → HasPrefix (a +:+ b) p = true.
Proof. unfold HasPrefix. rewrite !prefix_spec. intros [s ->]. exists (s +:+ b). by rewrite append_assoc. Qed.

Lemma unescape_slash s t : unescape (String "/" s) = Some t → t ≠ "".
Proof. rewrite unescape_char by done. by intros (x & _ & ->)%fmap_Some. Qed.

(** A base url takes any plain path. *)
Lemma Parse_rooted parse_bracketed base u path :
  string_forall (λ c, negb (Ascii.eqb c "?") && negb (Ascii.eqb c "#")) base = true →
  Parse parse_bracketed base = Some u → u_Host u ≠ "" → u_Scheme u ≠ "" → u_Path u = "" →
  string_forall path_char (String "/" path) = true →
  is_Some (Parse parse_bracketed (base +:+ String "/" path)).
Proof.
  intros Hb HP Hhost Hsch Hpath Hp. set (q := String "/" path) in *.
  assert (string_forall (λ c, negb (Ascii.eqb "?" c)) base = true) as Hb1.
  { rewrite <- no_char_sym. eapply string_forall_impl; [|exact Hb]. cbn. by intros c [? _]%andb_true_iff. }
  assert (string_forall (λ c, negb (Ascii.eqb "#" c)) base = true) as Hb2.
  { rewrite <- no_char_sym. eapply string_forall_impl; [|exact Hb]. cbn. by intros c [_ ?]%andb_true_iff. }
  assert (string_forall (λ c, negb (is_ctl c)) q = true) as Hq.
  { eapply string_forall_impl; [|exact Hp]. intros c (_ & Hc & _)%path_char_spec. by rewrite is_ctl_control. }
  pose proof HP as HP0. revert HP. unfold Parse at 1 2. unfold Cut. rewrite !IndexByte_none by (rewrite ?string_forall_append, ?Hb2, ?(path_no "#" q); done).
  cbn [mbind option_bind]. rewrite string_forall_append, Hq, andb_true_r.
  destruct (string_forall (λ c, negb (is_ctl c)) base); [|done].
  destruct (String.eqb_spec base "*") as [->|_]; [cbn; by intros [= <-]|].
  destruct (String.eqb_spec (base +:+ q) "*") as [E|_].
  { exfalso. destruct base as [|c base]; [vm_compute in HP0; by injection HP0 as <-|]. injection E as _ E.
    apply (f_equal String.length) in E. rewrite append_length in E. subst q. cbn in E. lia. }
  unfold getScheme. destruct (scheme_go true base) as [[[x y]|]|] eqn:Es; cbn [fmap option_fmap option_map from_option id mbind option_bind default]; [| |done].
  2:{ intros HP. destruct Hsch. revert HP. change (ToLower "") with "". repeat (case_match; try done);
      intros HP; repeat (apply bind_Some in HP as (? & _ & HP)); by injection HP as <-. }
  pose proof (scheme_go_rest _ _ _ _ _ Es Hb1) as Hy. rewrite (scheme_go_more q _ _ _ _ Es). cbn [fmap option_fmap option_map from_option id mbind option_bind default].
  rewrite (before_none "?" y) by done. rewrite (before_none "?" (y +:+ q)) by (rewrite string_forall_append, Hy, (path_no "?" q); done).
  destruct (String.eqb_spec (ToLower x) "") as [E|Hx].
  { intros HP. destruct Hsch. revert HP. rewrite E. repeat (case_match; try done);
      intros HP; repeat (apply bind_Some in HP as (? & _ & HP)); by injection HP as <-. }
  destruct (HasPrefix y "/") eqn:H1; cbn [negb andb]; [|intros HP; repeat (apply bind_Some in HP as (? & _ & HP)); by injection HP as <-].
  rewrite (HasPrefix_more y q "/") by done. cbn [negb andb orb].
  destruct (HasPrefix y "//") eqn:H2; [|intros HP; repeat (apply bind_Some in HP as (? & _ & HP)); by injection HP as <-].
  rewrite (HasPrefix_more y q "//") by done. assert (sdrop 2 (y +:+ q) = sdrop 2 y +:+ q) as ->.
  { unfold HasPrefix in H2. apply prefix_spec in H2 as [s ->]. done. }
  destruct (IndexByte (sdrop 2 y) "/") as [i|] eqn:Ei.
  { intros HP. exfalso. apply bind_Some in HP as (? & _ & HP). apply bind_Some in HP as (p & Hu & HP). apply bind_Some in HP as (? & _ & [= <-]).
    cbn in Hpath. subst p. apply IndexFunc_Some in Ei as (pre & c & post & E & <- & Hc & _). apply Ascii.eqb_eq in Hc as <-.
    rewrite E, sdrop_append in Hu. by apply unescape_slash in Hu. }
  unfold q at 1. unfold IndexByte. rewrite IndexFunc_append by (done || by apply IndexFunc_None). fold q.
  rewrite stake_append, sdrop_append. intros HP. apply bind_Some in HP as (ua & -> & HP). cbn [mbind option_bind].
  rewrite (unescape_id q) by by apply path_no. by eexists.
Qed.

(** ** The path of a listing *)

Definition listing_path (id : Z) (sub : string) : string := "/v1/remotes/" +:+ FormatInt id +:+ "/" +:+ sub.

Lemma pretty_N_go_is_digit x s : string_forall is_digit s = true → string_forall is_digit (pretty_N_go x s) = true.
Proof.
  revert s. induction (N.lt_wf_0 x) as [x _ IH]. intros s Hs. destruct (decide (0 < x)%N) as [Hx|Hx].
  - rewrite pretty_N_go_step by done. apply IH; [by apply N.div_lt|]. cbn [string_forall]. rewrite Hs, andb_true_r.
    assert (x mod 10 < 10)%N as Hm by (by apply N.mod_lt). unfold pretty_N_char. by repeat case_match.
  - assert (x = 0%N) as -> by lia. by rewrite pretty_N_go_0.
Qed.
Lemma FormatInt_is_digit z : 0 ≤ z → string_forall is_digit (FormatInt z) = true.
Proof.
  destruct z as [|x|x]; [done| |lia]. intros _. change (FormatInt (Z.pos x)) with (pretty_N_go (N.pos x) ""). by apply pretty_N_go_is_digit.
Qed.
Lemma FormatInt_lead z : 0 ≤ z → ∃ c t, FormatInt z = String c t ∧ is_digit c = true.
Proof.
  intros Hz. pose proof (FormatInt_is_digit z Hz) as Hd. destruct (FormatInt z) as [|c t] eqn:E.
  - exfalso. pose proof (valid_FormatInt z) as H. by rewrite E in H.
  - exists c, t. split; [done|]. cbn in Hd. by apply andb_true_iff in Hd as [? _].
Qed.
Lemma digit_path_char c : is_digit c = true → path_char c = true.
Proof.
  assert (for_bytes (λ c, negb (is_digit c) || path_char c) = true) as H by (vm_compute; exact eq_refl).
  intros Hc. apply (for_bytes_spec _ c) in H. cbn beta in H. by rewrite Hc in H.
Qed.
Lemma FormatInt_no c z : 0 ≤ z → is_digit c = false → string_forall (λ a, negb (Ascii.eqb a c)) (FormatInt z) = true.
Proof.
  intros Hz Hc. eapply string_forall_impl; [|by apply FormatInt_is_digit]. intros a Ha. cbn. destruct (Ascii.eqb_spec a c) as [->|]; [congruence|done].
Qed.

Lemma HasSuffix_after a b p : (String.length p ≤ String.length b)%nat → HasSuffix (a +:+ b) p = HasSuffix b p.
Proof.
  intros Hb. induction a as [|x a IH]; [done|]. rewrite <- IH. unfold HasSuffix. cbn [String.append String.length]. rewrite append_length.
  replace (S (String.length a + String.length b) - String.length p)%nat with (S (String.length a + String.length b - String.length p)) by lia.
  cbn [sdrop]. by rewrite !(proj2 (Nat.leb_le _ _)) by lia.
Qed.

Lemma listing_parts id sub : 0 ≤ id → sub ∈ ["tags"; "taint-events"] →
  cleanPath (listing_path id sub) = listing_path id sub ∧ segments (listing_path id sub) = ["v1"; "remotes"; FormatInt id; sub].
Proof.
  intros Hid Hsub. destruct (FormatInt_lead id Hid) as (c & t & E & Hc).
  assert (∃ a s, sub = String a s ∧ string_forall (λ c, negb (Ascii.eqb c "/")) sub = true ∧ HasSuffix sub "/" = false ∧ pathUnescape sub = sub ∧
    (String.eqb sub "" || String.eqb sub "." = false) ∧ String.eqb sub ".." = false) as (a & s & Es & H1 & H2 & H3 & H4 & H5).
  { rewrite !elem_of_cons in Hsub. destruct Hsub as [->|[->|Hsub]]; [eexists _, _; split; [reflexivity|vm_compute; split_and!; exact eq_refl]..|by apply elem_of_nil in Hsub]. }
  assert (Split (listing_path id sub) "/" = [""; "v1"; "remotes"; FormatInt id; sub]) as Hsp.
  { assert (listing_path id sub = Join [""; "v1"; "remotes"; FormatInt id; sub] "/") as -> by reflexivity.
    apply (Split_Join _ "/"); [done|]. repeat constructor; [by apply FormatInt_no|done]. }
  assert (pathUnescape (FormatInt id) = FormatInt id) as Hun.
  { unfold pathUnescape. rewrite unescape_id; [done|]. rewrite <- no_char_sym. by apply FormatInt_no. }
  assert (String.eqb (FormatInt id) "" || String.eqb (FormatInt id) "." = false ∧ String.eqb (FormatInt id) ".." = false) as [Hd1 Hd2].
  { rewrite E. cbn [String.eqb orb]. destruct (Ascii.eqb_spec c ".") as [->|]; [done|done]. }
  split.
  - unfold cleanPath. change (String.eqb (listing_path id sub) "") with false. change (HasPrefix (listing_path id sub) "/") with true. cbn iota.
    assert (Clean (listing_path id sub) = listing_path id sub) as ->.
    { unfold Clean. rewrite Hsp. cbn [clean_parts]. rewrite Hd1, Hd2, H4, H5. reflexivity. }
    assert (HasSuffix (listing_path id sub) "/" = false) as ->; [|done]. unfold listing_path. rewrite !append_assoc.
    rewrite HasSuffix_after; [done|]. rewrite Es. cbn. lia.
  - unfold segments. change (sdrop 1 (listing_path id sub)) with (Join ["v1"; "remotes"; FormatInt id; sub] "/").
    rewrite (Split_Join _ "/"); [|done|repeat constructor; [by apply FormatInt_no|done]]. cbn [map].
    rewrite Hun, H3. rewrite E, Es. reflexivity.
Qed.

(** The routes the two listings match. *)
Ltac decide_literals :=
  repeat match goal with
  | |- context [String.eqb ?x ?y] =>
      let b := eval vm_compute in (String.eqb x y) in
      lazymatch b with true => change (String.eqb x y) with true | false => change (String.eqb x y) with false end
  end; cbn [andb negb orb].

Lemma routed_listing id sub header op : 0 ≤ id → (sub, op) ∈ [("tags", "listTags"); ("taint-events", "listTaintEvents")] →
  mux_serves (HandlerWithOptions "") (mkRequest "GET" (listing_path id sub) header) = Some op ∧
  ∀ mux, newControlMux = Some mux → mux_pattern mux (mkRequest "GET" (listing_path id sub) header) = None.
Proof.
  intros Hid Hop. assert ((sub = "tags" ∧ op = "listTags") ∨ (sub = "taint-events" ∧ op = "listTaintEvents")) as Hcases.
  { apply elem_of_cons in Hop as [[= -> ->]|Hop]; [by left|]. apply list_elem_of_singleton in Hop as [= -> ->]. by right. }
  assert (sub ∈ ["tags"; "taint-events"]) as Hsub by (destruct Hcases as [[-> _]|[-> _]]; [by left|by right; left]).
  destruct (listing_parts id sub Hid Hsub) as [Hclean Hsegs]. destruct (FormatInt_lead id Hid) as (c & t & E & Hc).
  assert (String.eqb (FormatInt id) "/" = false) as Hslash.
  { rewrite E. cbn. by destruct (Ascii.eqb_spec c "/") as [->|]. }
  split.
  - unfold mux_serves, mux_pattern. cbn [r_EscapedPath r_Method]. rewrite Hclean, String.eqb_refl. unfold find_route. rewrite Hsegs.
    set (routes := HandlerWithOptions ""). vm_compute in routes. subst routes. cbn [List.find ro_method ro_segs segs_match]. rewrite Hslash.
    destruct Hcases as [[-> ->]|[-> ->]]; decide_literals; reflexivity.
  - intros mux Hm. vm_compute in Hm. injection Hm as <-. unfold mux_pattern. cbn [r_EscapedPath r_Method]. rewrite Hclean. unfold find_route. rewrite Hsegs.
    cbn [List.find ro_method ro_segs segs_match]. rewrite Hslash.
    destruct Hcases as [[-> ->]|[-> ->]]; decide_literals; reflexivity.
Qed.

(** * A peer that runs this program *)

(** What a store holds, in the order of a listing; a deleted remote is there too. *)
Definition held_remotes (d : db) : list Remote := map remoteFromRow (ORDER_BY rr_ID (List.filter (λ r, 0 <? rr_ID r) (t_remotes d))).
Definition held_tags (d : db) (rid : Z) : list Ref :=
  List.filter (λ r, 0 <? rf_ID r) (map refFromRow (ORDER_BY_name fr_TagName (List.filter (λ r, fr_RemoteID r =? rid) (t_refs d)))).
Definition held_events (d : db) (rid : Z) : list TaintEvent :=
  map taintEventFromRow (ORDER_BY tr_ID (List.filter (λ e, (tr_RemoteID e =? rid) && (0 <? tr_ID e)) (t_taint_events d))).

(** A store in order: keys are keys, and the columns hold machine integers. *)
Record seedable (d : db) : Prop := {
  se_ok : db_ok d;
  se_event_ids : NoDup (tr_ID <$> t_taint_events d);
  se_remotes : Forall (λ r, Remote_ints (remoteFromRow r)) (t_remotes d);
  se_tags : Forall (λ r, Ref_ints (refFromRow r)) (t_refs d);
  se_events : Forall (λ e, Event_ints (taintEventFromRow e)) (t_taint_events d);
}.

(** At most a page of tags: following the cursors of more would miss some. *)
Definition tags_fit (d : db) (rid : Z) : Prop := (length (held_tags d rid) ≤ 1000)%nat.

Lemma page_query_sorted c : ParseQuery (Encode (page_query c)) = [("cursor", FormatInt c); ("limit", "1000")].
Proof.
  rewrite ParseQuery_Encode; [|intros E; apply (f_equal (.!! "limit")) in E; vm_compute in E; discriminate E|].
  - assert (sort_Strings (map fst (map_to_list (page_query c))) = ["cursor"; "limit"]) as -> by (vm_compute; exact eq_refl).
    cbn [map]. unfold page_query. rewrite lookup_insert_eq, lookup_insert_ne, lookup_singleton_eq by done. done.
  - unfold page_query. rewrite map_size_insert_None; [by rewrite map_size_singleton|]. by rewrite lookup_singleton_ne.
Qed.

Lemma page_query_chars c : string_forall (λ c, negb (is_ctl c) && negb (Ascii.eqb c "#")) (Encode (page_query c)) = true.
Proof.
  assert (Encode (page_query c) = Join (map pair_text [("cursor", FormatInt c); ("limit", "1000")]) "&") as ->.
  { unfold Encode. assert (sort_Strings (map fst (map_to_list (page_query c))) = ["cursor"; "limit"]) as -> by (vm_compute; exact eq_refl).
    cbn [map]. unfold page_query. rewrite lookup_insert_eq, lookup_insert_ne, lookup_singleton_eq by done. done. }
  unfold pair_text. cbn [map Join fst snd]. rewrite !string_forall_append. by rewrite !query_chars.
Qed.

(** ** One page of the store *)

Lemma remotes_page normalize d c : seedable d →
  let rows := take 1000 (List.filter (λ r, c <? rr_ID r) (ORDER_BY rr_ID (t_remotes d))) in
  Handlers.ListRemotes (S := db) (T := sqliteTx) normalize None (Some 1000) (Some c) d =
    Ok (Success 200 (mkPage (map (remoteToOAPI ∘ remoteFromRow) rows) (Some (page_next rr_ID rows))), d).
Proof.
  intros Hd rows. change (map (remoteToOAPI ∘ remoteFromRow) rows) with (map (λ r, remoteToOAPI (remoteFromRow r)) rows). rewrite <- map_map.
  subst rows. rewrite <- ORDER_BY_filter by apply Hd. reflexivity.
Qed.

Lemma with_known_remote {A} d rid rem (k : Remote → SE db error (response A)) : a_remotes (db_abs d) !! rid = Some rem →
  with_remote (S := db) (T := sqliteTx) rid k d = k rem d.
Proof.
  intros H. unfold with_remote, mbind, SE_bind, catch. cbn [st_GetRemote sqlite_store]. rewrite (GetRemote_spec d rid), H. reflexivity.
Qed.

Lemma events_page d rid rem c : seedable d → a_remotes (db_abs d) !! rid = Some rem →
  let rows := take 1000 (List.filter (λ e, c <? tr_ID e) (ORDER_BY tr_ID (List.filter (λ e, tr_RemoteID e =? rid) (t_taint_events d)))) in
  Handlers.ListTaintEvents (S := db) (T := sqliteTx) rid (Some 1000) (Some c) d =
    Ok (Success 200 (mkPage (map (taintEventToOAPI ∘ taintEventFromRow) rows) (Some (page_next tr_ID rows))), d).
Proof.
  intros Hd Hrem rows. unfold Handlers.ListTaintEvents. rewrite (with_known_remote d rid rem) by done.
  change (map (taintEventToOAPI ∘ taintEventFromRow) rows) with (map (λ r, taintEventToOAPI (taintEventFromRow r)) rows). rewrite <- map_map.
  subst rows. rewrite <- ORDER_BY_filter by (apply NoDup_fmap_filter, Hd). rewrite filter_and. reflexivity.
Qed.

Lemma tags_page d rid rem : seedable d → tags_fit d rid → a_remotes (db_abs d) !! rid = Some rem →
  Handlers.ListTags (S := db) (T := sqliteTx) rid (mkListTagsParams None None (Some 1000) (Some 0)) d =
    Ok (Success 200 (mkPage (map tagToOAPI (held_tags d rid)) (Some 0)), d).
Proof.
  intros Hd Hfit Hrem. unfold Handlers.ListTags. rewrite (with_known_remote d rid rem) by done. cbn [lt_Q lt_Tainted lt_Limit lt_Cursor default from_option id].
  unfold mbind, SE_bind. cbn [st_ListTags sqlite_store]. unfold SqliteStore.ListTags.
  change (run_q (Sqlc.ListTags rid)) with (λ d : db, Ok (ORDER_BY_name fr_TagName (List.filter (λ r, fr_RemoteID r =? rid) (t_refs d)), d) : result error _).
  unfold mbind, SE_bind, mret, SE_ret. do 3 f_equal.
  rewrite (filter_all (tag_selected _ _)) by done. unfold tag_page, tags_fit, held_tags in *.
  set (l := map refFromRow _) in *. clearbody l.
  assert (List.filter (λ it, 0 <? otg_Id it) (map tagToOAPI l) = map tagToOAPI (List.filter (λ r, 0 <? rf_ID r) l)) as ->.
  { clear. induction l as [|r l IH]; [done|]. cbn. destruct (0 <? rf_ID r); cbn; by rewrite IH. }
  rewrite length_map. change (page_limit (Some 1000)) with 1000. destruct (Z.ltb_spec 1000 (Z.of_nat (length (List.filter (λ r, 0 <? rf_ID r) l)))); [lia|done].
Qed.

Section seed_end_to_end.
Context (parse_bracketed : string → option string) (loopback_ip6 : string → bool) (unicode_lower : string → string).
Context (http_get : string → result string (Z * string)).
Context (bind_int64 : string → result string Z) (bind_string : string → result string string).
Context (query_string : bool → string → Values → result bind_error (option string)).
Context (query_int query_int64 : string → Values → result bind_error (option Z)).
Context (error_text : error → string) (decode_error : string → string) (malformed : string → bool).
Context (CompareHashAndPassword : string → string → bool).
Context (jws_Parse : string → option (list jws_header)) (IsSymmetric : string → bool).
Context (jwt_Parse : string → list jwk → string → string → Z → Z → option (option string)).
Context (AddKey : list jwk → jwk → option (list jwk)) (mux_default : Request → http_response).
Context (has_syncer : bool) (now : Z) (e : idp) (header : string → string).

(** An integer in decimal is bound to its value, and a parameter that is not there to none. *)
Record binding_ok : Prop := {
  bind_decimal : ∀ z, int64_ok z → bind_int64 (FormatInt z) = Ok z;
  bind_absent : ∀ name vs, List.filter (λ kv, String.eqb kv.1 name) vs = [] → query_string false name vs = Ok None;
  bind_int_once : ∀ name vs z, int64_ok z → List.filter (λ kv, String.eqb kv.1 name) vs = [(name, FormatInt z)] → query_int name vs = Ok (Some z);
  bind_int64_once : ∀ name vs z, int64_ok z → List.filter (λ kv, String.eqb kv.1 name) vs = [(name, FormatInt z)] → query_int64 name vs = Ok (Some z);
}.
Context (Hbind : binding_ok).

Abbreviation get := (get_from parse_bracketed unicode_lower bind_int64 bind_string query_string query_int query_int64 error_text decode_error malformed
  CompareHashAndPassword jws_Parse IsSymmetric jwt_Parse AddKey mux_default has_syncer now e header).
Abbreviation authenticated := (Auth.NewServer CompareHashAndPassword jws_Parse IsSymmetric jwt_Parse AddKey).

(** The server at a base url has a state, and the seeder accepts the url. *)
Record serves_peer (base : string) (insecure : bool) (sv : server_state (S := db)) : Prop := {
  peer_reached : ∀ path query, string_forall path_char path = true → http_get (base +:+ path +:+ "?" +:+ query) = get sv path query;
  peer_accepted : checkPeerURL parse_bracketed loopback_ip6 base insecure = true;
  peer_plain : TrimRight base "/" = base ∧ string_forall (λ c, negb (Ascii.eqb c "?") && negb (Ascii.eqb c "#")) base = true ∧
    from_option u_Path "" (Parse parse_bracketed base) = "";
  peer_store : seedable (sv_store sv);
}.

(** ** The server's answers *)

Lemma listing_routed sv id sub op : 0 ≤ id → (sub, op) ∈ [("tags", "listTags"); ("taint-events", "listTaintEvents")] →
  authenticated e sv (mkRequest "GET" (listing_path id sub) header) = Some (Handled op None, sv).
Proof.
  intros Hid Hop. destruct (routed_listing id sub header op Hid Hop) as [Hserve Hmux]. unfold Auth.NewServer.
  destruct newControlMux as [mux|] eqn:Em; [|by vm_compute in Em]. cbn [mbind option_bind]. unfold Middleware. rewrite (Hmux mux) by done. by rewrite Hserve.
Qed.

Lemma remotes_routed sv : authenticated e sv (mkRequest "GET" "/v1/remotes" header) = Some (Handled "listRemotes" None, sv).
Proof. vm_compute. exact eq_refl. Qed.

Lemma bind_limit c : query_int "limit" [("cursor", FormatInt c); ("limit", "1000")] = Ok (Some 1000).
Proof. apply (bind_int_once Hbind); done. Qed.
Lemma bind_cursor c : int64_ok c → query_int64 "cursor" [("cursor", FormatInt c); ("limit", "1000")] = Ok (Some c).
Proof. intros Hc. by apply (bind_int64_once Hbind). Qed.

Lemma get_remotes_page sv c : seedable (sv_store sv) → int64_ok c →
  let rows := take 1000 (List.filter (λ r, c <? rr_ID r) (ORDER_BY rr_ID (t_remotes (sv_store sv)))) in
  get sv "/v1/remotes" (Encode (page_query c)) =
    Ok (200, encode (json_of_page json_of_Remote (mkPage (map (remoteToOAPI ∘ remoteFromRow) rows) (Some (page_next rr_ID rows))))).
Proof.
  intros Hd Hc rows. unfold get_from, ServeHTTP. cbn [h_Head]. rewrite remotes_routed. cbn [mbind option_bind]. unfold dispatch.
  cbn [String.eqb Ascii.eqb Bool.eqb]. unfold on_store, siw_ListRemotes, opt_string, opt_int, opt_int64, Query. cbn [h_RawQuery].
  rewrite page_query_sorted, (bind_absent Hbind) by done. cbn [query_param]. rewrite bind_limit, bind_cursor by done. cbn [query_param sv_store].
  unfold strict_ListRemotes, respond. rewrite remotes_page by done. reflexivity.
Qed.

Lemma listing_id id sub query : 0 ≤ id → int64_ok id → sub ∈ ["tags"; "taint-events"] →
  bind_int64 (PathValue 2 (mkHttp (mkRequest "GET" (listing_path id sub) header) query "")) = Ok id.
Proof.
  intros Hid Hok Hsub. destruct (listing_parts id sub Hid Hsub) as [Hclean Hsegs]. unfold PathValue. cbn [h_Head r_EscapedPath].
  rewrite Hclean, Hsegs. by apply (bind_decimal Hbind).
Qed.

Lemma get_events_page sv id rem c : seedable (sv_store sv) → 0 ≤ id → int64_ok id → int64_ok c → a_remotes (db_abs (sv_store sv)) !! id = Some rem →
  let rows := take 1000 (List.filter (λ e, c <? tr_ID e) (ORDER_BY tr_ID (List.filter (λ e, tr_RemoteID e =? id) (t_taint_events (sv_store sv))))) in
  get sv (listing_path id "taint-events") (Encode (page_query c)) =
    Ok (200, encode (json_of_page json_of_TaintEvent (mkPage (map (taintEventToOAPI ∘ taintEventFromRow) rows) (Some (page_next tr_ID rows))))).
Proof.
  intros Hd Hid Hok Hc Hrem rows. unfold get_from, ServeHTTP. cbn [h_Head]. rewrite (listing_routed _ _ _ "listTaintEvents") by (done || by right; left).
  cbn [mbind option_bind]. unfold dispatch. cbn [String.eqb Ascii.eqb Bool.eqb]. unfold on_store, siw_ListTaintEvents, path_int64.
  rewrite listing_id by (done || by right; left). unfold opt_int, opt_int64, Query. cbn [h_RawQuery].
  rewrite page_query_sorted, bind_limit, bind_cursor by done. cbn [query_param sv_store].
  unfold strict_ListTaintEvents, respond. rewrite (events_page _ _ rem) by done. reflexivity.
Qed.

Lemma get_tags_page sv id rem : seedable (sv_store sv) → tags_fit (sv_store sv) id → 0 ≤ id → int64_ok id → a_remotes (db_abs (sv_store sv)) !! id = Some rem →
  get sv (listing_path id "tags") (Encode (page_query 0)) =
    Ok (200, encode (json_of_page json_of_Tag (mkPage (map tagToOAPI (held_tags (sv_store sv) id)) (Some 0)))).
Proof.
  intros Hd Hfit Hid Hok Hrem. unfold get_from, ServeHTTP. cbn [h_Head]. rewrite (listing_routed _ _ _ "listTags") by (done || by left).
  cbn [mbind option_bind]. unfold dispatch. cbn [String.eqb Ascii.eqb Bool.eqb]. unfold on_store, siw_ListTags, path_int64.
  rewrite listing_id by (done || by left). unfold opt_string, opt_int, opt_int64, Query. cbn [h_RawQuery].
  rewrite page_query_sorted, (bind_absent Hbind "q"), (bind_absent Hbind "tainted") by done. cbn [query_param].
  rewrite bind_limit, bind_cursor by done. cbn [query_param sv_store].
  unfold strict_ListTags, respond. rewrite (tags_page _ _ rem) by done. reflexivity.
Qed.

(** ** The client's requests *)

Abbreviation client := (newPeerClient parse_bracketed loopback_ip6 http_get).

Lemma get_json {A} (of_json : json → option A) base insecure sv path c (j : json) a :
  serves_peer base insecure sv → string_forall path_char (String "/" path) = true →
  get sv (String "/" path) (Encode (page_query c)) = Ok (200, encode j) → decode (encode j) ≫= of_json = Some a →
  SeedClient.getJSON parse_bracketed http_get of_json base (String "/" path) (page_query c) = Ok a.
Proof.
  intros [Hreach Hacc (_ & Hchars & Hroot) _] Hpath Hget Hdec. unfold SeedClient.getJSON. rewrite decide_False; [|intros E; apply (f_equal (.!! "limit")) in E; vm_compute in E; discriminate E].
  assert (is_Some (Parse parse_bracketed (base +:+ String "/" path +:+ "?" +:+ Encode (page_query c)))) as [u ->].
  { unfold checkPeerURL in Hacc. destruct (Parse parse_bracketed base) as [u|] eqn:E; [|done]. destruct (String.eqb_spec (u_Host u) "") as [|Hhost]; [done|].
    rewrite append_assoc, Parse_query; [| | |apply page_query_chars].
    - eapply Parse_rooted; [done|exact E|done| |exact Hroot|done]. intros Hs. rewrite Hs in Hacc. by vm_compute in Hacc.
    - rewrite string_forall_append, Hchars. eapply string_forall_impl; [|exact Hpath]. intros a0 (Hn & _)%path_char_spec.
      destruct (Ascii.eqb_spec a0 "?") as [->|]; [by vm_compute in Hn|]. destruct (Ascii.eqb_spec a0 "#") as [->|]; [by vm_compute in Hn|done].
    - intros Es. destruct base as [|x base]; [by vm_compute in E; injection E as <-|].
      apply (f_equal String.length) in Es. cbn in Es. rewrite append_length in Es. cbn in Es. lia. }
  rewrite (Hreach (String "/" path)) by done. rewrite Hget. cbn [negb]. change (200 =? 200) with true. cbn [negb]. by rewrite Hdec.
Qed.

Lemma listing_path_chars id sub : 0 ≤ id → sub ∈ ["tags"; "taint-events"] → string_forall path_char (listing_path id sub) = true.
Proof.
  intros Hid Hsub. unfold listing_path. rewrite !string_forall_append. rewrite (string_forall_impl is_digit path_char (FormatInt id)) by (exact digit_path_char || by apply FormatInt_is_digit).
  rewrite !elem_of_cons in Hsub. by destruct Hsub as [->|[->|?%elem_of_nil]].
Qed.

Lemma rows_ok {A} (P : A → Prop) p key n l : Forall P l → Forall P (take n (List.filter p (ORDER_BY key l))).
Proof.
  intros H. apply Forall_take. rewrite Forall_forall in H |- *. intros x [Hx _]%elem_of_filter_bool. apply H.
  by rewrite <- (ORDER_BY_Permutation key l).
Qed.

Lemma fetched_remotes base insecure sv n : serves_peer base insecure sv →
  listRemotes (client insecure base) n = Ok (map seed_Remote (take (1000 * Z.to_nat n) (held_remotes (sv_store sv)))).
Proof.
  intros Hp. pose proof (peer_store _ _ _ Hp) as Hd. destruct (peer_plain _ _ _ Hp) as (Htrim & _). unfold listRemotes, newPeerClient. cbn [get_remotes]. rewrite Htrim.
  rewrite (paginate_rows rr_ID (seed_Remote ∘ remoteFromRow) (ORDER_BY rr_ID (t_remotes (sv_store sv))) 1000); [|apply ORDER_BY_strict, Hd| |lia| |lia|done].
  - cbn [app]. unfold held_remotes. rewrite ORDER_BY_filter by apply Hd. by rewrite firstn_map, map_map.
  - rewrite Forall_forall. intros r Hr. rewrite ORDER_BY_Permutation in Hr. by apply (proj1 (Forall_forall _ _) (se_remotes _ Hd)).
  - intros c _ Hc rows. eapply (get_json _ base insecure sv "v1/remotes" c); [done|done|by apply get_remotes_page|].
    apply (decode_seed_list (remoteToOAPI ∘ remoteFromRow) json_of_Remote seedRemote_of (seed_Remote ∘ remoteFromRow)); [apply flat_Remote| |].
    + eapply Forall_impl; [apply rows_ok, (se_remotes _ Hd)|]. intros r Hr. by apply read_seed_Remote.
    + apply page_next_ok. eapply Forall_impl; [apply rows_ok, (se_remotes _ Hd)|]. done.
Qed.

Lemma fetched_events base insecure sv rid rem n : serves_peer base insecure sv → 0 ≤ rid → int64_ok rid → a_remotes (db_abs (sv_store sv)) !! rid = Some rem →
  listTaintEvents (client insecure base) rid n = Ok (map seed_TaintEvent (take (1000 * Z.to_nat n) (held_events (sv_store sv) rid))).
Proof.
  intros Hp Hid Hok Hrem. pose proof (peer_store _ _ _ Hp) as Hd. destruct (peer_plain _ _ _ Hp) as (Htrim & _). unfold listTaintEvents, newPeerClient. cbn [get_events]. rewrite Htrim.
  set (mine := List.filter (λ ev, tr_RemoteID ev =? rid) (t_taint_events (sv_store sv))).
  assert (NoDup (tr_ID <$> mine)) as Hnd by apply NoDup_fmap_filter, Hd.
  assert (Forall (λ ev, Event_ints (taintEventFromRow ev)) mine) as Hints.
  { pose proof (se_events _ Hd) as H. rewrite Forall_forall in H |- *. intros ev [Hev _]%elem_of_filter_bool. by apply H. }
  rewrite (paginate_rows tr_ID (seed_TaintEvent ∘ taintEventFromRow) (ORDER_BY tr_ID mine) 1000); [|by apply ORDER_BY_strict| |lia| |lia|done].
  - cbn [app]. unfold held_events. rewrite <- filter_and. fold mine. rewrite ORDER_BY_filter by done. by rewrite firstn_map, map_map.
  - rewrite Forall_forall. intros ev Hev. rewrite ORDER_BY_Permutation in Hev. apply (proj1 (Forall_forall _ _) Hints) in Hev. by apply Forall_cons in Hev as [? _].
  - intros c _ Hc rows. eapply (get_json _ base insecure sv ("v1/remotes/" +:+ FormatInt rid +:+ "/taint-events") c);
      [done|by apply (listing_path_chars rid "taint-events"); [done|right; left]|by apply (get_events_page sv rid rem)|].
    apply (decode_seed_list (taintEventToOAPI ∘ taintEventFromRow) json_of_TaintEvent seedTaintEvent_of (seed_TaintEvent ∘ taintEventFromRow)); [apply flat_TaintEvent| |].
    + eapply Forall_impl; [apply rows_ok, Hints|]. intros ev Hev. by apply read_seed_TaintEvent.
    + apply page_next_ok. eapply Forall_impl; [apply rows_ok, Hints|]. intros ev Hev. by apply Forall_cons in Hev as [? _].
Qed.

Lemma fetched_tags base insecure sv rid rem n : serves_peer base insecure sv → tags_fit (sv_store sv) rid → 0 < n →
  0 ≤ rid → int64_ok rid → a_remotes (db_abs (sv_store sv)) !! rid = Some rem →
  listTags (client insecure base) rid n = Ok (map seed_Tag (held_tags (sv_store sv) rid)).
Proof.
  intros Hp Hfit Hn Hid Hok Hrem. pose proof (peer_store _ _ _ Hp) as Hd. destruct (peer_plain _ _ _ Hp) as (Htrim & _). unfold listTags, newPeerClient. cbn [get_tags]. rewrite Htrim.
  destruct (Z.to_nat n) as [|m] eqn:E; [lia|]. cbn [paginate].
  rewrite (get_json _ base insecure sv ("v1/remotes/" +:+ FormatInt rid +:+ "/tags") 0 (json_of_page json_of_Tag (mkPage (map tagToOAPI (held_tags (sv_store sv) rid)) (Some 0)))
    (map seed_Tag (held_tags (sv_store sv) rid), Some 0)); [by destruct (map seed_Tag _)|done|by apply (listing_path_chars rid "tags"); [done|left]|by apply (get_tags_page sv rid rem)|].
  apply (decode_seed_list tagToOAPI json_of_Tag seedTag_of seed_Tag); [apply flat_Tag| |done].
  pose proof (proj1 (Forall_forall _ _) (se_tags _ Hd)) as H. apply Forall_forall. intros r [Hr _]%elem_of_filter_bool. apply read_seed_Tag.
  apply list_elem_of_fmap in Hr as (row & -> & Hrow). apply H. rewrite ORDER_BY_name_Permutation in Hrow.
  by apply elem_of_filter_bool in Hrow as [? _].
Qed.

(** ** The view of a peer *)

(** What the seeder makes of a remote the store holds, within [maxPages] pages of events. *)
Definition held_view (d : db) (base : string) (maxPages : Z) (r : Remote) : peerRemoteView :=
  mkPeerRemoteView base (seed_Remote r) (map seed_Tag (held_tags d (rm_ID r)))
    (map seed_TaintEvent (take (1000 * Z.to_nat maxPages) (held_events d (rm_ID r)))).

Lemma held_remotes_spec d r : db_ok d → r ∈ held_remotes d ↔ a_remotes (db_abs d) !! rm_ID r = Some r ∧ 0 < rm_ID r.
Proof.
  intros Hd. unfold held_remotes. rewrite list_elem_of_fmap. setoid_rewrite ORDER_BY_Permutation. setoid_rewrite elem_of_filter_bool.
  setoid_rewrite Z.ltb_lt. split.
  - intros (x & -> & Hx & Hp). split; [|done]. by apply (tmap_elem rr_ID remoteFromRow _ x (ok_remote_ids _ Hd)).
  - intros [(x & Hx & Hk & <-)%tmap_inv Hp]. by exists x.
Qed.
Lemma held_tags_spec d rid r : db_ok d → r ∈ held_tags d rid ↔ a_refs (db_abs d) !! (rid, rf_TagName r) = Some r ∧ 0 < rf_ID r.
Proof.
  intros Hd. destruct (ListTags_spec d rid Hd) as (l & [= <-] & _ & Hl). unfold held_tags.
  rewrite elem_of_filter_bool, Z.ltb_lt. by rewrite <- Hl.
Qed.
Lemma held_events_spec d rid ev : ev ∈ held_events d rid ↔ ev ∈ a_events (db_abs d) ∧ te_RemoteID ev = rid ∧ 0 < te_ID ev.
Proof.
  unfold held_events, db_abs. cbn [a_events]. rewrite !list_elem_of_fmap. setoid_rewrite ORDER_BY_Permutation. setoid_rewrite elem_of_filter_bool.
  setoid_rewrite andb_true_iff. setoid_rewrite Z.eqb_eq. setoid_rewrite Z.ltb_lt. split.
  - intros (x & -> & Hx & Hr & Hp). eauto.
  - intros [(x & -> & Hx) [Hr Hp]]. by exists x.
Qed.
Lemma in_order_all {A} (l : list A) order : order ≡ₚ seq 0 (length l) → in_order order (map Some l) ≡ₚ l.
Proof.
  intros Ho. unfold in_order. rewrite Ho. clear Ho. assert (∀ pre, omap (λ i, mjoin (map Some (pre ++ l) !! i)) (seq (length pre) (length l)) = l) as H; [|pose proof (H []) as E; cbn [app length] in E; by rewrite E].
  induction l as [|a l IH]; intros pre; [done|]. cbn [length seq omap list_omap]. rewrite list_lookup_fmap, list_lookup_middle by done. cbn. f_equal.
  specialize (IH (pre ++ [a])). by rewrite length_app, Nat.add_1_r, <- app_assoc in IH.
Qed.

End seed_end_to_end.

(** * A peer on this machine *)

Definition bind_int_sample (name : string) (vs : Values) : result bind_error (option Z) :=
  match List.filter (λ kv, String.eqb kv.1 name) vs with
  | [] => Ok None
  | [(_, v)] => match ParseInt v with Some z => Ok (Some z) | None => Err (BindError v) end
  | _ => Err (BindError "multiple values")
  end.
Definition bind_path_sample (s : string) : result string Z := match ParseInt s with Some z => Ok z | None => Err s end.

Lemma binding_sample : binding_ok bind_path_sample bind_once bind_int_sample bind_int_sample.
Proof.
  split.
  - intros z Hz. unfold bind_path_sample. by rewrite ParseInt_FormatInt.
  - intros name vs H. unfold bind_once. by rewrite H.
  - intros name vs z Hz H. unfold bind_int_sample. rewrite H. by rewrite ParseInt_FormatInt.
  - intros name vs z Hz H. unfold bind_int_sample. rewrite H. by rewrite ParseInt_FormatInt.
Qed.

Definition peer_get_from : server_state (S := db) → string → string → result string (Z * string) :=
  get_from (λ _, None) id bind_path_sample Ok bind_once bind_int_sample bind_int_sample (λ _, "error") id (λ _, false)
    (λ _ _, false) (λ _, None) (λ _, false) (λ _ _ _ _ _ _, None) (λ _ _, None) (λ _, mkResponse 404 "") false 20 (mkIdp None None false 0) (λ _, "").

(** The server [sv] behind the first port. *)
Definition peer_http_get (sv : server_state (S := db)) (url : string) : result string (Z * string) :=
  if HasPrefix url (sample_port "1") then
    match Cut (sdrop (String.length (sample_port "1")) url) "?" with
    | Some (path, query) => peer_get_from sv path query
    | None => Err "no query"
    end
  else Err "connection refused".

Definition sample_client (sv : server_state (S := db)) : peer :=
  newPeerClient (λ _, None) (λ _, false) (peer_http_get sv) false (sample_port "1").

Definition sample_serves_peer : server_state (S := db) → Prop := λ sv,
  serves_peer (λ _, None) (λ _, false) id (peer_http_get sv) bind_path_sample Ok bind_once bind_int_sample bind_int_sample (λ _, "error") id (λ _, false)
    (λ _ _, false) (λ _, None) (λ _, false) (λ _ _ _ _ _ _, None) (λ _ _, None) (λ _, mkResponse 404 "") false 20 (mkIdp None None false 0) (λ _, "")
    (sample_port "1") false sv.

Lemma sample_peer sv : seedable (sv_store sv) → sample_serves_peer sv.
Proof.
  intros Hd. split; [|vm_compute; exact eq_refl|split_and!; vm_compute; exact eq_refl|exact Hd].
  intros path query Hpath. unfold peer_http_get. rewrite HasPrefix_append, sdrop_append.
  change (path +:+ "?" +:+ query) with (path +:+ String "?" query). by rewrite Cut_append by by apply path_no.
Qed.

(** The sample store, and the same after its remote was deleted. *)
Definition deleted_db : db := Eval vm_compute in
  match SqliteStore.SoftDeleteRemote 1 9 sample_db1 with Ok (_, d) => d | Err _ => sample_db1 end.

Lemma deleted_seedable : seedable deleted_db.
Proof.
  assert (sound sample_db1 deleted_db) as Hs by (apply (safe_SoftDeleteRemote 1 9 sample_db1 ()); vm_compute; exact eq_refl).
  split; [apply Hs, sample_db1_good|vm_compute; constructor|..]; apply Forall_forall; cbn [t_remotes t_refs t_taint_events deleted_db].
  - intros r ->%list_elem_of_singleton. vm_compute. split; [discriminate|exact eq_refl].
  - intros r ->%list_elem_of_singleton. split; [repeat constructor; vm_compute; (discriminate || exact eq_refl)|exact I].
  - by intros ev ?%elem_of_nil.
Qed.

Definition sample_seed_config : SeedConfig := mkSeedConfig (sample_port "1") "" 1 100 1000 2 60 120.
Definition deleted_server : server_state (S := db) := mkServer deleted_db ∅ noneAuth.


(** A remote that was deleted on the peer comes back.  The listing of remotes has no filter
    on [removed_at_ns], and the seeder does not read the field: it registers the remote as an
    active one and the scheduler polls it again. *)
Theorem seed_restores_deleted :
  rm_RemovedAtNS <$> a_remotes (db_abs deleted_db) !! 1 = Some (Some 9) ∧
  let d := Seed.Run (S := db) (T := sqliteTx) sample_seed_config seed_range (λ _, sample_client deleted_server) [0%nat] (λ _, [0%nat]) 20 empty_db in
  ∃ r, a_remotes (db_abs d) !! 1 = Some r ∧ rm_NormalizedURL r = "https://h/r" ∧ rm_Status r = RemoteActive ∧ rm_RemovedAtNS r = None.
Proof. split; [vm_compute; exact eq_refl|]. intros d. eexists. split; [vm_compute; exact eq_refl|]. by vm_compute. Qed.
